(** * h2sim I/O layer ([h2_io.c]): a shallow embedding and its properties

    The development follows the C source function by function.  Plain
    C [int] fields are integers of [Z]; a conversion that C performs when it
    stores a wider value in an [int] is written with [to_int].  Bytes are
    [ascii] characters and buffers are lists of them; a pointer into a
    buffer is the list of bytes it points at.  Everything the I/O layer
    gets from outside (the socket, the TLS library, the nghttp2 codec, the
    application callbacks) is an explicit argument. *)

From Stdlib Require Import ZArith Lia Ascii String.
From stdpp Require Import base option list.

Local Open Scope Z_scope.

(** ** C integers and characters *)

(** Conversion of a wider integer to a 32-bit [int]. *)
Definition to_int (z : Z) : Z := (z + 2147483648) mod 4294967296 - 2147483648.

(** The value of a character, as an unsigned byte. *)
Definition code (c : ascii) : Z := Z.of_N (N_of_ascii c).

Definition chars (s : string) : list ascii := list_ascii_of_string s.

Definition is_sp (c : ascii) : bool := (code c =? 32) || (code c =? 9).

Definition is_digit (c : ascii) : bool := (48 <=? code c) && (code c <=? 57).

(** [tolower] in the C locale. *)
Definition tolower (c : ascii) : Z :=
  if (65 <=? code c) && (code c <=? 90) then code c + 32 else code c.

(** [!strncasecmp(a, b, n)] for two spans of the same length [n]. *)
Fixpoint caseless_eq (a b : list ascii) : bool :=
  match a, b with
  | [], [] => true
  | x :: a', y :: b' => (tolower x =? tolower y) && caseless_eq a' b'
  | _, _ => false
  end.

(** ** Data model *)

Inductive http_ver_t := H2_HTTP_V1_1 | H2_HTTP_V2 | H2_HTTP_V2_TRY.

Inductive close_reason_t :=
  | CLOSE_NONE
  | CLOSE_BY_SOCK_ERR
  | CLOSE_BY_SOCK_EOF
  | CLOSE_BY_SSL_ERR
  | CLOSE_BY_NGHTTP2_ERR
  | CLOSE_BY_NGHTTP2_END
  | CLOSE_BY_HTTP_ERR
  | CLOSE_BY_HTTP_END.

(** Modelled from the spec: the message value of [h2_msg.c], which is not
    part of [h2_io.c]: single-valued pseudo headers, an ordered sequence of
    header pairs and a body. *)
Record h2_msg := {
  msg_method : option (list ascii);
  msg_scheme : option (list ascii);
  msg_authority : option (list ascii);
  msg_path : option (list ascii);
  msg_status : Z;
  msg_hdrs : list (list ascii * list ascii);
  msg_body : list ascii
}.

Definition h2_msg_empty : h2_msg :=
  {| msg_method := None; msg_scheme := None; msg_authority := None;
     msg_path := None; msg_status := 0; msg_hdrs := []; msg_body := [] |}.

(** The write buffer [h2_wr_buf]: the merge area and the borrowed span. *)
Record h2_wr_buf := {
  merge_data : list ascii;
  merge_size : Z;
  mem_send_data : option (list ascii);
  mem_send_size : Z
}.

(** A stream's body cursor [h2_read_buf]. *)
Record h2_read_buf := {
  data : list ascii;
  data_size : Z;
  data_used : Z
}.

Record h2_strm := {
  stream_id : Z;
  rmsg : h2_msg;
  response_set : bool;
  send_body_rb : h2_read_buf
}.

(** The session.  A stream pointer ([strm_sending], [strm_recving]) is the
    position of the stream in the session's list, [None] for [NULL].
    [rdata] is the memory at the pointer of that name: the bytes of the
    block and, behind [rdata_size], whatever the memory holds there.
    [rdata_fresh] is no field of the C structure: it is what the heap holds
    where [malloc] or [realloc] places the read buffer, bytes that the C
    leaves indeterminate, so a session may carry any list. *)
Record h2_sess := {
  is_server : bool;
  http_ver : http_ver_t;
  ssl : bool;
  send_pending : bool;
  is_terminated : Z;
  close_reason : close_reason_t;
  req_cnt : Z;
  rsp_cnt : Z;
  rsp_rst_cnt : Z;
  strm_close_cnt : Z;
  send_data_remain : Z;
  wr_buf : h2_wr_buf;
  strm_list : list h2_strm;
  strm_sending : option nat;
  strm_recving : option nat;
  rdata : option (list ascii);
  rdata_alloced : Z;
  rdata_size : Z;
  rdata_used : Z;
  rdata_offset : Z;
  rmsg_header_done : bool;
  rmsg_header_line : Z;
  rmsg_content_length : Z;
  rdata_fresh : list ascii
}.

(** Field updates, one per assigned field. *)
Definition set_send_pending (v : bool) (s : h2_sess) : h2_sess :=
  Build_h2_sess (is_server s) (http_ver s) (ssl s) v (is_terminated s)
    (close_reason s) (req_cnt s) (rsp_cnt s) (rsp_rst_cnt s) (strm_close_cnt s)
    (send_data_remain s) (wr_buf s) (strm_list s) (strm_sending s)
    (strm_recving s) (rdata s) (rdata_alloced s) (rdata_size s) (rdata_used s)
    (rdata_offset s) (rmsg_header_done s) (rmsg_header_line s)
    (rmsg_content_length s)
    (rdata_fresh s).

Definition set_is_terminated (v : Z) (s : h2_sess) : h2_sess :=
  Build_h2_sess (is_server s) (http_ver s) (ssl s) (send_pending s) v
    (close_reason s) (req_cnt s) (rsp_cnt s) (rsp_rst_cnt s) (strm_close_cnt s)
    (send_data_remain s) (wr_buf s) (strm_list s) (strm_sending s)
    (strm_recving s) (rdata s) (rdata_alloced s) (rdata_size s) (rdata_used s)
    (rdata_offset s) (rmsg_header_done s) (rmsg_header_line s)
    (rmsg_content_length s)
    (rdata_fresh s).

Definition set_close_reason (v : close_reason_t) (s : h2_sess) : h2_sess :=
  Build_h2_sess (is_server s) (http_ver s) (ssl s) (send_pending s)
    (is_terminated s) v (req_cnt s) (rsp_cnt s) (rsp_rst_cnt s) (strm_close_cnt s)
    (send_data_remain s) (wr_buf s) (strm_list s) (strm_sending s)
    (strm_recving s) (rdata s) (rdata_alloced s) (rdata_size s) (rdata_used s)
    (rdata_offset s) (rmsg_header_done s) (rmsg_header_line s)
    (rmsg_content_length s)
    (rdata_fresh s).

Definition set_req_cnt (v : Z) (s : h2_sess) : h2_sess :=
  Build_h2_sess (is_server s) (http_ver s) (ssl s) (send_pending s)
    (is_terminated s) (close_reason s) v (rsp_cnt s) (rsp_rst_cnt s) (strm_close_cnt s)
    (send_data_remain s) (wr_buf s) (strm_list s) (strm_sending s)
    (strm_recving s) (rdata s) (rdata_alloced s) (rdata_size s) (rdata_used s)
    (rdata_offset s) (rmsg_header_done s) (rmsg_header_line s)
    (rmsg_content_length s)
    (rdata_fresh s).

Definition set_strm_close_cnt (v : Z) (s : h2_sess) : h2_sess :=
  Build_h2_sess (is_server s) (http_ver s) (ssl s) (send_pending s)
    (is_terminated s) (close_reason s) (req_cnt s) (rsp_cnt s) (rsp_rst_cnt s) v
    (send_data_remain s) (wr_buf s) (strm_list s) (strm_sending s)
    (strm_recving s) (rdata s) (rdata_alloced s) (rdata_size s) (rdata_used s)
    (rdata_offset s) (rmsg_header_done s) (rmsg_header_line s)
    (rmsg_content_length s)
    (rdata_fresh s).

Definition set_send_data_remain (v : Z) (s : h2_sess) : h2_sess :=
  Build_h2_sess (is_server s) (http_ver s) (ssl s) (send_pending s)
    (is_terminated s) (close_reason s) (req_cnt s) (rsp_cnt s)
    (rsp_rst_cnt s) (strm_close_cnt s) v (wr_buf s) (strm_list s) (strm_sending s)
    (strm_recving s) (rdata s) (rdata_alloced s) (rdata_size s) (rdata_used s)
    (rdata_offset s) (rmsg_header_done s) (rmsg_header_line s)
    (rmsg_content_length s)
    (rdata_fresh s).

Definition set_wr_buf (v : h2_wr_buf) (s : h2_sess) : h2_sess :=
  Build_h2_sess (is_server s) (http_ver s) (ssl s) (send_pending s)
    (is_terminated s) (close_reason s) (req_cnt s) (rsp_cnt s)
    (rsp_rst_cnt s) (strm_close_cnt s) (send_data_remain s) v (strm_list s) (strm_sending s)
    (strm_recving s) (rdata s) (rdata_alloced s) (rdata_size s) (rdata_used s)
    (rdata_offset s) (rmsg_header_done s) (rmsg_header_line s)
    (rmsg_content_length s)
    (rdata_fresh s).

Definition set_strm_list (v : list h2_strm) (s : h2_sess) : h2_sess :=
  Build_h2_sess (is_server s) (http_ver s) (ssl s) (send_pending s)
    (is_terminated s) (close_reason s) (req_cnt s) (rsp_cnt s)
    (rsp_rst_cnt s) (strm_close_cnt s) (send_data_remain s) (wr_buf s) v (strm_sending s)
    (strm_recving s) (rdata s) (rdata_alloced s) (rdata_size s) (rdata_used s)
    (rdata_offset s) (rmsg_header_done s) (rmsg_header_line s)
    (rmsg_content_length s)
    (rdata_fresh s).

Definition set_strm_sending (v : option nat) (s : h2_sess) : h2_sess :=
  Build_h2_sess (is_server s) (http_ver s) (ssl s) (send_pending s)
    (is_terminated s) (close_reason s) (req_cnt s) (rsp_cnt s)
    (rsp_rst_cnt s) (strm_close_cnt s) (send_data_remain s) (wr_buf s) (strm_list s) v
    (strm_recving s) (rdata s) (rdata_alloced s) (rdata_size s) (rdata_used s)
    (rdata_offset s) (rmsg_header_done s) (rmsg_header_line s)
    (rmsg_content_length s)
    (rdata_fresh s).

Definition set_strm_recving (v : option nat) (s : h2_sess) : h2_sess :=
  Build_h2_sess (is_server s) (http_ver s) (ssl s) (send_pending s)
    (is_terminated s) (close_reason s) (req_cnt s) (rsp_cnt s)
    (rsp_rst_cnt s) (strm_close_cnt s) (send_data_remain s) (wr_buf s) (strm_list s)
    (strm_sending s) v (rdata s) (rdata_alloced s) (rdata_size s)
    (rdata_used s) (rdata_offset s) (rmsg_header_done s) (rmsg_header_line s)
    (rmsg_content_length s)
    (rdata_fresh s).

(** The five read-buffer fields are assigned together. *)
Definition set_rd (d : option (list ascii)) (alloced size used offset : Z)
    (s : h2_sess) : h2_sess :=
  Build_h2_sess (is_server s) (http_ver s) (ssl s) (send_pending s)
    (is_terminated s) (close_reason s) (req_cnt s) (rsp_cnt s)
    (rsp_rst_cnt s) (strm_close_cnt s) (send_data_remain s) (wr_buf s) (strm_list s)
    (strm_sending s) (strm_recving s) d alloced size used offset
    (rmsg_header_done s) (rmsg_header_line s) (rmsg_content_length s)
    (rdata_fresh s).

Definition set_rdata_used (v : Z) (s : h2_sess) : h2_sess :=
  set_rd (rdata s) (rdata_alloced s) (rdata_size s) v (rdata_offset s) s.

(** The three parse-state fields of the message being received. *)
Definition set_rmsg_state (done : bool) (line clen : Z) (s : h2_sess)
    : h2_sess :=
  Build_h2_sess (is_server s) (http_ver s) (ssl s) (send_pending s)
    (is_terminated s) (close_reason s) (req_cnt s) (rsp_cnt s)
    (rsp_rst_cnt s) (strm_close_cnt s) (send_data_remain s) (wr_buf s) (strm_list s)
    (strm_sending s) (strm_recving s) (rdata s) (rdata_alloced s)
    (rdata_size s) (rdata_used s) (rdata_offset s) done line clen
    (rdata_fresh s).

Definition set_rmsg_header_done (v : bool) (s : h2_sess) : h2_sess :=
  set_rmsg_state v (rmsg_header_line s) (rmsg_content_length s) s.

Definition set_rmsg_header_line (v : Z) (s : h2_sess) : h2_sess :=
  set_rmsg_state (rmsg_header_done s) v (rmsg_content_length s) s.

Definition set_rmsg_content_length (v : Z) (s : h2_sess) : h2_sess :=
  set_rmsg_state (rmsg_header_done s) (rmsg_header_line s) v s.

(** A session as [calloc] and [h2_sess_init_client] / [h2_sess_init_server]
    leave it: every counter, flag and buffer zero, on a heap of which no
    byte is known. *)
Definition h2_sess_init (server : bool) (ver : http_ver_t) (tls : bool)
    : h2_sess :=
  {| is_server := server; http_ver := ver; ssl := tls;
     send_pending := false; is_terminated := 0; close_reason := CLOSE_NONE;
     req_cnt := 0; rsp_cnt := 0; rsp_rst_cnt := 0; strm_close_cnt := 0; send_data_remain := 0;
     wr_buf := {| merge_data := []; merge_size := 0;
                  mem_send_data := None; mem_send_size := 0 |};
     strm_list := []; strm_sending := None; strm_recving := None;
     rdata := None; rdata_alloced := 0; rdata_size := 0; rdata_used := 0;
     rdata_offset := 0; rmsg_header_done := false; rmsg_header_line := 0;
     rmsg_content_length := 0; rdata_fresh := [] |}.

(** ** The outside world of a session *)

Inductive errno_t := EAGAIN | EWOULDBLOCK | EINTR | EOTHER.

Inductive ssl_error_t := SSL_ERROR_WANT_WRITE | SSL_ERROR_OTHER.

(** What one call of [SSL_write] or [send] answers: the returned value, and
    the [errno] or [SSL_get_error] that goes with a non-positive one. *)
Record wr_outcome := {
  wr_ret : Z;
  wr_errno : errno_t;
  wr_ssl_error : ssl_error_t
}.

(** What one call of [nghttp2_session_mem_send] answers. *)
Record mem_send_res := {
  ms_size : Z;
  ms_data : list ascii
}.

(** Identifiers of [nghttp2.h] for the entries of a SETTINGS frame. *)
Inductive settings_id :=
  | NGHTTP2_SETTINGS_HEADER_TABLE_SIZE
  | NGHTTP2_SETTINGS_ENABLE_PUSH
  | NGHTTP2_SETTINGS_MAX_CONCURRENT_STREAMS
  | NGHTTP2_SETTINGS_INITIAL_WINDOW_SIZE
  | NGHTTP2_SETTINGS_MAX_FRAME_SIZE
  | NGHTTP2_SETTINGS_MAX_HEADER_LIST_SIZE
  | NGHTTP2_SETTINGS_ENABLE_CONNECT_PROTOCOL.

(** [nghttp2_settings_entry]. *)
Record settings_entry := {
  settings_id_of : settings_id;
  value : Z
}.

(** Constants of [<sys/socket.h>] and [<openssl/ssl.h>]. *)
Definition SHUT_RD : Z := 0.
Definition SHUT_WR : Z := 1.
Definition SSL_SENT_SHUTDOWN : Z := 1.
Definition SSL_RECEIVED_SHUTDOWN : Z := 2.

(** Calls made to the transport and to the codec, in order:
    [shutdown(fd, how)], [SSL_set_shutdown(ssl, mode)] followed by
    [SSL_shutdown(ssl)], [nghttp2_session_terminate_session] and
    [nghttp2_submit_settings]. *)
Inductive io_event :=
  | EvShutdown (how : Z)
  | EvSslShutdown (mode : Z)
  | EvNgTerminate
  | EvNgSubmitSettings (iv : list settings_entry).

(** The world: the answers the codec and the transport will give to the
    coming calls, and the calls made so far.  A codec with no answer left
    has nothing to send; a transport with no answer left would block. *)
Record io_world := {
  ng_mem_send : list mem_send_res;
  ng_want_read : bool;
  ng_terminate_ret : Z;
  ng_submit_ret : Z;
  wr_results : list wr_outcome;
  io_log : list io_event
}.

Definition set_ng_mem_send (q : list mem_send_res) (w : io_world) : io_world :=
  Build_io_world q (ng_want_read w) (ng_terminate_ret w) (ng_submit_ret w)
    (wr_results w) (io_log w).

Definition set_wr_results (l : list wr_outcome) (w : io_world) : io_world :=
  Build_io_world (ng_mem_send w) (ng_want_read w) (ng_terminate_ret w)
    (ng_submit_ret w) l (io_log w).

Definition io_emit (e : io_event) (w : io_world) : io_world :=
  Build_io_world (ng_mem_send w) (ng_want_read w) (ng_terminate_ret w)
    (ng_submit_ret w) (wr_results w) (io_log w ++ [e]).

Definition would_block : wr_outcome :=
  {| wr_ret := -1; wr_errno := EAGAIN; wr_ssl_error := SSL_ERROR_WANT_WRITE |}.

Definition io_write (w : io_world) : wr_outcome * io_world :=
  match wr_results w with
  | [] => (would_block, w)
  | o :: l => (o, set_wr_results l w)
  end.

(** ** Session send (lines 101-322, 672-882) *)

Definition h2_sess_mark_send_pending (s : h2_sess) : h2_sess :=
  if send_pending s then s else set_send_pending true s.

Definition h2_sess_clear_send_pending (s : h2_sess) : h2_sess :=
  if send_pending s then set_send_pending false s else s.

(** One attempt to write [to_send] bytes.  With TLS a positive result
    counts as the whole span; on TCP [send]'s result goes to [int sent].
    [intr_retry] tells whether [EINTR] is among the retried errors, and
    [tcp_fail] is the value returned on another socket error. *)
Inductive wr_try :=
  | WrSent (sent : Z)
  | WrBlocked
  | WrFailed (r : Z) (why : close_reason_t).

Definition try_write (tls intr_retry : bool) (tcp_fail to_send : Z)
    (o : wr_outcome) : wr_try :=
  if tls then
    if 0 <? wr_ret o then WrSent to_send
    else match wr_ssl_error o with
         | SSL_ERROR_WANT_WRITE => WrBlocked
         | SSL_ERROR_OTHER => WrFailed (-2) CLOSE_BY_SSL_ERR
         end
  else
    let sent := to_int (wr_ret o) in
    if sent <=? 0 then
      match wr_errno o with
      | EAGAIN | EWOULDBLOCK => WrBlocked
      | EINTR =>
          if intr_retry then WrBlocked else WrFailed tcp_fail CLOSE_BY_SOCK_ERR
      | EOTHER => WrFailed tcp_fail CLOSE_BY_SOCK_ERR
      end
    else WrSent sent.

(** Either the function returns, or control goes on with a value. *)
Inductive flow (R A : Type) :=
  | Return (r : R)
  | Next (a : A).
Arguments Return {R A} r.
Arguments Next {R A} a.

(** [sess->send_data_remain -= sent], which only the HTTP/1.1 variant has. *)
Definition account_sent (v1_1 : bool) (sent : Z) (s : h2_sess) : h2_sess :=
  if v1_1 then set_send_data_remain (send_data_remain s - sent) s else s.

(** "try to send merge_data once" (lines 180-231 and 759-811). *)
Definition send_merge_data (v1_1 : bool) (s : h2_sess) (w : io_world)
    : flow (Z * h2_sess * io_world) (Z * h2_sess * io_world) :=
  let wb := wr_buf s in
  if 0 <? merge_size wb then
    let '(o, w) := io_write w in
    match try_write (ssl s) true (-3) (merge_size wb) o with
    | WrBlocked => Return (0, h2_sess_mark_send_pending s, w)
    | WrFailed r why => Return (r, set_close_reason why s, w)
    | WrSent sent =>
        let total_sent := 0 + sent in
        let s := account_sent v1_1 sent s in
        if sent <? merge_size wb then
          let wb' :=
            {| merge_data :=
                 drop (Z.to_nat sent)
                      (take (Z.to_nat (merge_size wb)) (merge_data wb));
               merge_size := merge_size wb - sent;
               mem_send_data := mem_send_data wb;
               mem_send_size := mem_send_size wb |} in
          Return (total_sent, h2_sess_mark_send_pending (set_wr_buf wb' s), w)
        else
          let wb' :=
            {| merge_data := merge_data wb; merge_size := 0;
               mem_send_data := mem_send_data wb;
               mem_send_size := mem_send_size wb |} in
          Next (total_sent, set_wr_buf wb' s, w)
    end
  else Next (0, s, w).

(** "try to send mem_send_data once" (lines 234-286 and 814-869). *)
Definition send_mem_send_data (v1_1 : bool) (total_sent : Z) (s : h2_sess)
    (w : io_world)
    : flow (Z * h2_sess * io_world) (Z * h2_sess * io_world) :=
  let wb := wr_buf s in
  if negb (mem_send_size wb =? 0) then
    let '(o, w) := io_write w in
    match try_write (ssl s) false (-5) (mem_send_size wb) o with
    | WrBlocked => Return (total_sent, h2_sess_mark_send_pending s, w)
    | WrFailed r why => Return (r, set_close_reason why s, w)
    | WrSent sent =>
        let total_sent := total_sent + sent in
        let s := account_sent v1_1 sent s in
        if sent <? mem_send_size wb then
          let wb' :=
            {| merge_data := merge_data wb; merge_size := merge_size wb;
               mem_send_data := drop (Z.to_nat sent) <$> mem_send_data wb;
               mem_send_size := mem_send_size wb - sent |} in
          Return (total_sent, h2_sess_mark_send_pending (set_wr_buf wb' s), w)
        else
          let wb' :=
            {| merge_data := merge_data wb; merge_size := merge_size wb;
               mem_send_data := None; mem_send_size := 0 |} in
          Next (total_sent, set_wr_buf wb' s, w)
    end
  else Next (total_sent, s, w).

(** The part the two variants share, after the write buffer is filled:
    both writes, then the clearing of [send_pending] when nothing was sent.
    [end_check] is the [EPOLL_MODE] test of lines 298-303, which only the
    HTTP/2 variant has. *)
Definition send_bufs (v1_1 end_check : bool) (s : h2_sess) (w : io_world)
    : Z * h2_sess * io_world :=
  match send_merge_data v1_1 s w with
  | Return r => r
  | Next (total_sent, s, w) =>
      match send_mem_send_data v1_1 total_sent s w with
      | Return r => r
      | Next (total_sent, s, w) =>
          let s :=
            if total_sent =? 0 then h2_sess_clear_send_pending s else s in
          if end_check && negb (ng_want_read w) then
            (-6, set_close_reason CLOSE_BY_NGHTTP2_END s, w)
          else (total_sent, s, w)
      end
  end.

(** Appending a span to the merge area ([memcpy] at [merge_size]). *)
Definition wb_merge (src : list ascii) (n : Z) (wb : h2_wr_buf) : h2_wr_buf :=
  {| merge_data :=
       take (Z.to_nat (merge_size wb)) (merge_data wb)
       ++ take (Z.to_nat n) src;
     merge_size := merge_size wb + n;
     mem_send_data := mem_send_data wb;
     mem_send_size := mem_send_size wb |}.

(** Keeping a span as the borrowed tail. *)
Definition wb_borrow (src : list ascii) (n : Z) (wb : h2_wr_buf) : h2_wr_buf :=
  {| merge_data := merge_data wb; merge_size := merge_size wb;
     mem_send_data := Some src; mem_send_size := n |}.

Inductive fill_res :=
  | FillErr (wb : h2_wr_buf) (q : list mem_send_res)
  | FillDone (wb : h2_wr_buf) (q : list mem_send_res) (mem_send_zero : bool).

Section SendPath.

(** Constants of [h2_priv.h], which is not part of [h2_io.c]:
    [H2_WR_BUF_SIZE], [sizeof(wb->merge_data)], and whether the library was
    built with [EPOLL_MODE]. *)
Variable H2_WR_BUF_SIZE : Z.
Variable sizeof_merge_data : Z.
Variable EPOLL_MODE : bool.

(** The loop of lines 144-174, one codec answer per turn. *)
Fixpoint fill_v2 (q : list mem_send_res) (wb : h2_wr_buf) : fill_res :=
  if (mem_send_size wb <=? 0) && (merge_size wb <? H2_WR_BUF_SIZE) then
    match q with
    | [] => FillDone wb [] true
    | m :: q' =>
        if ms_size m <? 0 then FillErr wb q'
        else if ms_size m =? 0 then FillDone wb q' true
        else if merge_size wb + ms_size m <=? to_int sizeof_merge_data then
          fill_v2 q' (wb_merge (ms_data m) (ms_size m) wb)
        else FillDone (wb_borrow (ms_data m) (ms_size m) wb) q' false
    end
  else FillDone wb q false.

Definition h2_sess_send_once_v2 (s : h2_sess) (w : io_world)
    : Z * h2_sess * io_world :=
  match fill_v2 (ng_mem_send w) (wr_buf s) with
  | FillErr wb q =>
      (-1, set_close_reason CLOSE_BY_NGHTTP2_ERR (set_wr_buf wb s),
       set_ng_mem_send q w)
  | FillDone wb q mem_send_zero =>
      send_bufs false (EPOLL_MODE && mem_send_zero) (set_wr_buf wb s)
        (set_ng_mem_send q w)
  end.

End SendPath.

(** Modelled from the spec: [h2_strm_free] of [h2_sess.c], which is not part
    of [h2_io.c].  It unlinks the stream from the session's first-in
    first-out list; a pointer to a later stream follows that stream, and a
    pointer to the freed stream itself is cleared. *)
Definition ptr_after_free (i : nat) (p : option nat) : option nat :=
  match p with
  | None => None
  | Some k =>
      if (k <? i)%nat then Some k
      else if (k =? i)%nat then None
      else Some (Nat.pred k)
  end.

Definition h2_strm_free (i : nat) (s : h2_sess) : h2_sess :=
  set_strm_recving (ptr_after_free i (strm_recving s))
    (set_strm_sending (ptr_after_free i (strm_sending s))
       (set_strm_list (delete i (strm_list s)) s)).

Definition rb_drained (rb : h2_read_buf) : bool :=
  data_size rb <=? data_used rb.

(** [rb->data + rb->data_used] and [rb->data_size - rb->data_used]. *)
Definition rb_unsent (rb : h2_read_buf) : list ascii * Z :=
  (drop (Z.to_nat (data_used rb)) (data rb), data_size rb - data_used rb).

(** [rb->data_used = rb->data_size] on a stream's send cursor. *)
Definition strm_mark_sent (strm : h2_strm) : h2_strm :=
  let rb := send_body_rb strm in
  {| stream_id := stream_id strm; rmsg := rmsg strm;
     response_set := response_set strm;
     send_body_rb := {| data := data rb; data_size := data_size rb;
                        data_used := data_size rb |} |}.

(** Server side (lines 697-718): [l] is the walk from the list head; every
    stream met before the current one has been freed, so the current one
    is the head of the session's list. *)
Fixpoint flush_sent (l : list h2_strm) (s : h2_sess)
    : h2_sess * (list ascii * Z) :=
  match l with
  | [] => (s, ([], 0))
  | strm :: strm_next =>
      if response_set strm then
        if rb_drained (send_body_rb strm) then
          flush_sent strm_next
            (set_strm_close_cnt (strm_close_cnt (h2_strm_free 0 s) + 1)
               (h2_strm_free 0 s))
        else
          (set_strm_list (<[0%nat := strm_mark_sent strm]> (strm_list s)) s,
           rb_unsent (send_body_rb strm))
      else (s, ([], 0))
  end.

(** Client side (lines 723-733): [l] is the walk from [strm_sending], the
    stream at position [i]. *)
Fixpoint walk_sending (l : list h2_strm) (i : nat) (s : h2_sess)
    : h2_sess * (list ascii * Z) :=
  match l with
  | [] => (set_strm_sending None s, ([], 0))
  | strm :: strm_next =>
      if rb_drained (send_body_rb strm) then walk_sending strm_next (S i) s
      else
        (set_strm_list (<[i := strm_mark_sent strm]> (strm_list s))
           (set_strm_sending (Some i) s),
         rb_unsent (send_body_rb strm))
  end.

(** Lines 695-734: the next unsent body slice, [([], 0)] when there is
    none. *)
Definition next_strm_data (s : h2_sess) : h2_sess * (list ascii * Z) :=
  if is_server s then flush_sent (strm_list s) s
  else
    let i := match strm_sending s with
             | None => 0%nat
             | Some i => i
             end in
    walk_sending (drop i (strm_list s)) i s.

Section SendPathV1.

Variable H2_WR_BUF_SIZE : Z.
Variable sizeof_merge_data : Z.

(** The loop of lines 688-753.  Each turn that goes round again has taken
    the data of one more stream, so [fuel] beyond the number of streams is
    never used up (lemma [fill_v1_1_fuel] below). *)
Fixpoint fill_v1_1 (fuel : nat) (s : h2_sess) : h2_sess :=
  if (mem_send_size (wr_buf s) <=? 0)
     && (merge_size (wr_buf s) <? H2_WR_BUF_SIZE) then
    match fuel with
    | O => s
    | S fuel' =>
        let '(s, (strm_send_data, strm_send_size)) := next_strm_data s in
        if strm_send_size =? 0 then s
        else if merge_size (wr_buf s) + strm_send_size
                <=? to_int sizeof_merge_data then
          fill_v1_1 fuel'
            (set_wr_buf (wb_merge strm_send_data strm_send_size (wr_buf s)) s)
        else
          set_wr_buf (wb_borrow strm_send_data strm_send_size (wr_buf s)) s
    end
  else s.

Definition h2_sess_send_once_v1_1 (s : h2_sess) (w : io_world)
    : Z * h2_sess * io_world :=
  send_bufs true false (fill_v1_1 (S (length (strm_list s))) s) w.

End SendPathV1.

(** ** [h2_sess_send] (lines 308-322) *)

(** Bytes still to be written: the write buffer, what the codec will hand
    out (HTTP/2) and the unsent stream bodies (HTTP/1.1).  A send step that
    returns a positive count lowers it, which bounds the loop. *)
Definition wb_pending (wb : h2_wr_buf) : nat :=
  (Z.to_nat (merge_size wb) + Z.to_nat (mem_send_size wb)
   + if (mem_send_size wb <? 0)%Z then 1 else 0)%nat.

Definition queue_backlog (q : list mem_send_res) : nat :=
  sum_list_with (fun m => Z.to_nat (ms_size m)) q.

Definition strm_backlog (l : list h2_strm) : nat :=
  sum_list_with
    (fun strm => Z.to_nat (data_size (send_body_rb strm)
                           - data_used (send_body_rb strm))) l.

Definition send_backlog (s : h2_sess) (w : io_world) : nat :=
  (wb_pending (wr_buf s) + queue_backlog (ng_mem_send w)
   + strm_backlog (strm_list s))%nat.

Section Send.

Variable H2_WR_BUF_SIZE : Z.
Variable sizeof_merge_data : Z.
Variable EPOLL_MODE : bool.

Definition send_once (v2 : bool) (s : h2_sess) (w : io_world)
    : Z * h2_sess * io_world :=
  if v2 then h2_sess_send_once_v2 H2_WR_BUF_SIZE sizeof_merge_data EPOLL_MODE s w
  else h2_sess_send_once_v1_1 H2_WR_BUF_SIZE sizeof_merge_data s w.

(** [do { r = send_once(sess); } while (r > 0);] *)
Fixpoint send_loop (fuel : nat) (v2 : bool) (s : h2_sess) (w : io_world)
    : Z * h2_sess * io_world :=
  let '(r, s', w') := send_once v2 s w in
  if 0 <? r then
    match fuel with
    | O => (r, s', w')
    | S fuel' => send_loop fuel' v2 s' w'
    end
  else (r, s', w').

Definition is_v2 (s : h2_sess) : bool :=
  match http_ver s with
  | H2_HTTP_V2 => true
  | _ => false
  end.

Definition h2_sess_send (s : h2_sess) (w : io_world)
    : Z * h2_sess * io_world :=
  send_loop (send_backlog s w) (is_v2 s) s w.

End Send.

(** ** Settings (lines 386-442) *)

Record h2_settings := {
  header_table_size : Z;
  enable_push : Z;
  max_concurrent_streams : Z;
  initial_window_size : Z;
  max_frame_size : Z;
  max_header_list_size : Z;
  enable_connect_protocol : Z
}.

Definition h2_settings_init : h2_settings :=
  {| header_table_size := -1; enable_push := -1;
     max_concurrent_streams := -1; initial_window_size := -1;
     max_frame_size := -1; max_header_list_size := -1;
     enable_connect_protocol := -1 |}.

(** One [if (settings->field >= 0) { iv[iv_num].settings_id = id;
    iv[iv_num++].value = settings->field; }]. *)
Definition iv_add (id : settings_id) (v : Z) (iv : list settings_entry)
    : list settings_entry :=
  if 0 <=? v then iv ++ [{| settings_id_of := id; value := v |}] else iv.

(** The entries gathered by lines 405-434; [None] is a [NULL] pointer. *)
Definition settings_iv (settings : option h2_settings) : list settings_entry :=
  match settings with
  | None => []
  | Some st =>
      iv_add NGHTTP2_SETTINGS_ENABLE_CONNECT_PROTOCOL (enable_connect_protocol st)
        (iv_add NGHTTP2_SETTINGS_MAX_HEADER_LIST_SIZE (max_header_list_size st)
          (iv_add NGHTTP2_SETTINGS_MAX_FRAME_SIZE (max_frame_size st)
            (iv_add NGHTTP2_SETTINGS_INITIAL_WINDOW_SIZE (initial_window_size st)
              (iv_add NGHTTP2_SETTINGS_MAX_CONCURRENT_STREAMS
                 (max_concurrent_streams st)
                (iv_add NGHTTP2_SETTINGS_ENABLE_PUSH (enable_push st)
                  (iv_add NGHTTP2_SETTINGS_HEADER_TABLE_SIZE
                     (header_table_size st) []))))))
  end.

Section Settings.

Variable H2_WR_BUF_SIZE : Z.
Variable sizeof_merge_data : Z.
Variable EPOLL_MODE : bool.

Definition h2_sess_send_settings (s : h2_sess) (settings : option h2_settings)
    (w : io_world) : Z * h2_sess * io_world :=
  if negb (is_v2 s) then (0, s, w)
  else
    let w := io_emit (EvNgSubmitSettings (settings_iv settings)) w in
    if negb (ng_submit_ret w =? 0) then (-1, s, w)
    else h2_sess_send H2_WR_BUF_SIZE sizeof_merge_data EPOLL_MODE s w.

End Settings.

(** ** Session termination (lines 977-1037) *)

(** [sess] is [None] for a [NULL] pointer. *)
Definition h2_sess_terminate (sess : option h2_sess) (wait_rsp : Z)
    (w : io_world) : Z * option h2_sess * io_world :=
  match sess with
  | None => (1, None, w)
  | Some s =>
      if is_terminated s =? 1 then (1, Some s, w)
      else if negb (wait_rsp =? 0) && negb (is_server s)
              && (rsp_cnt s <? req_cnt s) then
        let s := set_is_terminated 2 s in
        if is_v2 s then (0, Some s, w)
        else if ssl s then
          (0, Some s, io_emit (EvSslShutdown SSL_SENT_SHUTDOWN) w)
        else (0, Some s, io_emit (EvShutdown SHUT_WR) w)
      else
        let s := set_is_terminated 1 s in
        if is_v2 s then
          let w := io_emit EvNgTerminate w in
          if ng_terminate_ret w <? 0 then (-1, Some s, w)
          else (0, Some (h2_sess_mark_send_pending s), w)
        else if ssl s then
          (0, Some (h2_sess_mark_send_pending s),
           io_emit (EvSslShutdown
                      (Z.lor SSL_SENT_SHUTDOWN SSL_RECEIVED_SHUTDOWN)) w)
        else
          (0, Some (h2_sess_mark_send_pending s),
           io_emit (EvShutdown (Z.lor SHUT_WR SHUT_RD)) w)
  end.

(** ** HTTP/1.1 receive (lines 449-670) *)

Definition LF : ascii := "010"%char.
Definition CR : ascii := "013"%char.
Definition COLON : ascii := ":"%char.

Definition is_lf (c : ascii) : bool := code c =? 10.
Definition is_cr (c : ascii) : bool := code c =? 13.
Definition is_colon (c : ascii) : bool := code c =? 58.

(** The longest prefix whose characters all satisfy [f], and what follows
    it. *)
Fixpoint take_while (f : ascii -> bool) (l : list ascii) : list ascii :=
  match l with
  | [] => []
  | c :: l' => if f c then c :: take_while f l' else []
  end.

Fixpoint drop_while (f : ascii -> bool) (l : list ascii) : list ascii :=
  match l with
  | [] => []
  | c :: l' => if f c then drop_while f l' else l
  end.

(** Modelled from the spec: the message helpers of [h2_msg.c], which is not
    part of [h2_io.c].  A setter gives the pseudo header its value,
    [h2_add_hdr_n] appends a pair to the ordered header sequence,
    [h2_cpy_body] copies [n] bytes as the body and [h2_body_len] is the
    length of the body. *)
Definition h2_set_method_n (v : list ascii) (m : h2_msg) : h2_msg :=
  {| msg_method := Some v; msg_scheme := msg_scheme m;
     msg_authority := msg_authority m; msg_path := msg_path m;
     msg_status := msg_status m; msg_hdrs := msg_hdrs m;
     msg_body := msg_body m |}.

Definition h2_set_scheme (v : list ascii) (m : h2_msg) : h2_msg :=
  {| msg_method := msg_method m; msg_scheme := Some v;
     msg_authority := msg_authority m; msg_path := msg_path m;
     msg_status := msg_status m; msg_hdrs := msg_hdrs m;
     msg_body := msg_body m |}.

Definition h2_set_authority_n (v : list ascii) (m : h2_msg) : h2_msg :=
  {| msg_method := msg_method m; msg_scheme := msg_scheme m;
     msg_authority := Some v; msg_path := msg_path m;
     msg_status := msg_status m; msg_hdrs := msg_hdrs m;
     msg_body := msg_body m |}.

Definition h2_set_path_n (v : list ascii) (m : h2_msg) : h2_msg :=
  {| msg_method := msg_method m; msg_scheme := msg_scheme m;
     msg_authority := msg_authority m; msg_path := Some v;
     msg_status := msg_status m; msg_hdrs := msg_hdrs m;
     msg_body := msg_body m |}.

Definition h2_set_status (v : Z) (m : h2_msg) : h2_msg :=
  {| msg_method := msg_method m; msg_scheme := msg_scheme m;
     msg_authority := msg_authority m; msg_path := msg_path m;
     msg_status := v; msg_hdrs := msg_hdrs m; msg_body := msg_body m |}.

Definition h2_add_hdr_n (name val : list ascii) (m : h2_msg) : h2_msg :=
  {| msg_method := msg_method m; msg_scheme := msg_scheme m;
     msg_authority := msg_authority m; msg_path := msg_path m;
     msg_status := msg_status m; msg_hdrs := msg_hdrs m ++ [(name, val)];
     msg_body := msg_body m |}.

Definition h2_cpy_body (src : list ascii) (n : Z) (m : h2_msg) : h2_msg :=
  {| msg_method := msg_method m; msg_scheme := msg_scheme m;
     msg_authority := msg_authority m; msg_path := msg_path m;
     msg_status := msg_status m; msg_hdrs := msg_hdrs m;
     msg_body := take (Z.to_nat n) src |}.

Definition h2_body_len (m : h2_msg) : Z := Z.of_nat (length (msg_body m)).

(** Modelled from the spec: [h2_strm_init] of [h2_sess.c], which is not part
    of [h2_io.c]: a new stream with the given identifier and an empty
    message, linked at the tail of the session's list.  The result is the
    session and the pointer to the new stream. *)
Definition h2_strm_init (id : Z) (s : h2_sess) : h2_sess * nat :=
  let strm :=
    {| stream_id := id; rmsg := h2_msg_empty; response_set := false;
       send_body_rb := {| data := []; data_size := 0; data_used := 0 |} |} in
  (set_strm_list (strm_list s ++ [strm]) s, length (strm_list s)).

(** [atoi]: white space, an optional sign, then decimal digits; the value
    goes through [long] ([strtol] saturates) to [int]. *)
Definition is_space (c : ascii) : bool :=
  (code c =? 32) || ((9 <=? code c) && (code c <=? 13)).

Fixpoint atoi_digits (acc : Z) (l : list ascii) : Z :=
  match l with
  | [] => acc
  | c :: l' =>
      if is_digit c then atoi_digits (10 * acc + (code c - 48)) l' else acc
  end.

Definition LONG_MAX : Z := 9223372036854775807.

Definition atoi (l : list ascii) : Z :=
  let l := drop_while is_space l in
  let v :=
    match l with
    | c :: l' =>
        if code c =? 45 then - atoi_digits 0 l'
        else if code c =? 43 then atoi_digits 0 l'
        else atoi_digits 0 l
    | [] => 0
    end in
  to_int (Z.max (- LONG_MAX - 1) (Z.min LONG_MAX v)).

(** The line without the ['\r'] that may end it (lines 483-487). *)
Definition chomp_cr (raw : list ascii) : list ascii :=
  match reverse raw with
  | c :: r => if is_cr c then reverse r else raw
  | [] => raw
  end.

(** Moving [end] back over spaces and tabs while [end >= base + min_len]
    (lines 507-510 and 553-555), on the span reversed and on the span. *)
Fixpoint rstrip_rev (min_len : nat) (r : list ascii) : list ascii :=
  match r with
  | c :: r' =>
      if (min_len <=? length r)%nat && is_sp c then rstrip_rev min_len r'
      else r
  | [] => []
  end.

Definition rstrip (min_len : nat) (l : list ascii) : list ascii :=
  reverse (rstrip_rev min_len (reverse l)).

(** [!memcmp(a, b, n)] for two spans of the same length [n]. *)
Fixpoint mem_eq (a b : list ascii) : bool :=
  match a, b with
  | [], [] => true
  | x :: a', y :: b' => (code x =? code y) && mem_eq a' b'
  | _, _ => false
  end.

(** Request-Line (lines 497-522): the method and the path, or [None] for
    the parse failure. *)
Definition parse_request_line (line : list ascii)
    : option (list ascii * list ascii) :=
  let n := length line in
  if (1 + 1 + 1 + 1 + 8 <=? n)%nat
     && mem_eq (drop (n - 8) line) (chars "HTTP/1.1") then
    let l := rstrip (1 + 1 + 1) (take (n - 8) line) in
    let method := take_while (fun c => negb (is_sp c)) l in
    let rest := drop_while (fun c => negb (is_sp c)) l in
    Some (method, drop_while is_sp rest)
  else None.

(** Status-Line (lines 524-540): the status, or [None] for the parse
    failure. *)
Definition parse_status_line (line : list ascii) : option Z :=
  match line with
  | q0 :: q1 :: q2 :: tl =>
      if (49 <=? code q0) && (code q0 <=? 53)
         && (48 <=? code q1) && (code q1 <=? 57)
         && (48 <=? code q2) && (code q2 <=? 57)
         && match tl with
            | [] => true
            | q3 :: _ => is_sp q3
            end
      then Some ((code q0 - 48) * 100 + (code q1 - 48) * 10
                 + (code q2 - 48) * 1)
      else None
  | _ => None
  end.

(** What a header line does (lines 545-567). *)
Inductive hdr_action :=
  | HdrAuthority (val : list ascii)
  | HdrContentLength (n : Z)
  | HdrAdd (name val : list ascii).

(** message-header (lines 543-572).  [line] is the line without its
    terminator and [after] the bytes of the memory that follow the line:
    [atoi] is given the pointer [value] and reads on from there, with no
    regard to the end of the line or of the buffered bytes. *)
Definition parse_header_line (server : bool) (line after : list ascii)
    : option hdr_action :=
  let name := take_while (fun c => negb (is_colon c)) line in
  match drop_while (fun c => negb (is_colon c)) line with
  | [] => None
  | _ :: after_colon =>
      let val := drop_while is_sp after_colon in
      let trimmed := rstrip 1 val in
      if (length name =? 4)%nat && caseless_eq name (chars "host") && server
      then Some (HdrAuthority trimmed)
      else if (length name =? 14)%nat
              && caseless_eq name (chars "content-length")
      then Some (HdrContentLength (atoi (val ++ after)))
      else Some (HdrAdd name trimmed)
  end.

(** The unread bytes [rdata + rdata_used .. rdata + rdata_size), and the
    bytes that the memory holds behind them, from [rdata + rdata_size] on:
    bytes of earlier reads that were not overwritten, or bytes that were
    never written. *)
Definition rd_unread (s : h2_sess) : list ascii :=
  drop (Z.to_nat (rdata_used s))
       (take (Z.to_nat (rdata_size s)) (default [] (rdata s))).

Definition rd_behind (s : h2_sess) : list ascii :=
  drop (Z.to_nat (rdata_size s)) (default [] (rdata s)).

(** The message [sess->strm_recving->rmsg], read and updated in place. *)
Definition set_rmsg (m : h2_msg) (strm : h2_strm) : h2_strm :=
  {| stream_id := stream_id strm; rmsg := m;
     response_set := response_set strm; send_body_rb := send_body_rb strm |}.

Definition recving_rmsg (s : h2_sess) : h2_msg :=
  match strm_recving s with
  | Some i => default h2_msg_empty (rmsg <$> strm_list s !! i)
  | None => h2_msg_empty
  end.

Definition upd_rmsg (f : h2_msg -> h2_msg) (s : h2_sess) : h2_sess :=
  match strm_recving s with
  | Some i =>
      set_strm_list
        (alter (fun strm => set_rmsg (f (rmsg strm)) strm) i (strm_list s)) s
  | None => s
  end.

(** The lines that [memchr(p, '\n', limit - p)] finds one after the other:
    each line without its ['\n'], with the bytes that follow the ['\n'].
    [acc] holds the bytes of the current line, last first. *)
Fixpoint split_lines (acc buf : list ascii) : list (list ascii * list ascii) :=
  match buf with
  | [] => []
  | c :: rest =>
      if is_lf c then (reverse acc, rest) :: split_lines [] rest
      else split_lines (c :: acc) rest
  end.

Inductive line_res :=
  | LineFail (r : Z)
  | LineEnd (s : h2_sess)
  | LineNext (s : h2_sess).

(** The first line of a message (lines 494-541). *)
Definition recv_first_line (s : h2_sess) (line : list ascii) : Z + h2_sess :=
  if is_server s then
    match parse_request_line line with
    | Some (method, path) =>
        inr (upd_rmsg
               (fun m =>
                  h2_set_path_n path
                    (h2_set_authority_n (chars "http")
                       (h2_set_scheme
                          (if ssl s then chars "https" else chars "http")
                          (h2_set_method_n method m)))) s)
    | None => inl (-1)
    end
  else
    match parse_status_line line with
    | Some st => inr (upd_rmsg (h2_set_status st) s)
    | None => inl (-2)
    end.

(** A later line (lines 542-573). *)
Definition recv_header_line (s : h2_sess) (line after : list ascii)
    : Z + h2_sess :=
  match parse_header_line (is_server s) line after with
  | Some (HdrAuthority val) => inr (upd_rmsg (h2_set_authority_n val) s)
  | Some (HdrContentLength n) => inr (set_rmsg_content_length n s)
  | Some (HdrAdd name val) => inr (upd_rmsg (h2_add_hdr_n name val) s)
  | None => inl (-3)
  end.

(** One turn of the loop of lines 482-578, for the line [raw] (without its
    ['\n']) that starts at [rdata_used], followed in the buffer by
    [after].  What follows a header line in memory is the end of the line,
    the rest of the buffered bytes and the bytes behind them. *)
Definition recv_hdl_line (s : h2_sess) (raw after : list ascii) : line_res :=
  let line := chomp_cr raw in
  let next := rdata_used s + Z.of_nat (length raw) + 1 in
  match line with
  | [] => LineEnd (set_rmsg_header_done true (set_rdata_used next s))
  | _ :: _ =>
      match
        if rmsg_header_line s =? 0 then recv_first_line s line
        else recv_header_line s line
               (drop (length line) raw ++ LF :: after ++ rd_behind s)
      with
      | inl r => LineFail r
      | inr s =>
          LineNext (set_rmsg_header_line (rmsg_header_line s + 1)
                      (set_rdata_used next s))
      end
  end.

Fixpoint recv_hdr_lines (ls : list (list ascii * list ascii)) (s : h2_sess)
    : Z * h2_sess + h2_sess :=
  match ls with
  | [] => inr s
  | (raw, after) :: ls' =>
      match recv_hdl_line s raw after with
      | LineFail r => inl (r, s)
      | LineEnd s => inr s
      | LineNext s => recv_hdr_lines ls' s
      end
  end.

(** Lines 452-473: the stream and message that receive.  The stream
    identifier is computed in [int]. *)
Definition recv_begin (s : h2_sess) : Z + h2_sess :=
  match strm_recving s with
  | Some _ => inr s
  | None =>
      if is_server s then
        let '(s, strm) := h2_strm_init (to_int (req_cnt s * 2 + 1)) s in
        inr (set_rmsg_state false 0 0 (set_strm_recving (Some strm) s))
      else
        match strm_list s with
        | [] => inl (-1)
        | _ :: _ =>
            inr (set_rmsg_state false 0 0 (set_strm_recving (Some 0%nat) s))
        end
  end.

(** Lines 584-592: the body, once [rmsg_content_length] bytes are there. *)
Definition recv_body (s : h2_sess) : h2_sess :=
  if negb (rmsg_content_length s =? 0) && (h2_body_len (recving_rmsg s) =? 0)
  then
    if rmsg_content_length s <=? rdata_size s - rdata_used s then
      set_rdata_used (rdata_used s + rmsg_content_length s)
        (upd_rmsg (h2_cpy_body (rd_unread s) (rmsg_content_length s)) s)
    else s
  else s.

Definition RDATA_ALLOC_DEF : Z := 16 * 1024.

(** [memcpy(mem + pos, src, n)] and [memmove]: [n] bytes of [src] written
    over the memory [mem] from position [pos] on. *)
Definition mem_write (pos : Z) (src : list ascii) (n : Z) (mem : list ascii)
    : list ascii :=
  take (Z.to_nat pos) mem ++ take (Z.to_nat n) src
  ++ drop (Z.to_nat (pos + n)) mem.

(** [realloc(mem, n)]: the [old] bytes of the block are kept, and what
    follows them is what the heap holds there. *)
Definition mem_realloc (old : Z) (fresh mem : list ascii) : list ascii :=
  take (Z.to_nat old) mem ++ drop (Z.to_nat old) fresh.

(** Lines 618-644: the new bytes join the unread ones.  The bytes of the
    memory that are not written stay as they are; [rdata_offset] is an
    [int] field. *)
Definition rd_append (s : h2_sess) (new : list ascii) (size : Z) : h2_sess :=
  match rdata s with
  | None =>
      set_rd (Some (mem_write 0 new size (rdata_fresh s)))
        (if RDATA_ALLOC_DEF <=? size then size else RDATA_ALLOC_DEF)
        size 0 (rdata_offset s) s
  | Some buf =>
      if rdata_size s + size <=? rdata_alloced s then
        set_rd (Some (mem_write (rdata_size s) new size buf))
          (rdata_alloced s) (rdata_size s + size) (rdata_used s)
          (rdata_offset s) s
      else
        let kept := rdata_size s - rdata_used s in
        let grows := rdata_alloced s <? kept + size in
        let alloced := if grows then kept + size else rdata_alloced s in
        let buf :=
          if grows then mem_realloc (rdata_alloced s) (rdata_fresh s) buf
          else buf in
        let buf :=
          if kept =? 0 then buf
          else mem_write 0 (drop (Z.to_nat (rdata_used s)) buf) kept buf in
        set_rd (Some (mem_write kept new size buf))
          alloced (kept + size) 0 (to_int (rdata_offset s + rdata_used s)) s
  end.

(** Lines 660-668. *)
Definition rd_release (s : h2_sess) : h2_sess :=
  if (rdata_used s =? rdata_size s) && (RDATA_ALLOC_DEF <? rdata_alloced s)
  then set_rd None 0 0 0 (to_int (rdata_offset s + rdata_used s)) s
  else s.

Section RecvV1.

(** The functions of [h2_sess.c] that hand a complete message to the
    application, [h2_on_request_recv] and [h2_on_response_recv]: the result
    of the callback and what it did to the session. *)
Variable h2_on_request_recv : h2_sess -> Z * h2_sess.
Variable h2_on_response_recv : h2_sess -> Z * h2_sess.

(** Lines 593-611: the message is complete.  The two counters are [int]
    fields. *)
Definition recv_complete (s : h2_sess) : Z * h2_sess :=
  let '(r, s) :=
    if is_server s then
      h2_on_request_recv (set_req_cnt (to_int (req_cnt s + 1)) s)
    else
      let '(r, s) := h2_on_response_recv s in
      let s := match strm_recving s with
               | Some strm => h2_strm_free strm s
               | None => s
               end in
      (r, set_strm_close_cnt (to_int (strm_close_cnt s + 1)) s) in
  (if 0 <=? r then 1 else r, set_strm_recving None s).

Definition h2_sess_recv_hdl_once_v1_1 (s : h2_sess) : Z * h2_sess :=
  match recv_begin s with
  | inl r => (r, s)
  | inr s =>
      match
        if rmsg_header_done s then inr s
        else recv_hdr_lines (split_lines [] (rd_unread s)) s
      with
      | inl (r, s) => (r, s)
      | inr s =>
          if rmsg_header_done s then
            let s := recv_body s in
            if rmsg_content_length s =? h2_body_len (recving_rmsg s)
            then recv_complete s
            else (0, s)
          else (0, s)
      end
  end.

(** The loop of lines 648-653.  A message that completes after the first
    has used at least the byte of its empty line, so [fuel] beyond the
    number of unread bytes is never used up. *)
Fixpoint recv_loop (fuel : nat) (s : h2_sess) : Z * h2_sess :=
  let '(r, s) := h2_sess_recv_hdl_once_v1_1 s in
  if r =? 1 then
    if (rdata_used s =? rdata_size s) || (is_terminated s =? 1) then (r, s)
    else
      match fuel with
      | O => (r, s)
      | S fuel' => recv_loop fuel' s
      end
  else (r, s).

Definition h2_sess_recv_v1_1 (s : h2_sess) (new : list ascii) (size : Z)
    : Z * h2_sess :=
  let s := rd_append s new size in
  let '(r, s) := recv_loop (Z.to_nat (rdata_size s - rdata_used s)) s in
  if r <? 0 then (-1, s) else (size, rd_release s).

End RecvV1.

(** ** Peer (lines 1916-2158) *)

Module Peer.

(** [h2_peer]: [sess] and [act_sess] are the two arrays of [sess_num]
    slots, a [NULL] slot being [None]. *)
Record h2_peer := {
  sess_num : Z;
  req_thr_for_reconn : Z;
  is_terminated : Z;
  settings : h2_settings;
  sess : list (option h2_sess);
  act_sess : list Z;
  act_sess_num : Z;
  next_sess_idx : Z;
  req_cnt : Z;
  rsp_cnt : Z;
  rsp_rst_cnt : Z;
  strm_close_cnt : Z;
  sess_close_cnt : Z
}.

End Peer.

Abbreviation h2_peer := Peer.h2_peer.

(** [peer->sess[i]] and [peer->act_sess[i]]. *)
Definition peer_sess (p : h2_peer) (i : nat) : option h2_sess :=
  default None (Peer.sess p !! i).

Definition peer_act_sess (p : h2_peer) (i : nat) : Z :=
  default 0 (Peer.act_sess p !! i).

(** Assignments to the slot arrays and to the cursor. *)
Definition set_peer_sess (i : nat) (v : option h2_sess) (p : h2_peer)
    : h2_peer :=
  Peer.Build_h2_peer (Peer.sess_num p) (Peer.req_thr_for_reconn p)
    (Peer.is_terminated p) (Peer.settings p) (<[i := v]> (Peer.sess p))
    (Peer.act_sess p) (Peer.act_sess_num p) (Peer.next_sess_idx p)
    (Peer.req_cnt p) (Peer.rsp_cnt p) (Peer.rsp_rst_cnt p)
    (Peer.strm_close_cnt p) (Peer.sess_close_cnt p).

Definition set_peer_act_sess (i : nat) (v : Z) (num : Z) (p : h2_peer)
    : h2_peer :=
  Peer.Build_h2_peer (Peer.sess_num p) (Peer.req_thr_for_reconn p)
    (Peer.is_terminated p) (Peer.settings p) (Peer.sess p)
    (<[i := v]> (Peer.act_sess p)) num (Peer.next_sess_idx p)
    (Peer.req_cnt p) (Peer.rsp_cnt p) (Peer.rsp_rst_cnt p)
    (Peer.strm_close_cnt p) (Peer.sess_close_cnt p).

Definition set_next_sess_idx (v : Z) (p : h2_peer) : h2_peer :=
  Peer.Build_h2_peer (Peer.sess_num p) (Peer.req_thr_for_reconn p)
    (Peer.is_terminated p) (Peer.settings p) (Peer.sess p) (Peer.act_sess p)
    (Peer.act_sess_num p) v (Peer.req_cnt p) (Peer.rsp_cnt p)
    (Peer.rsp_rst_cnt p) (Peer.strm_close_cnt p) (Peer.sess_close_cnt p).

Definition set_peer_is_terminated (v : Z) (p : h2_peer) : h2_peer :=
  Peer.Build_h2_peer (Peer.sess_num p) (Peer.req_thr_for_reconn p) v
    (Peer.settings p) (Peer.sess p) (Peer.act_sess p) (Peer.act_sess_num p)
    (Peer.next_sess_idx p) (Peer.req_cnt p) (Peer.rsp_cnt p)
    (Peer.rsp_rst_cnt p) (Peer.strm_close_cnt p) (Peer.sess_close_cnt p).

(** Lines 1933-1937: the counters of a freed session join the peer's. *)
Definition peer_gather (s : h2_sess) (p : h2_peer) : h2_peer :=
  Peer.Build_h2_peer (Peer.sess_num p) (Peer.req_thr_for_reconn p)
    (Peer.is_terminated p) (Peer.settings p) (Peer.sess p) (Peer.act_sess p)
    (Peer.act_sess_num p) (Peer.next_sess_idx p)
    (Peer.req_cnt p + req_cnt s) (Peer.rsp_cnt p + rsp_cnt s)
    (Peer.rsp_rst_cnt p + rsp_rst_cnt s)
    (Peer.strm_close_cnt p + strm_close_cnt s) (Peer.sess_close_cnt p + 1).

(** [if (peer->act_sess[i]) { peer->act_sess[i] = 0; peer->act_sess_num--; }] *)
Definition peer_deactivate (i : nat) (p : h2_peer) : h2_peer :=
  if negb (peer_act_sess p i =? 0)
  then set_peer_act_sess i 0 (Peer.act_sess_num p - 1) p
  else p.

(** The answers of the coming calls of [h2_connect], which opens the
    socket and starts the client session: the session, or [None] when the
    connection fails.  No answer left is a failure. *)
Definition net := list (option h2_sess).

(** Lines 1951-1966. *)
Definition peer_connect_sess (p : h2_peer) (sess_idx : nat) (conns : net)
    : h2_peer * net :=
  match conns with
  | Some s :: conns' =>
      let p := set_peer_sess sess_idx (Some s) p in
      (if peer_act_sess p sess_idx =? 0
       then set_peer_act_sess sess_idx 1 (Peer.act_sess_num p + 1) p
       else p, conns')
  | None :: conns' => (p, conns')
  | [] => (p, [])
  end.

(** [for (i = 0; i < sess_num; i++) peer_connect_sess(peer, i);] with [k]
    turns left. *)
Fixpoint peer_connect_all (k : nat) (i : nat) (p : h2_peer) (conns : net)
    : h2_peer * net :=
  match k with
  | O => (p, conns)
  | S k' =>
      let '(p, conns) := peer_connect_sess p i conns in
      peer_connect_all k' (S i) p conns
  end.

(** Lines 1969-2037; [None] is the [NULL] returned when no session could
    be opened. *)
Definition h2_peer_connect (sess_num req_thr_for_reconn : Z)
    (settings : option h2_settings) (conns : net) : option h2_peer * net :=
  let req_thr_for_reconn :=
    if negb (req_thr_for_reconn =? 0) && (sess_num =? 1) then 0
    else req_thr_for_reconn in
  let peer :=
    {| Peer.sess_num := sess_num;
       Peer.req_thr_for_reconn := req_thr_for_reconn;
       Peer.is_terminated := 0;
       Peer.settings := default h2_settings_init settings;
       Peer.sess := replicate (Z.to_nat sess_num) None;
       Peer.act_sess := replicate (Z.to_nat sess_num) 0;
       Peer.act_sess_num := 0;
       Peer.next_sess_idx := 0;
       Peer.req_cnt := 0; Peer.rsp_cnt := 0; Peer.rsp_rst_cnt := 0;
       Peer.strm_close_cnt := 0; Peer.sess_close_cnt := 0 |} in
  let '(peer, conns) :=
    peer_connect_all (Z.to_nat sess_num) 0 peer conns in
  if Peer.act_sess_num peer <=? 0 then (None, conns) else (Some peer, conns).

(** Lines 2103-2105. *)
Definition too_many_requests (p : h2_peer) (s : h2_sess) : bool :=
  (0 <? Peer.req_thr_for_reconn p)
  && (Peer.req_thr_for_reconn p <=? req_cnt s)
  && (Peer.sess_num p <=? Peer.act_sess_num p).

(** Lines 2107-2112: the slot is marked inactive, then its session is
    terminated with [wait_rsp = 1]. *)
Definition peer_rotate (si : nat) (s : h2_sess) (p : h2_peer) (w : io_world)
    : h2_peer * io_world :=
  let p := peer_deactivate si p in
  let '(_, s', w) := h2_sess_terminate (Some s) 1 w in
  (set_peer_sess si s' p, w).

(** The loop of lines 2099-2118 from [i], with [k] turns left.  The result
    gives [i] and the variable [sess] when the loop is left; [sess] is the
    slot it points into. *)
Fixpoint peer_find_sess (k : nat) (nsi i : Z) (sess : option nat)
    (p : h2_peer) (w : io_world) : Z * option nat * h2_peer * io_world :=
  match k with
  | O => (i, sess, p, w)
  | S k' =>
      let si := Z.to_nat (Z.rem (nsi + i) (Peer.sess_num p)) in
      match peer_sess p si with
      | Some s =>
          if negb (peer_act_sess p si =? 0) then
            if too_many_requests p s then
              let '(p, w) := peer_rotate si s p w in
              peer_find_sess k' nsi (i + 1) None p w
            else (i, Some si, p, w)
          else peer_find_sess k' nsi (i + 1) (Some si) p w
      | None => peer_find_sess k' nsi (i + 1) None p w
      end
  end.

Section PeerRequest.

(** [h2_send_request] of [h2_sess.c], which is not part of [h2_io.c]: its
    result and what it did to the session. *)
Variable h2_send_request : h2_sess -> h2_msg -> Z * h2_sess.

(** Lines 2088-2138. *)
Definition h2_peer_send_request (p : h2_peer) (req : h2_msg) (w : io_world)
    : Z * h2_peer * io_world :=
  let n := Peer.sess_num p in
  let nsi := Peer.next_sess_idx p in
  if negb (Peer.is_terminated p =? 0) then (-1, p, w)
  else
    let '(i, sess, p, w) := peer_find_sess (Z.to_nat n) nsi 0 None p w in
    let p := set_next_sess_idx (Z.rem (nsi + i + 1) n) p in
    match sess with
    | Some si =>
        match peer_sess p si with
        | Some s =>
            let '(r, s) := h2_send_request s req in
            (r, set_peer_sess si (Some s) p, w)
        | None => (-1, p, w)
        end
    | None => (-1, p, w)
    end.

End PeerRequest.

(** The loop of lines 2150-2156. *)
Fixpoint peer_terminate_all (k : nat) (i : nat) (wait_rsp : Z) (p : h2_peer)
    (w : io_world) : h2_peer * io_world :=
  match k with
  | O => (p, w)
  | S k' =>
      let p := peer_deactivate i p in
      let '(_, s', w) := h2_sess_terminate (peer_sess p i) wait_rsp w in
      peer_terminate_all k' (S i) wait_rsp (set_peer_sess i s' p) w
  end.

(** Lines 2141-2158, for a peer that is not [NULL]. *)
Definition h2_peer_terminate (p : h2_peer) (wait_rsp : Z) (w : io_world)
    : Z * h2_peer * io_world :=
  if Peer.is_terminated p =? 1 then (1, p, w)
  else
    let p := set_peer_is_terminated (if wait_rsp =? 0 then 1 else 2) p in
    let '(p, w) :=
      peer_terminate_all (Z.to_nat (Peer.sess_num p)) 0 wait_rsp p w in
    (0, p, w).

(** Lines 1916-1949.  [i] is the slot that holds the freed session [s],
    [None] when the search of lines 1920-1929 finds none; [service_flag] is
    [peer->ctx->service_flag]. *)
Definition peer_sess_free_cb (p : h2_peer) (i : option nat) (s : h2_sess)
    (service_flag : bool) (conns : net) : h2_peer * net :=
  match i with
  | None => (p, conns)
  | Some i =>
      let p := peer_gather s p in
      let p := set_peer_sess i None p in
      let p := peer_deactivate i p in
      if (Peer.is_terminated p =? 0) && service_flag
      then peer_connect_sess p i conns
      else (p, conns)
  end.

(** ** Session receive (lines 324-379) *)

(** What one call of [SSL_read] or [recv] answers: the returned value, the
    bytes put into [buf], the [errno] left behind and whether
    [SSL_get_error] gives [SSL_ERROR_WANT_READ]. *)
Record rd_outcome := {
  rd_ret : Z;
  rd_data : list ascii;
  rd_errno : errno_t;
  rd_want_read : bool
}.

Section SessRecv.

Variable h2_on_request_recv : h2_sess -> Z * h2_sess.
Variable h2_on_response_recv : h2_sess -> Z * h2_sess.

(** [nghttp2_session_mem_recv]: the codec takes the bytes and runs the
    callbacks of [h2_sess.c] on the session; its result is the number of
    bytes taken, negative for a failure. *)
Variable nghttp2_session_mem_recv : h2_sess -> list ascii -> Z -> Z * h2_sess.

Definition h2_sess_recv (s : h2_sess) (o : rd_outcome) : Z * h2_sess :=
  let recv_len := rd_ret o in
  if ssl s && (recv_len <? 0) && rd_want_read o then (0, s)
  else if recv_len <? 0 then
    match rd_errno o with
    | EAGAIN | EWOULDBLOCK | EINTR => (0, s)
    | EOTHER => (-1, set_close_reason CLOSE_BY_SOCK_ERR s)
    end
  else if recv_len =? 0 then (-2, set_close_reason CLOSE_BY_SOCK_EOF s)
  else if is_v2 s then
    let '(read_len, s) := nghttp2_session_mem_recv s (rd_data o) recv_len in
    if read_len <? 0 then (-3, set_close_reason CLOSE_BY_NGHTTP2_ERR s)
    else (to_int read_len, s)
  else
    let '(read_len, s) :=
      h2_sess_recv_v1_1 h2_on_request_recv h2_on_response_recv s
        (rd_data o) (to_int recv_len) in
    if read_len <? 0 then (-3, set_close_reason CLOSE_BY_HTTP_ERR s)
    else (to_int read_len, s).

End SessRecv.

(** ** Service loop (lines 1655-1867) *)

(** Event bits of [<poll.h>] and [<sys/epoll.h>] on Linux. *)
Definition POLLIN : Z := 1.
Definition POLLOUT : Z := 4.
Definition POLLERR : Z := 8.
Definition POLLHUP : Z := 16.
Definition POLLNVAL : Z := 32.
Definition POLLRDHUP : Z := 8192.
Definition EPOLLIN : Z := 1.
Definition EPOLLOUT : Z := 4.
Definition EPOLLERR : Z := 8.
Definition EPOLLHUP : Z := 16.
Definition EPOLLRDHUP : Z := 8192.

(** C's [a || b] and the test [(x & mask)] of an [if]. *)
Definition c_or (a b : Z) : Z :=
  if negb (a =? 0) || negb (b =? 0) then 1 else 0.

Definition has_bits (x mask : Z) : bool := negb (Z.land x mask =? 0).

(** The interest set of a session in the [poll()] variant (lines
    1774-1790); [ng_want_write] is the answer of
    [nghttp2_session_want_write]. *)
Definition poll_sess_interest (s : h2_sess) (w : io_world)
    (ng_want_write : bool) : Z :=
  if is_v2 s then
    Z.lor (if ng_want_read w then POLLIN else 0)
          (if send_pending s || ng_want_write then POLLOUT else 0)
  else
    Z.lor (if is_terminated s =? 0 then POLLIN else 0)
          (if send_pending s then POLLOUT else 0).

(** Lines 1772-1798 for one session: the calls of [h2_sess_free], each
    with the session as it is at the call, and the session and its events
    when it enters the poll set. *)
Definition poll_sess_prepare (s : h2_sess) (w : io_world)
    (ng_want_write : bool) : list h2_sess * option (h2_sess * Z) :=
  let events := poll_sess_interest s w ng_want_write in
  if events =? 0 then ([set_close_reason CLOSE_BY_HTTP_END s], None)
  else ([], Some (s, events)).

Section CtxRun.

Variable H2_WR_BUF_SIZE : Z.
Variable sizeof_merge_data : Z.
Variable h2_on_request_recv : h2_sess -> Z * h2_sess.
Variable h2_on_response_recv : h2_sess -> Z * h2_sess.
Variable nghttp2_session_mem_recv : h2_sess -> list ascii -> Z -> Z * h2_sess.

(** The session events of the [poll()] variant (lines 1836-1860), which is
    compiled without [EPOLL_MODE]: the calls of [h2_sess_free] in order,
    the session if the loop goes on with it, and the world. *)
Definition poll_sess_event (revents : Z) (s : h2_sess) (o : rd_outcome)
    (w : io_world) : list h2_sess * option h2_sess * io_world :=
  match
    if has_bits revents POLLIN then
      let '(r, s) :=
        h2_sess_recv h2_on_request_recv h2_on_response_recv
          nghttp2_session_mem_recv s o in
      if r <? 0 then Return ([s], None, w) else Next s
    else Next s
  with
  | Return out => out
  | Next s =>
      match
        if has_bits revents (c_or POLLOUT POLLIN) then
          let '(r, s, w) :=
            h2_sess_send H2_WR_BUF_SIZE sizeof_merge_data false s w in
          if r <? 0 then Return ([s], None, w) else Next (s, w)
        else Next (s, w)
      with
      | Return out => out
      | Next (s, w) =>
          if has_bits revents POLLRDHUP then
            ([set_close_reason CLOSE_BY_SOCK_EOF s], None, w)
          else if has_bits revents (Z.lor (Z.lor POLLERR POLLHUP) POLLNVAL)
          then ([set_close_reason CLOSE_BY_SOCK_ERR s], None, w)
          else ([], Some s, w)
      end
  end.

(** The session events of the [epoll] variant (lines 1708-1734), which is
    compiled with [EPOLL_MODE].  The branch of lines 1716-1718 frees the
    session and goes on to the test of line 1726. *)
Definition epoll_sess_event (events : Z) (s : h2_sess) (o : rd_outcome)
    (w : io_world) : list h2_sess * option h2_sess * io_world :=
  match
    if has_bits events EPOLLIN then
      let '(r, s) :=
        h2_sess_recv h2_on_request_recv h2_on_response_recv
          nghttp2_session_mem_recv s o in
      if r <? 0 then Return ([s], None, w) else Next s
    else Next s
  with
  | Return out => out
  | Next s =>
      match
        if has_bits events (c_or EPOLLOUT EPOLLIN) then
          if (is_terminated s =? 1) && negb (is_v2 s) then
            let s := set_close_reason CLOSE_BY_HTTP_END s in
            Next ([s], None, s, w)
          else
            let '(r, s, w) :=
              h2_sess_send H2_WR_BUF_SIZE sizeof_merge_data true s w in
            if r <? 0 then Return ([s], None, w) else Next ([], Some s, s, w)
        else Next ([], Some s, s, w)
      with
      | Return out => out
      | Next (frees, kept, s, w) =>
          if has_bits events (Z.lor (Z.lor EPOLLERR EPOLLHUP) EPOLLRDHUP)
          then
            let s := set_close_reason CLOSE_BY_SOCK_ERR s in
            (frees ++ [s], None, w)
          else (frees, kept, w)
      end
  end.

End CtxRun.

(** ** Authority (lines 1216-1233 and 1452-1467) *)

Definition LBRACKET : ascii := "["%char.
Definition RBRACKET : ascii := "]"%char.

Definition is_nul (c : ascii) : bool := code c =? 0.
Definition is_lbracket (c : ascii) : bool := code c =? 91.
Definition is_rbracket (c : ascii) : bool := code c =? 93.

(** The C string that starts a memory: the bytes before the first NUL.
    [strdup] copies them and [strlen] counts them. *)
Definition strdup (mem : list ascii) : list ascii :=
  take_while (fun c => negb (is_nul c)) mem.

(** [port = strrchr(host, ':')] followed by [*(port++) = 0]: the string
    before the last colon and the string after it, [None] when [strrchr]
    answers [NULL]. *)
Fixpoint split_last_colon (host : list ascii)
    : option (list ascii * list ascii) :=
  match host with
  | [] => None
  | c :: rest =>
      match split_last_colon rest with
      | Some (h, port) => Some (c :: h, port)
      | None => if is_colon c then Some ([], rest) else None
      end
  end.

(** [host[i]] for an [int i]; the byte at [strlen(host)] is the NUL, and a
    byte outside the string is no bracket. *)
Definition c_index (host : list ascii) (i : Z) : option ascii :=
  if i <? 0 then None else host !! Z.to_nat i.

(** Lines 1217-1228 and 1452-1462, the same in both functions: the host and
    the port of an authority, the port [None] for a [NULL] pointer.  [n] is
    the [int] that receives [strlen(host)]. *)
Definition authority_split (authority : list ascii)
    : list ascii * option (list ascii) :=
  let host := strdup authority in
  let '(host, port) :=
    match split_last_colon host with
    | Some (h, p) => (h, Some p)
    | None => (host, None)
    end in
  let n := to_int (Z.of_nat (length host)) in
  if match c_index host 0 with Some c => is_lbracket c | None => false end
     && match c_index host (n - 1) with
        | Some c => is_rbracket c
        | None => false
        end
     && (3 <=? n)
  then (take (Z.to_nat (n - 2)) (drop 1 host), port)
  else (host, port).

(** The test of lines 1229-1234 in [h2_connect]: [None] where the function
    returns [NULL] before it resolves the address, else the host and the
    port given to [getaddrinfo]. *)
Definition connect_authority (authority : list ascii)
    : option (list ascii * list ascii) :=
  let '(host, port) := authority_split authority in
  if (Z.of_nat (length host) <=? 0)
     || match port with None => true | Some _ => false end
  then None
  else match port with
       | Some port => Some (host, port)
       | None => None
       end.

(** The test of lines 1463-1468 in [h2_listen]. *)
Definition listen_authority (authority : list ascii)
    : option (list ascii * list ascii) :=
  let '(host, port) := authority_split authority in
  match port with
  | None => None
  | Some port => Some (host, port)
  end.

(** ** Server session start (lines 1291-1447) *)

Definition set_http_ver (v : http_ver_t) (s : h2_sess) : h2_sess :=
  Build_h2_sess (is_server s) v (ssl s) (send_pending s)
    (is_terminated s) (close_reason s) (req_cnt s) (rsp_cnt s)
    (rsp_rst_cnt s) (strm_close_cnt s) (send_data_remain s) (wr_buf s)
    (strm_list s) (strm_sending s) (strm_recving s) (rdata s)
    (rdata_alloced s) (rdata_size s) (rdata_used s) (rdata_offset s)
    (rmsg_header_done s) (rmsg_header_line s) (rmsg_content_length s)
    (rdata_fresh s).

Definition set_ssl (v : bool) (s : h2_sess) : h2_sess :=
  Build_h2_sess (is_server s) (http_ver s) v (send_pending s)
    (is_terminated s) (close_reason s) (req_cnt s) (rsp_cnt s)
    (rsp_rst_cnt s) (strm_close_cnt s) (send_data_remain s) (wr_buf s)
    (strm_list s) (strm_sending s) (strm_recving s) (rdata s)
    (rdata_alloced s) (rdata_size s) (rdata_used s) (rdata_offset s)
    (rmsg_header_done s) (rmsg_header_line s) (rmsg_content_length s)
    (rdata_fresh s).

(** [alpn && alpnlen == 2 && !memcmp("h2", alpn, 2)], the protocol that
    [SSL_get0_alpn_selected] answers being [None] for a [NULL] pointer and
    [alpnlen] the length of the list. *)
Definition alpn_is_h2 (alpn : option (list ascii)) : bool :=
  match alpn with
  | Some [a; b] => (code a =? 104) && (code b =? 50)
  | _ => false
  end.

(** What the TLS library answers while a session starts: whether [SSL_new]
    gives an object, the result of [SSL_accept] and the protocol selected
    by ALPN. *)
Record tls_answers := {
  ssl_new_ok : bool;
  ssl_accept_ret : Z;
  alpn_selected : option (list ascii)
}.

(** The objects given to [h2_sess_free] and [h2_svr_free] while a session
    starts. *)
Inductive start_free :=
  | FreeSess (s : h2_sess)
  | FreeSvr.

Section ServerStart.

Variable H2_WR_BUF_SIZE : Z.
Variable sizeof_merge_data : Z.
Variable EPOLL_MODE : bool.

(** Lines 1291-1307.  [h2_sess_nghttp2_init], which creates the codec that
    [io_world] answers for, and the lines printed are not part of the
    state. *)
Definition h2_sess_server_tcp_start (s : h2_sess)
    (settings : option h2_settings) (w : io_world)
    : Z * h2_sess * io_world :=
  if is_v2 s then
    let '(r, s, w) :=
      h2_sess_send_settings H2_WR_BUF_SIZE sizeof_merge_data EPOLL_MODE
        s settings w in
    if r <? 0 then (-1, s, w) else (0, s, w)
  else (0, s, w).

(** Lines 1310-1338. *)
Definition h2_sess_server_tls_start (s : h2_sess)
    (alpn : option (list ascii)) (settings : option h2_settings)
    (w : io_world) : Z * h2_sess * io_world :=
  match
    if alpn_is_h2 alpn then Next (set_http_ver H2_HTTP_V2 s)
    else if is_v2 s then Return (-1, s, w)
    else Next (set_http_ver H2_HTTP_V1_1 s)
  with
  | Return out => out
  | Next s =>
      if is_v2 s then
        let '(r, s, w) :=
          h2_sess_send_settings H2_WR_BUF_SIZE sizeof_merge_data EPOLL_MODE
            s settings w in
        if r <? 0 then (-1, s, w) else (0, s, w)
      else (0, s, w)
  end.

(** Lines 1341-1447.  [ctx_http_ver] is [ctx->http_ver], [svr_ssl_ctx]
    tells whether [svr->ssl_ctx] is set, [accept_cb] is the callback of the
    server, [None] for a [NULL] pointer, which gets the settings of
    [h2_settings_init] and answers its result and the settings it leaves,
    and [epoll_ctl_ret] is the result of [epoll_ctl].  The result is the
    session, [None] for [NULL], and the objects freed on the way. *)
Definition h2_sess_init_server (ctx_http_ver : http_ver_t)
    (svr_ssl_ctx : bool) (accept_cb : option (h2_settings -> Z * h2_settings))
    (epoll_ctl_ret : Z) (tls : tls_answers) (w : io_world)
    : option h2_sess * list start_free * io_world :=
  let sess := h2_sess_init true ctx_http_ver false in
  if EPOLL_MODE && (epoll_ctl_ret <? 0) then (None, [FreeSvr], w)
  else
    let '(r, sess_settings) :=
      match accept_cb with
      | Some cb => cb h2_settings_init
      | None => (0, h2_settings_init)
      end in
    if r <? 0 then (None, [FreeSess sess], w)
    else if svr_ssl_ctx then
      if negb (ssl_new_ok tls) then (None, [FreeSess sess], w)
      else
        let sess := set_ssl true sess in
        if ssl_accept_ret tls <? 0 then (None, [FreeSess sess], w)
        else
          let '(r, sess, w) :=
            h2_sess_server_tls_start sess (alpn_selected tls)
              (Some sess_settings) w in
          if r <? 0 then (None, [FreeSess sess], w)
          else (Some sess, [], w)
    else
      let '(r, sess, w) :=
        h2_sess_server_tcp_start sess (Some sess_settings) w in
      if r <? 0 then (None, [FreeSess sess], w)
      else (Some sess, [], w).

End ServerStart.

(** * Properties *)

(** ** The send path *)

Definition wb_idle_or_pending (s : h2_sess) : Prop :=
  (merge_size (wr_buf s) = 0 /\ mem_send_size (wr_buf s) = 0)
  \/ send_pending s = true.

Lemma mark_send_pending_set s :
  send_pending (h2_sess_mark_send_pending s) = true.
Proof. unfold h2_sess_mark_send_pending. by destruct (send_pending s) eqn:E. Qed.

Lemma mark_send_pending_wr_buf s :
  wr_buf (h2_sess_mark_send_pending s) = wr_buf s.
Proof. unfold h2_sess_mark_send_pending. by destruct (send_pending s). Qed.

Lemma mark_send_pending_is_terminated s :
  is_terminated (h2_sess_mark_send_pending s) = is_terminated s.
Proof. unfold h2_sess_mark_send_pending. by destruct (send_pending s). Qed.

Lemma clear_send_pending_wr_buf s :
  wr_buf (h2_sess_clear_send_pending s) = wr_buf s.
Proof. unfold h2_sess_clear_send_pending. by destruct (send_pending s). Qed.

Lemma account_sent_wr_buf v n s : wr_buf (account_sent v n s) = wr_buf s.
Proof. by destruct v. Qed.

Lemma try_write_failed tls intr tcp_fail n o r why :
  tcp_fail < 0 -> try_write tls intr tcp_fail n o = WrFailed r why -> r < 0.
Proof.
  unfold try_write. intros Hf H.
  repeat (case_match; simplify_eq); lia.
Qed.

Lemma try_write_sent tls intr tcp_fail n o sent :
  try_write tls intr tcp_fail n o = WrSent sent -> sent = n \/ 0 < sent.
Proof.
  unfold try_write. intros H.
  repeat (case_match; simplify_eq); auto; lia.
Qed.

Lemma send_merge_data_spec v s w :
  0 <= merge_size (wr_buf s) ->
  match send_merge_data v s w with
  | Return (r, s', _) =>
      0 <= merge_size (wr_buf s')
      /\ (0 <= r -> send_pending s' = true)
  | Next (_, s', _) =>
      merge_size (wr_buf s') = 0
      /\ mem_send_size (wr_buf s') = mem_send_size (wr_buf s)
  end.
Proof.
  intros Hm. unfold send_merge_data.
  destruct (0 <? merge_size (wr_buf s)) eqn:Hpos; [|simpl; lia].
  destruct (io_write w) as [o w1].
  destruct (try_write _ _ _ _ o) as [sent| |r why] eqn:Ht.
  - apply try_write_sent in Ht.
    destruct (sent <? merge_size (wr_buf s)) eqn:Hlt; simpl.
    + rewrite mark_send_pending_set, mark_send_pending_wr_buf. simpl.
      split; [lia|done].
    + done.
  - rewrite mark_send_pending_set, mark_send_pending_wr_buf. split; [lia|done].
  - apply try_write_failed in Ht; [|lia]. simpl. split; [lia|]. lia.
Qed.

Lemma send_mem_send_data_spec v t s w :
  match send_mem_send_data v t s w with
  | Return (r, s', _) =>
      merge_size (wr_buf s') = merge_size (wr_buf s)
      /\ (0 <= r -> send_pending s' = true)
  | Next (_, s', _) =>
      merge_size (wr_buf s') = merge_size (wr_buf s)
      /\ mem_send_size (wr_buf s') = 0
  end.
Proof.
  unfold send_mem_send_data.
  destruct (mem_send_size (wr_buf s) =? 0) eqn:Hz; simpl; [lia|].
  destruct (io_write w) as [o w1].
  destruct (try_write _ _ _ _ o) as [sent| |r why] eqn:Ht.
  - destruct (sent <? mem_send_size (wr_buf s)) eqn:Hlt; simpl.
    + rewrite mark_send_pending_set, mark_send_pending_wr_buf. by simpl.
    + done.
  - by rewrite mark_send_pending_set, mark_send_pending_wr_buf.
  - apply try_write_failed in Ht; [|lia]. simpl. split; [done|lia].
Qed.

Lemma send_bufs_spec v e s w r s' w' :
  0 <= merge_size (wr_buf s) ->
  send_bufs v e s w = (r, s', w') ->
  0 <= merge_size (wr_buf s') /\ (0 <= r -> wb_idle_or_pending s').
Proof.
  intros Hm. unfold send_bufs.
  pose proof (send_merge_data_spec v s w Hm) as H1.
  destruct (send_merge_data v s w) as [[[r1 s1] w1]|[[t1 s1] w1]].
  { intros [= -> -> ->]. destruct H1 as [? H1]. split; [done|].
    intros Hr. right. auto. }
  destruct H1 as [Hm1 Hs1].
  pose proof (send_mem_send_data_spec v t1 s1 w1) as H2.
  destruct (send_mem_send_data v t1 s1 w1) as [[[r2 s2] w2]|[[t2 s2] w2]].
  { intros [= -> -> ->]. destruct H2 as [Hm2 H2]. split; [lia|].
    intros Hr. right. auto. }
  destruct H2 as [Hm2 Hs2].
  destruct (e && negb (ng_want_read w2)).
  - intros [= <- <- <-]. simpl. split; [|lia].
    destruct (t2 =? 0); rewrite ?clear_send_pending_wr_buf; lia.
  - intros [= <- <- <-].
    assert (wr_buf (if t2 =? 0 then h2_sess_clear_send_pending s2 else s2)
            = wr_buf s2) as ->.
    { destruct (t2 =? 0); by rewrite ?clear_send_pending_wr_buf. }
    split; [lia|]. intros _. left.
    assert (wr_buf (if t2 =? 0 then h2_sess_clear_send_pending s2 else s2)
            = wr_buf s2) as ->.
    { destruct (t2 =? 0); by rewrite ?clear_send_pending_wr_buf. }
    lia.
Qed.

Lemma fill_v2_merge_size B c q wb :
  0 <= merge_size wb ->
  match fill_v2 B c q wb with
  | FillErr wb' _ | FillDone wb' _ _ => 0 <= merge_size wb'
  end.
Proof.
  revert wb. induction q as [|m q IH]; intros wb Hm; simpl.
  - by destruct (_ && _).
  - destruct (_ && _); [|done].
    destruct (ms_size m <? 0) eqn:Hneg; [done|].
    destruct (ms_size m =? 0); [done|].
    destruct (_ <=? _); [|done].
    apply IH. simpl. lia.
Qed.

Lemma flush_sent_spec l s s' d n :
  flush_sent l s = (s', (d, n)) -> 0 <= n /\ wr_buf s' = wr_buf s.
Proof.
  revert s. induction l as [|strm l IH]; intros s; simpl.
  - intros [= <- <- <-]. done.
  - destruct (response_set strm); [|intros [= <- <- <-]; done].
    unfold rb_drained.
    destruct (_ <=? _) eqn:Hd.
    + intros H. by apply IH in H.
    + unfold rb_unsent. intros [= <- <- <-]. split; [lia|done].
Qed.

Lemma walk_sending_spec l i s s' d n :
  walk_sending l i s = (s', (d, n)) -> 0 <= n /\ wr_buf s' = wr_buf s.
Proof.
  revert i. induction l as [|strm l IH]; intros i; simpl.
  - intros [= <- <- <-]. done.
  - unfold rb_drained. destruct (_ <=? _) eqn:Hd.
    + apply IH.
    + unfold rb_unsent. intros [= <- <- <-]. split; [lia|done].
Qed.

Lemma next_strm_data_spec s s' d n :
  next_strm_data s = (s', (d, n)) -> 0 <= n /\ wr_buf s' = wr_buf s.
Proof.
  unfold next_strm_data. destruct (is_server s).
  - apply flush_sent_spec.
  - apply walk_sending_spec.
Qed.

Lemma fill_v1_1_merge_size B c fuel s :
  0 <= merge_size (wr_buf s) ->
  0 <= merge_size (wr_buf (fill_v1_1 B c fuel s)).
Proof.
  revert s. induction fuel as [|fuel IH]; intros s Hm; simpl.
  - by destruct (_ && _).
  - destruct (_ && _); [|done].
    destruct (next_strm_data s) as [s1 [d n]] eqn:Hn.
    apply next_strm_data_spec in Hn as [Hn Hwb].
    destruct (n =? 0); [by rewrite Hwb|].
    destruct (_ <=? _).
    + apply IH. simpl. rewrite Hwb. lia.
    + simpl. by rewrite Hwb.
Qed.

Lemma send_once_step B c E v2 s w r s' w' :
  0 <= merge_size (wr_buf s) ->
  send_once B c E v2 s w = (r, s', w') ->
  0 <= merge_size (wr_buf s') /\ (0 <= r -> wb_idle_or_pending s').
Proof.
  intros Hm. unfold send_once. destruct v2.
  - unfold h2_sess_send_once_v2.
    pose proof (fill_v2_merge_size B c (ng_mem_send w) (wr_buf s) Hm) as Hf.
    destruct (fill_v2 B c (ng_mem_send w) (wr_buf s)) as [wb q|wb q z].
    + intros [= <- <- <-]. simpl. split; [done|lia].
    + apply send_bufs_spec. done.
  - unfold h2_sess_send_once_v1_1. apply send_bufs_spec.
    by apply fill_v1_1_merge_size.
Qed.

(** What happens to a session between and during send steps: a send step
    of either variant, for which the world gives the answers of the codec
    and of the transport, or anything else, which may change every field
    of the session but the write buffer (only the two send functions
    touch [wr_buf]). *)
Inductive sess_event :=
  | EvSendOnce (v2 : bool) (w : io_world)
  | EvOther (g : h2_sess -> h2_sess).

Section SendTrace.

Variable H2_WR_BUF_SIZE : Z.
Variable sizeof_merge_data : Z.
Variable EPOLL_MODE : bool.

(** The result and the session after each send step of a run. *)
Fixpoint send_trace (evs : list sess_event) (s : h2_sess)
    : list (Z * h2_sess) :=
  match evs with
  | [] => []
  | EvSendOnce v2 w :: evs =>
      let '(r, s', _) :=
        send_once H2_WR_BUF_SIZE sizeof_merge_data EPOLL_MODE v2 s w in
      (r, s') :: send_trace evs s'
  | EvOther g :: evs => send_trace evs (set_wr_buf (wr_buf s) (g s))
  end.

End SendTrace.

(** C1.  After each send step, on an HTTP/2 session
    ([h2_sess_send_once_v2]) or on an HTTP/1.1 session
    ([h2_sess_send_once_v1_1]), that returns a non-negative value, either
    both regions of the write buffer are empty or [send_pending] is set.
    This holds along every run of send steps and other events, for every
    answer of the codec and of the transport, from any session whose merge
    size is not negative, as it is in a new session. *)
Theorem send_once_idle_or_pending :
  forall (H2_WR_BUF_SIZE sizeof_merge_data : Z) (EPOLL_MODE : bool)
         (evs : list sess_event) (s : h2_sess),
    0 <= merge_size (wr_buf s) ->
    Forall (fun out => 0 <= out.1 -> wb_idle_or_pending out.2)
           (send_trace H2_WR_BUF_SIZE sizeof_merge_data EPOLL_MODE evs s).
Proof.
  intros B c E evs. induction evs as [|[v2 w|g] evs IH]; intros s Hm; simpl.
  - constructor.
  - destruct (send_once B c E v2 s w) as [[r s'] w'] eqn:Hs.
    apply send_once_step in Hs as [Hm' Hinv]; [|done].
    constructor; [done|]. by apply IH.
  - by apply IH.
Qed.

(** ** Termination *)

(** A world in which nothing has happened yet and every call succeeds. *)
Definition quiet_world : io_world :=
  {| ng_mem_send := []; ng_want_read := true; ng_terminate_ret := 0;
     ng_submit_ret := 0; wr_results := []; io_log := [] |}.

(** A client HTTP/1.1 session over TCP with one request sent and no
    response received yet. *)
Definition client_awaiting_response : h2_sess :=
  set_req_cnt 1 (h2_sess_init false H2_HTTP_V1_1 false).

(** C2, as stated, fails: on a client session that still waits for a
    response, [terminate(1)] enters the draining state 2, and a second
    [terminate(1)] is not answered "already": it returns 0 and shuts the
    write direction down once more. *)
Lemma terminate_twice_draining :
  let first := h2_sess_terminate (Some client_awaiting_response) 1 quiet_world in
  let second := h2_sess_terminate first.1.2 1 first.2 in
  second.1.1 = 0
  /\ second.1.1 <> 1
  /\ io_log first.2 = [EvShutdown SHUT_WR]
  /\ io_log second.2 = [EvShutdown SHUT_WR; EvShutdown SHUT_WR].
Proof. vm_compute. repeat split; congruence. Qed.

(** C2, amended.  The second of two calls of [h2_sess_terminate] returns
    "already" (1) exactly when the first call left the session in state 1,
    and then it changes neither the session nor the world; the first call
    leaves state 1 exactly when it does not start draining: [x] is 0, or
    the session is a server session, or no response is outstanding, or the
    session was in state 1 before.  A [NULL] session is always answered
    "already". *)
Theorem terminate_twice_already :
  forall (s : h2_sess) (x y : Z) (w : io_world) r1 s1 w1,
    h2_sess_terminate (Some s) x w = (r1, s1, w1) ->
    (exists s', s1 = Some s'
       /\ (is_terminated s' = 1 <->
           x = 0 \/ is_server s = true \/ req_cnt s <= rsp_cnt s
           \/ is_terminated s = 1)
       /\ (is_terminated s' = 1 ->
           h2_sess_terminate s1 y w1 = (1, s1, w1))
       /\ ((h2_sess_terminate s1 y w1).1.1 = 1 <-> is_terminated s' = 1))
    /\ h2_sess_terminate None y w1 = (1, None, w1).
Proof.
  intros s x y w r1 s1 w1 H. split; [|done].
  assert (Hsnd : forall s', s1 = Some s' ->
            (is_terminated s' = 1 -> h2_sess_terminate s1 y w1 = (1, s1, w1))
            /\ ((h2_sess_terminate s1 y w1).1.1 = 1 <-> is_terminated s' = 1)).
  { intros s' ->. split.
    - intros H1. simpl. by rewrite H1.
    - simpl. destruct (is_terminated s' =? 1) eqn:E; [simpl; lia|].
      assert (is_terminated s' <> 1) by lia.
      repeat (case_match; simpl); split; intros; try lia; done. }
  simpl in H.
  destruct (is_terminated s =? 1) eqn:E1.
  { injection H as <- <- <-. exists s. split; [reflexivity|].
    split; [|by apply Hsnd]. split; [intros _|]; lia. }
  destruct (negb (x =? 0) && negb (is_server s) && (rsp_cnt s <? req_cnt s))
    eqn:Ec.
  - assert (x <> 0 /\ is_server s = false /\ rsp_cnt s < req_cnt s) as (?&?&?).
    { apply andb_true_iff in Ec as [Ec Ec3].
      apply andb_true_iff in Ec as [Ec1 Ec2].
      apply negb_true_iff in Ec1, Ec2. split; [lia|]. split; [done|lia]. }
    exists (set_is_terminated 2 s).
    assert (s1 = Some (set_is_terminated 2 s)) as Hs1.
    { destruct (is_v2 _); [|destruct (ssl _)]; by injection H as <- <- <-. }
    split; [done|]. split; [|by apply Hsnd].
    simpl. split; [lia|]. intros [?|[?|[?|?]]]; try lia; congruence.
  - assert (x = 0 \/ is_server s = true \/ req_cnt s <= rsp_cnt s) as Hor.
    { destruct (is_server s); [by auto|].
      destruct (x =? 0) eqn:?; [left; lia|]. simpl in Ec. right; right. lia. }
    assert (exists s', s1 = Some s' /\ is_terminated s' = 1) as (s'&Hs1&Ht).
    { destruct (is_v2 _); [destruct (_ <? 0)|destruct (ssl _)];
        injection H as <- <- <-; eexists; (split; [reflexivity|]);
        by rewrite ?mark_send_pending_is_terminated. }
    exists s'. split; [done|]. split; [|by apply Hsnd].
    split; [intros _|done]. destruct Hor as [?|[?|?]]; auto.
Qed.

Lemma terminate_twice_already_witness :
  let first :=
    h2_sess_terminate (Some client_awaiting_response) 0 quiet_world in
  (exists s', first.1.2 = Some s'
     /\ (is_terminated s' = 1 <->
         0 = 0 \/ is_server client_awaiting_response = true
         \/ req_cnt client_awaiting_response
            <= rsp_cnt client_awaiting_response
         \/ is_terminated client_awaiting_response = 1)
     /\ (is_terminated s' = 1 ->
         h2_sess_terminate first.1.2 1 first.2 = (1, first.1.2, first.2))
     /\ ((h2_sess_terminate first.1.2 1 first.2).1.1 = 1
         <-> is_terminated s' = 1))
  /\ h2_sess_terminate None 1 first.2 = (1, None, first.2).
Proof.
  intros first.
  apply (terminate_twice_already client_awaiting_response 0 1 quiet_world
           first.1.1 first.1.2 first.2).
  reflexivity.
Defined.

(** ** Settings *)

(** The field of the settings that goes with an identifier. *)
Definition settings_field (id : settings_id) (st : h2_settings) : Z :=
  match id with
  | NGHTTP2_SETTINGS_HEADER_TABLE_SIZE => header_table_size st
  | NGHTTP2_SETTINGS_ENABLE_PUSH => enable_push st
  | NGHTTP2_SETTINGS_MAX_CONCURRENT_STREAMS => max_concurrent_streams st
  | NGHTTP2_SETTINGS_INITIAL_WINDOW_SIZE => initial_window_size st
  | NGHTTP2_SETTINGS_MAX_FRAME_SIZE => max_frame_size st
  | NGHTTP2_SETTINGS_MAX_HEADER_LIST_SIZE => max_header_list_size st
  | NGHTTP2_SETTINGS_ENABLE_CONNECT_PROTOCOL => enable_connect_protocol st
  end.

Definition all_settings_ids : list settings_id :=
  [ NGHTTP2_SETTINGS_HEADER_TABLE_SIZE; NGHTTP2_SETTINGS_ENABLE_PUSH;
    NGHTTP2_SETTINGS_MAX_CONCURRENT_STREAMS;
    NGHTTP2_SETTINGS_INITIAL_WINDOW_SIZE; NGHTTP2_SETTINGS_MAX_FRAME_SIZE;
    NGHTTP2_SETTINGS_MAX_HEADER_LIST_SIZE;
    NGHTTP2_SETTINGS_ENABLE_CONNECT_PROTOCOL ].

Definition settings_entry_of (st : h2_settings) (id : settings_id)
    : settings_entry :=
  {| settings_id_of := id; value := settings_field id st |}.

Lemma iv_add_filter st id ids iv :
  iv_add id (settings_field id st) iv
  ++ (settings_entry_of st
      <$> filter (fun id => 0 <= settings_field id st) ids)
  = iv ++ (settings_entry_of st
           <$> filter (fun id => 0 <= settings_field id st) (id :: ids)).
Proof.
  unfold iv_add. rewrite filter_cons.
  destruct (Z.leb_spec 0 (settings_field id st)); case_decide; try lia.
  - by rewrite <- app_assoc.
  - done.
Qed.

Lemma settings_iv_filter st :
  settings_iv (Some st)
  = settings_entry_of st
    <$> filter (fun id => 0 <= settings_field id st) all_settings_ids.
Proof.
  unfold all_settings_ids.
  change (settings_entry_of st <$> ?l) with ([] ++ (settings_entry_of st <$> l)).
  rewrite <- !iv_add_filter. rewrite filter_nil. simpl. by rewrite app_nil_r.
Qed.

Lemma send_bufs_io_log v e s w r s' w' :
  send_bufs v e s w = (r, s', w') -> io_log w' = io_log w.
Proof.
  assert (Hw : forall w0, io_log (io_write w0).2 = io_log w0).
  { intros w0. unfold io_write. by destruct (wr_results w0). }
  unfold send_bufs, send_merge_data, send_mem_send_data.
  destruct (0 <? merge_size (wr_buf s)).
  - pose proof (Hw w) as Hw1. destruct (io_write w) as [o1 w1]. simpl in Hw1.
    destruct (try_write _ _ _ _ o1) as [sent| |r0 why];
      [destruct (sent <? _)| |]; cbn -[io_write try_write];
      try (intros [= <- <- <-]; done).
    destruct (negb _).
    + pose proof (Hw w1) as Hw2. destruct (io_write w1) as [o2 w2].
      simpl in Hw2.
      destruct (try_write _ _ _ _ o2) as [sent2| |r0 why];
        [destruct (sent2 <? _)| |]; cbn -[io_write try_write];
        try (intros [= <- <- <-]; congruence).
      destruct (e && _); intros [= <- <- <-]; congruence.
    + destruct (e && _); intros [= <- <- <-]; congruence.
  - cbn -[io_write try_write]. destruct (negb _).
    + pose proof (Hw w) as Hw2. destruct (io_write w) as [o2 w2].
      simpl in Hw2.
      destruct (try_write _ _ _ _ o2) as [sent2| |r0 why];
        [destruct (sent2 <? _)| |]; cbn -[io_write try_write];
        try (intros [= <- <- <-]; congruence).
      destruct (e && _); intros [= <- <- <-]; congruence.
    + destruct (e && _); intros [= <- <- <-]; congruence.
Qed.

Lemma send_once_io_log B c E v2 s w r s' w' :
  send_once B c E v2 s w = (r, s', w') -> io_log w' = io_log w.
Proof.
  unfold send_once, h2_sess_send_once_v2, h2_sess_send_once_v1_1.
  destruct v2.
  - destruct (fill_v2 _ _ _ _) as [wb q|wb q z].
    + by intros [= <- <- <-].
    + intros H. by apply send_bufs_io_log in H.
  - apply send_bufs_io_log.
Qed.

Lemma send_loop_io_log B c E fuel v2 s w r s' w' :
  send_loop B c E fuel v2 s w = (r, s', w') -> io_log w' = io_log w.
Proof.
  revert s w. induction fuel as [|fuel IH]; intros s w; simpl;
    destruct (send_once B c E v2 s w) as [[r1 s1] w1] eqn:H1;
    apply send_once_io_log in H1; destruct (0 <? r1).
  - intros [= <- <- <-]. done.
  - intros [= <- <- <-]. done.
  - intros H. apply IH in H. congruence.
  - intros [= <- <- <-]. done.
Qed.

(** C9.  Each of the seven fields of the settings is among the entries
    submitted to the codec if and only if its value is not negative, with
    that value; a field left at the -1 of [h2_settings_init] is omitted.  On
    an HTTP/2 session [h2_sess_send_settings] submits exactly these
    entries, once, and on any other session it does nothing and returns
    0. *)
Theorem send_settings_nonneg_fields :
  forall (H2_WR_BUF_SIZE sizeof_merge_data : Z) (EPOLL_MODE : bool)
         (s : h2_sess) (st : h2_settings) (w : io_world),
    (forall id v,
        {| settings_id_of := id; value := v |} ∈ settings_iv (Some st)
        <-> v = settings_field id st /\ 0 <= v)
    /\ (forall id, settings_field id st = -1 ->
                   forall v, {| settings_id_of := id; value := v |}
                             ∉ settings_iv (Some st))
    /\ settings_iv (Some h2_settings_init) = []
    /\ (is_v2 s = false ->
        h2_sess_send_settings H2_WR_BUF_SIZE sizeof_merge_data EPOLL_MODE
          s (Some st) w = (0, s, w))
    /\ (is_v2 s = true ->
        io_log (h2_sess_send_settings H2_WR_BUF_SIZE sizeof_merge_data
                  EPOLL_MODE s (Some st) w).2
        = io_log w ++ [EvNgSubmitSettings (settings_iv (Some st))]).
Proof.
  intros B c E s st w.
  assert (Hin : forall id v,
             {| settings_id_of := id; value := v |} ∈ settings_iv (Some st)
             <-> v = settings_field id st /\ 0 <= v).
  { intros id v. rewrite settings_iv_filter, list_elem_of_fmap. split.
    - intros (id' & [= -> ->] & Hf). apply list_elem_of_filter in Hf as [? _].
      done.
    - intros [-> Hv]. exists id. split; [done|].
      apply list_elem_of_filter. split; [done|].
      unfold all_settings_ids.
      destruct id;
        repeat (apply list_elem_of_here || apply list_elem_of_further). }
  split; [exact Hin|]. split.
  { intros id Hm v Hv. apply Hin in Hv. lia. }
  split; [reflexivity|].
  unfold h2_sess_send_settings. split.
  - intros ->. reflexivity.
  - intros ->. simpl. destruct (ng_submit_ret w =? 0); simpl; [|done].
    unfold h2_sess_send.
    destruct (send_loop _ _ _ _ _ _ _) as [[r s'] w'] eqn:H.
    apply send_loop_io_log in H. done.
Qed.

(** ** The HTTP/1.1 parser *)

(** The first line found in a buffer that holds [raw], a line feed, then
    [after]. *)
Lemma split_lines_first acc raw after :
  Forall (fun c => is_lf c = false) raw ->
  split_lines acc (raw ++ LF :: after)
  = (reverse acc ++ raw, after) :: split_lines [] after.
Proof.
  revert acc. induction raw as [|c raw IH]; intros acc Hraw; simpl.
  - by rewrite app_nil_r.
  - inversion Hraw as [|? ? Hc Hraw']; subst. rewrite Hc, IH by done.
    by rewrite reverse_cons, <- app_assoc.
Qed.





Lemma upd_rmsg_recving f s i strm :
  strm_recving s = Some i -> strm_list s !! i = Some strm ->
  recving_rmsg (upd_rmsg f s) = f (rmsg strm).
Proof.
  intros Hp Hi. unfold recving_rmsg, upd_rmsg. rewrite Hp. simpl.
  rewrite Hp. by rewrite list_lookup_alter_eq, Hi.
Qed.

Lemma code_inj x y : code x = code y -> x = y.
Proof.
  unfold code. intros H. apply N2Z.inj in H.
  rewrite <- (ascii_N_embedding x), <- (ascii_N_embedding y). by rewrite H.
Qed.

Lemma mem_eq_true a b : mem_eq a b = true <-> a = b.
Proof.
  revert b. induction a as [|x a IH]; intros [|y b]; simpl; try done.
  rewrite andb_true_iff, IH, Z.eqb_eq. split.
  - intros [Hc ->]. by rewrite (code_inj _ _ Hc).
  - by intros [= -> ->].
Qed.

(** A span with all the white space at its end removed. *)
Definition strip_trailing_sp (l : list ascii) : list ascii :=
  reverse (drop_while is_sp (reverse l)).

Definition non_sp (c : ascii) : bool := negb (is_sp c).

Lemma rstrip_rev_drop_while n r :
  drop_while is_sp (rstrip_rev n r) = drop_while is_sp r.
Proof.
  induction r as [|c r IH]; [done|].
  cbn [rstrip_rev]. destruct ((n <=? length (c :: r))%nat && is_sp c) eqn:E.
  - apply andb_true_iff in E as [_ E]. rewrite IH. simpl. by rewrite E.
  - done.
Qed.

Lemma rstrip_rev_stop n r :
  match rstrip_rev n r with
  | [] => True
  | c :: r' => is_sp c = false \/ (length (c :: r') < n)%nat
  end.
Proof.
  induction r as [|c r IH]; [done|].
  cbn [rstrip_rev]. destruct ((n <=? length (c :: r))%nat && is_sp c) eqn:E.
  - done.
  - apply andb_false_iff in E as [E|E]; [right|by left].
    apply Nat.leb_gt in E. done.
Qed.

Lemma rstrip_1 l : rstrip 1 l = strip_trailing_sp l.
Proof.
  unfold rstrip, strip_trailing_sp. f_equal.
  induction (reverse l) as [|c r IH]; [done|].
  cbn [rstrip_rev drop_while length].
  replace (1 <=? S (length r))%nat with true by (symmetry; by apply Nat.leb_le; lia).
  simpl. destruct (is_sp c); [exact IH|done].
Qed.

(** Stopping the removal once fewer than three characters are left does not
    change the method and the path that are read from the span. *)
Lemma rstrip_3_method_path l :
  take_while non_sp (rstrip 3 l) = take_while non_sp (strip_trailing_sp l)
  /\ drop_while is_sp (drop_while non_sp (rstrip 3 l))
     = drop_while is_sp (drop_while non_sp (strip_trailing_sp l)).
Proof.
  unfold rstrip, strip_trailing_sp.
  rewrite <- (rstrip_rev_drop_while 3 (reverse l)).
  pose proof (rstrip_rev_stop 3 (reverse l)) as Hstop.
  destruct (rstrip_rev 3 (reverse l)) as [|c r]; [done|].
  destruct Hstop as [Hc|Hlen].
  - simpl. by rewrite Hc.
  - destruct r as [|d [|e r]]; [| |simpl in Hlen; lia].
    + unfold non_sp. simpl. destruct (is_sp c) eqn:Hc; simpl; by rewrite ?Hc.
    + unfold non_sp. cbn [drop_while reverse rev_append].
      destruct (is_sp c) eqn:Hc, (is_sp d) eqn:Hd; simpl;
        rewrite ?Hc, ?Hd; simpl; by rewrite ?Hc, ?Hd.
Qed.

Lemma drop_suffix_app (pre suf : list ascii) :
  drop (length (pre ++ suf) - length suf) (pre ++ suf) = suf
  /\ take (length (pre ++ suf) - length suf) (pre ++ suf) = pre.
Proof.
  rewrite length_app.
  replace (length pre + length suf - length suf)%nat with (length pre) by lia.
  by rewrite drop_app_length, take_app_length.
Qed.

(** What the Request-Line code asks: at least twelve characters, the last
    eight being the version. *)
Definition request_line_ok (line : list ascii) : Prop :=
  (12 <= length line)%nat /\ exists pre, line = pre ++ chars "HTTP/1.1".

Lemma parse_request_line_eq line :
  parse_request_line line
  = if bool_decide ((12 <= length line)%nat)
       && mem_eq (drop (length line - 8) line) (chars "HTTP/1.1")
    then
      let l := strip_trailing_sp (take (length line - 8) line) in
      Some (take_while non_sp l, drop_while is_sp (drop_while non_sp l))
    else None.
Proof.
  unfold parse_request_line.
  change (1 + 1 + 1 + 1 + 8)%nat with 12%nat.
  destruct (Nat.leb_spec 12 (length line)); case_bool_decide; try lia;
    [|done].
  simpl. destruct (mem_eq _ _); [|done].
  change (1 + 1 + 1)%nat with 3%nat.
  change (fun c => negb (is_sp c)) with non_sp. cbv zeta.
  destruct (rstrip_3_method_path (take (length line - 8) line)) as [-> ->].
  done.
Qed.

Lemma parse_request_line_ok line :
  is_Some (parse_request_line line) <-> request_line_ok line.
Proof.
  rewrite parse_request_line_eq. unfold request_line_ok.
  case_bool_decide as Hlen; simpl.
  - destruct (mem_eq _ _) eqn:Hm.
    + split; [intros _|by eauto]. split; [done|].
      apply mem_eq_true in Hm. exists (take (length line - 8) line).
      by rewrite <- Hm, take_drop.
    + split; [intros [? [=]]|]. intros [_ [pre ->]].
      change 8%nat with (length (chars "HTTP/1.1")) in Hm.
      rewrite (proj1 (drop_suffix_app pre _)) in Hm.
      vm_compute in Hm. discriminate.
  - split; [intros [? [=]]|]. intros [? _]. done.
Qed.

Lemma parse_request_line_value pre :
  (12 <= length (pre ++ chars "HTTP/1.1"))%nat ->
  parse_request_line (pre ++ chars "HTTP/1.1")
  = Some (take_while non_sp (strip_trailing_sp pre),
          drop_while is_sp (drop_while non_sp (strip_trailing_sp pre))).
Proof.
  intros Hlen. rewrite parse_request_line_eq.
  rewrite bool_decide_eq_true_2 by done.
  change 8%nat with (length (chars "HTTP/1.1")).
  destruct (drop_suffix_app pre (chars "HTTP/1.1")) as [-> ->].
  by rewrite (proj2 (mem_eq_true _ _)).
Qed.

(** A value with the spaces and tabs at both ends removed. *)
Definition trim_sp (l : list ascii) : list ascii :=
  strip_trailing_sp (drop_while is_sp l).

(** The number that a string of decimal digits denotes. *)
Definition decimal (ds : list ascii) : Z :=
  fold_left (fun acc c => 10 * acc + (code c - 48)) ds 0.

Definition no_colon (l : list ascii) : Prop :=
  Forall (fun c => is_colon c = false) l.

Lemma caseless_eq_tolower a b :
  caseless_eq a b = true <-> tolower <$> a = tolower <$> b.
Proof.
  revert b. induction a as [|x a IH]; intros [|y b]; simpl; try done.
  rewrite andb_true_iff, Z.eqb_eq. split.
  - intros [Hx Hab]. apply IH in Hab. by f_equal.
  - intros [= Hx Hab]. split; [done|]. by apply IH.
Qed.

Lemma caseless_eq_length a b : caseless_eq a b = true -> length a = length b.
Proof.
  intros H. apply caseless_eq_tolower in H.
  apply (f_equal length) in H. by rewrite !length_fmap in H.
Qed.

Lemma split_at_colon name rest :
  no_colon name ->
  take_while (fun c => negb (is_colon c)) (name ++ COLON :: rest) = name
  /\ drop_while (fun c => negb (is_colon c)) (name ++ COLON :: rest)
     = COLON :: rest.
Proof.
  induction 1 as [|c name Hc _ [IH1 IH2]]; simpl; [done|].
  by rewrite Hc, IH1, IH2.
Qed.


Lemma drop_while_colon_inv line c rest :
  drop_while (fun c => negb (is_colon c)) line = c :: rest ->
  c = COLON
  /\ line = take_while (fun c => negb (is_colon c)) line ++ COLON :: rest
  /\ no_colon (take_while (fun c => negb (is_colon c)) line).
Proof.
  induction line as [|x line IH]; simpl; [done|].
  destruct (is_colon x) eqn:Hx; simpl.
  - intros [= -> ->].
    assert (c = COLON) as ->.
    { apply code_inj. unfold is_colon in Hx. apply Z.eqb_eq in Hx.
      by rewrite Hx. }
    split; [done|]. split; [done|constructor].
  - intros H. apply IH in H as (-> & H1 & H2). split; [done|].
    split; [by rewrite <- H1|by constructor].
Qed.

(** What follows the trimmed value in the untrimmed one is white space. *)
Lemma strip_trailing_sp_app l :
  exists sps, l = strip_trailing_sp l ++ sps /\ Forall (fun c => is_sp c = true) sps.
Proof.
  unfold strip_trailing_sp.
  assert (H : forall r, exists sps,
               r = sps ++ drop_while is_sp r
               /\ Forall (fun c => is_sp c = true) sps).
  { induction r as [|c r (sps & Hr & Hs)]; [by exists []|]. simpl.
    destruct (is_sp c) eqn:Hc.
    - exists (c :: sps). split; [by rewrite <- app_comm_cons, <- Hr|].
      by constructor.
    - by exists []. }
  destruct (H (reverse l)) as (sps & Hr & Hs).
  exists (reverse sps). split.
  - rewrite <- reverse_app, <- Hr. by rewrite reverse_involutive.
  - by apply Forall_reverse.
Qed.

Lemma atoi_digits_app ds rest acc :
  Forall (fun c => is_digit c = true) ds ->
  match rest with
  | [] => True
  | c :: _ => is_digit c = false
  end ->
  atoi_digits acc (ds ++ rest)
  = fold_left (fun acc c => 10 * acc + (code c - 48)) ds acc.
Proof.
  intros Hds Hrest. revert acc.
  induction Hds as [|c ds Hc _ IH]; intros acc; simpl.
  - destruct rest as [|c rest]; [done|]. simpl. by rewrite Hrest.
  - by rewrite Hc, IH.
Qed.

Lemma decimal_nonneg ds acc :
  Forall (fun c => is_digit c = true) ds -> 0 <= acc ->
  0 <= fold_left (fun acc c => 10 * acc + (code c - 48)) ds acc.
Proof.
  intros Hds. revert acc. induction Hds as [|c ds Hc _ IH]; intros acc Ha;
    simpl; [done|].
  apply IH. unfold is_digit in Hc. apply andb_true_iff in Hc as [H1 H2]. lia.
Qed.

(** [atoi] on a string of digits that is followed by something else. *)
Lemma atoi_decimal ds rest :
  Forall (fun c => is_digit c = true) ds -> ds <> [] ->
  decimal ds <= 2147483647 ->
  match rest with
  | [] => True
  | c :: _ => is_digit c = false
  end ->
  atoi (ds ++ rest) = decimal ds.
Proof.
  intros Hds Hne Hmax Hrest. unfold atoi.
  destruct ds as [|c ds]; [done|].
  inversion Hds as [|? ? Hc Hds']; subst.
  assert (48 <= code c <= 57) as Hcode.
  { unfold is_digit in Hc. apply andb_true_iff in Hc as [H1 H2]. lia. }
  assert (drop_while is_space ((c :: ds) ++ rest) = (c :: ds) ++ rest) as ->.
  { simpl. unfold is_space.
    replace (code c =? 32) with false by (symmetry; apply Z.eqb_neq; lia).
    replace (code c <=? 13) with false by (symmetry; apply Z.leb_gt; lia).
    by rewrite andb_false_r. }
  cbn [app].
  replace (code c =? 45) with false by (symmetry; apply Z.eqb_neq; lia).
  replace (code c =? 43) with false by (symmetry; apply Z.eqb_neq; lia).
  change (c :: ds ++ rest) with ((c :: ds) ++ rest).
  rewrite atoi_digits_app by done. fold (decimal (c :: ds)).
  pose proof (decimal_nonneg (c :: ds) 0 Hds ltac:(lia)) as Hnn.
  fold (decimal (c :: ds)) in Hnn.
  unfold LONG_MAX, to_int.
  rewrite Z.min_r, Z.max_r by lia.
  rewrite Z.mod_small by lia. lia.
Qed.

Lemma drop_while_nil_no_colon line :
  drop_while (fun c => negb (is_colon c)) line = [] -> no_colon line.
Proof.
  induction line as [|c l IH]; simpl; [by constructor|].
  destruct (is_colon c) eqn:Hc; simpl; [done|].
  intros H. constructor; [done|by apply IH].
Qed.

Lemma chomp_cr_inv raw :
  exists tail, raw = chomp_cr raw ++ tail
               /\ (tail = [] \/ exists c, tail = [c] /\ is_cr c = true).
Proof.
  unfold chomp_cr. destruct (reverse raw) as [|c r] eqn:Hr.
  - exists []. rewrite app_nil_r. by split; [|left].
  - destruct (is_cr c) eqn:Hc.
    + exists [c]. split; [|right; by exists c].
      rewrite <- (reverse_involutive raw), Hr. by rewrite reverse_cons.
    + exists []. rewrite app_nil_r. by split; [|left].
Qed.

Lemma parse_header_line_split server name rest aft :
  no_colon name ->
  parse_header_line server (name ++ COLON :: rest) aft
  = Some (if server
             && bool_decide (tolower <$> name = tolower <$> chars "host")
          then HdrAuthority (trim_sp rest)
          else if bool_decide (tolower <$> name
                               = tolower <$> chars "content-length")
          then HdrContentLength (atoi (drop_while is_sp rest ++ aft))
          else HdrAdd name (trim_sp rest)).
Proof.
  intros Hname. unfold parse_header_line.
  destruct (split_at_colon name rest Hname) as [-> ->].
  rewrite rstrip_1. fold (trim_sp rest).
  assert (Hcase : forall b n,
             length b = n ->
             (length name =? n)%nat && caseless_eq name b
             = bool_decide (tolower <$> name = tolower <$> b)).
  { intros b n Hb. case_bool_decide as Hd.
    - apply caseless_eq_tolower in Hd. rewrite Hd, andb_true_r.
      apply Nat.eqb_eq. apply caseless_eq_length in Hd. congruence.
    - destruct (caseless_eq name b) eqn:Hc; [|by rewrite andb_false_r].
      by apply caseless_eq_tolower in Hc. }
  rewrite (Hcase (chars "host") 4%nat) by done.
  rewrite (Hcase (chars "content-length") 14%nat) by done.
  rewrite (andb_comm _ server).
  destruct (server && _); [done|]. by case_bool_decide.
Qed.

Lemma not_digit_sp c : is_sp c = true -> is_digit c = false.
Proof.
  unfold is_sp, is_digit. intros H. apply orb_true_iff in H.
  destruct (Z.leb_spec 48 (code c)), (Z.leb_spec (code c) 57); simpl; try done.
  destruct H as [H|H]; apply Z.eqb_eq in H; lia.
Qed.

Lemma content_length_decimal raw after rest :
  let line := chomp_cr raw in
  let aft := drop (length line) raw ++ LF :: after in
  Forall (fun c => is_digit c = true) (trim_sp rest) ->
  trim_sp rest <> [] ->
  decimal (trim_sp rest) <= 2147483647 ->
  atoi (drop_while is_sp rest ++ aft) = decimal (trim_sp rest).
Proof.
  intros line aft Hds Hne Hmax.
  destruct (strip_trailing_sp_app (drop_while is_sp rest)) as (sps & Hv & Hs).
  fold (trim_sp rest) in Hv. rewrite Hv, <- app_assoc.
  apply atoi_decimal; try done.
  destruct sps as [|c sps]; simpl.
  - subst aft. destruct (chomp_cr_inv raw) as (tail & Hraw & Htail).
    fold line in Hraw. clearbody line. rewrite Hraw, drop_app_length.
    destruct Htail as [->|(c & -> & Hc)]; simpl; [done|].
    unfold is_cr in Hc. apply Z.eqb_eq in Hc. unfold is_digit. rewrite Hc.
    done.
  - inversion Hs; subst. by apply not_digit_sp.
Qed.

Lemma recv_header_line_step s raw after :
  rmsg_header_line s <> 0 -> chomp_cr raw <> [] ->
  recv_hdl_line s raw after
  = match recv_header_line s (chomp_cr raw)
            (drop (length (chomp_cr raw)) raw ++ LF :: after ++ rd_behind s)
    with
    | inl r => LineFail r
    | inr s' =>
        LineNext (set_rmsg_header_line (rmsg_header_line s' + 1)
                    (set_rdata_used
                       (rdata_used s + Z.of_nat (length raw) + 1) s'))
    end.
Proof.
  intros Hl Hne. unfold recv_hdl_line.
  destruct (chomp_cr raw) as [|c l]; [done|].
  by rewrite (proj2 (Z.eqb_neq _ _) Hl).
Qed.

(** ** The read buffer *)

(** The read-buffer fields that parsing leaves alone, and what is asked of
    the application callbacks: they do not touch the read buffer. *)
Definition rd_static (s : h2_sess) : option (list ascii) * Z * Z * Z :=
  (rdata s, rdata_alloced s, rdata_size s, rdata_offset s).

Definition keeps_rd (cb : h2_sess -> Z * h2_sess) : Prop :=
  forall s, rd_static (cb s).2 = rd_static s
            /\ rdata_used (cb s).2 = rdata_used s.

Ltac rd_solve :=
  unfold rd_static in *; simpl in *;
  repeat match goal with
         | H : (_, _) = (_, _) |- _ => injection H as ? ?
         end;
  repeat split; try congruence; try lia.

Lemma upd_rmsg_rd f s :
  rd_static (upd_rmsg f s) = rd_static s
  /\ rdata_used (upd_rmsg f s) = rdata_used s
  /\ rmsg_header_done (upd_rmsg f s) = rmsg_header_done s
  /\ strm_recving (upd_rmsg f s) = strm_recving s.
Proof. unfold upd_rmsg. by destruct (strm_recving s) eqn:E. Qed.

Lemma recv_first_line_rd s line s' :
  recv_first_line s line = inr s' ->
  rd_static s' = rd_static s /\ rdata_used s' = rdata_used s
  /\ rmsg_header_done s' = rmsg_header_done s
  /\ strm_recving s' = strm_recving s.
Proof.
  unfold recv_first_line. destruct (is_server s).
  - destruct (parse_request_line line) as [[m p]|]; [|done].
    intros [= <-]. apply upd_rmsg_rd.
  - destruct (parse_status_line line); [|done].
    intros [= <-]. apply upd_rmsg_rd.
Qed.

Lemma recv_header_line_rd s line aft s' :
  recv_header_line s line aft = inr s' ->
  rd_static s' = rd_static s /\ rdata_used s' = rdata_used s
  /\ rmsg_header_done s' = rmsg_header_done s
  /\ strm_recving s' = strm_recving s.
Proof.
  unfold recv_header_line.
  destruct (parse_header_line _ _ _) as [[v|n|nm v]|]; [| | |done];
    intros [= <-]; try apply upd_rmsg_rd. done.
Qed.

Lemma recv_hdl_line_rd s raw after :
  match recv_hdl_line s raw after with
  | LineFail _ => True
  | LineEnd s' =>
      rd_static s' = rd_static s
      /\ rdata_used s' = rdata_used s + Z.of_nat (length raw) + 1
      /\ rmsg_header_done s' = true
      /\ strm_recving s' = strm_recving s
  | LineNext s' =>
      rd_static s' = rd_static s
      /\ rdata_used s' = rdata_used s + Z.of_nat (length raw) + 1
      /\ rmsg_header_done s' = rmsg_header_done s
      /\ strm_recving s' = strm_recving s
  end.
Proof.
  unfold recv_hdl_line. destruct (chomp_cr raw) as [|c l]; [done|].
  destruct (rmsg_header_line s =? 0).
  - destruct (recv_first_line s (c :: l)) as [r|s1] eqn:H; [done|].
    apply recv_first_line_rd in H as (H1 & H2 & H3 & H4). rd_solve.
  - destruct (recv_header_line s (c :: l) _) as [r|s1] eqn:H; [done|].
    apply recv_header_line_rd in H as (H1 & H2 & H3 & H4). rd_solve.
Qed.

(** The bytes of a list of lines, each with its line feed. *)
Definition lines_size (ls : list (list ascii * list ascii)) : Z :=
  Z.of_nat (sum_list_with (fun l => S (length l.1)) ls).

Lemma split_lines_size acc buf :
  lines_size (split_lines acc buf) <= Z.of_nat (length acc + length buf).
Proof.
  unfold lines_size. revert acc.
  induction buf as [|c buf IH]; intros acc; simpl; [lia|].
  destruct (is_lf c); simpl.
  - rewrite length_reverse. specialize (IH []). simpl in IH. lia.
  - specialize (IH (c :: acc)). simpl in IH. lia.
Qed.

Lemma recv_hdr_lines_rd ls s s' :
  recv_hdr_lines ls s = inr s' ->
  rd_static s' = rd_static s
  /\ strm_recving s' = strm_recving s
  /\ rdata_used s <= rdata_used s' <= rdata_used s + lines_size ls
  /\ (rmsg_header_done s = false -> rmsg_header_done s' = true ->
      rdata_used s < rdata_used s').
Proof.
  unfold lines_size. revert s.
  induction ls as [|[raw after] ls IH]; intros s; simpl.
  - intros [= <-]. split; [done|]. split; [done|]. split; [lia|congruence].
  - pose proof (recv_hdl_line_rd s raw after) as Hl.
    destruct (recv_hdl_line s raw after) as [r|s1|s1]; [done| |].
    + intros [= <-]. destruct Hl as (H1 & H2 & H3 & H4).
      split; [done|]. split; [done|]. lia.
    + intros H. apply IH in H as (I1 & I2 & I3 & I4).
      destruct Hl as (H1 & H2 & H3 & H4).
      split; [congruence|]. split; [congruence|]. split; [lia|].
      intros Hd Hd'. rewrite Hd in H3. specialize (I4 H3 Hd'). lia.
Qed.

Lemma recv_hdl_line_fail s raw after r :
  recv_hdl_line s raw after = LineFail r -> r < 0.
Proof.
  unfold recv_hdl_line, recv_first_line, recv_header_line.
  destruct (chomp_cr raw) as [|c l]; [done|].
  destruct (rmsg_header_line s =? 0).
  - destruct (is_server s).
    + destruct (parse_request_line _) as [[m p]|]; [done|].
      intros [= <-]. lia.
    + destruct (parse_status_line _); [done|]. intros [= <-]. lia.
  - destruct (parse_header_line _ _ _) as [[v|n|nm v]|]; try done.
    intros [= <-]. lia.
Qed.

Lemma recv_hdr_lines_fail ls s e :
  recv_hdr_lines ls s = inl e -> rd_static e.2 = rd_static s /\ e.1 < 0.
Proof.
  revert s. induction ls as [|[raw after] ls IH]; intros s; simpl; [done|].
  pose proof (recv_hdl_line_rd s raw after) as Hr.
  destruct (recv_hdl_line s raw after) as [r|s1|s1] eqn:Hline.
  - intros [= <-]. split; [done|]. by apply recv_hdl_line_fail in Hline.
  - done.
  - intros H. apply IH in H as [H1 H2]. destruct Hr as (R1 & _).
    split; [congruence|done].
Qed.

Lemma rd_unread_length s :
  0 <= rdata_used s <= rdata_size s ->
  Z.of_nat (length (rd_unread s)) <= rdata_size s - rdata_used s.
Proof.
  intros H. unfold rd_unread. rewrite length_drop, length_take. lia.
Qed.

Lemma recv_begin_rd s s' :
  recv_begin s = inr s' ->
  rd_static s' = rd_static s /\ rdata_used s' = rdata_used s
  /\ (strm_recving s = None -> rmsg_header_done s' = false).
Proof.
  unfold recv_begin. destruct (strm_recving s).
  - by intros [= <-].
  - destruct (is_server s).
    + by intros [= <-].
    + destruct (strm_list s); [done|]. by intros [= <-].
Qed.

Lemma recv_body_rd s :
  rd_static (recv_body s) = rd_static s
  /\ rmsg_content_length (recv_body s) = rmsg_content_length s
  /\ (rdata_used (recv_body s) = rdata_used s
      \/ rdata_used (recv_body s) = rdata_used s + rmsg_content_length s
         /\ rmsg_content_length s <= rdata_size s - rdata_used s).
Proof.
  unfold recv_body. destruct (_ && _); [|by auto].
  destruct (Z.leb_spec (rmsg_content_length s) (rdata_size s - rdata_used s));
    [|by auto].
  destruct (upd_rmsg_rd
              (h2_cpy_body (rd_unread s) (rmsg_content_length s)) s)
    as (H1 & H2 & H3 & H4).
  split; [rd_solve|]. split.
  - unfold upd_rmsg. by destruct (strm_recving s).
  - right. done.
Qed.

Section RecvProps.

Variable cb1 cb2 : h2_sess -> Z * h2_sess.
Hypothesis cb1_keeps_rd : keeps_rd cb1.
Hypothesis cb2_keeps_rd : keeps_rd cb2.

Lemma recv_complete_rd s r s' :
  recv_complete cb1 cb2 s = (r, s') ->
  rd_static s' = rd_static s /\ rdata_used s' = rdata_used s
  /\ strm_recving s' = None.
Proof.
  unfold recv_complete. destruct (is_server s).
  - destruct (cb1_keeps_rd (set_req_cnt (to_int (req_cnt s + 1)) s))
      as [H1 H2].
    destruct (cb1 _) as [r1 s1]. intros [= <- <-]. rd_solve.
  - destruct (cb2_keeps_rd s) as [H1 H2].
    destruct (cb2 s) as [r1 s1]. intros [= <- <-].
    destruct (strm_recving s1); rd_solve.
Qed.

(** One step of the parser leaves the buffer, its capacity and its size as
    they are; a step that completes a message does not move [rdata_used]
    back, leaves it within the buffer, and has moved it forward when the
    message was started by this step. *)
Lemma recv_hdl_once_rd s r s' :
  h2_sess_recv_hdl_once_v1_1 cb1 cb2 s = (r, s') ->
  rd_static s' = rd_static s
  /\ (r = 1 ->
      strm_recving s' = None
      /\ rdata_used s <= rdata_used s'
      /\ (strm_recving s = None -> rdata_used s < rdata_used s')
      /\ (0 <= rdata_used s <= rdata_size s ->
          rdata_used s' <= rdata_size s')).
Proof.
  unfold h2_sess_recv_hdl_once_v1_1.
  destruct (recv_begin s) as [r0|s0] eqn:Hb.
  { intros [= <- <-]. split; [done|]. intros ->.
    unfold recv_begin in Hb. repeat case_match; simplify_eq. }
  apply recv_begin_rd in Hb as (B1 & B2 & B3).
  assert ((exists s1,
              (if rmsg_header_done s0 then inr s0
               else recv_hdr_lines (split_lines [] (rd_unread s0)) s0)
              = inr s1
              /\ rd_static s1 = rd_static s0
              /\ rdata_used s0 <= rdata_used s1
              /\ (rmsg_header_done s0 = false -> rmsg_header_done s1 = true ->
                  rdata_used s0 < rdata_used s1)
              /\ (0 <= rdata_used s0 <= rdata_size s0 ->
                  rdata_used s1 <= rdata_size s0))
          \/ (exists e,
                (if rmsg_header_done s0 then inr s0
                 else recv_hdr_lines (split_lines [] (rd_unread s0)) s0)
                = inl e /\ rd_static e.2 = rd_static s0 /\ e.1 <> 1))
    as [(s1 & -> & H1 & H2 & H3 & H4)|(e & -> & He)].
  { destruct (rmsg_header_done s0) eqn:Hd.
    - left. exists s0. repeat split; try done; try lia.
    - destruct (recv_hdr_lines _ s0) as [e|s1] eqn:Hl.
      + right. exists e. split; [done|].
        apply recv_hdr_lines_fail in Hl as [? ?]. split; [done|lia].
      + left. exists s1. split; [done|].
        apply recv_hdr_lines_rd in Hl as (L1 & L2 & L3 & L4).
        split; [done|]. split; [lia|]. split; [intros _; by apply L4|].
        intros Hw. pose proof (split_lines_size [] (rd_unread s0)) as Hs.
        pose proof (rd_unread_length s0 Hw). simpl in Hs. lia. }
  2:{ destruct e as [re se]. intros [= <- <-]. simpl in He.
      split; [by etrans; [apply He|]|]. intros ->. by destruct He. }
  destruct (rmsg_header_done s1) eqn:Hd1; [|intros [= <- <-]; split;
                                             [congruence|done]].
  destruct (recv_body_rd s1) as (Y1 & Y2 & Y3).
  destruct (rmsg_content_length (recv_body s1)
            =? h2_body_len (recving_rmsg (recv_body s1))) eqn:Hc;
    [|intros [= <- <-]; split; [congruence|done]].
  intros Hcpl. apply recv_complete_rd in Hcpl as (C1 & C2 & C3).
  split; [congruence|]. intros _. split; [done|].
  assert (0 <= rmsg_content_length s1) as Hnn.
  { apply Z.eqb_eq in Hc. rewrite <- Y2, Hc. unfold h2_body_len. lia. }
  assert (rd_static s' = rd_static s0) as Hst by congruence.
  assert (rdata_size s' = rdata_size s0 /\ rdata_size s1 = rdata_size s0
          /\ rdata_size s0 = rdata_size s) as (Z1 & Z2 & Z3).
  { clear -Hst H1 B1. rd_solve. }
  split; [lia|]. split.
  - intros Hn. specialize (B3 Hn). specialize (H3 B3 eq_refl). lia.
  - intros Hw. rewrite B2, Z3 in H4. specialize (H4 Hw). lia.
Qed.

Lemma recv_loop_rd fuel s r s' :
  recv_loop cb1 cb2 fuel s = (r, s') -> rd_static s' = rd_static s.
Proof.
  revert s. induction fuel as [|fuel IH]; intros s; simpl;
    destruct (h2_sess_recv_hdl_once_v1_1 cb1 cb2 s) as [r1 s1] eqn:H1;
    apply recv_hdl_once_rd in H1 as [H1 _];
    destruct (r1 =? 1); try destruct (_ || _);
    try (intros [= <- <-]; done).
  intros H. apply IH in H. congruence.
Qed.

(** The loop never uses up its fuel: once a message has been completed,
    every further message takes at least one unread byte. *)
Lemma recv_loop_fuel_started f1 f2 s :
  strm_recving s = None -> 0 <= rdata_used s <= rdata_size s ->
  rdata_size s - rdata_used s <= Z.of_nat f1 + 1 ->
  rdata_size s - rdata_used s <= Z.of_nat f2 + 1 ->
  recv_loop cb1 cb2 f1 s = recv_loop cb1 cb2 f2 s.
Proof.
  revert f2 s. induction f1 as [|f1 IH]; intros f2 s Hn Hw Hf1 Hf2.
  - destruct f2 as [|f2]; [done|]. simpl.
    destruct (h2_sess_recv_hdl_once_v1_1 cb1 cb2 s) as [r1 s1] eqn:H1.
    destruct (Z.eqb_spec r1 1) as [->|]; [|done].
    apply recv_hdl_once_rd in H1 as [R1 R2].
    destruct (R2 eq_refl) as (_ & _ & R3 & R4).
    specialize (R3 Hn). specialize (R4 Hw).
    assert (rdata_size s1 = rdata_size s) by (clear -R1; rd_solve).
    destruct (Z.eqb_spec (rdata_used s1) (rdata_size s1)); [done|].
    simpl in Hf1. lia.
  - simpl.
    destruct (h2_sess_recv_hdl_once_v1_1 cb1 cb2 s) as [r1 s1] eqn:H1.
    destruct (Z.eqb_spec r1 1) as [->|]; [|by destruct f2; simpl; rewrite H1;
      destruct (Z.eqb_spec r1 1)].
    apply recv_hdl_once_rd in H1 as HR. destruct HR as [R1 R2].
    destruct (R2 eq_refl) as (R0 & _ & R3 & R4).
    specialize (R3 Hn). specialize (R4 Hw).
    assert (rdata_size s1 = rdata_size s) by (clear -R1; rd_solve).
    destruct f2 as [|f2]; simpl; rewrite H1; simpl.
    + destruct (Z.eqb_spec (rdata_used s1) (rdata_size s1)); [done|].
      simpl in Hf2. lia.
    + destruct (_ || _); [done|]. apply IH; try done; lia.
Qed.

Lemma recv_loop_fuel f1 f2 s :
  0 <= rdata_used s <= rdata_size s ->
  rdata_size s - rdata_used s <= Z.of_nat f1 ->
  rdata_size s - rdata_used s <= Z.of_nat f2 ->
  recv_loop cb1 cb2 f1 s = recv_loop cb1 cb2 f2 s.
Proof.
  intros Hw Hf1 Hf2.
  assert (Hstep : forall f r1 s1,
             h2_sess_recv_hdl_once_v1_1 cb1 cb2 s = (r1, s1) ->
             rdata_size s - rdata_used s <= Z.of_nat f ->
             recv_loop cb1 cb2 f s
             = if r1 =? 1 then
                 if (rdata_used s1 =? rdata_size s1) || (is_terminated s1 =? 1)
                 then (r1, s1)
                 else recv_loop cb1 cb2 (Nat.pred f) s1
               else (r1, s1)).
  { intros f r1 s1 H1 Hf. destruct f as [|f]; simpl; rewrite H1; [|done].
    destruct (Z.eqb_spec r1 1) as [->|]; [|done].
    apply recv_hdl_once_rd in H1 as [R1 R2].
    destruct (R2 eq_refl) as (_ & R3 & _ & R4). specialize (R4 Hw).
    assert (rdata_size s1 = rdata_size s) by (clear -R1; rd_solve).
    destruct (Z.eqb_spec (rdata_used s1) (rdata_size s1)); [done|].
    simpl in Hf. lia. }
  destruct (h2_sess_recv_hdl_once_v1_1 cb1 cb2 s) as [r1 s1] eqn:H1.
  rewrite (Hstep f1 r1 s1), (Hstep f2 r1 s1) by done.
  destruct (Z.eqb_spec r1 1) as [->|]; [|done].
  destruct (Z.eqb_spec (rdata_used s1) (rdata_size s1)); [done|].
  destruct (is_terminated s1 =? 1); [done|]. simpl.
  apply recv_hdl_once_rd in H1 as [R1 R2].
  destruct (R2 eq_refl) as (R0 & R3 & _ & R4). specialize (R4 Hw).
  assert (rdata_size s1 = rdata_size s) by (clear -R1; rd_solve).
  apply recv_loop_fuel_started; try done; lia.
Qed.

End RecvProps.

Lemma rd_append_buffer s new size :
  is_Some (rdata (rd_append s new size)).
Proof.
  unfold rd_append. destruct (rdata s); [|by eexists].
  destruct (_ <=? _); by eexists.
Qed.

(** An application that accepts every message and one that refuses every
    message; neither touches the session. *)
Definition cb_accept (s : h2_sess) : Z * h2_sess := (0, s).
Definition cb_refuse (s : h2_sess) : Z * h2_sess := (-1, s).

(** A request of 43 header bytes and a body of 17000 bytes, received by a
    new server session in two chunks: the first 16384 bytes, then the
    other 659. *)
Definition big_request : list ascii :=
  chars "POST /x HTTP/1.1" ++ [CR; LF]
  ++ chars "Content-Length: 17000" ++ [CR; LF] ++ [CR; LF]
  ++ replicate (Z.to_nat 17000) "x"%char.

Definition big_request_first_chunk : h2_sess :=
  (h2_sess_recv_v1_1 cb_accept cb_accept
     (h2_sess_init true H2_HTTP_V1_1 false)
     (take (Z.to_nat 16384) big_request) 16384).2.

(** C6, as stated, fails: a receive step that fails returns before the
    buffer is looked at.  Here the second chunk completes the request, all
    17000 buffered bytes are consumed and the buffer has grown to 17000
    bytes, above the default of 16384; the application refuses the request,
    the step returns -1 and the buffer is still allocated. *)
Lemma recv_failure_keeps_grown_buffer :
  let out := h2_sess_recv_v1_1 cb_refuse cb_refuse big_request_first_chunk
               (drop (Z.to_nat 16384) big_request) 659 in
  rdata_alloced big_request_first_chunk = 16384
  /\ out.1 = -1
  /\ rdata_used out.2 = rdata_size out.2
  /\ rdata_size out.2 = 17000
  /\ rdata_alloced out.2 = 17000
  /\ RDATA_ALLOC_DEF < rdata_alloced out.2
  /\ is_Some (rdata out.2).
Proof. vm_compute. repeat split; try done. by eexists. Qed.

(** C6, amended.  After a receive step on an HTTP/1.1 session that does
    not fail (it returns the size of the chunk), if all buffered bytes are
    consumed and the capacity of the buffer exceeds the default of 16 KiB,
    the read buffer is freed: [rdata] is null and [rdata_alloced],
    [rdata_size] and [rdata_used] are zero.  If the capacity is at most
    the default, or bytes remain unread, the buffer is retained with its
    capacity.  A step that fails returns -1 with the buffer as parsing
    left it.  Parsing itself never changes the buffer, its capacity or
    its size, as long as the application callbacks leave them alone. *)
Theorem recv_releases_grown_buffer :
  forall (cb1 cb2 : h2_sess -> Z * h2_sess) (s : h2_sess)
         (new : list ascii) (size : Z),
    keeps_rd cb1 -> keeps_rd cb2 ->
    let appended := rd_append s new size in
    let parsed :=
      recv_loop cb1 cb2
        (Z.to_nat (rdata_size appended - rdata_used appended)) appended in
    let out := h2_sess_recv_v1_1 cb1 cb2 s new size in
    rd_static parsed.2 = rd_static appended
    /\ is_Some (rdata appended)
    /\ (parsed.1 < 0 -> out = (-1, parsed.2))
    /\ (0 <= parsed.1 ->
        out.1 = size
        /\ (rdata_used parsed.2 = rdata_size appended ->
            RDATA_ALLOC_DEF < rdata_alloced appended ->
            rdata out.2 = None /\ rdata_alloced out.2 = 0
            /\ rdata_size out.2 = 0 /\ rdata_used out.2 = 0)
        /\ (rdata_alloced appended <= RDATA_ALLOC_DEF
            \/ rdata_used parsed.2 <> rdata_size appended ->
            out.2 = parsed.2
            /\ rdata out.2 = rdata appended
            /\ rdata_alloced out.2 = rdata_alloced appended)).
Proof.
  intros cb1 cb2 s new size Hcb1 Hcb2 appended parsed out.
  subst out. unfold h2_sess_recv_v1_1. fold appended. fold parsed.
  destruct parsed as [r0 sp] eqn:Hp. simpl.
  pose proof (recv_loop_rd cb1 cb2 Hcb1 Hcb2 _ _ _ _ Hp) as Hrd.
  assert (rdata sp = rdata appended
          /\ rdata_alloced sp = rdata_alloced appended
          /\ rdata_size sp = rdata_size appended) as (E1 & E2 & E3).
  { clear -Hrd. rd_solve. }
  split; [done|]. split; [apply rd_append_buffer|].
  destruct (Z.ltb_spec r0 0) as [Hneg|Hpos].
  - split; [done|]. intros ?. lia.
  - split; [intros ?; lia|]. intros _. split; [done|].
    unfold rd_release. rewrite E2, E3. split.
    + intros Hu Ha. rewrite Hu, Z.eqb_refl.
      rewrite (proj2 (Z.ltb_lt _ _) Ha). done.
    + intros [Ha|Hu].
      * rewrite (proj2 (Z.ltb_ge _ _) Ha), andb_false_r. done.
      * rewrite (proj2 (Z.eqb_neq _ _) Hu). done.
Qed.

Lemma recv_releases_grown_buffer_witness :
  let s := big_request_first_chunk in
  let new := drop (Z.to_nat 16384) big_request in
  let appended := rd_append s new 659 in
  let parsed :=
    recv_loop cb_accept cb_accept
      (Z.to_nat (rdata_size appended - rdata_used appended)) appended in
  let out := h2_sess_recv_v1_1 cb_accept cb_accept s new 659 in
  rd_static parsed.2 = rd_static appended
  /\ is_Some (rdata appended)
  /\ (parsed.1 < 0 -> out = (-1, parsed.2))
  /\ (0 <= parsed.1 ->
      out.1 = 659
      /\ (rdata_used parsed.2 = rdata_size appended ->
          RDATA_ALLOC_DEF < rdata_alloced appended ->
          rdata out.2 = None /\ rdata_alloced out.2 = 0
          /\ rdata_size out.2 = 0 /\ rdata_used out.2 = 0)
      /\ (rdata_alloced appended <= RDATA_ALLOC_DEF
          \/ rdata_used parsed.2 <> rdata_size appended ->
          out.2 = parsed.2
          /\ rdata out.2 = rdata appended
          /\ rdata_alloced out.2 = rdata_alloced appended)).
Proof.
  apply (recv_releases_grown_buffer cb_accept cb_accept
           big_request_first_chunk (drop (Z.to_nat 16384) big_request) 659).
  - intros s. split; reflexivity.
  - intros s. split; reflexivity.
Defined.

(** The run of the witness: the request is accepted, every byte is
    consumed, and the buffer grown to 17000 bytes is freed. *)
Example recv_accepted_frees_grown_buffer :
  let out := h2_sess_recv_v1_1 cb_accept cb_accept big_request_first_chunk
               (drop (Z.to_nat 16384) big_request) 659 in
  out.1 = 659 /\ rdata out.2 = None /\ rdata_alloced out.2 = 0
  /\ rdata_size out.2 = 0 /\ rdata_used out.2 = 0
  /\ req_cnt out.2 = 1.
Proof. vm_compute. done. Qed.

(** ** The peer *)

(** The slot probed at turn [j] of the search that starts at [nsi]. *)
Definition probe_slot (p : h2_peer) (nsi j : Z) : nat :=
  Z.to_nat (Z.rem (nsi + j) (Peer.sess_num p)).

(** A slot the search passes over: no session, or not active. *)
Definition slot_idle (p : h2_peer) (si : nat) : Prop :=
  peer_sess p si = None \/ peer_act_sess p si = 0.

(** The fields of a peer that a request does not change. *)
Definition peer_config (p : h2_peer) : Z * Z * Z :=
  (Peer.sess_num p, Peer.req_thr_for_reconn p, Peer.is_terminated p).

Lemma peer_sess_set si v p si' :
  peer_sess (set_peer_sess si v p) si'
  = if decide (si' = si /\ (si < length (Peer.sess p))%nat) then v
    else peer_sess p si'.
Proof.
  unfold peer_sess. simpl. case_decide as Hd.
  - destruct Hd as [-> Hlt]. by rewrite list_lookup_insert_eq.
  - destruct (decide (si' = si)) as [->|Hne].
    + rewrite list_insert_ge by lia. done.
    + by rewrite list_lookup_insert_ne.
Qed.

Lemma peer_act_sess_set si v num p si' :
  peer_act_sess (set_peer_act_sess si v num p) si'
  = if decide (si' = si /\ (si < length (Peer.act_sess p))%nat) then v
    else peer_act_sess p si'.
Proof.
  unfold peer_act_sess. simpl. case_decide as Hd.
  - destruct Hd as [-> Hlt]. by rewrite list_lookup_insert_eq.
  - destruct (decide (si' = si)) as [->|Hne].
    + rewrite list_insert_ge by lia. done.
    + by rewrite list_lookup_insert_ne.
Qed.

Lemma peer_act_sess_in_range p si :
  peer_act_sess p si <> 0 -> (si < length (Peer.act_sess p))%nat.
Proof.
  unfold peer_act_sess. intros H. apply lookup_lt_is_Some.
  destruct (Peer.act_sess p !! si); [by eexists|done].
Qed.

Lemma peer_sess_in_range p si s :
  peer_sess p si = Some s -> (si < length (Peer.sess p))%nat.
Proof.
  unfold peer_sess. intros H. apply lookup_lt_is_Some.
  destruct (Peer.sess p !! si); [by eexists|done].
Qed.

Lemma terminate_some s x w : is_Some (h2_sess_terminate (Some s) x w).1.2.
Proof. simpl. repeat case_match; by eexists. Qed.

(** What marking a slot inactive and terminating its session does to the
    peer. *)
Lemma peer_rotate_spec si s p w p' w' :
  peer_sess p si = Some s -> peer_act_sess p si <> 0 ->
  peer_rotate si s p w = (p', w') ->
  peer_config p' = peer_config p
  /\ Peer.next_sess_idx p' = Peer.next_sess_idx p
  /\ Peer.act_sess_num p' = Peer.act_sess_num p - 1
  /\ peer_act_sess p' si = 0
  /\ peer_sess p' si = (h2_sess_terminate (Some s) 1 w).1.2
  /\ w' = (h2_sess_terminate (Some s) 1 w).2
  /\ (forall si', si' <> si ->
        peer_sess p' si' = peer_sess p si'
        /\ peer_act_sess p' si' = peer_act_sess p si')
  /\ (forall si', peer_act_sess p si' = 0 -> peer_act_sess p' si' = 0)
  /\ (forall si', peer_sess p si' = None -> peer_sess p' si' = None).
Proof.
  intros Hs Ha. unfold peer_rotate, peer_deactivate.
  rewrite (proj2 (Z.eqb_neq _ _) Ha). simpl negb. cbv iota.
  destruct (h2_sess_terminate (Some s) 1 w) as [[r s1] w1] eqn:Ht.
  intros [= <- <-].
  pose proof (peer_act_sess_in_range p si Ha) as Hra.
  pose proof (peer_sess_in_range p si s Hs) as Hrs.
  split; [done|]. split; [done|]. split; [done|].
  assert (Hact : forall si',
             peer_act_sess
               (set_peer_sess si s1
                  (set_peer_act_sess si 0 (Peer.act_sess_num p - 1) p)) si'
             = if decide (si' = si) then 0 else peer_act_sess p si').
  { intros si'.
    change (peer_act_sess (set_peer_sess si s1 ?q) si')
      with (peer_act_sess q si').
    rewrite peer_act_sess_set. destruct (decide (si' = si)) as [->|Hne].
    - by rewrite decide_True.
    - rewrite decide_False; [done|]. by intros [? ?]. }
  assert (Hsess : forall si',
             peer_sess
               (set_peer_sess si s1
                  (set_peer_act_sess si 0 (Peer.act_sess_num p - 1) p)) si'
             = if decide (si' = si) then s1 else peer_sess p si').
  { intros si'. rewrite peer_sess_set. simpl.
    destruct (decide (si' = si)) as [->|Hne].
    - by rewrite decide_True.
    - rewrite decide_False; [done|]. by intros [? ?]. }
  split. { rewrite Hact. by case_decide. }
  split. { rewrite Hsess. by case_decide. }
  split; [done|]. split.
  { intros si' Hne. rewrite Hact, Hsess. by repeat case_decide. }
  split.
  - intros si' H0. rewrite Hact. by case_decide.
  - intros si' Hn. rewrite Hsess. case_decide; [|done]. congruence.
Qed.

Lemma probe_slot_config p p' nsi j :
  peer_config p' = peer_config p -> probe_slot p' nsi j = probe_slot p nsi j.
Proof. unfold probe_slot, peer_config. by intros [= -> _ _]. Qed.

(** The search, from turn [i] with [k] turns left: where it stops, what it
    leaves alone, and what it has done to the slots it has passed. *)
Lemma peer_find_sess_spec k nsi i sess p w iout sout pout wout :
  (forall si, sess = Some si -> peer_act_sess p si = 0) ->
  peer_find_sess k nsi i sess p w = (iout, sout, pout, wout) ->
  i <= iout <= i + Z.of_nat k
  /\ peer_config pout = peer_config p
  /\ Peer.next_sess_idx pout = Peer.next_sess_idx p
  /\ (forall si, peer_act_sess p si = 0 -> peer_act_sess pout si = 0)
  /\ (forall si, peer_sess p si = None -> peer_sess pout si = None)
  /\ (forall j, i <= j < iout -> slot_idle pout (probe_slot p nsi j))
  /\ (iout < i + Z.of_nat k ->
      exists s, sout = Some (probe_slot p nsi iout)
                /\ peer_sess pout (probe_slot p nsi iout) = Some s
                /\ peer_act_sess pout (probe_slot p nsi iout) <> 0
                /\ too_many_requests pout s = false)
  /\ (iout = i + Z.of_nat k ->
      forall si, sout = Some si -> peer_act_sess pout si = 0).
Proof.
  revert i sess p w iout sout pout wout.
  induction k as [|k IH]; intros i sess p w iout sout pout wout Hsess.
  { simpl. intros [= <- <- <- <-]. repeat split; try done; try lia. }
  cbn [peer_find_sess]. fold (probe_slot p nsi i).
  set (si := probe_slot p nsi i).
  assert (Hidle_keep : forall p1 iout1 sout1 pout1 wout1 sess1 w1,
             peer_config p1 = peer_config p ->
             Peer.next_sess_idx p1 = Peer.next_sess_idx p ->
             (forall si', peer_act_sess p si' = 0 -> peer_act_sess p1 si' = 0) ->
             (forall si', peer_sess p si' = None -> peer_sess p1 si' = None) ->
             slot_idle p1 si ->
             (forall si', sess1 = Some si' -> peer_act_sess p1 si' = 0) ->
             peer_find_sess k nsi (i + 1) sess1 p1 w1
             = (iout1, sout1, pout1, wout1) ->
             i <= iout1 <= i + Z.of_nat (S k)
             /\ peer_config pout1 = peer_config p
             /\ Peer.next_sess_idx pout1 = Peer.next_sess_idx p
             /\ (forall si, peer_act_sess p si = 0 -> peer_act_sess pout1 si = 0)
             /\ (forall si, peer_sess p si = None -> peer_sess pout1 si = None)
             /\ (forall j, i <= j < iout1 ->
                           slot_idle pout1 (probe_slot p nsi j))
             /\ (iout1 < i + Z.of_nat (S k) ->
                 exists s, sout1 = Some (probe_slot p nsi iout1)
                           /\ peer_sess pout1 (probe_slot p nsi iout1) = Some s
                           /\ peer_act_sess pout1 (probe_slot p nsi iout1) <> 0
                           /\ too_many_requests pout1 s = false)
             /\ (iout1 = i + Z.of_nat (S k) ->
                 forall si, sout1 = Some si -> peer_act_sess pout1 si = 0)).
  { intros p1 iout1 sout1 pout1 wout1 sess1 w1 Hc Hn Ha Hs Hi Hs1 Hf.
    apply IH in Hf as (F1 & F2 & F3 & F4 & F5 & F6 & F7 & F8); [|done].
    split; [lia|]. split; [congruence|]. split; [congruence|].
    split; [by auto|]. split; [by auto|]. split.
    { intros j Hj. destruct (decide (j = i)) as [->|Hne].
      - destruct Hi as [Hi|Hi]; [left|right]; by auto.
      - rewrite <- (probe_slot_config p p1) by done. apply F6. lia. }
    split.
    { intros Hlt. rewrite <- (probe_slot_config p p1) by done.
      apply F7. lia. }
    intros Heq. apply F8. lia. }
  destruct (peer_sess p si) as [s|] eqn:Hslot.
  - destruct (Z.eqb_spec (peer_act_sess p si) 0) as [Hact|Hact]; simpl negb;
      cbv iota.
    + apply Hidle_keep; try done. by right.
      intros si' [= <-]. done.
    + destruct (too_many_requests p s) eqn:Htoo.
      * destruct (peer_rotate si s p w) as [p1 w1] eqn:Hrot.
        apply peer_rotate_spec in Hrot
          as (R1 & R2 & R3 & R4 & R5 & R6 & R7 & R8 & R9); try done.
        apply Hidle_keep; try done. by right.
      * intros [= <- <- <- <-].
        split; [lia|]. split; [done|]. split; [done|].
        split; [done|]. split; [done|]. split; [intros j ?; lia|].
        split; [|intros ?; lia].
        intros _. exists s. done.
  - apply Hidle_keep; try done. by left.
Qed.

(** A client HTTP/1.1 session that has sent [n] requests. *)
Definition client_sess (n : Z) : h2_sess :=
  set_req_cnt n (h2_sess_init false H2_HTTP_V1_1 false).

(** [h2_send_request] as the examples see it: the request is counted and
    accepted. *)
Definition send_counted (s : h2_sess) (req : h2_msg) : Z * h2_sess :=
  (0, set_req_cnt (req_cnt s + 1) s).

(** A peer of two sessions, both active, that is terminating; and a peer
    of three slots whose first slot has lost its session. *)
Definition terminating_peer : h2_peer :=
  {| Peer.sess_num := 2; Peer.req_thr_for_reconn := 0;
     Peer.is_terminated := 1; Peer.settings := h2_settings_init;
     Peer.sess := [Some (client_sess 0); Some (client_sess 0)];
     Peer.act_sess := [1; 1]; Peer.act_sess_num := 2;
     Peer.next_sess_idx := 0;
     Peer.req_cnt := 0; Peer.rsp_cnt := 0; Peer.rsp_rst_cnt := 0;
     Peer.strm_close_cnt := 0; Peer.sess_close_cnt := 0 |}.

Definition peer_with_gap : h2_peer :=
  {| Peer.sess_num := 3; Peer.req_thr_for_reconn := 0;
     Peer.is_terminated := 0; Peer.settings := h2_settings_init;
     Peer.sess := [None; Some (client_sess 0); Some (client_sess 0)];
     Peer.act_sess := [0; 1; 1]; Peer.act_sess_num := 2;
     Peer.next_sess_idx := 0;
     Peer.req_cnt := 0; Peer.rsp_cnt := 0; Peer.rsp_rst_cnt := 0;
     Peer.strm_close_cnt := 0; Peer.sess_close_cnt := 0 |}.

(** C7, as stated, fails twice.  A terminating peer refuses the request
    before the cursor is touched: it stays at 0, not 1.  And when the
    session used is not the one at the cursor, the cursor goes one past
    the slot used: from 0 to 2 when slot 1 is used, not to 1. *)
Lemma send_request_cursor_not_by_one :
  (let out := h2_peer_send_request send_counted terminating_peer
                h2_msg_empty quiet_world in
   out.1.1 = -1
   /\ Peer.next_sess_idx out.1.2 = 0
   /\ Peer.next_sess_idx out.1.2
      <> (Peer.next_sess_idx terminating_peer + 1) mod 2)
  /\ (let out := h2_peer_send_request send_counted peer_with_gap
                   h2_msg_empty quiet_world in
      out.1.1 = 0
      /\ (req_cnt <$> peer_sess out.1.2 1) = Some 1
      /\ Peer.next_sess_idx out.1.2 = 2
      /\ Peer.next_sess_idx out.1.2
         <> (Peer.next_sess_idx peer_with_gap + 1) mod 3).
Proof. vm_compute. repeat split; congruence. Qed.

Lemma rem_mod_nonneg a n : 0 <= a -> 0 < n -> Z.rem a n = a mod n.
Proof. intros. apply Z.rem_mod_nonneg; lia. Qed.

(** C7, amended.  A terminating peer refuses the request and leaves the
    cursor where it is.  Otherwise the search passes over [i] slots, each
    of them left without a session or inactive, and either uses the slot
    [i] positions after the cursor ([i < N]) or uses no active slot
    ([i = N]); the cursor is set to [(next_sess_idx + i + 1) mod N], one
    past the slot where the search stopped.  So the cursor moves by exactly
    one position when the slot at the cursor is used and when no active
    slot is found. *)
Theorem send_request_cursor :
  forall (h2_send_request : h2_sess -> h2_msg -> Z * h2_sess)
         (p : h2_peer) (req : h2_msg) (w : io_world),
    let n := Peer.sess_num p in
    let nsi := Peer.next_sess_idx p in
    let out := h2_peer_send_request h2_send_request p req w in
    (Peer.is_terminated p <> 0 -> out = (-1, p, w))
    /\ (Peer.is_terminated p = 0 -> 0 < n -> 0 <= nsi ->
        exists i,
          0 <= i <= n
          /\ Peer.next_sess_idx out.1.2 = (nsi + i + 1) mod n
          /\ (forall j, 0 <= j < i ->
                        slot_idle out.1.2 (Z.to_nat ((nsi + j) mod n)))
          /\ (i < n ->
              exists s,
                out.1.1 = (h2_send_request s req).1
                /\ peer_sess out.1.2 (Z.to_nat ((nsi + i) mod n))
                   = Some (h2_send_request s req).2
                /\ peer_act_sess out.1.2 (Z.to_nat ((nsi + i) mod n)) <> 0)
          /\ (i = 0 \/ i = n ->
              Peer.next_sess_idx out.1.2 = (nsi + 1) mod n)).
Proof.
  intros send p req w n nsi out. subst out. unfold h2_peer_send_request.
  fold n. fold nsi. split.
  { intros Ht. by rewrite (proj2 (Z.eqb_neq _ _) Ht). }
  intros Ht Hn Hnsi. rewrite Ht. simpl negb. cbv iota.
  destruct (peer_find_sess (Z.to_nat n) nsi 0 None p w)
    as [[[i sout] pout] wout] eqn:Hf.
  apply peer_find_sess_spec in Hf
    as (F1 & F2 & F3 & F4 & F5 & F6 & F7 & F8); [|done].
  rewrite Z2Nat.id in F1, F7, F8 by lia. rewrite Z.add_0_l in F1, F7, F8.
  assert (Hslot : forall j, 0 <= j -> probe_slot p nsi j
                                      = Z.to_nat ((nsi + j) mod n)).
  { intros j Hj. unfold probe_slot. fold n. by rewrite rem_mod_nonneg by lia. }
  exists i. split; [lia|].
  set (p2 := set_next_sess_idx (Z.rem (nsi + i + 1) n) pout).
  assert (Hcur : forall q, Peer.next_sess_idx q = Peer.next_sess_idx p2 ->
                           Peer.next_sess_idx q = (nsi + i + 1) mod n).
  { intros q ->. simpl. apply rem_mod_nonneg; lia. }
  assert (Hlast : forall q, Peer.next_sess_idx q = (nsi + i + 1) mod n ->
                            i = 0 \/ i = n ->
                            Peer.next_sess_idx q = (nsi + 1) mod n).
  { intros q -> [-> | ->]; [by rewrite Z.add_0_r|].
    replace (nsi + n + 1) with (nsi + 1 + 1 * n) by lia.
    by rewrite Z.mod_add by lia. }
  assert (Hidle2 : forall j, 0 <= j < i ->
                             slot_idle p2 (Z.to_nat ((nsi + j) mod n))).
  { intros j Hj. rewrite <- Hslot by lia. by apply F6. }
  assert (Hnone : (-1, p2, wout).1.1 = -1) by done.
  destruct sout as [si|]; [destruct (peer_sess p2 si) as [s|] eqn:Hs|].
  - destruct (send s req) as [r s'] eqn:Hsend. cbn [fst snd].
    split; [by apply Hcur|]. split.
    { intros j Hj. destruct (Hidle2 j Hj) as [Hi|Hi]; [left|by right].
      rewrite peer_sess_set. case_decide as Hd; [|done].
      destruct Hd as [Hd _]. rewrite Hd in Hi. congruence. }
    split; [|by apply Hlast, Hcur].
    intros Hlt. destruct (F7 Hlt) as (s0 & G1 & G2 & G3 & G4).
    injection G1 as ->. rewrite Hslot in * by lia.
    change (peer_sess p2 ?x) with (peer_sess pout x) in Hs.
    assert (s0 = s) as -> by congruence.
    exists s. rewrite Hsend. split; [done|]. split; [|done].
    rewrite peer_sess_set. rewrite decide_True; [done|].
    split; [done|]. by eapply (peer_sess_in_range p2).
  - cbn [fst snd]. split; [by apply Hcur|]. split; [done|].
    split; [|by apply Hlast, Hcur].
    intros Hlt. destruct (F7 Hlt) as (s0 & G1 & G2 & G3 & G4).
    injection G1 as ->.
    change (peer_sess p2 ?x) with (peer_sess pout x) in Hs. congruence.
  - cbn [fst snd]. split; [by apply Hcur|]. split; [done|].
    split; [|by apply Hlast, Hcur].
    intros Hlt. by destruct (F7 Hlt) as (s0 & G1 & _).
Qed.

(** C8.  When the search of [h2_peer_send_request] probes a slot that
    holds a session and is active, it marks the slot inactive (flag
    cleared, active count one less), terminates the session with
    [wait_rsp = 1] and goes on to the next slot exactly when the threshold
    is positive, the session has sent at least that many requests and the
    active count is at least the number of slots; otherwise it stops there
    and the request is sent on that session. *)
Theorem send_request_rotation :
  forall (h2_send_request : h2_sess -> h2_msg -> Z * h2_sess)
         (k : nat) (nsi i : Z) (sess : option nat) (p : h2_peer)
         (w : io_world) (s : h2_sess) (req : h2_msg),
    let si := probe_slot p nsi i in
    peer_sess p si = Some s -> peer_act_sess p si <> 0 ->
    (too_many_requests p s = true
     <-> 0 < Peer.req_thr_for_reconn p
         /\ Peer.req_thr_for_reconn p <= req_cnt s
         /\ Peer.sess_num p <= Peer.act_sess_num p)
    /\ (too_many_requests p s = true ->
        exists p',
          peer_find_sess (S k) nsi i sess p w
          = peer_find_sess k nsi (i + 1) None p'
              (h2_sess_terminate (Some s) 1 w).2
          /\ peer_act_sess p' si = 0
          /\ Peer.act_sess_num p' = Peer.act_sess_num p - 1
          /\ peer_sess p' si = (h2_sess_terminate (Some s) 1 w).1.2
          /\ forall si', si' <> si ->
               peer_sess p' si' = peer_sess p si'
               /\ peer_act_sess p' si' = peer_act_sess p si')
    /\ (too_many_requests p s = false ->
        peer_find_sess (S k) nsi i sess p w = (i, Some si, p, w)
        /\ (Peer.is_terminated p = 0 -> 0 < Peer.sess_num p ->
            nsi = Peer.next_sess_idx p -> i = 0 ->
            h2_peer_send_request h2_send_request p req w
            = ((h2_send_request s req).1,
               set_peer_sess si (Some (h2_send_request s req).2)
                 (set_next_sess_idx (Z.rem (nsi + 1) (Peer.sess_num p)) p),
               w)))
    /\ (forall p0 w0 iout sj pout wout s',
          Peer.is_terminated p0 = 0 ->
          peer_find_sess (Z.to_nat (Peer.sess_num p0)) (Peer.next_sess_idx p0)
            0 None p0 w0 = (iout, Some sj, pout, wout) ->
          peer_sess pout sj = Some s' ->
          h2_peer_send_request h2_send_request p0 req w0
          = ((h2_send_request s' req).1,
             set_peer_sess sj (Some (h2_send_request s' req).2)
               (set_next_sess_idx
                  (Z.rem (Peer.next_sess_idx p0 + iout + 1) (Peer.sess_num p0))
                  pout),
             wout)).
Proof.
  intros send k nsi i sess p w s req si Hs Ha.
  assert (Hsend : forall p0 w0 iout sj pout wout s',
             Peer.is_terminated p0 = 0 ->
             peer_find_sess (Z.to_nat (Peer.sess_num p0))
               (Peer.next_sess_idx p0) 0 None p0 w0
             = (iout, Some sj, pout, wout) ->
             peer_sess pout sj = Some s' ->
             h2_peer_send_request send p0 req w0
             = ((send s' req).1,
                set_peer_sess sj (Some (send s' req).2)
                  (set_next_sess_idx
                     (Z.rem (Peer.next_sess_idx p0 + iout + 1)
                        (Peer.sess_num p0)) pout),
                wout)).
  { intros p0 w0 iout sj pout wout s' Ht Hf Hsj.
    unfold h2_peer_send_request. rewrite Ht, Hf. simpl negb. cbv iota.
    change (peer_sess (set_next_sess_idx ?v pout) sj) with (peer_sess pout sj).
    rewrite Hsj. by destruct (send s' req). }
  assert (Hstep : peer_find_sess (S k) nsi i sess p w
                  = if too_many_requests p s then
                      let '(p', w') := peer_rotate si s p w in
                      peer_find_sess k nsi (i + 1) None p' w'
                    else (i, Some si, p, w)).
  { cbn [peer_find_sess]. fold (probe_slot p nsi i). fold si. rewrite Hs.
    by rewrite (proj2 (Z.eqb_neq _ _) Ha). }
  split; [|split; [|split; [|exact Hsend]]].
  - unfold too_many_requests. rewrite !andb_true_iff.
    rewrite Z.ltb_lt, !Z.leb_le. tauto.
  - intros Htoo. rewrite Hstep, Htoo.
    destruct (peer_rotate si s p w) as [p' w'] eqn:Hrot.
    apply peer_rotate_spec in Hrot
      as (R1 & R2 & R3 & R4 & R5 & R6 & R7 & R8 & R9); try done.
    exists p'. rewrite <- R6. done.
  - intros Htoo. rewrite Hstep, Htoo. split; [done|].
    intros Ht Hn Hnsi Hi. unfold h2_peer_send_request.
    rewrite Ht. simpl negb. cbv iota. rewrite <- Hnsi.
    destruct (Z.to_nat (Peer.sess_num p)) as [|k'] eqn:Hk; [lia|].
    assert (peer_find_sess (S k') nsi 0 None p w = (0, Some si, p, w)) as ->.
    { subst i. cbn [peer_find_sess]. fold (probe_slot p nsi 0). fold si.
      rewrite Hs, Htoo. by rewrite (proj2 (Z.eqb_neq _ _) Ha). }
    change (peer_sess (set_next_sess_idx ?v p) si) with (peer_sess p si).
    rewrite Hs. rewrite Z.add_0_r. by destruct (send s req).
Qed.

(** What happens to a peer during its life: the application sends a
    request or terminates the peer, or a session of the peer is freed. *)
Inductive peer_op :=
  | OpSendRequest (req : h2_msg)
  | OpTerminate (wait_rsp : Z)
  | OpSessFree (i : option nat) (s : h2_sess) (service_flag : bool).

Section PeerRun.

Variable h2_send_request : h2_sess -> h2_msg -> Z * h2_sess.

Definition peer_step (st : h2_peer * io_world * net) (op : peer_op)
    : h2_peer * io_world * net :=
  let '(p, w, conns) := st in
  match op with
  | OpSendRequest req =>
      let '(_, p, w) := h2_peer_send_request h2_send_request p req w in
      (p, w, conns)
  | OpTerminate wait_rsp =>
      let '(_, p, w) := h2_peer_terminate p wait_rsp w in (p, w, conns)
  | OpSessFree i s service_flag =>
      let '(p, conns) := peer_sess_free_cb p i s service_flag conns in
      (p, w, conns)
  end.

Definition peer_run (ops : list peer_op) (st : h2_peer * io_world * net)
    : h2_peer * io_world * net :=
  fold_left peer_step ops st.

Lemma peer_deactivate_thr i p :
  Peer.req_thr_for_reconn (peer_deactivate i p) = Peer.req_thr_for_reconn p.
Proof. unfold peer_deactivate. by destruct (negb _). Qed.

Lemma peer_connect_sess_thr p i conns :
  Peer.req_thr_for_reconn (peer_connect_sess p i conns).1
  = Peer.req_thr_for_reconn p
  /\ Peer.sess_num (peer_connect_sess p i conns).1 = Peer.sess_num p.
Proof.
  unfold peer_connect_sess. destruct conns as [|[s|] conns]; try done.
  simpl. by destruct (_ =? 0).
Qed.

Lemma peer_connect_all_thr k i p conns :
  Peer.req_thr_for_reconn (peer_connect_all k i p conns).1
  = Peer.req_thr_for_reconn p
  /\ Peer.sess_num (peer_connect_all k i p conns).1 = Peer.sess_num p.
Proof.
  revert i p conns. induction k as [|k IH]; intros i p conns; simpl; [done|].
  destruct (peer_connect_sess_thr p i conns) as [H1 H2].
  destruct (peer_connect_sess p i conns) as [p1 c1].
  destruct (IH (S i) p1 c1) as [I1 I2]. simpl in *. split; congruence.
Qed.

Lemma peer_terminate_all_thr k i x p w :
  Peer.req_thr_for_reconn (peer_terminate_all k i x p w).1
  = Peer.req_thr_for_reconn p.
Proof.
  revert i p w. induction k as [|k IH]; intros i p w; simpl; [done|].
  destruct (h2_sess_terminate _ x w) as [[r s'] w1].
  rewrite IH. simpl. apply peer_deactivate_thr.
Qed.

(** Without a threshold the search changes neither the peer nor the
    world: no slot is marked inactive and no session is terminated. *)
Lemma peer_find_sess_no_threshold k nsi i sess p w :
  Peer.req_thr_for_reconn p <= 0 ->
  exists iout sout, peer_find_sess k nsi i sess p w = (iout, sout, p, w).
Proof.
  intros Hthr. revert i sess. induction k as [|k IH]; intros i sess; simpl.
  - by eexists _, _.
  - destruct (peer_sess p _) as [s|]; [|by apply IH].
    destruct (negb _); [|by apply IH].
    unfold too_many_requests.
    rewrite (proj2 (Z.ltb_ge _ _) Hthr). simpl. by eexists _, _.
Qed.

Lemma peer_step_thr st op :
  Peer.req_thr_for_reconn (peer_step st op).1.1
  = Peer.req_thr_for_reconn st.1.1.
Proof.
  destruct st as [[p w] conns]. destruct op as [req|x|i s f]; simpl.
  - unfold h2_peer_send_request. destruct (negb _); [done|].
    destruct (peer_find_sess _ _ _ _ _ _) as [[[i sout] pout] wout] eqn:Hf.
    apply peer_find_sess_spec in Hf as (_ & F2 & _); [|done].
    assert (Peer.req_thr_for_reconn pout = Peer.req_thr_for_reconn p)
      by (unfold peer_config in F2; congruence).
    destruct sout as [si|]; [|done].
    destruct (peer_sess _ si); [|done].
    by destruct (h2_send_request _ _).
  - unfold h2_peer_terminate. destruct (_ =? 1); [done|].
    pose proof (peer_terminate_all_thr
                  (Z.to_nat (Peer.sess_num p)) 0 x
                  (set_peer_is_terminated (if x =? 0 then 1 else 2) p) w) as H.
    simpl Peer.sess_num.
    by destruct (peer_terminate_all _ _ _ _ _).
  - unfold peer_sess_free_cb. destruct i as [i|]; [|done].
    destruct (_ && f).
    + pose proof (peer_connect_sess_thr
                    (peer_deactivate i (set_peer_sess i None (peer_gather s p)))
                    i conns) as [H _].
      destruct (peer_connect_sess _ i conns). simpl in *.
      by rewrite H, peer_deactivate_thr.
    + simpl. by rewrite peer_deactivate_thr.
Qed.

Lemma peer_run_thr ops st :
  Peer.req_thr_for_reconn (peer_run ops st).1.1
  = Peer.req_thr_for_reconn st.1.1.
Proof.
  revert st. induction ops as [|op ops IH]; intros st; simpl; [done|].
  unfold peer_run in IH. by rewrite IH, peer_step_thr.
Qed.

End PeerRun.

(** C10.  [h2_peer_connect] with [sess_num = 1] gives a peer whose
    threshold is 0 whatever threshold was asked for.  The threshold never
    changes afterwards, so in every state the peer reaches the rotation
    test is false for every session, and a request changes no active flag,
    does not change the active count and terminates no session. *)
Theorem single_session_peer_never_rotates :
  forall (h2_send_request : h2_sess -> h2_msg -> Z * h2_sess)
         (req_thr_for_reconn : Z) (settings : option h2_settings)
         (conns : net) (p : h2_peer) (conns' : net),
    h2_peer_connect 1 req_thr_for_reconn settings conns = (Some p, conns') ->
    Peer.sess_num p = 1
    /\ Peer.req_thr_for_reconn p = 0
    /\ forall (ops : list peer_op) (w : io_world) (req : h2_msg),
         let st := peer_run h2_send_request ops (p, w, conns') in
         let out := h2_peer_send_request h2_send_request st.1.1 req st.1.2 in
         Peer.req_thr_for_reconn st.1.1 = 0
         /\ (forall s, too_many_requests st.1.1 s = false)
         /\ Peer.act_sess out.1.2 = Peer.act_sess st.1.1
         /\ Peer.act_sess_num out.1.2 = Peer.act_sess_num st.1.1
         /\ out.2 = st.1.2.
Proof.
  intros send thr settings conns p conns' Hc.
  assert (Peer.sess_num p = 1 /\ Peer.req_thr_for_reconn p = 0) as [Hn Hthr].
  { unfold h2_peer_connect in Hc.
    match type of Hc with
    | context [peer_connect_all ?k ?i ?q ?c] =>
        pose proof (peer_connect_all_thr k i q c) as [H1 H2];
        destruct (peer_connect_all k i q c) as [p1 c1]
    end.
    simpl in H1, H2. destruct (_ <=? 0); [done|].
    injection Hc as <- <-. split; [done|]. rewrite H1.
    change (1 =? 1) with true. rewrite andb_true_r.
    destruct (Z.eqb_spec thr 0); simpl; lia. }
  split; [done|]. split; [done|].
  intros ops w req st out.
  assert (Peer.req_thr_for_reconn st.1.1 = 0) as Hst.
  { subst st. by rewrite peer_run_thr. }
  split; [done|]. split.
  { intros s. unfold too_many_requests. by rewrite Hst. }
  subst out. unfold h2_peer_send_request.
  destruct (negb _); [done|].
  destruct (peer_find_sess_no_threshold
              (Z.to_nat (Peer.sess_num st.1.1)) (Peer.next_sess_idx st.1.1)
              0 None st.1.1 st.1.2 ltac:(lia)) as (i & sout & ->).
  destruct sout as [si|]; [|done].
  destruct (peer_sess _ si); [|done].
  by destruct (send _ _).
Qed.

(** ** The loops of the send path end on their own *)

(** Streams whose body is not sent yet. *)
Definition undrained (l : list h2_strm) : nat :=
  sum_list_with
    (fun strm => if rb_drained (send_body_rb strm) then 0%nat else 1%nat) l.

Lemma strm_mark_sent_insert l i strm :
  l !! i = Some strm -> rb_drained (send_body_rb strm) = false ->
  S (undrained (<[i := strm_mark_sent strm]> l)) = undrained l
  /\ (strm_backlog (<[i := strm_mark_sent strm]> l)
      + Z.to_nat (rb_unsent (send_body_rb strm)).2)%nat
     = strm_backlog l.
Proof.
  unfold undrained, strm_backlog, rb_unsent. revert i.
  induction l as [|x l IH]; intros [|i]; simpl; try done.
  - intros [= ->] Hd. rewrite Hd. unfold rb_drained. simpl.
    rewrite Z.leb_refl. rewrite Z.sub_diag. simpl. lia.
  - intros Hi Hd. destruct (IH i Hi Hd) as [I1 I2].
    simpl in I2. split; lia.
Qed.

Lemma flush_sent_measure l s s' d n :
  l = strm_list s -> flush_sent l s = (s', (d, n)) ->
  (n <> 0 -> S (undrained (strm_list s')) = undrained (strm_list s))
  /\ (strm_backlog (strm_list s') + Z.to_nat n)%nat = strm_backlog (strm_list s).
Proof.
  revert s. induction l as [|strm l IH]; intros s Hl; simpl.
  - intros [= <- <- <-]. split; [done|]. simpl. lia.
  - destruct (response_set strm); [|intros [= <- <- <-]; split; [done|simpl; lia]].
    destruct (rb_drained (send_body_rb strm)) eqn:Hd.
    + intros H. apply IH in H; [|by simpl; rewrite <- Hl].
      simpl in H. rewrite <- Hl in H. simpl in H.
      rewrite <- Hl. unfold undrained, strm_backlog in *. simpl.
      rewrite Hd. unfold rb_drained in Hd. apply Z.leb_le in Hd.
      replace (Z.to_nat (data_size (send_body_rb strm)
                         - data_used (send_body_rb strm))) with 0%nat by lia.
      done.
    + intros [= <- <- <-]. simpl. rewrite <- Hl.
      destruct (strm_mark_sent_insert (strm :: l) 0 strm eq_refl Hd)
        as [H1 H2].
      split; [done|]. exact H2.
Qed.

Lemma walk_sending_measure l i s s' d n :
  l = drop i (strm_list s) -> walk_sending l i s = (s', (d, n)) ->
  (n <> 0 -> S (undrained (strm_list s')) = undrained (strm_list s))
  /\ (strm_backlog (strm_list s') + Z.to_nat n)%nat = strm_backlog (strm_list s).
Proof.
  revert i. induction l as [|strm l IH]; intros i Hl; simpl.
  - intros [= <- <- <-]. split; [done|]. simpl. lia.
  - assert (strm_list s !! i = Some strm) as Hi.
    { rewrite <- (Nat.add_0_r i), <- lookup_drop, <- Hl. done. }
    destruct (rb_drained (send_body_rb strm)) eqn:Hd.
    + apply IH. rewrite (drop_S _ _ _ Hi) in Hl. by injection Hl.
    + intros [= <- <- <-]. simpl.
      destruct (strm_mark_sent_insert (strm_list s) i strm Hi Hd) as [H1 H2].
      split; [done|]. exact H2.
Qed.

Lemma next_strm_data_measure s s' d n :
  next_strm_data s = (s', (d, n)) ->
  (n <> 0 -> S (undrained (strm_list s')) = undrained (strm_list s))
  /\ (strm_backlog (strm_list s') + Z.to_nat n)%nat = strm_backlog (strm_list s).
Proof.
  unfold next_strm_data. destruct (is_server s).
  - by apply flush_sent_measure.
  - by apply walk_sending_measure.
Qed.

Lemma undrained_le_length l : (undrained l <= length l)%nat.
Proof.
  unfold undrained. induction l as [|x l IH]; simpl; [done|].
  destruct (rb_drained _); lia.
Qed.

(** The fuel of [fill_v1_1] is never used up: more fuel than there are
    unsent streams changes nothing. *)
Lemma fill_v1_1_fuel B c f1 f2 s :
  (undrained (strm_list s) < f1)%nat -> (undrained (strm_list s) < f2)%nat ->
  fill_v1_1 B c f1 s = fill_v1_1 B c f2 s.
Proof.
  revert f2 s. induction f1 as [|f1 IH]; intros f2 s H1 H2; [lia|].
  destruct f2 as [|f2]; [lia|]. simpl.
  destruct (_ && _); [|done].
  destruct (next_strm_data s) as [s1 [d n]] eqn:Hn.
  apply next_strm_data_measure in Hn as [Hn _].
  destruct (Z.eqb_spec n 0); [done|].
  destruct (_ <=? _); [|done].
  specialize (Hn ltac:(done)). apply IH; simpl; lia.
Qed.

Lemma fill_v1_1_enough B c s f :
  (length (strm_list s) < f)%nat ->
  fill_v1_1 B c f s = fill_v1_1 B c (S (length (strm_list s))) s.
Proof.
  intros Hf. pose proof (undrained_le_length (strm_list s)).
  apply fill_v1_1_fuel; lia.
Qed.

Lemma fill_v2_backlog B c q wb :
  match fill_v2 B c q wb with
  | FillErr wb' q' | FillDone wb' q' _ =>
      (wb_pending wb' + queue_backlog q' <= wb_pending wb + queue_backlog q)%nat
  end.
Proof.
  unfold queue_backlog. revert wb.
  induction q as [|m q IH]; intros wb; simpl.
  - by destruct (_ && _).
  - destruct (_ && _) eqn:Hc; [|done].
    apply andb_true_iff in Hc as [Hc _]. apply Z.leb_le in Hc.
    destruct (Z.ltb_spec (ms_size m) 0); [lia|].
    destruct (Z.eqb_spec (ms_size m) 0); [lia|].
    destruct (_ <=? _).
    + specialize (IH (wb_merge (ms_data m) (ms_size m) wb)).
      destruct (fill_v2 B c q _) as [wb' q'|wb' q' z];
        unfold wb_pending in *; simpl in *; lia.
    + unfold wb_pending. simpl.
      destruct (Z.ltb_spec (ms_size m) 0), (Z.ltb_spec (mem_send_size wb) 0);
        lia.
Qed.

Lemma fill_v1_1_backlog B c fuel s :
  (wb_pending (wr_buf (fill_v1_1 B c fuel s))
   + strm_backlog (strm_list (fill_v1_1 B c fuel s))
   <= wb_pending (wr_buf s) + strm_backlog (strm_list s))%nat.
Proof.
  revert s. induction fuel as [|fuel IH]; intros s; simpl.
  - by destruct (_ && _).
  - destruct (_ && _) eqn:Hc; [|done].
    apply andb_true_iff in Hc as [Hc _]. apply Z.leb_le in Hc.
    destruct (next_strm_data s) as [s1 [d n]] eqn:Hn.
    pose proof (next_strm_data_spec _ _ _ _ Hn) as [Hn0 Hwb].
    apply next_strm_data_measure in Hn as [_ Hb].
    destruct (Z.eqb_spec n 0); [rewrite Hwb; lia|].
    destruct (_ <=? _).
    + etrans; [apply IH|]. unfold wb_pending. simpl. rewrite Hwb. lia.
    + unfold wb_pending. simpl. rewrite Hwb.
      destruct (Z.ltb_spec n 0), (Z.ltb_spec (mem_send_size (wr_buf s)) 0);
        lia.
Qed.

(** A write that sends something lowers what is pending in the write
    buffer. *)
Lemma send_bufs_backlog v e s w r s' w' :
  send_bufs v e s w = (r, s', w') ->
  strm_list s' = strm_list s /\ ng_mem_send w' = ng_mem_send w
  /\ (0 < r -> (wb_pending (wr_buf s') < wb_pending (wr_buf s))%nat).
Proof.
  assert (Hw : forall w0, ng_mem_send (io_write w0).2 = ng_mem_send w0).
  { intros w0. unfold io_write. by destruct (wr_results w0). }
  assert (Hl1 : forall x, strm_list (h2_sess_mark_send_pending x) = strm_list x).
  { intros x. unfold h2_sess_mark_send_pending. by destruct (send_pending x). }
  assert (Hl2 : forall x, strm_list (h2_sess_clear_send_pending x) = strm_list x).
  { intros x. unfold h2_sess_clear_send_pending. by destruct (send_pending x). }
  assert (Hl3 : forall b n x, strm_list (account_sent b n x) = strm_list x).
  { intros b n x. by destruct b. }
  unfold send_bufs.
  (* the merge area *)
  assert (H1 : match send_merge_data v s w with
               | Return (r1, s1, w1) =>
                   strm_list s1 = strm_list s /\ ng_mem_send w1 = ng_mem_send w
                   /\ (0 < r1 ->
                       (wb_pending (wr_buf s1) < wb_pending (wr_buf s))%nat)
               | Next (t1, s1, w1) =>
                   strm_list s1 = strm_list s /\ ng_mem_send w1 = ng_mem_send w
                   /\ mem_send_size (wr_buf s1) = mem_send_size (wr_buf s)
                   /\ (t1 = 0 /\ wr_buf s1 = wr_buf s
                       \/ (wb_pending (wr_buf s1) < wb_pending (wr_buf s))%nat)
               end).
  { unfold send_merge_data.
    destruct (Z.ltb_spec 0 (merge_size (wr_buf s))) as [Hpos|Hneg];
      [|by auto 10].
    pose proof (Hw w) as Hw1. destruct (io_write w) as [o w1]. simpl in Hw1.
    destruct (try_write _ _ _ _ o) as [sent| |r0 why] eqn:Ht.
    - apply try_write_sent in Ht.
      destruct (Z.ltb_spec sent (merge_size (wr_buf s))).
      + rewrite Hl1. simpl. rewrite Hl3, mark_send_pending_wr_buf.
        split; [done|]. split; [done|]. intros _.
        unfold wb_pending. simpl. lia.
      + simpl. rewrite Hl3. split; [done|]. split; [done|]. split; [done|].
        right. unfold wb_pending. simpl. lia.
    - rewrite Hl1, mark_send_pending_wr_buf. split; [done|]. split; [done|].
      lia.
    - apply try_write_failed in Ht; [|lia]. simpl. split; [done|].
      split; [done|]. lia. }
  destruct (send_merge_data v s w) as [[[r1 s1] w1]|[[t1 s1] w1]].
  { by intros [= <- <- <-]. }
  destruct H1 as (A1 & A2 & A3 & A4).
  (* the borrowed span *)
  assert (H2 : match send_mem_send_data v t1 s1 w1 with
               | Return (r2, s2, w2) =>
                   strm_list s2 = strm_list s1
                   /\ ng_mem_send w2 = ng_mem_send w1
                   /\ (r2 < 0
                       \/ r2 = t1 /\ wr_buf s2 = wr_buf s1
                       \/ (wb_pending (wr_buf s2) < wb_pending (wr_buf s1))%nat)
               | Next (t2, s2, w2) =>
                   strm_list s2 = strm_list s1
                   /\ ng_mem_send w2 = ng_mem_send w1
                   /\ (t2 = t1 /\ wr_buf s2 = wr_buf s1
                       \/ (wb_pending (wr_buf s2) < wb_pending (wr_buf s1))%nat)
               end).
  { unfold send_mem_send_data.
    destruct (Z.eqb_spec (mem_send_size (wr_buf s1)) 0) as [Hz|Hnz]; simpl;
      [by auto 10|].
    pose proof (Hw w1) as Hw2. destruct (io_write w1) as [o w2]. simpl in Hw2.
    destruct (try_write _ _ _ _ o) as [sent| |r0 why] eqn:Ht.
    - apply try_write_sent in Ht.
      destruct (Z.ltb_spec sent (mem_send_size (wr_buf s1))).
      + rewrite Hl1. simpl. rewrite Hl3, mark_send_pending_wr_buf.
        split; [done|]. split; [done|]. right. right.
        unfold wb_pending. simpl.
        destruct (Z.ltb_spec (mem_send_size (wr_buf s1) - sent) 0),
          (Z.ltb_spec (mem_send_size (wr_buf s1)) 0); lia.
      + simpl. rewrite Hl3. split; [done|]. split; [done|]. right.
        unfold wb_pending. simpl.
        destruct (Z.ltb_spec (mem_send_size (wr_buf s1)) 0); lia.
    - rewrite Hl1, mark_send_pending_wr_buf. split; [done|]. split; [done|].
      right. by left.
    - apply try_write_failed in Ht; [|lia]. simpl. split; [done|].
      split; [done|]. by left. }
  destruct (send_mem_send_data v t1 s1 w1) as [[[r2 s2] w2]|[[t2 s2] w2]].
  { intros [= <- <- <-]. destruct H2 as (B1 & B2 & B3).
    split; [congruence|]. split; [congruence|]. intros Hr.
    destruct B3 as [?|[[-> Hwb]|?]]; [lia| |].
    - rewrite Hwb. destruct A4 as [[-> _]|?]; [lia|done].
    - destruct A4 as [[_ Hw1]|?]; [by rewrite <- Hw1|lia]. }
  destruct H2 as (B1 & B2 & B3).
  assert (wr_buf (if t2 =? 0 then h2_sess_clear_send_pending s2 else s2)
          = wr_buf s2
          /\ strm_list (if t2 =? 0 then h2_sess_clear_send_pending s2 else s2)
             = strm_list s2) as [F1 F2].
  { destruct (t2 =? 0); by rewrite ?clear_send_pending_wr_buf, ?Hl2. }
  destruct (e && _); intros [= <- <- <-]; simpl; rewrite ?F1, ?F2.
  - split; [congruence|]. split; [congruence|]. lia.
  - split; [congruence|]. split; [congruence|]. intros Hr.
    destruct B3 as [[-> Hwb]|?].
    + rewrite Hwb. destruct A4 as [[-> _]|?]; [lia|done].
    + destruct A4 as [[_ Hw1]|?]; [by rewrite <- Hw1|lia].
Qed.

(** A send step that returns a positive count lowers the backlog. *)
Lemma send_once_backlog B c E v2 s w r s' w' :
  send_once B c E v2 s w = (r, s', w') -> 0 < r ->
  (send_backlog s' w' < send_backlog s w)%nat.
Proof.
  unfold send_once, h2_sess_send_once_v2, h2_sess_send_once_v1_1, send_backlog.
  destruct v2.
  - pose proof (fill_v2_backlog B c (ng_mem_send w) (wr_buf s)) as Hf.
    destruct (fill_v2 _ _ _ _) as [wb q|wb q z].
    + intros [= <- <- <-]. lia.
    + intros H Hr. apply send_bufs_backlog in H as (H1 & H2 & H3).
      specialize (H3 Hr). simpl in *. rewrite H1, H2. simpl. lia.
  - pose proof (fill_v1_1_backlog B c (S (length (strm_list s))) s) as Hf.
    intros H Hr. apply send_bufs_backlog in H as (H1 & H2 & H3).
    specialize (H3 Hr). rewrite H1, H2. lia.
Qed.

(** The loop of [h2_sess_send] ends by its own test: fuel beyond the
    backlog changes nothing, and the result is not positive. *)
Lemma send_loop_fuel B c E v2 f1 f2 s w :
  (send_backlog s w <= f1)%nat -> (send_backlog s w <= f2)%nat ->
  send_loop B c E f1 v2 s w = send_loop B c E f2 v2 s w.
Proof.
  revert f2 s w. induction f1 as [|f1 IH]; intros f2 s w H1 H2.
  - destruct f2 as [|f2]; [done|]. simpl.
    destruct (send_once B c E v2 s w) as [[r s'] w'] eqn:Hs.
    destruct (Z.ltb_spec 0 r) as [Hr|]; [|done].
    apply send_once_backlog in Hs; [lia|done].
  - simpl. destruct f2 as [|f2]; simpl;
      destruct (send_once B c E v2 s w) as [[r s'] w'] eqn:Hs;
      (destruct (Z.ltb_spec 0 r) as [Hr|]; [|done]);
      apply send_once_backlog in Hs; try done; [lia|].
    apply IH; lia.
Qed.

Lemma send_loop_result B c E v2 f s w :
  (send_backlog s w <= f)%nat -> (send_loop B c E f v2 s w).1.1 <= 0.
Proof.
  revert s w. induction f as [|f IH]; intros s w Hf; simpl;
    destruct (send_once B c E v2 s w) as [[r s'] w'] eqn:Hs;
    (destruct (Z.ltb_spec 0 r) as [Hr|]; [|done]);
    apply send_once_backlog in Hs; try done; [lia|].
  apply IH. lia.
Qed.

Lemma h2_sess_send_result B c E s w : (h2_sess_send B c E s w).1.1 <= 0.
Proof. unfold h2_sess_send. by apply send_loop_result. Qed.

(** ** Runs of the model *)

(** A request with a body, received whole by a new server session: the
    message handed to the application, the bytes used and the request
    count. *)
Definition post_request : list ascii :=
  chars "POST /x HTTP/1.1" ++ [CR; LF] ++ chars "Host: h:80" ++ [CR; LF]
  ++ chars "Content-Length: 5" ++ [CR; LF] ++ [CR; LF] ++ chars "hello".

Example post_request_received :
  let out := h2_sess_recv_v1_1 cb_accept cb_accept
               (h2_sess_init true H2_HTTP_V1_1 false) post_request 56 in
  out.1 = 56
  /\ (rmsg <$> strm_list out.2)
     = [{| msg_method := Some (chars "POST"); msg_scheme := Some (chars "http");
           msg_authority := Some (chars "h:80"); msg_path := Some (chars "/x");
           msg_status := 0; msg_hdrs := []; msg_body := chars "hello" |}]
  /\ rdata_used out.2 = 56 /\ rdata_size out.2 = 56
  /\ rdata_alloced out.2 = 16384 /\ req_cnt out.2 = 1
  /\ strm_recving out.2 = None.
Proof. vm_compute. done. Qed.

(** The same request received in two chunks, cut in the middle of a header
    line, gives the same message. *)
Example post_request_in_two_chunks :
  let first := h2_sess_recv_v1_1 cb_accept cb_accept
                 (h2_sess_init true H2_HTTP_V1_1 false)
                 (take 25 post_request) 25 in
  let out := h2_sess_recv_v1_1 cb_accept cb_accept first.2
               (drop 25 post_request) 31 in
  first.1 = 25 /\ req_cnt first.2 = 0 /\ rdata_used first.2 = 18
  /\ out.1 = 31
  /\ (rmsg <$> strm_list out.2)
     = (rmsg <$> strm_list
                   (h2_sess_recv_v1_1 cb_accept cb_accept
                      (h2_sess_init true H2_HTTP_V1_1 false)
                      post_request 56).2)
  /\ req_cnt out.2 = 1.
Proof. vm_compute. done. Qed.

(** The Status-Line code reads the three digits at the start of the line:
    a line that starts with the version is refused, and the receive step
    of a client that waits for a response fails. *)
Example status_line_with_version :
  parse_status_line (chars "200 OK") = Some 200
  /\ parse_status_line (chars "HTTP/1.1 200 OK") = None
  /\ (h2_sess_recv_v1_1 cb_accept cb_accept
        (h2_strm_init 1 (client_sess 1)).1
        (chars "HTTP/1.1 200 OK" ++ [CR; LF]) 17).1 = -1.
Proof. vm_compute. done. Qed.

(** A peer of two active sessions with threshold 3; the session at the
    cursor has sent three requests. *)
Definition peer_at_threshold : h2_peer :=
  {| Peer.sess_num := 2; Peer.req_thr_for_reconn := 3;
     Peer.is_terminated := 0; Peer.settings := h2_settings_init;
     Peer.sess := [Some (client_sess 3); Some (client_sess 1)];
     Peer.act_sess := [1; 1]; Peer.act_sess_num := 2;
     Peer.next_sess_idx := 0;
     Peer.req_cnt := 0; Peer.rsp_cnt := 0; Peer.rsp_rst_cnt := 0;
     Peer.strm_close_cnt := 0; Peer.sess_close_cnt := 0 |}.

(** The session at the cursor is rotated out and the request goes to the
    other session; the cursor ends one past the slot used. *)
Example rotation_then_send :
  let out := h2_peer_send_request send_counted peer_at_threshold
               h2_msg_empty quiet_world in
  out.1.1 = 0
  /\ Peer.act_sess out.1.2 = [0; 1]
  /\ Peer.act_sess_num out.1.2 = 1
  /\ (is_terminated <$> peer_sess out.1.2 0) = Some 2
  /\ (req_cnt <$> peer_sess out.1.2 1) = Some 2
  /\ Peer.next_sess_idx out.1.2 = 0
  /\ io_log out.2 = [EvShutdown SHUT_WR].
Proof. vm_compute. done. Qed.

(** A partial write: of 4000 bytes merged from the codec the socket takes
    1000; the rest stays in the merge area and [send_pending] is set. *)
Example partial_write_keeps_rest :
  let w := {| ng_mem_send := [{| ms_size := 4000;
                                 ms_data := replicate (Z.to_nat 4000) "x"%char |}];
              ng_want_read := true; ng_terminate_ret := 0; ng_submit_ret := 0;
              wr_results := [{| wr_ret := 1000; wr_errno := EOTHER;
                                wr_ssl_error := SSL_ERROR_OTHER |}];
              io_log := [] |} in
  let out := send_once 16384 16384 false true
               (h2_sess_init false H2_HTTP_V2 false) w in
  out.1.1 = 1000
  /\ merge_size (wr_buf out.1.2) = 3000
  /\ length (merge_data (wr_buf out.1.2)) = Z.to_nat 3000
  /\ mem_send_size (wr_buf out.1.2) = 0
  /\ send_pending out.1.2 = true.
Proof. vm_compute. done. Qed.

(** ** One line of the header, seen from the step of the parser *)

(** Lines 582-612: what the step does once the header is done. *)
Definition recv_after_header (cb1 cb2 : h2_sess -> Z * h2_sess) (s : h2_sess)
    : Z * h2_sess :=
  let s := recv_body s in
  if rmsg_content_length s =? h2_body_len (recving_rmsg s)
  then recv_complete cb1 cb2 s
  else (0, s).

Lemma rd_unread_advance s s' k :
  rd_static s' = rd_static s -> 0 <= rdata_used s ->
  rdata_used s' = rdata_used s + Z.of_nat k ->
  rd_unread s' = drop k (rd_unread s).
Proof.
  intros Hst Hu Hk. unfold rd_unread, rd_static in *.
  assert (rdata s' = rdata s) as -> by congruence.
  assert (rdata_size s' = rdata_size s) as -> by congruence.
  rewrite Hk, drop_drop. f_equal. lia.
Qed.

Lemma recv_first_line_step s raw after :
  rmsg_header_line s = 0 -> chomp_cr raw <> [] ->
  recv_hdl_line s raw after
  = match recv_first_line s (chomp_cr raw) with
    | inl r => LineFail r
    | inr s' =>
        LineNext (set_rmsg_header_line (rmsg_header_line s' + 1)
                    (set_rdata_used
                       (rdata_used s + Z.of_nat (length raw) + 1) s'))
    end.
Proof.
  intros Hl Hne. unfold recv_hdl_line.
  destruct (chomp_cr raw) as [|c l]; [done|].
  by rewrite Hl.
Qed.

Lemma recv_empty_line_step s raw after :
  chomp_cr raw = [] ->
  recv_hdl_line s raw after
  = LineEnd (set_rmsg_header_done true
               (set_rdata_used (rdata_used s + Z.of_nat (length raw) + 1) s)).
Proof. intros H. unfold recv_hdl_line. by rewrite H. Qed.

(** What [recv_begin] leaves as it is. *)
Lemma recv_begin_kind s s0 :
  recv_begin s = inr s0 ->
  is_server s0 = is_server s /\ ssl s0 = ssl s
  /\ is_Some (strm_recving s0)
  /\ recv_begin s0 = inr s0
  /\ rd_unread s0 = rd_unread s /\ rd_behind s0 = rd_behind s
  /\ rdata_used s0 = rdata_used s.
Proof.
  unfold recv_begin. destruct (strm_recving s) eqn:Hr.
  - intros [= <-]. rewrite Hr. repeat split; eauto.
  - destruct (is_server s) eqn:Hs.
    + intros [= <-]. repeat split; eauto; simpl; congruence.
    + destruct (strm_list s); [discriminate|]. intros [= <-].
      repeat split; eauto; simpl; congruence.
Qed.

Section HeaderLines.

Variable cb1 cb2 : h2_sess -> Z * h2_sess.

Lemma step_begin s s0 :
  recv_begin s = inr s0 ->
  h2_sess_recv_hdl_once_v1_1 cb1 cb2 s = h2_sess_recv_hdl_once_v1_1 cb1 cb2 s0.
Proof.
  intros Hb. destruct (recv_begin_kind s s0 Hb) as (_ & _ & _ & Hb0 & _).
  unfold h2_sess_recv_hdl_once_v1_1. by rewrite Hb, Hb0.
Qed.

Lemma step_resume s :
  is_Some (strm_recving s) -> rmsg_header_done s = false ->
  h2_sess_recv_hdl_once_v1_1 cb1 cb2 s
  = match recv_hdr_lines (split_lines [] (rd_unread s)) s with
    | inl (r, s) => (r, s)
    | inr s =>
        if rmsg_header_done s then recv_after_header cb1 cb2 s else (0, s)
    end.
Proof.
  intros [i Hi] Hd.
  unfold h2_sess_recv_hdl_once_v1_1, recv_begin, recv_after_header.
  by rewrite Hi, Hd.
Qed.

(** A step that finds no complete line waits for more bytes. *)
Lemma step_no_line s :
  is_Some (strm_recving s) -> rmsg_header_done s = false ->
  rd_unread s = [] ->
  h2_sess_recv_hdl_once_v1_1 cb1 cb2 s = (0, s).
Proof.
  intros Hi Hd Hu. rewrite step_resume by done. rewrite Hu. simpl.
  by rewrite Hd.
Qed.

(** The step of a session in the header whose unread bytes start with the
    line [raw]: a refused line ends the step with its result, the empty
    line ends the header, and after any other line the step goes on as a
    step of the session that the line leaves, whose unread bytes are those
    behind the line. *)
Lemma step_line s raw rest :
  is_Some (strm_recving s) -> rmsg_header_done s = false ->
  0 <= rdata_used s ->
  Forall (fun c => is_lf c = false) raw ->
  rd_unread s = raw ++ LF :: rest ->
  match recv_hdl_line s raw rest with
  | LineFail r => h2_sess_recv_hdl_once_v1_1 cb1 cb2 s = (r, s)
  | LineEnd s1 =>
      h2_sess_recv_hdl_once_v1_1 cb1 cb2 s = recv_after_header cb1 cb2 s1
  | LineNext s1 =>
      h2_sess_recv_hdl_once_v1_1 cb1 cb2 s
      = h2_sess_recv_hdl_once_v1_1 cb1 cb2 s1
      /\ (rest = [] -> h2_sess_recv_hdl_once_v1_1 cb1 cb2 s = (0, s1))
      /\ rd_unread s1 = rest
      /\ rdata_used s1 = rdata_used s + Z.of_nat (length raw) + 1
      /\ strm_recving s1 = strm_recving s
      /\ rmsg_header_done s1 = false
  end.
Proof.
  intros Hi Hd Hu Hraw Hbuf.
  rewrite (step_resume s) by done. rewrite Hbuf.
  rewrite split_lines_first by done. cbn [recv_hdr_lines].
  change (reverse [] ++ raw) with raw.
  pose proof (recv_hdl_line_rd s raw rest) as Hrd.
  destruct (recv_hdl_line s raw rest) as [r|s1|s1]; [done| |].
  - destruct Hrd as (_ & _ & -> & _). done.
  - destruct Hrd as (R1 & R2 & R3 & R4).
    assert (Hi1 : is_Some (strm_recving s1)) by (by rewrite R4).
    assert (Hd1 : rmsg_header_done s1 = false) by congruence.
    assert (Hu1 : rd_unread s1 = rest).
    { rewrite (rd_unread_advance s s1 (S (length raw))) by (try done; lia).
      rewrite Hbuf.
      change (raw ++ LF :: rest) with (raw ++ [LF] ++ rest).
      rewrite app_assoc. apply drop_app_length'.
      rewrite length_app. simpl. lia. }
    rewrite (step_resume s1) by done. rewrite Hu1.
    split; [done|]. split; [|done].
    intros ->. simpl. by rewrite Hd1.
Qed.

End HeaderLines.

Lemma upd_rmsg_header_line f s :
  rmsg_header_line (upd_rmsg f s) = rmsg_header_line s
  /\ rmsg_content_length (upd_rmsg f s) = rmsg_content_length s.
Proof. unfold upd_rmsg. by destruct (strm_recving s). Qed.



(** C4, amended.  On a server session, take a step of the parser at the
    first line of a message; [s0] is the session once the step has found
    the message that receives, the one in progress or that of the stream
    it creates (lines 452-473).  A line that is not empty is accepted
    exactly when it is at least twelve characters long and ends in the
    eight characters [HTTP/1.1]; white space before the version is not
    required.
    The version and the white space before it are then removed, the method
    is the longest run of characters other than space and tab from the
    start of the line, the path is what remains after the white space that
    follows the method, and the step goes on behind the line: it returns 0
    when no byte follows.  Any other line that is not empty ends the step
    with -1.  The empty line is not refused: it ends the header, and the
    step goes on to the body and the end of the message. *)
Theorem request_line_parse :
  forall (cb1 cb2 : h2_sess -> Z * h2_sess) (s s0 : h2_sess) (i : nat)
         (strm : h2_strm) (raw rest : list ascii),
    is_server s = true ->
    recv_begin s = inr s0 ->
    strm_recving s0 = Some i -> strm_list s0 !! i = Some strm ->
    rmsg_header_done s0 = false -> rmsg_header_line s0 = 0 ->
    0 <= rdata_used s ->
    Forall (fun c => is_lf c = false) raw ->
    rd_unread s = raw ++ LF :: rest ->
    let line := chomp_cr raw in
    let next := rdata_used s + Z.of_nat (length raw) + 1 in
    let out := h2_sess_recv_hdl_once_v1_1 cb1 cb2 s in
    (is_Some (parse_request_line line) <-> request_line_ok line)
    /\ (forall pre,
          line = pre ++ chars "HTTP/1.1" -> (12 <= length line)%nat ->
          let method := take_while non_sp (strip_trailing_sp pre) in
          let path :=
            drop_while is_sp (drop_while non_sp (strip_trailing_sp pre)) in
          exists s',
            out = h2_sess_recv_hdl_once_v1_1 cb1 cb2 s'
            /\ (rest = [] -> out = (0, s'))
            /\ msg_method (recving_rmsg s') = Some method
            /\ msg_path (recving_rmsg s') = Some path
            /\ recving_rmsg s'
               = h2_set_path_n path
                   (h2_set_authority_n (chars "http")
                      (h2_set_scheme
                         (if ssl s then chars "https" else chars "http")
                         (h2_set_method_n method (rmsg strm))))
            /\ strm_recving s' = Some i /\ rmsg_header_done s' = false
            /\ rmsg_header_line s' = 1
            /\ rdata_used s' = next /\ rd_unread s' = rest)
    /\ (line <> [] -> ~ request_line_ok line -> out = (-1, s0))
    /\ (line = [] ->
        out = recv_after_header cb1 cb2
                (set_rmsg_header_done true (set_rdata_used next s0))).
Proof.
  intros cb1 cb2 s s0 i strm raw rest Hsrv Hb Hi Hs Hd Hl0 Hu Hraw Hbuf
         line next out.
  destruct (recv_begin_kind s s0 Hb) as (K1 & K2 & K3 & _ & K5 & _ & K7).
  split; [apply parse_request_line_ok|].
  assert (Hu0 : 0 <= rdata_used s0) by (by rewrite K7).
  assert (Hbuf0 : rd_unread s0 = raw ++ LF :: rest) by (by rewrite K5).
  pose proof (step_line cb1 cb2 s0 raw rest K3 Hd Hu0 Hraw Hbuf0) as Hstep.
  unfold out. rewrite (step_begin cb1 cb2 s s0 Hb). unfold next.
  rewrite <- K7, <- K2. clear out next.
  set (upd := fun method path (m : h2_msg) =>
         h2_set_path_n path
           (h2_set_authority_n (chars "http")
              (h2_set_scheme (if ssl s0 then chars "https" else chars "http")
                 (h2_set_method_n method m)))).
  assert (Hfirst : line <> [] ->
            recv_hdl_line s0 raw rest
            = match parse_request_line line with
              | Some (method, path) =>
                  LineNext
                    (set_rmsg_header_line
                       (rmsg_header_line (upd_rmsg (upd method path) s0) + 1)
                       (set_rdata_used
                          (rdata_used s0 + Z.of_nat (length raw) + 1)
                          (upd_rmsg (upd method path) s0)))
              | None => LineFail (-1)
              end).
  { intros Hne. rewrite recv_first_line_step by done.
    unfold recv_first_line. rewrite K1, Hsrv. fold line.
    by destruct (parse_request_line line) as [[method path]|]. }
  split; [|split].
  - intros pre Hpre Hlen.
    set (method := take_while non_sp (strip_trailing_sp pre)).
    set (path := drop_while is_sp (drop_while non_sp (strip_trailing_sp pre))).
    assert (Hne : line <> []) by (intros E; rewrite E in Hlen; simpl in Hlen; lia).
    assert (Hp : parse_request_line line = Some (method, path)).
    { rewrite Hpre. apply parse_request_line_value. by rewrite <- Hpre. }
    rewrite (Hfirst Hne), Hp in Hstep.
    destruct Hstep as (S1 & S2 & S3 & S4 & S5 & S6).
    eexists. split; [exact S1|]. split; [exact S2|].
    assert (recving_rmsg
              (set_rmsg_header_line
                 (rmsg_header_line (upd_rmsg (upd method path) s0) + 1)
                 (set_rdata_used (rdata_used s0 + Z.of_nat (length raw) + 1)
                    (upd_rmsg (upd method path) s0)))
            = upd method path (rmsg strm)) as ->.
    { rewrite <- (upd_rmsg_recving (upd method path) s0 i strm Hi Hs).
      reflexivity. }
    split; [done|]. split; [done|]. split; [done|]. split; [by rewrite S5|].
    split; [done|]. split; [|done].
    change (rmsg_header_line (upd_rmsg (upd method path) s0) + 1 = 1).
    rewrite (proj1 (upd_rmsg_header_line _ _)), Hl0. done.
  - intros Hne Hnok. rewrite (Hfirst Hne) in Hstep.
    destruct (parse_request_line line) as [[method path]|] eqn:Hp; [|done].
    exfalso. apply Hnok, parse_request_line_ok. by eexists.
  - intros He. by rewrite (recv_empty_line_step s0 raw rest He) in Hstep.
Qed.

(** C4, as stated, fails: white space before the version is not needed,
    and a line without the version is not always refused.  The line
    [GET /pathHTTP/1.1] parses, with method [GET] and path [/path], on a
    server session that has just started a message, and the step of a new
    server session that reads this line returns 0 with that method and
    path; the step of a new server session that reads an empty line, which
    has no version, ends with 1, a message complete. *)
Lemma request_line_without_space :
  let line := chars "GET /pathHTTP/1.1" in
  let s := set_strm_recving (Some 0%nat)
             (h2_strm_init 1 (h2_sess_init true H2_HTTP_V1_1 false)).1 in
  parse_request_line line = Some (chars "GET", chars "/path")
  /\ ~ (exists pre c, line = pre ++ c :: chars "HTTP/1.1" /\ is_sp c = true)
  /\ (exists s', recv_hdl_line s (line ++ [CR]) [] = LineNext s'
                 /\ msg_method (recving_rmsg s') = Some (chars "GET")
                 /\ msg_path (recving_rmsg s') = Some (chars "/path"))
  /\ (let out :=
        h2_sess_recv_hdl_once_v1_1 cb_accept cb_accept
          (rd_append (h2_sess_init true H2_HTTP_V1_1 false)
             (line ++ [CR; LF]) 19) in
      out.1 = 0
      /\ msg_method (recving_rmsg out.2) = Some (chars "GET")
      /\ msg_path (recving_rmsg out.2) = Some (chars "/path"))
  /\ (let out :=
        h2_sess_recv_hdl_once_v1_1 cb_accept cb_accept
          (rd_append (h2_sess_init true H2_HTTP_V1_1 false) [CR; LF] 2) in
      parse_request_line (chomp_cr [CR]) = None /\ out.1 = 1).
Proof.
  intros line s. split; [reflexivity|]. split; [|split; [|split]].
  - intros (pre & c & H & Hc).
    apply (f_equal (fun l => reverse l !! 8%nat)) in H.
    rewrite reverse_app, reverse_cons, <- app_assoc in H. simpl in H.
    injection H as <-. vm_compute in Hc. discriminate.
  - eexists. split; [reflexivity|]. split; reflexivity.
  - repeat split; reflexivity.
  - split; reflexivity.
Qed.



(** * The theorems at concrete inputs *)

(** An HTTP/2 session over TCP whose codec hands out five bytes; the
    socket takes two of them. *)
Definition five_byte_world : io_world :=
  {| ng_mem_send := [{| ms_size := 5; ms_data := chars "hello" |}];
     ng_want_read := true; ng_terminate_ret := 0; ng_submit_ret := 0;
     wr_results := [{| wr_ret := 2; wr_errno := EOTHER;
                       wr_ssl_error := SSL_ERROR_OTHER |}];
     io_log := [] |}.

(** Two send steps on a new HTTP/2 session, with a stream added in
    between: the first step leaves three bytes and sets [send_pending], the
    second finds the socket blocked. *)
Lemma send_once_idle_or_pending_witness :
  let s := h2_sess_init false H2_HTTP_V2 false in
  let trace :=
    send_trace 16384 16384 false
      [EvSendOnce true five_byte_world;
       EvOther (fun s => (h2_strm_init 1 s).1);
       EvSendOnce true quiet_world] s in
  trace.*1 = [2; 0]
  /\ (fun out => merge_size (wr_buf out.2)) <$> trace = [3; 3]
  /\ Forall (fun out => 0 <= out.1 -> wb_idle_or_pending out.2) trace.
Proof.
  intros s trace. split; [reflexivity|]. split; [reflexivity|].
  apply (send_once_idle_or_pending 16384 16384 false).
  simpl. lia.
Defined.



(** A new server session that reads the whole of a request line. *)
Definition server_reads_request : h2_sess :=
  rd_append (h2_sess_init true H2_HTTP_V1_1 false)
    (chars "GET /a HTTP/1.1" ++ [CR; LF]) 17.

Lemma request_line_parse_witness :
  exists s',
    h2_sess_recv_hdl_once_v1_1 cb_accept cb_accept server_reads_request
    = (0, s')
    /\ msg_method (recving_rmsg s') = Some (chars "GET")
    /\ msg_path (recving_rmsg s') = Some (chars "/a").
Proof.
  destruct (request_line_parse cb_accept cb_accept server_reads_request
              _ 0%nat _ (chars "GET /a HTTP/1.1" ++ [CR]) []
              eq_refl eq_refl eq_refl eq_refl eq_refl eq_refl
              (Z.le_refl 0) ltac:(repeat constructor) eq_refl)
    as (_ & H & _).
  destruct (H (chars "GET /a ") eq_refl ltac:(simpl; lia))
    as (s' & _ & H0 & Hm & Hp & _).
  exists s'. split; [exact (H0 eq_refl)|]. split; [exact Hm|exact Hp].
Defined.



Lemma send_request_cursor_witness :
  let out := h2_peer_send_request send_counted peer_with_gap h2_msg_empty
               quiet_world in
  exists i,
    0 <= i <= 3
    /\ Peer.next_sess_idx out.1.2 = (0 + i + 1) mod 3
    /\ (forall j, 0 <= j < i ->
                  slot_idle out.1.2 (Z.to_nat ((0 + j) mod 3)))
    /\ (i < 3 ->
        exists s,
          out.1.1 = (send_counted s h2_msg_empty).1
          /\ peer_sess out.1.2 (Z.to_nat ((0 + i) mod 3))
             = Some (send_counted s h2_msg_empty).2
          /\ peer_act_sess out.1.2 (Z.to_nat ((0 + i) mod 3)) <> 0)
    /\ (i = 0 \/ i = 3 -> Peer.next_sess_idx out.1.2 = (0 + 1) mod 3).
Proof.
  apply (proj2 (send_request_cursor send_counted peer_with_gap h2_msg_empty
                  quiet_world)).
  - reflexivity.
  - reflexivity.
  - discriminate.
Defined.

Lemma send_request_rotation_witness :
  too_many_requests peer_at_threshold (client_sess 3) = true
  /\ exists p',
       peer_find_sess 2 0 0 None peer_at_threshold quiet_world
       = peer_find_sess 1 0 (0 + 1) None p'
           (h2_sess_terminate (Some (client_sess 3)) 1 quiet_world).2
       /\ peer_act_sess p' 0 = 0
       /\ Peer.act_sess_num p' = 2 - 1
       /\ peer_sess p' 0
          = (h2_sess_terminate (Some (client_sess 3)) 1 quiet_world).1.2
       /\ forall si', si' <> 0%nat ->
            peer_sess p' si' = peer_sess peer_at_threshold si'
            /\ peer_act_sess p' si' = peer_act_sess peer_at_threshold si'.
Proof.
  destruct (send_request_rotation send_counted 1 0 0 None peer_at_threshold
              quiet_world (client_sess 3) h2_msg_empty eq_refl
              ltac:(discriminate)) as (H1 & H2 & _ & _).
  split; [reflexivity|]. exact (H2 eq_refl).
Defined.

Lemma send_settings_nonneg_fields_witness :
  let st := {| header_table_size := 4096; enable_push := 0;
               max_concurrent_streams := -1; initial_window_size := 65535;
               max_frame_size := -1; max_header_list_size := -1;
               enable_connect_protocol := -1 |} in
  h2_sess_send_settings 16384 16384 false
    (h2_sess_init false H2_HTTP_V1_1 false) (Some st) quiet_world
  = (0, h2_sess_init false H2_HTTP_V1_1 false, quiet_world)
  /\ io_log (h2_sess_send_settings 16384 16384 false
               (h2_sess_init false H2_HTTP_V2 false) (Some st) quiet_world).2
     = [EvNgSubmitSettings
          [{| settings_id_of := NGHTTP2_SETTINGS_HEADER_TABLE_SIZE;
              value := 4096 |};
           {| settings_id_of := NGHTTP2_SETTINGS_ENABLE_PUSH; value := 0 |};
           {| settings_id_of := NGHTTP2_SETTINGS_INITIAL_WINDOW_SIZE;
              value := 65535 |}]].
Proof.
  intros st. split.
  - apply (send_settings_nonneg_fields 16384 16384 false
             (h2_sess_init false H2_HTTP_V1_1 false) st quiet_world).
    reflexivity.
  - apply (proj2 (proj2 (proj2 (proj2
             (send_settings_nonneg_fields 16384 16384 false
                (h2_sess_init false H2_HTTP_V2 false) st quiet_world))))).
    reflexivity.
Defined.

Lemma single_session_peer_never_rotates_witness :
  let p := (h2_peer_connect 1 5 None [Some (client_sess 0)]).1 in
  exists p0,
    p = Some p0
    /\ Peer.sess_num p0 = 1
    /\ Peer.req_thr_for_reconn p0 = 0
    /\ forall (ops : list peer_op) (w : io_world) (req : h2_msg),
         let st := peer_run send_counted ops (p0, w, []) in
         let out := h2_peer_send_request send_counted st.1.1 req st.1.2 in
         Peer.req_thr_for_reconn st.1.1 = 0
         /\ (forall s, too_many_requests st.1.1 s = false)
         /\ Peer.act_sess out.1.2 = Peer.act_sess st.1.1
         /\ Peer.act_sess_num out.1.2 = Peer.act_sess_num st.1.1
         /\ out.2 = st.1.2.
Proof.
  eexists. split; [reflexivity|].
  apply (single_session_peer_never_rotates send_counted 5 None
           [Some (client_sess 0)]).
  reflexivity.
Defined.

(** * Further properties of the send path *)

(** The two sizes of the write buffer are never negative: [calloc] leaves
    them at zero and every send step keeps them so. *)
Definition wb_sizes_ok (s : h2_sess) : Prop :=
  0 <= merge_size (wr_buf s) /\ 0 <= mem_send_size (wr_buf s).

(** The fields of a session that tell what kind of session it is and
    whether it is closing. *)
Definition sess_kind (s : h2_sess) : bool * http_ver_t * bool * Z :=
  (is_server s, http_ver s, ssl s, is_terminated s).

(** The close reason that goes with each negative result of a send. *)
Definition send_failure_reason (r : Z) : option close_reason_t :=
  if r =? -1 then Some CLOSE_BY_NGHTTP2_ERR
  else if r =? -2 then Some CLOSE_BY_SSL_ERR
  else if (r =? -3) || (r =? -5) then Some CLOSE_BY_SOCK_ERR
  else if r =? -6 then Some CLOSE_BY_NGHTTP2_END
  else None.

Ltac pending_cases :=
  unfold h2_sess_mark_send_pending, h2_sess_clear_send_pending, account_sent;
  repeat match goal with
         | |- context [if send_pending ?s then _ else _] =>
             destruct (send_pending s)
         | |- context [if ?v then set_send_data_remain _ _ else _] =>
             destruct v
         end; simpl.

Lemma try_write_failed_why tls intr tcp_fail n o r why :
  try_write tls intr tcp_fail n o = WrFailed r why ->
  (r = -2 /\ why = CLOSE_BY_SSL_ERR) \/ (r = tcp_fail /\ why = CLOSE_BY_SOCK_ERR).
Proof.
  unfold try_write. intros H.
  destruct tls.
  - destruct (0 <? wr_ret o); [done|].
    destruct (wr_ssl_error o); [done|]. injection H as <- <-. by left.
  - destruct (to_int (wr_ret o) <=? 0); [|done].
    destruct (wr_errno o); try done; try destruct intr; try done;
      injection H as <- <-; by right.
Qed.

Lemma try_write_sent_pos tls intr tcp_fail n o sent :
  0 < n -> try_write tls intr tcp_fail n o = WrSent sent -> 0 < sent.
Proof.
  intros Hn H. apply try_write_sent in H as [-> | H]; done.
Qed.

Lemma send_merge_data_outcome v s w :
  wb_sizes_ok s ->
  match send_merge_data v s w with
  | Return (r, s', _) =>
      wb_sizes_ok s' /\ sess_kind s' = sess_kind s
      /\ (0 <= r -> close_reason s' = close_reason s)
      /\ (r < 0 -> (r = -2 /\ close_reason s' = CLOSE_BY_SSL_ERR)
                   \/ (r = -3 /\ close_reason s' = CLOSE_BY_SOCK_ERR))
  | Next (t, s', _) =>
      wb_sizes_ok s' /\ sess_kind s' = sess_kind s
      /\ close_reason s' = close_reason s /\ 0 <= t
  end.
Proof.
  intros [Hm Hs]. unfold send_merge_data, wb_sizes_ok.
  destruct (Z.ltb_spec 0 (merge_size (wr_buf s))) as [Hpos|Hnp]; [|done].
  destruct (io_write w) as [o w1].
  destruct (try_write _ _ _ _ o) as [sent| |r why] eqn:Ht.
  - apply try_write_sent_pos in Ht; [|done].
    destruct (Z.ltb_spec sent (merge_size (wr_buf s))).
    + pending_cases; repeat split; try done; try lia.
    + pending_cases; repeat split; try done; try lia.
  - pending_cases; repeat split; try done; try lia.
  - apply try_write_failed_why in Ht as [[-> ->] | [-> ->]]; simpl;
      repeat split; try done; try lia; intros _; [by left | by right].
Qed.

Lemma send_mem_send_data_outcome v t s w :
  wb_sizes_ok s -> 0 <= t ->
  match send_mem_send_data v t s w with
  | Return (r, s', _) =>
      wb_sizes_ok s' /\ sess_kind s' = sess_kind s
      /\ (0 <= r -> close_reason s' = close_reason s)
      /\ (r < 0 -> (r = -2 /\ close_reason s' = CLOSE_BY_SSL_ERR)
                   \/ (r = -5 /\ close_reason s' = CLOSE_BY_SOCK_ERR))
  | Next (t', s', _) =>
      wb_sizes_ok s' /\ sess_kind s' = sess_kind s
      /\ close_reason s' = close_reason s /\ 0 <= t'
  end.
Proof.
  intros [Hm Hs] Hnn. unfold send_mem_send_data, wb_sizes_ok.
  destruct (Z.eqb_spec (mem_send_size (wr_buf s)) 0) as [Hz|Hnz]; [done|].
  simpl. destruct (io_write w) as [o w1].
  destruct (try_write _ _ _ _ o) as [sent| |r why] eqn:Ht.
  - apply try_write_sent_pos in Ht; [|lia].
    destruct (Z.ltb_spec sent (mem_send_size (wr_buf s))).
    + pending_cases; repeat split; try done; try lia.
    + pending_cases; repeat split; try done; try lia.
  - pending_cases; repeat split; try done; try lia.
  - apply try_write_failed_why in Ht as [[-> ->] | [-> ->]]; simpl;
      repeat split; try done; try lia; intros _; [by left | by right].
Qed.

Lemma send_bufs_outcome v e s w r s' w' :
  wb_sizes_ok s ->
  send_bufs v e s w = (r, s', w') ->
  wb_sizes_ok s' /\ sess_kind s' = sess_kind s
  /\ (0 <= r -> close_reason s' = close_reason s)
  /\ (r < 0 -> send_failure_reason r = Some (close_reason s') /\ r <> -1
               /\ (r = -6 -> e = true)).
Proof.
  intros Hok. unfold send_bufs.
  pose proof (send_merge_data_outcome v s w Hok) as H1.
  destruct (send_merge_data v s w) as [[[r1 s1] w1]|[[t1 s1] w1]].
  { intros [= -> -> ->]. destruct H1 as (H1 & Hk & H2 & H3).
    split; [done|]. split; [done|]. split; [done|].
    intros H. destruct (H3 H) as [[-> ->] | [-> ->]]; done. }
  destruct H1 as (Hok1 & Hk1 & Hc1 & Ht1).
  pose proof (send_mem_send_data_outcome v t1 s1 w1 Hok1 Ht1) as H2.
  destruct (send_mem_send_data v t1 s1 w1) as [[[r2 s2] w2]|[[t2 s2] w2]].
  { intros [= -> -> ->]. destruct H2 as (H2 & Hk2 & H3 & H4).
    split; [done|]. split; [congruence|].
    split; [intros Hr; rewrite H3 by done; done|].
    intros H. destruct (H4 H) as [[-> ->] | [-> ->]]; done. }
  destruct H2 as (Hok2 & Hk2 & Hc2 & Ht2).
  assert (Hclr : forall x : h2_sess,
             wb_sizes_ok x ->
             wb_sizes_ok (if t2 =? 0 then h2_sess_clear_send_pending x else x)
             /\ sess_kind (if t2 =? 0 then h2_sess_clear_send_pending x else x)
                = sess_kind x
             /\ close_reason
                  (if t2 =? 0 then h2_sess_clear_send_pending x else x)
                = close_reason x).
  { intros x Hx. destruct (t2 =? 0); [|done].
    unfold h2_sess_clear_send_pending. by destruct (send_pending x). }
  destruct (Hclr s2 Hok2) as (Hok3 & Hk3 & Hc3).
  destruct e; simpl.
  - destruct (ng_want_read w2); simpl.
    + intros [= <- <- <-]. split; [done|]. split; [congruence|].
      split; [congruence|]. lia.
    + intros [= <- <- <-]. split; [apply Hok3|].
      split; [transitivity (sess_kind s2); [apply Hk3|congruence]|].
      split; [lia|]. done.
  - intros [= <- <- <-]. split; [done|]. split; [congruence|].
    split; [congruence|]. lia.
Qed.

Lemma fill_v2_sizes B c q wb :
  0 <= merge_size wb -> 0 <= mem_send_size wb ->
  match fill_v2 B c q wb with
  | FillErr wb' _ | FillDone wb' _ _ =>
      0 <= merge_size wb' /\ 0 <= mem_send_size wb'
  end.
Proof.
  revert wb. induction q as [|m q IH]; intros wb Hm Hs; simpl.
  - by destruct (_ && _).
  - destruct (_ && _); [|done].
    destruct (Z.ltb_spec (ms_size m) 0); [done|].
    destruct (Z.eqb_spec (ms_size m) 0); [done|].
    destruct (_ <=? _).
    + apply IH; simpl; lia.
    + simpl. lia.
Qed.

(** What the choice of the next body slice leaves alone. *)
Definition sess_frame (s : h2_sess)
    : bool * http_ver_t * bool * Z * close_reason_t * bool * h2_wr_buf :=
  (sess_kind s, close_reason s, send_pending s, wr_buf s).

Lemma flush_sent_frame l s s' d n :
  flush_sent l s = (s', (d, n)) -> sess_frame s' = sess_frame s.
Proof.
  revert s. induction l as [|strm l IH]; intros s; simpl.
  - by intros [= <- <- <-].
  - destruct (response_set strm); [|by intros [= <- <- <-]].
    destruct (rb_drained _).
    + intros H. by apply IH in H.
    + by intros [= <- <- <-].
Qed.

Lemma walk_sending_frame l i s s' d n :
  walk_sending l i s = (s', (d, n)) -> sess_frame s' = sess_frame s.
Proof.
  revert i. induction l as [|strm l IH]; intros i; simpl.
  - by intros [= <- <- <-].
  - destruct (rb_drained _).
    + apply IH.
    + by intros [= <- <- <-].
Qed.

Lemma next_strm_data_frame s s' d n :
  next_strm_data s = (s', (d, n)) ->
  sess_frame s' = sess_frame s /\ 0 <= n.
Proof.
  intros H. split; [|by apply next_strm_data_spec in H as [? _]].
  revert H. unfold next_strm_data. destruct (is_server s).
  - apply flush_sent_frame.
  - apply walk_sending_frame.
Qed.

Lemma fill_v1_1_frame B c fuel s :
  wb_sizes_ok s ->
  wb_sizes_ok (fill_v1_1 B c fuel s)
  /\ sess_kind (fill_v1_1 B c fuel s) = sess_kind s
  /\ close_reason (fill_v1_1 B c fuel s) = close_reason s
  /\ send_pending (fill_v1_1 B c fuel s) = send_pending s.
Proof.
  revert s. induction fuel as [|fuel IH]; intros s Hok; simpl.
  - by destruct (_ && _).
  - destruct (_ && _); [|done].
    destruct (next_strm_data s) as [s1 [d n]] eqn:Hn.
    apply next_strm_data_frame in Hn as [Hf Hn].
    unfold sess_frame in Hf.
    assert (Hk : sess_kind s1 = sess_kind s) by congruence.
    assert (Hc : close_reason s1 = close_reason s) by congruence.
    assert (Hp : send_pending s1 = send_pending s) by congruence.
    assert (Hwb : wr_buf s1 = wr_buf s) by congruence.
    clear Hf.
    assert (Hok1 : wb_sizes_ok s1) by (unfold wb_sizes_ok; by rewrite Hwb).
    destruct (Z.eqb_spec n 0); [by rewrite Hk, Hc, Hp|].
    destruct (_ <=? _).
    + destruct (IH (set_wr_buf (wb_merge d n (wr_buf s1)) s1))
        as (I1 & I2 & I3 & I4).
      { destruct Hok1. split; simpl; lia. }
      split; [done|]. rewrite I2, I3, I4. simpl. by rewrite <- Hk, Hc, Hp.
    + split; [destruct Hok1; split; simpl; lia|]. simpl.
      by rewrite <- Hk, Hc, Hp.
Qed.

Lemma send_once_outcome B c E v2 s w r s' w' :
  wb_sizes_ok s ->
  send_once B c E v2 s w = (r, s', w') ->
  wb_sizes_ok s' /\ sess_kind s' = sess_kind s
  /\ (0 <= r -> close_reason s' = close_reason s)
  /\ (r < 0 -> send_failure_reason r = Some (close_reason s')
               /\ (v2 = false -> r <> -1 /\ r <> -6)
               /\ (E = false -> r <> -6)).
Proof.
  intros Hok. unfold send_once. destruct v2.
  - unfold h2_sess_send_once_v2.
    pose proof (fill_v2_sizes B c (ng_mem_send w) (wr_buf s)
                  (proj1 Hok) (proj2 Hok)) as Hf.
    destruct (fill_v2 B c (ng_mem_send w) (wr_buf s)) as [wb q|wb q z].
    + intros [= <- <- <-]. split; [done|]. split; [done|].
      split; [lia|]. done.
    + intros H. apply send_bufs_outcome in H as (H1 & H2 & H3 & H4); [|done].
      split; [done|]. split; [done|]. split; [done|].
      intros Hr. destruct (H4 Hr) as (H5 & H6 & H7).
      split; [done|]. split; [done|].
      intros -> ->. by specialize (H7 eq_refl).
  - unfold h2_sess_send_once_v1_1.
    destruct (fill_v1_1_frame B c (S (length (strm_list s))) s Hok)
      as (F1 & F2 & F3 & F4).
    intros H. apply send_bufs_outcome in H as (H1 & H2 & H3 & H4); [|done].
    split; [done|]. split; [congruence|].
    split; [intros Hr; rewrite H3 by done; done|].
    intros Hr. destruct (H4 Hr) as (H5 & H6 & H7).
    split; [done|]. split; [|intros _ ->; by specialize (H7 eq_refl)].
    intros _. split; [done|]. intros ->. by specialize (H7 eq_refl).
Qed.

Lemma send_loop_outcome B c E f v2 s w r s' w' :
  wb_sizes_ok s ->
  send_loop B c E f v2 s w = (r, s', w') ->
  wb_sizes_ok s' /\ sess_kind s' = sess_kind s
  /\ (0 <= r -> close_reason s' = close_reason s /\ wb_idle_or_pending s')
  /\ (r < 0 -> send_failure_reason r = Some (close_reason s')
               /\ (v2 = false -> r <> -1 /\ r <> -6)
               /\ (E = false -> r <> -6)).
Proof.
  revert s w. induction f as [|f IH]; intros s w Hok; simpl;
    destruct (send_once B c E v2 s w) as [[r1 s1] w1] eqn:Hs;
    pose proof (send_once_step _ _ _ _ _ _ _ _ _ (proj1 Hok) Hs) as [_ Hip];
    apply send_once_outcome in Hs as (H1 & H2 & H3 & H4); try done.
  - destruct (0 <? r1); intros [= <- <- <-];
      (split; [done|]; split; [done|]; split; [|done]);
      intros Hr; (split; [by apply H3|by apply Hip]).
  - destruct (Z.ltb_spec 0 r1).
    + intros Hl. apply IH in Hl as (I1 & I2 & I3 & I4); [|done].
      split; [done|]. split; [congruence|]. split; [|done].
      intros Hr. destruct (I3 Hr) as [I5 I6]. split; [|done].
      rewrite I5. apply H3. lia.
    + intros [= <- <- <-]. split; [done|]. split; [done|]. split; [|done].
      intros Hr. split; [by apply H3|by apply Hip].
Qed.

(** X1.  [h2_sess_send] never returns a positive count.  When it returns 0
    the write buffer is empty or [send_pending] is set, so that the event
    loop calls again when the socket is writable, and the close reason and
    the kind of the session are as before. *)
Theorem h2_sess_send_zero_idle_or_pending :
  forall (H2_WR_BUF_SIZE sizeof_merge_data : Z) (EPOLL_MODE : bool)
         (s : h2_sess) (w : io_world),
    wb_sizes_ok s ->
    let out := h2_sess_send H2_WR_BUF_SIZE sizeof_merge_data EPOLL_MODE s w in
    out.1.1 <= 0
    /\ sess_kind out.1.2 = sess_kind s
    /\ (out.1.1 = 0 ->
        wb_idle_or_pending out.1.2 /\ close_reason out.1.2 = close_reason s).
Proof.
  intros B c E s w Hok out.
  split; [apply h2_sess_send_result|].
  subst out. unfold h2_sess_send.
  destruct (send_loop B c E (send_backlog s w) (is_v2 s) s w)
    as [[r s'] w'] eqn:Hl.
  apply send_loop_outcome in Hl as (H1 & H2 & H3 & H4); [|done].
  split; [done|]. simpl. intros ->. destruct H3 as [H3 H5]; [lia|done].
Qed.

(** X2.  A negative result of [h2_sess_send] always comes with its close
    reason: -1 with [CLOSE_BY_NGHTTP2_ERR], -2 with [CLOSE_BY_SSL_ERR], -3
    and -5 with [CLOSE_BY_SOCK_ERR], -6 with [CLOSE_BY_NGHTTP2_END], and
    there is no other negative result.  The codec results -1 and -6 do not
    occur on an HTTP/1.1 session, and -6 only in a build with
    [EPOLL_MODE]. *)
Theorem h2_sess_send_failure_reason :
  forall (H2_WR_BUF_SIZE sizeof_merge_data : Z) (EPOLL_MODE : bool)
         (s : h2_sess) (w : io_world),
    wb_sizes_ok s ->
    let out := h2_sess_send H2_WR_BUF_SIZE sizeof_merge_data EPOLL_MODE s w in
    out.1.1 < 0 ->
    send_failure_reason out.1.1 = Some (close_reason out.1.2)
    /\ (is_v2 s = false -> out.1.1 <> -1 /\ out.1.1 <> -6)
    /\ (EPOLL_MODE = false -> out.1.1 <> -6).
Proof.
  intros B c E s w Hok out. subst out. unfold h2_sess_send.
  destruct (send_loop B c E (send_backlog s w) (is_v2 s) s w)
    as [[r s'] w'] eqn:Hl.
  apply send_loop_outcome in Hl as (H1 & H2 & H3 & H4); [|done].
  simpl. apply H4.
Qed.

(** A world whose codec hands out five bytes and whose socket takes two of
    them and then blocks, and one whose socket fails. *)
Definition slow_socket_world : io_world :=
  {| ng_mem_send := [{| ms_size := 5; ms_data := chars "hello" |}];
     ng_want_read := true; ng_terminate_ret := 0; ng_submit_ret := 0;
     wr_results := [{| wr_ret := 2; wr_errno := EOTHER;
                       wr_ssl_error := SSL_ERROR_OTHER |}];
     io_log := [] |}.

Definition broken_socket_world : io_world :=
  {| ng_mem_send := [{| ms_size := 5; ms_data := chars "hello" |}];
     ng_want_read := true; ng_terminate_ret := 0; ng_submit_ret := 0;
     wr_results := [{| wr_ret := -1; wr_errno := EOTHER;
                       wr_ssl_error := SSL_ERROR_OTHER |}];
     io_log := [] |}.

Lemma h2_sess_send_zero_idle_or_pending_witness :
  let s := h2_sess_init false H2_HTTP_V2 false in
  let out := h2_sess_send 16384 16384 false s slow_socket_world in
  out.1.1 <= 0
  /\ sess_kind out.1.2 = sess_kind s
  /\ (out.1.1 = 0 ->
      wb_idle_or_pending out.1.2 /\ close_reason out.1.2 = close_reason s).
Proof.
  intros s.
  apply (h2_sess_send_zero_idle_or_pending 16384 16384 false s
           slow_socket_world).
  split; simpl; lia.
Defined.

Lemma h2_sess_send_failure_reason_witness :
  let s := h2_sess_init false H2_HTTP_V2 false in
  let out := h2_sess_send 16384 16384 false s broken_socket_world in
  out.1.1 = -3
  /\ send_failure_reason out.1.1 = Some (close_reason out.1.2)
  /\ (is_v2 s = false -> out.1.1 <> -1 /\ out.1.1 <> -6)
  /\ (false = false -> out.1.1 <> -6).
Proof.
  intros s. split; [reflexivity|].
  apply (h2_sess_send_failure_reason 16384 16384 false s broken_socket_world).
  - split; simpl; lia.
  - reflexivity.
Defined.

(** ** The bytes of the write buffer *)

(** The unsent bytes of the write buffer in the order they go to the
    transport: the merge area, then the borrowed span. *)
Definition wb_bytes (wb : h2_wr_buf) : list ascii :=
  take (Z.to_nat (merge_size wb)) (merge_data wb)
  ++ take (Z.to_nat (mem_send_size wb)) (default [] (mem_send_data wb)).

(** The sizes lie within the data they describe. *)
Definition wb_wf (wb : h2_wr_buf) : Prop :=
  0 <= merge_size wb <= Z.of_nat (length (merge_data wb))
  /\ 0 <= mem_send_size wb
     <= Z.of_nat (length (default [] (mem_send_data wb))).

(** The bytes of an answer of the codec, and the answers that point at as
    many bytes as they announce. *)
Definition span_bytes (m : mem_send_res) : list ascii :=
  take (Z.to_nat (ms_size m)) (ms_data m).

Definition span_wf (m : mem_send_res) : Prop :=
  ms_size m <= Z.of_nat (length (ms_data m)).

Lemma wb_bytes_merge_partial wb sent :
  wb_wf wb -> 0 < sent < merge_size wb ->
  let wb' :=
    {| merge_data :=
         drop (Z.to_nat sent) (take (Z.to_nat (merge_size wb)) (merge_data wb));
       merge_size := merge_size wb - sent;
       mem_send_data := mem_send_data wb;
       mem_send_size := mem_send_size wb |} in
  wb_wf wb' /\ wb_bytes wb' = drop (Z.to_nat sent) (wb_bytes wb).
Proof.
  intros [Hm Hs] Hsent wb'. split.
  - split; [|done]. simpl. rewrite length_drop, length_take. lia.
  - unfold wb_bytes. simpl.
    rewrite drop_app_le by (rewrite length_take; lia).
    f_equal. apply take_ge. rewrite length_drop, length_take. lia.
Qed.

Lemma wb_bytes_merge_done wb :
  wb_wf wb ->
  let wb' :=
    {| merge_data := merge_data wb; merge_size := 0;
       mem_send_data := mem_send_data wb;
       mem_send_size := mem_send_size wb |} in
  wb_wf wb'
  /\ wb_bytes wb' = drop (Z.to_nat (merge_size wb)) (wb_bytes wb).
Proof.
  intros [Hm Hs] wb'. split.
  - split; [|done]. simpl. lia.
  - unfold wb_bytes. simpl.
    rewrite drop_app_length' by (rewrite length_take; lia). done.
Qed.

Lemma wb_bytes_mem_partial wb sent :
  wb_wf wb -> merge_size wb = 0 -> 0 < sent < mem_send_size wb ->
  let wb' :=
    {| merge_data := merge_data wb; merge_size := merge_size wb;
       mem_send_data := drop (Z.to_nat sent) <$> mem_send_data wb;
       mem_send_size := mem_send_size wb - sent |} in
  wb_wf wb' /\ wb_bytes wb' = drop (Z.to_nat sent) (wb_bytes wb).
Proof.
  intros [Hm Hs] Hz Hsent wb'.
  assert (Hd : default [] (drop (Z.to_nat sent) <$> mem_send_data wb)
               = drop (Z.to_nat sent) (default [] (mem_send_data wb))).
  { destruct (mem_send_data wb); simpl; [done|by rewrite drop_nil]. }
  split.
  - split; [done|]. simpl. rewrite Hd, length_drop. lia.
  - unfold wb_bytes. simpl. rewrite Hd, Hz. simpl.
    rewrite take_drop_commute. f_equal. f_equal. lia.
Qed.

Lemma wb_bytes_mem_done wb :
  wb_wf wb -> merge_size wb = 0 ->
  let wb' :=
    {| merge_data := merge_data wb; merge_size := merge_size wb;
       mem_send_data := None; mem_send_size := 0 |} in
  wb_wf wb'
  /\ wb_bytes wb' = drop (Z.to_nat (mem_send_size wb)) (wb_bytes wb).
Proof.
  intros [Hm Hs] Hz wb'. split.
  - split; [done|]. simpl. lia.
  - unfold wb_bytes. simpl. rewrite Hz. simpl.
    rewrite drop_ge by (rewrite length_take; lia). done.
Qed.

Lemma try_write_tls intr tcp_fail n o sent :
  try_write true intr tcp_fail n o = WrSent sent -> sent = n.
Proof.
  unfold try_write. destruct (0 <? wr_ret o); [by intros [= <-]|].
  by destruct (wr_ssl_error o).
Qed.

Lemma wb_bytes_length wb :
  wb_wf wb ->
  length (wb_bytes wb) = Z.to_nat (merge_size wb + mem_send_size wb).
Proof.
  intros [Hm Hs]. unfold wb_bytes. rewrite length_app, !length_take. lia.
Qed.

Lemma send_merge_data_bytes v s w :
  wb_wf (wr_buf s) ->
  match send_merge_data v s w with
  | Return (r, s', _) =>
      wb_wf (wr_buf s')
      /\ exists k, wb_bytes (wr_buf s') = drop k (wb_bytes (wr_buf s))
                   /\ (k <= length (wb_bytes (wr_buf s)))%nat
                   /\ (0 <= r -> Z.of_nat k <= r)
                   /\ (ssl s = true -> 0 <= r -> Z.of_nat k = r)
  | Next (t, s', _) =>
      wb_wf (wr_buf s') /\ ssl s' = ssl s /\ merge_size (wr_buf s') = 0
      /\ exists k, wb_bytes (wr_buf s') = drop k (wb_bytes (wr_buf s))
                   /\ (k <= length (wb_bytes (wr_buf s)))%nat
                   /\ 0 <= Z.of_nat k <= t
                   /\ (ssl s = true -> Z.of_nat k = t)
  end.
Proof.
  intros Hwf. pose proof (wb_bytes_length _ Hwf) as Hlen.
  pose proof Hwf as [Hwm Hws]. unfold send_merge_data.
  destruct (Z.ltb_spec 0 (merge_size (wr_buf s))) as [Hpos|Hnp].
  2:{ split; [done|]. split; [done|]. split; [lia|].
      exists 0%nat. rewrite drop_0. split; [done|]. split; [lia|].
      split; lia. }
  destruct (io_write w) as [o w1].
  destruct (try_write _ _ _ _ o) as [sent| |r why] eqn:Ht.
  - pose proof Ht as Hp. apply try_write_sent_pos in Hp; [|done].
    destruct (Z.ltb_spec sent (merge_size (wr_buf s))) as [Hlt|Hge].
    + rewrite mark_send_pending_wr_buf. simpl.
      destruct (wb_bytes_merge_partial (wr_buf s) sent Hwf) as [W1 W2];
        [lia|].
      split; [done|]. exists (Z.to_nat sent). split; [done|].
      split; [lia|]. split; [lia|]. intros Hssl _. lia.
    + simpl.
      destruct (wb_bytes_merge_done (wr_buf s) Hwf) as [W1 W2].
      split; [done|]. split; [by destruct v|]. split; [done|].
      exists (Z.to_nat (merge_size (wr_buf s))). split; [done|].
      split; [lia|]. split; [lia|]. intros Hssl. rewrite Hssl in Ht.
      apply try_write_tls in Ht. lia.
  - rewrite mark_send_pending_wr_buf. split; [done|].
    exists 0%nat. rewrite drop_0. split; [done|]. split; [lia|]. split; lia.
  - simpl. split; [done|]. exists 0%nat. rewrite drop_0. split; [done|].
    assert (r < 0) by (by apply try_write_failed in Ht).
    split; [lia|]. split; lia.
Qed.

Lemma send_mem_send_data_bytes v t s w :
  wb_wf (wr_buf s) -> merge_size (wr_buf s) = 0 -> 0 <= t ->
  match send_mem_send_data v t s w with
  | Return (r, s', _) =>
      wb_wf (wr_buf s')
      /\ exists k, wb_bytes (wr_buf s') = drop k (wb_bytes (wr_buf s))
                   /\ (k <= length (wb_bytes (wr_buf s)))%nat
                   /\ (0 <= r -> t + Z.of_nat k <= r)
                   /\ (ssl s = true -> 0 <= r -> t + Z.of_nat k = r)
  | Next (t', s', _) =>
      wb_wf (wr_buf s')
      /\ exists k, wb_bytes (wr_buf s') = drop k (wb_bytes (wr_buf s))
                   /\ (k <= length (wb_bytes (wr_buf s)))%nat
                   /\ t + Z.of_nat k <= t'
                   /\ (ssl s = true -> t + Z.of_nat k = t')
  end.
Proof.
  intros Hwf Hz Ht0. pose proof (wb_bytes_length _ Hwf) as Hlen.
  pose proof Hwf as [Hwm Hws]. unfold send_mem_send_data.
  destruct (Z.eqb_spec (mem_send_size (wr_buf s)) 0) as [Hz'|Hnz]; simpl.
  { split; [done|]. exists 0%nat. rewrite drop_0. split; [done|].
    split; [lia|]. split; lia. }
  assert (Hpos : 0 < mem_send_size (wr_buf s)) by lia.
  destruct (io_write w) as [o w1].
  destruct (try_write _ _ _ _ o) as [sent| |r why] eqn:Ht.
  - pose proof Ht as Hp. apply try_write_sent_pos in Hp; [|done].
    destruct (Z.ltb_spec sent (mem_send_size (wr_buf s))) as [Hlt|Hge].
    + rewrite mark_send_pending_wr_buf. simpl.
      destruct (wb_bytes_mem_partial (wr_buf s) sent Hwf Hz) as [W1 W2];
        [lia|].
      split; [done|]. exists (Z.to_nat sent). split; [done|].
      split; [lia|]. split; lia.
    + simpl.
      destruct (wb_bytes_mem_done (wr_buf s) Hwf Hz) as [W1 W2].
      split; [done|].
      exists (Z.to_nat (mem_send_size (wr_buf s))). split; [done|].
      split; [lia|]. split; [lia|]. intros Hssl. rewrite Hssl in Ht.
      apply try_write_tls in Ht. lia.
  - rewrite mark_send_pending_wr_buf. split; [done|].
    exists 0%nat. rewrite drop_0. split; [done|]. split; [lia|]. split; lia.
  - simpl. split; [done|]. exists 0%nat. rewrite drop_0. split; [done|].
    assert (r < 0) by (by apply try_write_failed in Ht).
    split; [lia|]. split; lia.
Qed.

Lemma send_bufs_bytes v e s w r s' w' :
  wb_wf (wr_buf s) ->
  send_bufs v e s w = (r, s', w') ->
  wb_wf (wr_buf s')
  /\ exists k, wb_bytes (wr_buf s') = drop k (wb_bytes (wr_buf s))
               /\ (k <= length (wb_bytes (wr_buf s)))%nat
               /\ (0 <= r -> Z.of_nat k <= r)
               /\ (ssl s = true -> 0 <= r -> Z.of_nat k = r).
Proof.
  intros Hwf. unfold send_bufs.
  pose proof (send_merge_data_bytes v s w Hwf) as H1.
  destruct (send_merge_data v s w) as [[[r1 s1] w1]|[[t1 s1] w1]].
  { by intros [= -> -> ->]. }
  destruct H1 as (Hwf1 & Hssl1 & Hz1 & k1 & Hb1 & Hk1 & Ht1 & He1).
  pose proof (send_mem_send_data_bytes v t1 s1 w1 Hwf1 Hz1) as H2.
  assert (Hlen1 : (length (wb_bytes (wr_buf s1))
                   = length (wb_bytes (wr_buf s)) - k1)%nat).
  { by rewrite Hb1, length_drop. }
  destruct (send_mem_send_data v t1 s1 w1) as [[[r2 s2] w2]|[[t2 s2] w2]].
  { intros [= -> -> ->].
    destruct H2 as (Hwf2 & k2 & Hb2 & Hk2 & Ht2 & He2); [lia|].
    split; [done|]. exists (k1 + k2)%nat.
    split; [by rewrite Hb2, Hb1, drop_drop|].
    split; [lia|]. split; [lia|].
    intros Hs Hr. rewrite <- Hssl1 in Hs.
    specialize (He2 Hs Hr). rewrite Hssl1 in Hs. specialize (He1 Hs). lia. }
  destruct H2 as (Hwf2 & k2 & Hb2 & Hk2 & Ht2 & He2); [lia|].
  assert (Hclr : wr_buf (if t2 =? 0 then h2_sess_clear_send_pending s2 else s2)
                 = wr_buf s2).
  { destruct (t2 =? 0); by rewrite ?clear_send_pending_wr_buf. }
  destruct (e && negb (ng_want_read w2)).
  - intros [= <- <- <-]. simpl. rewrite Hclr. split; [done|].
    exists (k1 + k2)%nat.
    split; [by rewrite Hb2, Hb1, drop_drop|].
    split; [lia|]. split; lia.
  - intros [= <- <- <-]. rewrite Hclr. split; [done|].
    exists (k1 + k2)%nat.
    split; [by rewrite Hb2, Hb1, drop_drop|].
    split; [lia|]. split; [lia|].
    intros Hs Hr. rewrite <- Hssl1 in Hs.
    specialize (He2 Hs). rewrite Hssl1 in Hs. specialize (He1 Hs). lia.
Qed.

Lemma fill_v2_bytes B c q wb :
  wb_wf wb -> Forall span_wf q ->
  match fill_v2 B c q wb with
  | FillErr wb' q' | FillDone wb' q' _ =>
      exists taken,
        q = taken ++ q' /\ wb_wf wb'
        /\ wb_bytes wb' = wb_bytes wb ++ concat (span_bytes <$> taken)
        /\ (0 < mem_send_size wb -> taken = [])
  end.
Proof.
  revert wb. induction q as [|m q IH]; intros wb Hwf Hq; simpl.
  - destruct (_ && _); exists []; simpl; by rewrite app_nil_r.
  - destruct ((mem_send_size wb <=? 0) && (merge_size wb <? B)) eqn:Hc.
    2:{ exists []. simpl. by rewrite app_nil_r. }
    apply andb_prop in Hc as [Hc _]. apply Z.leb_le in Hc.
    apply Forall_cons in Hq as [Hm Hq]. unfold span_wf in Hm.
    pose proof Hwf as [Hwm Hws].
    assert (Hs0 : mem_send_size wb = 0) by lia.
    destruct (Z.ltb_spec (ms_size m) 0).
    { exists [m]. split; [done|]. split; [done|]. split; [|lia].
      simpl. unfold span_bytes.
      replace (Z.to_nat (ms_size m)) with 0%nat by lia.
      by rewrite take_0, !app_nil_r. }
    destruct (Z.eqb_spec (ms_size m) 0) as [Hz|Hnz].
    { exists [m]. split; [done|]. split; [done|]. split; [|lia].
      simpl. unfold span_bytes. rewrite Hz. by rewrite take_0, !app_nil_r. }
    destruct (_ <=? _).
    + specialize (IH (wb_merge (ms_data m) (ms_size m) wb)).
      assert (Hwf' : wb_wf (wb_merge (ms_data m) (ms_size m) wb)).
      { split; [|done]. simpl. rewrite length_app, !length_take. lia. }
      assert (Hb : wb_bytes (wb_merge (ms_data m) (ms_size m) wb)
                   = wb_bytes wb ++ span_bytes m).
      { unfold wb_bytes, span_bytes. simpl. rewrite Hs0. simpl.
        rewrite !app_nil_r. apply take_ge.
        rewrite length_app, !length_take. lia. }
      specialize (IH Hwf' Hq).
      destruct (fill_v2 B c q _) as [wb' q'|wb' q' z];
        destruct IH as (taken & -> & I2 & I3 & I4);
        exists (m :: taken); (split; [done|]); (split; [done|]);
        (split; [|lia]); rewrite I3, Hb; simpl; by rewrite <- app_assoc.
    + exists [m]. split; [done|]. split.
      { split; [done|]. simpl. lia. }
      split; [|lia]. unfold wb_bytes, span_bytes. simpl. rewrite Hs0. simpl.
      by rewrite !app_nil_r.
Qed.

Lemma send_once_v2_bytes B c E s w r s' w' :
  wb_wf (wr_buf s) -> Forall span_wf (ng_mem_send w) ->
  h2_sess_send_once_v2 B c E s w = (r, s', w') ->
  exists taken k,
    ng_mem_send w = taken ++ ng_mem_send w'
    /\ wb_bytes (wr_buf s')
       = drop k (wb_bytes (wr_buf s) ++ concat (span_bytes <$> taken))
    /\ (k <= length (wb_bytes (wr_buf s) ++ concat (span_bytes <$> taken)))%nat
    /\ (0 <= r -> Z.of_nat k <= r)
    /\ (ssl s = true -> 0 <= r -> Z.of_nat k = r)
    /\ (0 < mem_send_size (wr_buf s) -> taken = [])
    /\ wb_wf (wr_buf s') /\ Forall span_wf (ng_mem_send w').
Proof.
  intros Hwf Hq. unfold h2_sess_send_once_v2.
  pose proof (fill_v2_bytes B c (ng_mem_send w) (wr_buf s) Hwf Hq) as Hf.
  destruct (fill_v2 B c (ng_mem_send w) (wr_buf s)) as [wb q|wb q z];
    destruct Hf as (taken & Hq' & Hwf' & Hb & Hnone);
    assert (Hq2 : Forall span_wf q)
      by (rewrite Hq' in Hq; by apply Forall_app in Hq as [_ ?]).
  - intros [= <- <- <-]. exists taken, 0%nat. simpl.
    split; [done|]. split; [by rewrite drop_0|]. split; [lia|].
    split; [lia|]. split; [lia|]. done.
  - intros H. pose proof H as H'.
    apply send_bufs_backlog in H' as (_ & Hqq & _).
    apply send_bufs_bytes in H as (Hwf2 & k & Hk1 & Hk2 & Hk3 & Hk4);
      [|done].
    simpl in *. exists taken, k. rewrite Hqq, <- Hb.
    split; [done|]. split; [done|]. split; [done|]. split; [done|].
    split; [done|]. split; [done|]. split; [done|]. done.
Qed.

(** X3.  One HTTP/2 send step keeps the byte stream in order: the unsent
    bytes after the step are the unsent bytes before it, followed by the
    spans the step took from the codec, less a prefix.  The prefix is never
    longer than the count the step returns and, with TLS, it is exactly
    that count.  While a borrowed span is unsent the step takes nothing
    from the codec. *)
Theorem send_once_v2_keeps_byte_order :
  forall (H2_WR_BUF_SIZE sizeof_merge_data : Z) (EPOLL_MODE : bool)
         (s : h2_sess) (w : io_world),
    wb_wf (wr_buf s) -> Forall span_wf (ng_mem_send w) ->
    let out :=
      h2_sess_send_once_v2 H2_WR_BUF_SIZE sizeof_merge_data EPOLL_MODE s w in
    exists taken k,
      ng_mem_send w = taken ++ ng_mem_send out.2
      /\ wb_bytes (wr_buf out.1.2)
         = drop k (wb_bytes (wr_buf s) ++ concat (span_bytes <$> taken))
      /\ (0 <= out.1.1 -> Z.of_nat k <= out.1.1)
      /\ (ssl s = true -> 0 <= out.1.1 -> Z.of_nat k = out.1.1)
      /\ (0 < mem_send_size (wr_buf s) -> taken = [])
      /\ wb_wf (wr_buf out.1.2).
Proof.
  intros B c E s w Hwf Hq out. subst out.
  destruct (h2_sess_send_once_v2 B c E s w) as [[r s'] w'] eqn:Hs.
  apply send_once_v2_bytes in Hs
    as (taken & k & H1 & H2 & H3 & H4 & H5 & H6 & H7 & H8); try done.
  exists taken, k. simpl. done.
Qed.

Lemma send_once_v2_keeps_byte_order_witness :
  let s := h2_sess_init false H2_HTTP_V2 false in
  let out := h2_sess_send_once_v2 16384 16384 false s slow_socket_world in
  wb_bytes (wr_buf out.1.2) = chars "llo"
  /\ exists taken k,
      ng_mem_send slow_socket_world = taken ++ ng_mem_send out.2
      /\ wb_bytes (wr_buf out.1.2)
         = drop k (wb_bytes (wr_buf s) ++ concat (span_bytes <$> taken))
      /\ (0 <= out.1.1 -> Z.of_nat k <= out.1.1)
      /\ (ssl s = true -> 0 <= out.1.1 -> Z.of_nat k = out.1.1)
      /\ (0 < mem_send_size (wr_buf s) -> taken = [])
      /\ wb_wf (wr_buf out.1.2).
Proof.
  intros s. split; [reflexivity|].
  apply (send_once_v2_keeps_byte_order 16384 16384 false s slow_socket_world).
  - split; simpl; lia.
  - repeat constructor. unfold span_wf. simpl. lia.
Defined.

Lemma send_loop_v2_bytes B c E f s w r s' w' :
  wb_wf (wr_buf s) -> Forall span_wf (ng_mem_send w) ->
  send_loop B c E f true s w = (r, s', w') ->
  exists taken k,
    ng_mem_send w = taken ++ ng_mem_send w'
    /\ wb_bytes (wr_buf s')
       = drop k (wb_bytes (wr_buf s) ++ concat (span_bytes <$> taken))
    /\ (k <= length (wb_bytes (wr_buf s) ++ concat (span_bytes <$> taken)))%nat
    /\ wb_wf (wr_buf s') /\ Forall span_wf (ng_mem_send w').
Proof.
  revert s w. induction f as [|f IH]; intros s w Hwf Hq; simpl;
    destruct (h2_sess_send_once_v2 B c E s w) as [[r1 s1] w1] eqn:Hs;
    apply send_once_v2_bytes in Hs
      as (taken & k & H1 & H2 & H3 & H4 & H5 & H6 & H7 & H8); try done.
  - destruct (0 <? r1); intros [= <- <- <-]; by exists taken, k.
  - destruct (0 <? r1); [|intros [= <- <- <-]; by exists taken, k].
    intros Hl. apply IH in Hl as (taken2 & k2 & I1 & I2 & I3 & I4 & I5);
      try done.
    exists (taken ++ taken2), (k + k2)%nat.
    assert (Hcat : wb_bytes (wr_buf s1) ++ concat (span_bytes <$> taken2)
                   = drop k (wb_bytes (wr_buf s)
                             ++ concat (span_bytes <$> (taken ++ taken2)))).
    { rewrite H2, fmap_app, concat_app, app_assoc.
      by rewrite (drop_app_le _ _ _ H3). }
    split; [by rewrite H1, I1, app_assoc|].
    split; [by rewrite I2, Hcat, drop_drop|].
    split; [|done].
    rewrite Hcat, length_drop in I3.
    assert (length (wb_bytes (wr_buf s) ++ concat (span_bytes <$> taken))
            <= length (wb_bytes (wr_buf s)
                       ++ concat (span_bytes <$> taken ++ taken2)))%nat.
    { rewrite fmap_app, concat_app, !length_app. lia. }
    lia.
Qed.

(** X4.  [h2_sess_send] on an HTTP/2 session keeps the byte stream in
    order: what is left unsent when it returns is the unsent bytes it
    started with, followed by the spans it took from the codec, less a
    prefix.  When it returns 0 with [send_pending] clear, nothing is left
    unsent. *)
Theorem h2_sess_send_v2_keeps_byte_order :
  forall (H2_WR_BUF_SIZE sizeof_merge_data : Z) (EPOLL_MODE : bool)
         (s : h2_sess) (w : io_world),
    is_v2 s = true ->
    wb_wf (wr_buf s) -> Forall span_wf (ng_mem_send w) ->
    let out := h2_sess_send H2_WR_BUF_SIZE sizeof_merge_data EPOLL_MODE s w in
    (exists taken k,
       ng_mem_send w = taken ++ ng_mem_send out.2
       /\ wb_bytes (wr_buf out.1.2)
          = drop k (wb_bytes (wr_buf s) ++ concat (span_bytes <$> taken)))
    /\ wb_wf (wr_buf out.1.2)
    /\ (out.1.1 = 0 -> send_pending out.1.2 = false ->
        wb_bytes (wr_buf out.1.2) = []).
Proof.
  intros B c E s w Hv2 Hwf Hq out. subst out. unfold h2_sess_send.
  rewrite Hv2.
  destruct (send_loop B c E (send_backlog s w) true s w)
    as [[r s'] w'] eqn:Hl.
  pose proof Hl as Hl2.
  apply send_loop_v2_bytes in Hl as (taken & k & H1 & H2 & H3 & H4 & H5);
    try done.
  simpl. split; [by exists taken, k|]. split; [done|].
  intros -> Hp.
  apply send_loop_outcome in Hl2 as (_ & _ & Hz & _).
  2:{ destruct Hwf. split; lia. }
  destruct Hz as [_ [[Hm Hs] | Hpend]]; [lia| |congruence].
  unfold wb_bytes. by rewrite Hm, Hs.
Qed.

(** A codec that hands out two spans, the second too large for the merge
    area, and a socket that takes whatever it is given. *)
Definition two_span_world : io_world :=
  {| ng_mem_send := [{| ms_size := 5; ms_data := chars "hello" |};
                     {| ms_size := 6; ms_data := chars " world" |}];
     ng_want_read := true; ng_terminate_ret := 0; ng_submit_ret := 0;
     wr_results := [{| wr_ret := 5; wr_errno := EOTHER;
                       wr_ssl_error := SSL_ERROR_OTHER |};
                    {| wr_ret := 6; wr_errno := EOTHER;
                       wr_ssl_error := SSL_ERROR_OTHER |}];
     io_log := [] |}.

Lemma h2_sess_send_v2_keeps_byte_order_witness :
  let s := h2_sess_init false H2_HTTP_V2 false in
  let out := h2_sess_send 8 8 false s two_span_world in
  out.1.1 = 0
  /\ (exists taken k,
        ng_mem_send two_span_world = taken ++ ng_mem_send out.2
        /\ wb_bytes (wr_buf out.1.2)
           = drop k (wb_bytes (wr_buf s) ++ concat (span_bytes <$> taken)))
  /\ wb_wf (wr_buf out.1.2)
  /\ (out.1.1 = 0 -> send_pending out.1.2 = false ->
      wb_bytes (wr_buf out.1.2) = []).
Proof.
  intros s. split; [reflexivity|].
  apply (h2_sess_send_v2_keeps_byte_order 8 8 false s two_span_world).
  - reflexivity.
  - split; simpl; lia.
  - repeat constructor; unfold span_wf; simpl; lia.
Defined.

(** * Further properties of termination *)

(** X5.  On an HTTP/1.1 session over plain TCP every termination, immediate
    or graceful, issues [shutdown(fd, SHUT_WR)]: [SHUT_WR | SHUT_RD] has the
    value of [SHUT_WR], so the read side of the socket is never shut
    down. *)
Theorem terminate_tcp_shuts_write_side_only :
  forall (s : h2_sess) (wait_rsp : Z) (w : io_world),
    is_v2 s = false -> ssl s = false -> is_terminated s <> 1 ->
    io_log (h2_sess_terminate (Some s) wait_rsp w).2
    = io_log w ++ [EvShutdown SHUT_WR].
Proof.
  intros s x w Hv Hs Ht. unfold h2_sess_terminate.
  destruct (Z.eqb_spec (is_terminated s) 1); [done|].
  assert (Hv' : forall n, is_v2 (set_is_terminated n s) = false) by done.
  assert (Hs' : forall n, ssl (set_is_terminated n s) = false) by done.
  destruct (_ && _); rewrite Hv', Hs'; done.
Qed.

Lemma terminate_tcp_shuts_write_side_only_witness :
  io_log (h2_sess_terminate
            (Some (h2_sess_init true H2_HTTP_V1_1 false)) 0 quiet_world).2
  = io_log quiet_world ++ [EvShutdown SHUT_WR].
Proof.
  apply (terminate_tcp_shuts_write_side_only
           (h2_sess_init true H2_HTTP_V1_1 false) 0 quiet_world).
  - reflexivity.
  - reflexivity.
  - simpl. lia.
Defined.

Ltac log_grows :=
  first [ exists []; split; [by rewrite app_nil_r | simpl; lia]
        | eexists [_]; split; [reflexivity | simpl; lia] ].

(** X6.  [h2_sess_terminate] changes nothing of a session but
    [is_terminated] and [send_pending]: it leaves the state 1 or 2, never
    clears [send_pending], takes no answer of the codec or of the transport
    and makes at most one call. *)
Theorem terminate_changes_only_flags :
  forall (s : h2_sess) (wait_rsp : Z) (w : io_world),
    let out := h2_sess_terminate (Some s) wait_rsp w in
    exists s',
      out.1.2 = Some s'
      /\ set_send_pending (send_pending s)
           (set_is_terminated (is_terminated s) s') = s
      /\ (is_terminated s' = 1 \/ is_terminated s' = 2)
      /\ (is_terminated s' = 2 -> wait_rsp <> 0 /\ send_pending s' = send_pending s)
      /\ (send_pending s = true -> send_pending s' = true)
      /\ ng_mem_send out.2 = ng_mem_send w
      /\ wr_results out.2 = wr_results w
      /\ (exists evs, io_log out.2 = io_log w ++ evs /\ (length evs <= 1)%nat).
Proof.
  intros s x w out. subst out. unfold h2_sess_terminate.
  assert (Heta : set_send_pending (send_pending s)
                   (set_is_terminated (is_terminated s) s) = s)
    by (by destruct s).
  assert (Hmark : forall n,
             set_send_pending (send_pending s)
               (set_is_terminated (is_terminated s)
                  (h2_sess_mark_send_pending (set_is_terminated n s))) = s
             /\ is_terminated
                  (h2_sess_mark_send_pending (set_is_terminated n s)) = n
             /\ send_pending
                  (h2_sess_mark_send_pending (set_is_terminated n s)) = true).
  { intros n. unfold h2_sess_mark_send_pending. simpl.
    by destruct (send_pending s) eqn:Hp; destruct s; simpl in *; subst. }
  assert (Hset : forall n,
             set_send_pending (send_pending s)
               (set_is_terminated (is_terminated s) (set_is_terminated n s))
             = s) by (by destruct s).
  destruct (Z.eqb_spec (is_terminated s) 1) as [H1|H1].
  { exists s. simpl. split; [done|]. split; [done|]. split; [by left|].
    split; [lia|]. split; [done|]. split; [done|]. split; [done|].
    log_grows. }
  destruct (negb (x =? 0) && negb (is_server s) && (rsp_cnt s <? req_cnt s))
    eqn:Hw.
  - assert (Hx : x <> 0).
    { apply andb_prop in Hw as [Hw _]. apply andb_prop in Hw as [Hw _].
      apply negb_true_iff in Hw. by apply Z.eqb_neq in Hw. }
    exists (set_is_terminated 2 s).
    destruct (is_v2 (set_is_terminated 2 s));
      [|destruct (ssl (set_is_terminated 2 s))]; simpl;
      (split; [done|]); (split; [apply Hset|]); (split; [by right|]);
      (split; [done|]); (split; [done|]); (split; [done|]);
      (split; [done|]).
    + log_grows.
    + log_grows.
    + log_grows.
  - destruct (Hmark 1) as (M1 & M2 & M3).
    destruct (is_v2 (set_is_terminated 1 s));
      [destruct (ng_terminate_ret (io_emit EvNgTerminate w) <? 0)
      |destruct (ssl (set_is_terminated 1 s))]; simpl.
    + exists (set_is_terminated 1 s).
      split; [done|]. split; [apply Hset|]. split; [by left|].
      split; [simpl; lia|]. split; [done|]. split; [done|]. split; [done|].
      log_grows.
    + eexists. split; [done|]. split; [apply M1|]. split; [by left|].
      split; [rewrite M2; lia|]. split; [done|]. split; [done|].
      split; [done|]. log_grows.
    + eexists. split; [done|]. split; [apply M1|]. split; [by left|].
      split; [rewrite M2; lia|]. split; [done|]. split; [done|].
      split; [done|]. log_grows.
    + eexists. split; [done|]. split; [apply M1|]. split; [by left|].
      split; [rewrite M2; lia|]. split; [done|]. split; [done|].
      split; [done|]. log_grows.
Qed.

(** * Further properties of the HTTP/1.1 receive path *)

(** The read buffer is in order: the used bytes are within the buffered
    ones, these within the capacity, and the buffer holds them; a [NULL]
    buffer holds nothing. *)
Definition rd_wf (s : h2_sess) : Prop :=
  0 <= rdata_used s <= rdata_size s /\ rdata_size s <= rdata_alloced s
  /\ match rdata s with
     | Some buf => rdata_size s <= Z.of_nat (length buf)
     | None => rdata_size s = 0
     end.

Lemma to_int_small z : -2147483648 <= z < 2147483648 -> to_int z = z.
Proof. intros H. unfold to_int. rewrite Z.mod_small by lia. lia. Qed.

Lemma to_int_add_l a b : to_int (to_int a + b) = to_int (a + b).
Proof.
  unfold to_int.
  replace ((a + 2147483648) mod 4294967296 - 2147483648 + b + 2147483648)
    with ((a + 2147483648) mod 4294967296 + b) by lia.
  rewrite Zplus_mod_idemp_l. do 2 f_equal. lia.
Qed.

Lemma to_int_idem z : to_int (to_int z) = to_int z.
Proof. pose proof (to_int_add_l z 0) as H. by rewrite !Z.add_0_r in H. Qed.

Lemma mem_write_take pos src n mem :
  0 <= pos <= Z.of_nat (length mem) -> 0 <= n <= Z.of_nat (length src) ->
  take (Z.to_nat (pos + n)) (mem_write pos src n mem)
  = take (Z.to_nat pos) mem ++ take (Z.to_nat n) src.
Proof.
  intros Hp Hn. unfold mem_write. rewrite app_assoc.
  apply take_app_length'. rewrite length_app, !length_take. lia.
Qed.

Lemma mem_write_take0 src n mem :
  0 <= n <= Z.of_nat (length src) ->
  take (Z.to_nat n) (mem_write 0 src n mem) = take (Z.to_nat n) src.
Proof.
  intros Hn. unfold mem_write. change (Z.to_nat 0) with 0%nat.
  rewrite take_0. cbn [app]. apply take_app_length'.
  rewrite length_take. lia.
Qed.

Lemma mem_write_length pos src n mem :
  0 <= pos <= Z.of_nat (length mem) -> 0 <= n <= Z.of_nat (length src) ->
  pos + n <= Z.of_nat (length (mem_write pos src n mem)).
Proof.
  intros Hp Hn. unfold mem_write. rewrite !length_app, !length_take. lia.
Qed.

(** The compaction of lines 629-643: after [realloc], if the buffer
    grows, and [memmove], if bytes are kept, the buffer starts with the
    bytes that were unread. *)
Lemma rd_compact_take used sz old fresh buf (grows : bool) :
  0 <= used <= sz -> sz <= old -> sz <= Z.of_nat (length buf) ->
  let kept := sz - used in
  let buf1 := if grows then mem_realloc old fresh buf else buf in
  let buf2 := if kept =? 0 then buf1
              else mem_write 0 (drop (Z.to_nat used) buf1) kept buf1 in
  take (Z.to_nat kept) buf2 = drop (Z.to_nat used) (take (Z.to_nat sz) buf)
  /\ kept <= Z.of_nat (length buf2).
Proof.
  intros Hu Ho Hb kept buf1 buf2.
  assert (H1 : take (Z.to_nat sz) buf1 = take (Z.to_nat sz) buf).
  { unfold buf1. destruct grows; [|done]. unfold mem_realloc.
    rewrite take_app_le by (rewrite length_take; lia).
    rewrite take_take. f_equal. lia. }
  assert (L1 : sz <= Z.of_nat (length buf1)).
  { apply (f_equal length) in H1. rewrite !length_take in H1. lia. }
  assert (H2 : take (Z.to_nat kept) (drop (Z.to_nat used) buf1)
               = drop (Z.to_nat used) (take (Z.to_nat sz) buf)).
  { rewrite take_drop_commute, <- H1. do 2 f_equal. unfold kept. lia. }
  unfold buf2. destruct (Z.eqb_spec kept 0) as [E|E].
  - split; [|lia]. rewrite E. change (Z.to_nat 0) with 0%nat.
    rewrite take_0. symmetry. apply drop_ge. rewrite length_take. lia.
  - assert (Hk : 0 <= kept <= Z.of_nat (length (drop (Z.to_nat used) buf1))).
    { rewrite length_drop. unfold kept. lia. }
    split.
    + rewrite <- H2. by apply mem_write_take0.
    + pose proof (mem_write_length 0 (drop (Z.to_nat used) buf1) kept buf1
                    ltac:(lia) Hk). lia.
Qed.

(** X7.  Appending a chunk to the read buffer (lines 618-644) keeps the
    unread bytes, in order, and puts the new bytes after them, whether the
    buffer is allocated, appended to, or compacted and grown; the buffer
    stays in order.  The position in the stream of the next unread byte,
    [rdata_offset + rdata_used], is the same [int] before and after: the
    sum does not change as long as it is within the range of an [int],
    and it is kept modulo 2^32 in any case. *)
Theorem rd_append_keeps_unread :
  forall (s : h2_sess) (new : list ascii) (size : Z),
    rd_wf s -> 0 <= size <= Z.of_nat (length new) ->
    let s' := rd_append s new size in
    rd_unread s' = rd_unread s ++ take (Z.to_nat size) new
    /\ rd_wf s'
    /\ to_int (rdata_offset s' + rdata_used s')
       = to_int (rdata_offset s + rdata_used s)
    /\ (-2147483648 <= rdata_offset s + rdata_used s < 2147483648 ->
        rdata_offset s' + rdata_used s' = rdata_offset s + rdata_used s).
Proof.
  intros s new size (Hu & Ha & Hb) Hn s'. subst s'.
  unfold rd_append, rd_unread, rd_wf.
  destruct (rdata s) as [buf|] eqn:Hbuf; cbn [default from_option id].
  - destruct (Z.leb_spec (rdata_size s + size) (rdata_alloced s)).
    + cbn [rdata rdata_size rdata_used rdata_alloced rdata_offset set_rd
           default from_option id].
      split.
      { rewrite mem_write_take by lia.
        rewrite drop_app_le by (rewrite length_take; lia). done. }
      split; [|done].
      split; [lia|]. split; [lia|]. apply mem_write_length; lia.
    + destruct (rd_compact_take (rdata_used s) (rdata_size s)
                  (rdata_alloced s) (rdata_fresh s) buf
                  (rdata_alloced s <? rdata_size s - rdata_used s + size)
                  Hu Ha Hb) as [C1 C2].
      cbv zeta in C1, C2 |- *.
      cbn [rdata rdata_size rdata_used rdata_alloced rdata_offset set_rd
           default from_option id].
      set (buf2 := if rdata_size s - rdata_used s =? 0 then _ else _) in *.
      split.
      { rewrite mem_write_take by lia.
        change (Z.to_nat 0) with 0%nat. rewrite drop_0. by rewrite C1. }
      split.
      { split; [lia|]. split; [destruct (_ <? _) eqn:E; lia|].
        apply mem_write_length; lia. }
      rewrite Z.add_0_r. split.
      * apply to_int_idem.
      * apply to_int_small.
  - cbn [rdata rdata_size rdata_used rdata_alloced rdata_offset set_rd
         default from_option id].
    split.
    { rewrite take_nil, drop_nil. change (Z.to_nat 0) with 0%nat.
      rewrite drop_0. cbn [app]. by apply mem_write_take0. }
    split; [|split; [f_equal; lia|lia]].
    split; [lia|].
    split; [unfold RDATA_ALLOC_DEF; destruct (_ <=? _) eqn:E; lia|].
    pose proof (mem_write_length 0 new size (rdata_fresh s)). lia.
Qed.

Lemma rd_append_keeps_unread_witness :
  let s := big_request_first_chunk in
  let s' := rd_append s (chars "tail") 4 in
  rd_unread s' = rd_unread s ++ take (Z.to_nat 4) (chars "tail")
  /\ rd_wf s'
  /\ to_int (rdata_offset s' + rdata_used s')
     = to_int (rdata_offset s + rdata_used s).
Proof.
  intros s.
  destruct (rd_append_keeps_unread s (chars "tail") 4) as (H1 & H2 & H3 & _).
  - split; [vm_compute; split; discriminate|].
    split; [vm_compute; discriminate|]. vm_compute. discriminate.
  - simpl. lia.
  - split; [exact H1|]. split; [exact H2|exact H3].
Defined.

Lemma rd_append_counts s new size :
  (rdata s = None -> rdata_size s = 0) ->
  to_int (rdata_offset (rd_append s new size)
          + rdata_size (rd_append s new size))
  = to_int (rdata_offset s + rdata_size s + size)
  /\ (-2147483648 <= rdata_offset s + rdata_used s < 2147483648 ->
      rdata_offset (rd_append s new size) + rdata_size (rd_append s new size)
      = rdata_offset s + rdata_size s + size).
Proof.
  intros Hnull. unfold rd_append. destruct (rdata s).
  - destruct (_ <=? _);
      cbn [rdata rdata_size rdata_used rdata_alloced rdata_offset set_rd].
    + split; [f_equal|intros _]; lia.
    + split.
      * rewrite to_int_add_l. f_equal. lia.
      * intros Hr. rewrite to_int_small by done. lia.
  - cbn [rdata rdata_size rdata_used rdata_alloced rdata_offset set_rd].
    rewrite Hnull by done. split; [f_equal|intros _]; lia.
Qed.

(** X8.  [rdata_offset + rdata_size] counts the bytes received, as an
    [int]: every call of [h2_sess_recv_v1_1] adds the size of its chunk to
    it modulo 2^32, whether the buffer is appended to, compacted, or
    released at the end, and whether the call succeeds or fails; the sum
    is exact as long as the count of the bytes received is within the
    range of an [int].  The call returns the size of the chunk or -1. *)
Theorem recv_v1_1_counts_bytes :
  forall (cb1 cb2 : h2_sess -> Z * h2_sess) (s : h2_sess)
         (new : list ascii) (size : Z),
    keeps_rd cb1 -> keeps_rd cb2 ->
    (rdata s = None -> rdata_size s = 0) ->
    let out := h2_sess_recv_v1_1 cb1 cb2 s new size in
    (out.1 = size \/ out.1 = -1)
    /\ to_int (rdata_offset out.2 + rdata_size out.2)
       = to_int (rdata_offset s + rdata_size s + size)
    /\ (-2147483648 <= rdata_offset s + rdata_used s < 2147483648 ->
        -2147483648 <= rdata_offset s + rdata_size s + size < 2147483648 ->
        rdata_offset out.2 + rdata_size out.2
        = rdata_offset s + rdata_size s + size)
    /\ (rdata out.2 = None -> rdata_size out.2 = 0).
Proof.
  intros cb1 cb2 s new size H1 H2 Hnull out. subst out.
  unfold h2_sess_recv_v1_1.
  destruct (rd_append_counts s new size Hnull) as [Hc Hx].
  pose proof (rd_append_buffer s new size) as [buf Hbuf].
  destruct (recv_loop cb1 cb2 _ (rd_append s new size)) as [r s2] eqn:Hl.
  apply (recv_loop_rd cb1 cb2 H1 H2) in Hl.
  unfold rd_static in Hl.
  assert (Hd : rdata s2 = Some buf) by congruence.
  assert (Hsz : rdata_size s2 = rdata_size (rd_append s new size))
    by congruence.
  assert (Hof : rdata_offset s2 = rdata_offset (rd_append s new size))
    by congruence.
  destruct (r <? 0); cbn [fst snd].
  - split; [by right|]. rewrite Hsz, Hof. split; [done|].
    split; [intros Hr _; by apply Hx|]. by rewrite Hd.
  - split; [by left|]. unfold rd_release.
    destruct (Z.eqb_spec (rdata_used s2) (rdata_size s2)) as [E|E];
      cbn [andb];
      [destruct (_ <? _)|];
      cbn [rdata rdata_size rdata_used rdata_alloced rdata_offset set_rd].
    + rewrite E, Z.add_0_r, Hsz, Hof. split.
      { by rewrite to_int_idem. }
      split; [|done]. intros Hr Hr'. rewrite (Hx Hr). by apply to_int_small.
    + rewrite Hsz, Hof. split; [done|].
      split; [intros Hr _; by apply Hx|]. by rewrite Hd.
    + rewrite Hsz, Hof. split; [done|].
      split; [intros Hr _; by apply Hx|]. by rewrite Hd.
Qed.

Lemma recv_v1_1_counts_bytes_witness :
  let s := big_request_first_chunk in
  let out := h2_sess_recv_v1_1 cb_accept cb_accept s
               (drop (Z.to_nat 16384) big_request) 659 in
  rdata_offset out.2 = 17043
  /\ (out.1 = 659 \/ out.1 = -1)
  /\ to_int (rdata_offset out.2 + rdata_size out.2)
     = to_int (rdata_offset s + rdata_size s + 659)
  /\ rdata_offset out.2 + rdata_size out.2
     = rdata_offset s + rdata_size s + 659.
Proof.
  intros s. split; [vm_compute; reflexivity|].
  destruct (recv_v1_1_counts_bytes cb_accept cb_accept s
              (drop (Z.to_nat 16384) big_request) 659)
    as (W1 & W2 & W3 & _).
  - intros x. split; reflexivity.
  - intros x. split; reflexivity.
  - vm_compute. discriminate.
  - split; [exact W1|]. split; [exact W2|].
    by apply W3; (split; [apply Z.leb_le|apply Z.ltb_lt]); vm_compute.
Defined.

(** X9.  A message that begins with an empty line is complete at once: on
    a server session that has no message in progress, unread bytes that
    start with CR LF make the step create the stream, use the two bytes and
    hand the application a request that has no method, no path and no
    header.  The identifier of the stream is [req_cnt * 2 + 1] computed in
    [int]. *)
Theorem recv_blank_line_completes_empty_request :
  forall (cb1 cb2 : h2_sess -> Z * h2_sess) (s : h2_sess) (rest : list ascii),
    is_server s = true -> strm_recving s = None ->
    rd_unread s = CR :: LF :: rest ->
    exists s1,
      h2_sess_recv_hdl_once_v1_1 cb1 cb2 s = recv_complete cb1 cb2 s1
      /\ recving_rmsg s1 = h2_msg_empty
      /\ strm_recving s1 = Some (length (strm_list s))
      /\ (stream_id <$> strm_list s1)
         = (stream_id <$> strm_list s) ++ [to_int (req_cnt s * 2 + 1)]
      /\ rdata_used s1 = rdata_used s + 2
      /\ req_cnt s1 = req_cnt s.
Proof.
  intros cb1 cb2 s rest Hsrv Hnone Hun.
  unfold h2_sess_recv_hdl_once_v1_1, recv_begin.
  rewrite Hnone, Hsrv. simpl.
  change (rd_unread (set_rmsg_state false 0 0
            (set_strm_recving (Some (length (strm_list s)))
               (set_strm_list (strm_list s ++
                  [{| stream_id := to_int (req_cnt s * 2 + 1);
                      rmsg := h2_msg_empty;
                      response_set := false;
                      send_body_rb := {| data := []; data_size := 0;
                                         data_used := 0 |} |}]) s))))
    with (rd_unread s).
  rewrite Hun. simpl.
  eexists. split.
  - unfold recv_body. simpl.
    unfold recving_rmsg. simpl.
    rewrite lookup_app_r by done. rewrite Nat.sub_diag. simpl.
    reflexivity.
  - simpl. split.
    { unfold recving_rmsg. simpl. rewrite lookup_app_r by done.
      by rewrite Nat.sub_diag. }
    split; [done|]. split; [by rewrite fmap_app|]. split; [lia|done].
Qed.

Lemma recv_blank_line_completes_empty_request_witness :
  let s := rd_append (h2_sess_init true H2_HTTP_V1_1 false)
             [CR; LF] 2 in
  exists s1,
    h2_sess_recv_hdl_once_v1_1 cb_accept cb_accept s
    = recv_complete cb_accept cb_accept s1
    /\ recving_rmsg s1 = h2_msg_empty
    /\ strm_recving s1 = Some (length (strm_list s))
    /\ (stream_id <$> strm_list s1)
       = (stream_id <$> strm_list s) ++ [to_int (req_cnt s * 2 + 1)]
    /\ rdata_used s1 = rdata_used s + 2
    /\ req_cnt s1 = req_cnt s.
Proof.
  intros s.
  apply (recv_blank_line_completes_empty_request cb_accept cb_accept s []);
    reflexivity.
Defined.

Lemma chomp_cr_snoc l : chomp_cr (l ++ [CR]) = l.
Proof. unfold chomp_cr. by rewrite reverse_snoc, reverse_involutive. Qed.




(** * Further properties of the peer *)

(** The number of active flags in [act_sess]. *)
Fixpoint act_count (l : list Z) : Z :=
  match l with
  | [] => 0
  | v :: l' => (if v =? 0 then 0 else 1) + act_count l'
  end.

(** The two arrays have [sess_num] slots, [act_sess_num] is the number of
    active flags and the cursor is not negative. *)
Definition peer_shape (p : h2_peer) : Prop :=
  length (Peer.sess p) = Z.to_nat (Peer.sess_num p)
  /\ length (Peer.act_sess p) = Z.to_nat (Peer.sess_num p)
  /\ Peer.act_sess_num p = act_count (Peer.act_sess p)
  /\ 0 <= Peer.next_sess_idx p.

(** Every active slot holds a session. *)
Definition peer_live (p : h2_peer) : Prop :=
  forall i, peer_act_sess p i <> 0 -> is_Some (peer_sess p i).

Definition peer_wf (p : h2_peer) : Prop := peer_shape p /\ peer_live p.

Lemma act_count_bounds l : 0 <= act_count l <= Z.of_nat (length l).
Proof. induction l as [|v l IH]; simpl; [lia|]. destruct (v =? 0); lia. Qed.

Lemma act_count_insert l i v :
  (i < length l)%nat ->
  act_count (<[i:=v]> l)
  = act_count l - (if default 0 (l !! i) =? 0 then 0 else 1)
    + (if v =? 0 then 0 else 1).
Proof.
  revert i. induction l as [|x l IH]; intros i Hi; simpl in *; [lia|].
  destruct i as [|i]; simpl.
  - destruct (x =? 0), (v =? 0); lia.
  - rewrite IH by lia. destruct (x =? 0); lia.
Qed.

Lemma act_count_zero l :
  act_count l = 0 <-> forall i, default 0 (l !! i) = 0.
Proof.
  induction l as [|x l IH]; simpl.
  - split; [by intros _ i|done].
  - pose proof (act_count_bounds l) as Hb. split.
    + intros H i. destruct (Z.eqb_spec x 0) as [->|]; [|lia].
      destruct i as [|i]; [done|]. simpl. apply IH. lia.
    + intros H. pose proof (H 0%nat) as H0. simpl in H0. rewrite H0. simpl.
      apply IH. intros i. apply (H (S i)).
Qed.

Lemma act_count_replicate n : act_count (replicate n 0) = 0.
Proof. induction n as [|n IH]; simpl; [done|]. by rewrite IH. Qed.

Lemma peer_deactivate_sess i p : Peer.sess (peer_deactivate i p) = Peer.sess p.
Proof. unfold peer_deactivate. by destruct (negb _). Qed.

Lemma peer_deactivate_flags i p j :
  peer_act_sess (peer_deactivate i p) j
  = if decide (j = i) then 0 else peer_act_sess p j.
Proof.
  unfold peer_deactivate.
  destruct (Z.eqb_spec (peer_act_sess p i) 0) as [H0|Hn]; simpl.
  - case_decide; [by subst|done].
  - rewrite peer_act_sess_set. pose proof (peer_act_sess_in_range p i Hn).
    destruct (decide (j = i)) as [->|Hne].
    + by rewrite decide_True.
    + rewrite decide_False; [done|]. by intros [? _].
Qed.

Lemma peer_deactivate_shape i p :
  peer_shape p ->
  peer_shape (peer_deactivate i p)
  /\ peer_config (peer_deactivate i p) = peer_config p
  /\ Peer.act_sess_num (peer_deactivate i p)
     = Peer.act_sess_num p - (if peer_act_sess p i =? 0 then 0 else 1).
Proof.
  intros (H1 & H2 & H3 & H4). unfold peer_deactivate.
  destruct (Z.eqb_spec (peer_act_sess p i) 0) as [H0|Hn]; simpl.
  - split; [done|]. split; [done|]. lia.
  - split; [|split; [done|lia]].
    pose proof (peer_act_sess_in_range p i Hn) as Hr.
    unfold peer_shape. simpl. rewrite length_insert.
    split; [done|]. split; [done|]. split; [|done].
    rewrite act_count_insert by done. fold (peer_act_sess p i).
    rewrite (proj2 (Z.eqb_neq _ _) Hn). simpl. lia.
Qed.

Lemma set_peer_sess_shape i v p :
  peer_shape p -> peer_shape (set_peer_sess i v p).
Proof.
  intros (H1 & H2 & H3 & H4). unfold peer_shape. simpl.
  by rewrite length_insert.
Qed.

Lemma set_peer_sess_live i v p :
  peer_live p -> (v = None -> peer_act_sess p i = 0) ->
  peer_live (set_peer_sess i v p).
Proof.
  intros Hl Hv j Hj.
  change (peer_act_sess (set_peer_sess i v p) j) with (peer_act_sess p j) in Hj.
  rewrite peer_sess_set. case_decide as Hd; [|by apply Hl].
  destruct Hd as [-> _]. destruct v; [by eexists|]. by specialize (Hv eq_refl).
Qed.

Lemma peer_deactivate_live i p : peer_live p -> peer_live (peer_deactivate i p).
Proof.
  intros Hl j Hj. rewrite peer_deactivate_flags in Hj.
  unfold peer_sess. rewrite peer_deactivate_sess.
  case_decide; [done|]. by apply Hl.
Qed.

Lemma peer_deactivate_wf i p : peer_wf p -> peer_wf (peer_deactivate i p).
Proof.
  intros [H1 H2]. split; [by apply peer_deactivate_shape|].
  by apply peer_deactivate_live.
Qed.

Lemma peer_connect_sess_wf p i conns :
  peer_wf p -> (i < Z.to_nat (Peer.sess_num p))%nat ->
  peer_wf (peer_connect_sess p i conns).1
  /\ peer_config (peer_connect_sess p i conns).1 = peer_config p.
Proof.
  intros [Hs Hl] Hi. unfold peer_connect_sess.
  destruct conns as [|[s|] conns]; try done. simpl.
  change (peer_act_sess (set_peer_sess i (Some s) p) i)
    with (peer_act_sess p i).
  pose proof (set_peer_sess_shape i (Some s) p Hs) as Hs1.
  pose proof (set_peer_sess_live i (Some s) p Hl ltac:(done)) as Hl1.
  destruct (Z.eqb_spec (peer_act_sess p i) 0) as [H0|Hn]; [|done].
  destruct Hs as (S1 & S2 & S3 & S4).
  split; [|done]. split.
  - unfold peer_shape. simpl. rewrite !length_insert.
    split; [done|]. split; [done|]. split; [|done].
    rewrite act_count_insert by lia. fold (peer_act_sess p i).
    rewrite H0. simpl. lia.
  - intros j Hj.
    change (peer_sess (set_peer_act_sess i 1 ?n ?q) j) with (peer_sess q j).
    destruct (decide (j = i)) as [->|Hne].
    + rewrite peer_sess_set, decide_True; [by eexists|]. split; [done|lia].
    + apply Hl1. rewrite peer_act_sess_set in Hj.
      rewrite decide_False in Hj; [done|]. by intros [? _].
Qed.

Lemma peer_connect_all_wf k i p conns :
  peer_wf p -> (i + k <= Z.to_nat (Peer.sess_num p))%nat ->
  peer_wf (peer_connect_all k i p conns).1
  /\ peer_config (peer_connect_all k i p conns).1 = peer_config p.
Proof.
  revert i p conns. induction k as [|k IH]; intros i p conns Hwf Hi; simpl;
    [done|].
  destruct (peer_connect_sess_wf p i conns Hwf ltac:(lia)) as [H1 H2].
  destruct (peer_connect_sess p i conns) as [p1 c1]. simpl in *.
  assert (Hn : Peer.sess_num p1 = Peer.sess_num p)
    by (unfold peer_config in H2; congruence).
  destruct (IH (S i) p1 c1 H1 ltac:(lia)) as [I1 I2].
  split; [done|]. congruence.
Qed.

Lemma peer_rotate_wf si s p w :
  peer_wf p ->
  peer_wf (peer_rotate si s p w).1
  /\ peer_config (peer_rotate si s p w).1 = peer_config p
  /\ Peer.act_sess_num (peer_rotate si s p w).1
     = Peer.act_sess_num p - (if peer_act_sess p si =? 0 then 0 else 1).
Proof.
  intros Hwf. unfold peer_rotate.
  pose proof (terminate_some s 1 w) as [s' Hs'].
  destruct (h2_sess_terminate (Some s) 1 w) as [[r s1] w1]. simpl in *.
  subst s1.
  destruct (peer_deactivate_wf si p Hwf) as [D1 D2].
  destruct (peer_deactivate_shape si p (proj1 Hwf)) as (_ & D3 & D4).
  split; [|done]. split; [by apply set_peer_sess_shape|].
  by apply set_peer_sess_live.
Qed.

Lemma peer_find_sess_wf k nsi i sess p w :
  peer_wf p ->
  peer_wf (peer_find_sess k nsi i sess p w).1.2
  /\ peer_config (peer_find_sess k nsi i sess p w).1.2 = peer_config p.
Proof.
  revert i sess p w. induction k as [|k IH]; intros i sess p w Hwf; simpl;
    [done|].
  destruct (peer_sess p _) as [s|]; [|by apply IH].
  destruct (negb _); [|by apply IH].
  destruct (too_many_requests p s); [|done].
  destruct (peer_rotate_wf (Z.to_nat (Z.rem (nsi + i) (Peer.sess_num p)))
              s p w Hwf) as (R1 & R2 & _).
  destruct (peer_rotate _ s p w) as [p1 w1]. simpl in *.
  destruct (IH (i + 1) None p1 w1 R1) as [I1 I2].
  assert (Hn : Peer.sess_num p1 = Peer.sess_num p)
    by (unfold peer_config in R2; congruence).
  split; [done|]. congruence.
Qed.

Lemma peer_terminate_all_wf k i x p w :
  peer_wf p ->
  peer_wf (peer_terminate_all k i x p w).1
  /\ peer_config (peer_terminate_all k i x p w).1 = peer_config p.
Proof.
  revert i p w. induction k as [|k IH]; intros i p w Hwf; simpl; [done|].
  destruct (peer_deactivate_wf i p Hwf) as [D1 D2].
  destruct (peer_deactivate_shape i p (proj1 Hwf)) as (_ & D3 & _).
  pose proof (peer_deactivate_flags i p i) as Hf.
  rewrite decide_True in Hf by done.
  destruct (h2_sess_terminate _ x w) as [[r s'] w1].
  destruct (IH (S i) (set_peer_sess i s' (peer_deactivate i p)) w1) as [I1 I2].
  { split; [by apply set_peer_sess_shape|]. by apply set_peer_sess_live. }
  split; [done|]. rewrite I2. done.
Qed.

Lemma rem_nonneg_all a b : 0 <= a -> 0 <= Z.rem a b.
Proof.
  intros Ha. destruct (decide (b = 0)) as [->|Hb].
  - by destruct a.
  - by apply Z.rem_nonneg.
Qed.

Lemma peer_gather_wf s p : peer_wf p -> peer_wf (peer_gather s p).
Proof. by intros [H1 H2]. Qed.

Lemma h2_peer_send_request_wf send p req w :
  peer_wf p ->
  peer_wf (h2_peer_send_request send p req w).1.2
  /\ peer_config (h2_peer_send_request send p req w).1.2 = peer_config p.
Proof.
  intros Hwf. unfold h2_peer_send_request.
  destruct (negb _); [done|].
  pose proof (peer_find_sess_wf (Z.to_nat (Peer.sess_num p))
                (Peer.next_sess_idx p) 0 None p w Hwf) as [F1 F2].
  destruct (peer_find_sess _ _ _ _ _ _) as [[[i sout] pout] wout] eqn:Hf.
  apply peer_find_sess_spec in Hf as (Hi & _); [|done].
  simpl in F1, F2.
  assert (Hnext : peer_wf
                    (set_next_sess_idx
                       (Z.rem (Peer.next_sess_idx p + i + 1) (Peer.sess_num p))
                       pout)).
  { destruct F1 as [(S1 & S2 & S3 & S4) L]. destruct Hwf as [(_ & _ & _ & N) _].
    split; [|done]. split; [done|]. split; [done|]. split; [done|].
    simpl. apply rem_nonneg_all. lia. }
  destruct sout as [si|]; [|done].
  destruct (peer_sess _ si); [|done].
  destruct (send _ _) as [r s']. simpl. split; [|done].
  destruct Hnext as [N1 N2].
  split; [by apply set_peer_sess_shape|]. by apply set_peer_sess_live.
Qed.

Lemma h2_peer_terminate_wf p x w :
  peer_wf p ->
  peer_wf (h2_peer_terminate p x w).1.2
  /\ Peer.sess_num (h2_peer_terminate p x w).1.2 = Peer.sess_num p.
Proof.
  intros Hwf. unfold h2_peer_terminate. destruct (_ =? 1); [done|].
  pose proof (peer_terminate_all_wf
                (Z.to_nat (Peer.sess_num p)) 0 x
                (set_peer_is_terminated (if x =? 0 then 1 else 2) p) w) as H.
  simpl Peer.sess_num.
  destruct (peer_terminate_all _ _ _ _ _) as [p1 w1]. simpl in *.
  destruct H as [H1 H2]; [by destruct Hwf|].
  split; [done|]. unfold peer_config in H2. simpl in H2. congruence.
Qed.

Lemma peer_sess_free_cb_wf p i s f conns :
  peer_wf p ->
  match i with
  | Some i => (i < Z.to_nat (Peer.sess_num p))%nat
  | None => True
  end ->
  peer_wf (peer_sess_free_cb p i s f conns).1
  /\ Peer.sess_num (peer_sess_free_cb p i s f conns).1 = Peer.sess_num p.
Proof.
  intros Hwf Hi. unfold peer_sess_free_cb. destruct i as [i|]; [|done].
  set (p3 := peer_deactivate i (set_peer_sess i None (peer_gather s p))).
  assert (H3 : peer_wf p3 /\ peer_config p3 = peer_config p).
  { pose proof (peer_gather_wf s p Hwf) as [G1 G2].
    pose proof (set_peer_sess_shape i None _ G1) as S1.
    destruct (peer_deactivate_shape i _ S1) as (D1 & D2 & _).
    split; [|subst p3; by rewrite D2]. split; [done|].
    intros j Hj. subst p3. rewrite peer_deactivate_flags in Hj.
    unfold peer_sess. rewrite peer_deactivate_sess.
    fold (peer_sess (set_peer_sess i None (peer_gather s p)) j).
    case_decide as Hd; [done|].
    rewrite peer_sess_set, decide_False by (by intros [? _]).
    by apply G2. }
  destruct H3 as [W3 C3].
  assert (Hn : Peer.sess_num p3 = Peer.sess_num p)
    by (unfold peer_config in C3; congruence).
  destruct (_ && f).
  - destruct (peer_connect_sess_wf p3 i conns W3 ltac:(lia)) as [H1 H2].
    split; [done|]. unfold peer_config in H2. congruence.
  - done.
Qed.

(** The slot a freed session is found in lies within the arrays. *)
Definition op_in_range (n : Z) (op : peer_op) : Prop :=
  match op with
  | OpSessFree (Some i) _ _ => (i < Z.to_nat n)%nat
  | _ => True
  end.

Lemma peer_step_wf send st op :
  peer_wf st.1.1 -> op_in_range (Peer.sess_num st.1.1) op ->
  peer_wf (peer_step send st op).1.1
  /\ Peer.sess_num (peer_step send st op).1.1 = Peer.sess_num st.1.1.
Proof.
  destruct st as [[p w] conns]. simpl. intros Hwf Hop.
  destruct op as [req|x|i s f]; simpl.
  - destruct (h2_peer_send_request_wf send p req w Hwf) as [H1 H2].
    destruct (h2_peer_send_request send p req w) as [[r p1] w1].
    simpl in *. split; [done|]. unfold peer_config in H2. congruence.
  - pose proof (h2_peer_terminate_wf p x w Hwf) as H.
    by destruct (h2_peer_terminate p x w) as [[r p1] w1].
  - pose proof (peer_sess_free_cb_wf p i s f conns Hwf) as H.
    destruct (peer_sess_free_cb p i s f conns) as [p1 c1]. apply H.
    by destruct i.
Qed.

Lemma peer_run_wf send ops st :
  peer_wf st.1.1 -> Forall (op_in_range (Peer.sess_num st.1.1)) ops ->
  peer_wf (peer_run send ops st).1.1
  /\ Peer.sess_num (peer_run send ops st).1.1 = Peer.sess_num st.1.1.
Proof.
  revert st. induction ops as [|op ops IH]; intros st Hwf Hops; simpl;
    [done|].
  apply Forall_cons in Hops as [Hop Hops].
  destruct (peer_step_wf send st op Hwf Hop) as [H1 H2].
  unfold peer_run in IH. destruct (IH (peer_step send st op) H1) as [I1 I2].
  { by rewrite H2. }
  unfold peer_run. split; [done|]. congruence.
Qed.

Lemma h2_peer_connect_wf n thr settings conns p conns' :
  h2_peer_connect n thr settings conns = (Some p, conns') ->
  peer_wf p /\ Peer.sess_num p = n /\ Peer.is_terminated p = 0.
Proof.
  unfold h2_peer_connect.
  match goal with
  | |- context [peer_connect_all ?k ?i ?q ?c] =>
      pose proof (peer_connect_all_wf k i q c) as H;
      destruct (peer_connect_all k i q c) as [p1 c1]
  end.
  simpl in H. destruct H as [H1 H2].
  { split.
    - unfold peer_shape. simpl. rewrite !length_replicate.
      by rewrite act_count_replicate.
    - intros i Hi. exfalso. apply Hi. unfold peer_act_sess. simpl.
      destruct (replicate _ _ !! i) eqn:E; [|done].
      by apply lookup_replicate in E as [-> _]. }
  { lia. }
  destruct (_ <=? 0); [done|]. intros [= <- <-].
  split; [done|]. unfold peer_config in H2. simpl in H2.
  split; congruence.
Qed.

(** X11.  The bookkeeping of a peer stays consistent through its life.
    From [h2_peer_connect] on, after any sequence of requests,
    terminations and freed sessions, the two arrays have [sess_num] slots,
    [act_sess_num] is the number of active flags, it lies between 0 and
    [sess_num], and every active slot holds a session. *)
Theorem peer_active_count_invariant :
  forall (h2_send_request : h2_sess -> h2_msg -> Z * h2_sess)
         (n thr : Z) (settings : option h2_settings) (conns : net)
         (p : h2_peer) (conns' : net),
    h2_peer_connect n thr settings conns = (Some p, conns') ->
    forall (ops : list peer_op) (w : io_world),
      Forall (op_in_range n) ops ->
      let p' := (peer_run h2_send_request ops (p, w, conns')).1.1 in
      Peer.sess_num p' = n
      /\ length (Peer.sess p') = Z.to_nat n
      /\ length (Peer.act_sess p') = Z.to_nat n
      /\ Peer.act_sess_num p' = act_count (Peer.act_sess p')
      /\ 0 <= Peer.act_sess_num p' <= n
      /\ (forall i, peer_act_sess p' i <> 0 -> is_Some (peer_sess p' i)).
Proof.
  intros send n thr settings conns p conns' Hc ops w Hops p'.
  pose proof Hc as Hc'.
  apply h2_peer_connect_wf in Hc as (Hwf & Hn & _).
  destruct (peer_run_wf send ops (p, w, conns') Hwf) as [H1 H2].
  { simpl. by rewrite Hn. }
  simpl in H2. fold p' in H1, H2.
  destruct H1 as [(S1 & S2 & S3 & S4) L].
  rewrite H2, Hn in *.
  split; [done|]. split; [done|]. split; [done|]. split; [done|].
  split; [|done].
  pose proof (act_count_bounds (Peer.act_sess p')) as Hb.
  rewrite S3. split; [lia|].
  assert (0 < n); [|lia].
  unfold h2_peer_connect in Hc'.
  destruct (Z_lt_le_dec 0 n) as [|Hle]; [done|].
  replace (Z.to_nat n) with 0%nat in Hc' by lia. simpl in Hc'. done.
Qed.

(** A peer of two slots of which only the first could be connected. *)
Definition half_connected_peer : h2_peer :=
  {| Peer.sess_num := 2; Peer.req_thr_for_reconn := 3;
     Peer.is_terminated := 0; Peer.settings := h2_settings_init;
     Peer.sess := [Some (client_sess 0); None];
     Peer.act_sess := [1; 0]; Peer.act_sess_num := 1;
     Peer.next_sess_idx := 0;
     Peer.req_cnt := 0; Peer.rsp_cnt := 0; Peer.rsp_rst_cnt := 0;
     Peer.strm_close_cnt := 0; Peer.sess_close_cnt := 0 |}.

Lemma peer_active_count_invariant_witness :
  let ops := [OpSendRequest h2_msg_empty;
              OpSessFree (Some 0%nat) (client_sess 1) true;
              OpTerminate 0] in
  let p' := (peer_run send_counted ops
               (half_connected_peer, quiet_world, [])).1.1 in
  Peer.sess_num p' = 2
  /\ length (Peer.sess p') = Z.to_nat 2
  /\ length (Peer.act_sess p') = Z.to_nat 2
  /\ Peer.act_sess_num p' = act_count (Peer.act_sess p')
  /\ 0 <= Peer.act_sess_num p' <= 2
  /\ (forall i, peer_act_sess p' i <> 0 -> is_Some (peer_sess p' i)).
Proof.
  intros ops.
  apply (peer_active_count_invariant send_counted 2 3 None
           [Some (client_sess 0); None] half_connected_peer []).
  - reflexivity.
  - repeat constructor.
Defined.

Lemma terminate_state s x w :
  exists s', (h2_sess_terminate (Some s) x w).1.2 = Some s'
             /\ (is_terminated s' = 1 \/ is_terminated s' = 2).
Proof.
  unfold h2_sess_terminate.
  destruct (Z.eqb_spec (is_terminated s) 1); [by exists s; auto|].
  destruct (_ && _ && _).
  - destruct (is_v2 _); [|destruct (ssl _)]; eexists; simpl; eauto.
  - assert (is_terminated (h2_sess_mark_send_pending (set_is_terminated 1 s))
            = 1).
    { unfold h2_sess_mark_send_pending. by destruct (send_pending _). }
    destruct (is_v2 _); [destruct (_ <? 0)|destruct (ssl _)];
      eexists; simpl; eauto.
Qed.

Lemma peer_terminate_all_slots k i x p w :
  let p' := (peer_terminate_all k i x p w).1 in
  (forall j, peer_act_sess p' j
             = if decide (i <= j < i + k)%nat then 0 else peer_act_sess p j)
  /\ (forall j, (i <= j < i + k)%nat ->
                match peer_sess p j with
                | Some _ =>
                    exists s', peer_sess p' j = Some s'
                               /\ (is_terminated s' = 1 \/ is_terminated s' = 2)
                | None => peer_sess p' j = None
                end)
  /\ (forall j, ~ (i <= j < i + k)%nat -> peer_sess p' j = peer_sess p j)
  /\ Peer.is_terminated p' = Peer.is_terminated p.
Proof.
  revert i p w. induction k as [|k IH]; intros i p w; simpl.
  { split; [|split; [|done]].
    - intros j. by rewrite decide_False by lia.
    - intros j ?. lia. }
  set (pd := peer_deactivate i p).
  destruct (h2_sess_terminate (peer_sess pd i) x w) as [[r s'] w1] eqn:Ht.
  specialize (IH (S i) (set_peer_sess i s' pd) w1).
  simpl in IH. destruct IH as (I1 & I2 & I3 & I4).
  assert (Hflag : forall j, peer_act_sess (set_peer_sess i s' pd) j
                            = if decide (j = i) then 0 else peer_act_sess p j).
  { intros j. apply peer_deactivate_flags. }
  assert (Hpd : forall j, peer_sess pd j = peer_sess p j).
  { intros j. unfold peer_sess, pd. by rewrite peer_deactivate_sess. }
  assert (Hs' : match peer_sess p i with
                | Some _ => exists s1, s' = Some s1
                                       /\ (is_terminated s1 = 1
                                           \/ is_terminated s1 = 2)
                | None => s' = None
                end).
  { rewrite Hpd in Ht. destruct (peer_sess p i) as [s|].
    - destruct (terminate_state s x w) as (s1 & E1 & E2).
      rewrite Ht in E1. simpl in E1. by exists s1.
    - simpl in Ht. by injection Ht as _ <- _. }
  assert (Hsess : forall j, peer_sess (set_peer_sess i s' pd) j
                            = if decide (j = i) then s' else peer_sess p j).
  { intros j. rewrite peer_sess_set, Hpd.
    destruct (decide (j = i)) as [->|Hne].
    - case_decide as Hd; [done|].
      assert (Hn : peer_sess p i = None).
      { destruct (peer_sess p i) eqn:E; [|done].
        exfalso. apply Hd. split; [done|].
        apply peer_sess_in_range in E. unfold pd.
        by rewrite peer_deactivate_sess. }
      rewrite Hn in Hs'. by rewrite Hs', Hn.
    - rewrite decide_False; [done|]. by intros [? _]. }
  split; [|split; [|split]].
  - intros j. rewrite I1, Hflag.
    repeat case_decide; try done; lia.
  - intros j Hj. destruct (decide (j = i)) as [->|Hne].
    + rewrite I3 by lia. rewrite Hsess, decide_True by done.
      destruct (peer_sess p i); [|done].
      destruct Hs' as (s1 & -> & E). by exists s1.
    + specialize (I2 j ltac:(lia)). rewrite Hsess in I2.
      by rewrite decide_False in I2.
  - intros j Hj. rewrite I3 by lia. rewrite Hsess.
    rewrite decide_False; [done|lia].
  - rewrite I4. simpl. unfold pd, peer_deactivate. by destruct (negb _).
Qed.

(** X12.  [h2_peer_terminate] on a peer that is not yet in state 1 marks
    every slot inactive, brings [act_sess_num] to 0, leaves every session
    the peer holds in state 1 or 2 and frees no slot; afterwards every
    request is refused with -1 and changes nothing. *)
Theorem peer_terminate_deactivates_all :
  forall (h2_send_request : h2_sess -> h2_msg -> Z * h2_sess)
         (p : h2_peer) (wait_rsp : Z) (w : io_world),
    peer_wf p -> Peer.is_terminated p <> 1 ->
    let out := h2_peer_terminate p wait_rsp w in
    out.1.1 = 0
    /\ Peer.is_terminated out.1.2 = (if wait_rsp =? 0 then 1 else 2)
    /\ (forall i, peer_act_sess out.1.2 i = 0)
    /\ Peer.act_sess_num out.1.2 = 0
    /\ (forall i s, peer_sess out.1.2 i = Some s ->
                    is_terminated s = 1 \/ is_terminated s = 2)
    /\ (forall i, peer_sess out.1.2 i = None <-> peer_sess p i = None)
    /\ (forall req w',
          h2_peer_send_request h2_send_request out.1.2 req w'
          = (-1, out.1.2, w')).
Proof.
  intros send p x w Hwf Hnt out.
  pose proof (h2_peer_terminate_wf p x w Hwf) as [W1 W2].
  subst out. unfold h2_peer_terminate in *.
  destruct (Z.eqb_spec (Peer.is_terminated p) 1) as [|_]; [done|].
  set (p0 := set_peer_is_terminated (if x =? 0 then 1 else 2) p) in *.
  pose proof (peer_terminate_all_slots (Z.to_nat (Peer.sess_num p0)) 0 x p0 w)
    as (T1 & T2 & T3 & T4).
  destruct (peer_terminate_all _ 0 x p0 w) as [p1 w1]. simpl in *.
  destruct Hwf as [(S1 & S2 & S3 & S4) L].
  assert (Hflags : forall i, peer_act_sess p1 i = 0).
  { intros i. rewrite T1. case_decide; [done|].
    unfold peer_act_sess. simpl. rewrite (lookup_ge_None_2 _ i); [done|lia]. }
  split; [done|]. split; [done|]. split; [done|]. split.
  { destruct W1 as [(_ & _ & -> & _) _]. by apply act_count_zero. }
  split.
  { intros i s Hs.
    destruct (decide (0 <= i < 0 + Z.to_nat (Peer.sess_num p))%nat) as [Hi|Hi].
    - specialize (T2 i Hi). destruct (peer_sess p0 i).
      + destruct T2 as (s' & E1 & E2). congruence.
      + congruence.
    - rewrite T3 in Hs by done. unfold peer_sess in Hs. simpl in Hs.
      rewrite (lookup_ge_None_2 _ i) in Hs; [done|lia]. }
  split.
  { intros i.
    destruct (decide (0 <= i < 0 + Z.to_nat (Peer.sess_num p))%nat) as [Hi|Hi].
    - specialize (T2 i Hi).
      change (peer_sess p0 i) with (peer_sess p i) in T2.
      destruct (peer_sess p i).
      + destruct T2 as (s' & E1 & E2). by rewrite E1.
      + by rewrite T2.
    - by rewrite T3. }
  intros req w'. unfold h2_peer_send_request. rewrite T4.
  by destruct (x =? 0).
Qed.

Lemma peer_terminate_deactivates_all_witness :
  let out := h2_peer_terminate half_connected_peer 1 quiet_world in
  out.1.1 = 0
  /\ Peer.is_terminated out.1.2 = (if 1 =? 0 then 1 else 2)
  /\ (forall i, peer_act_sess out.1.2 i = 0)
  /\ Peer.act_sess_num out.1.2 = 0
  /\ (forall i s, peer_sess out.1.2 i = Some s ->
                  is_terminated s = 1 \/ is_terminated s = 2)
  /\ (forall i, peer_sess out.1.2 i = None
                <-> peer_sess half_connected_peer i = None)
  /\ (forall req w',
        h2_peer_send_request send_counted out.1.2 req w' = (-1, out.1.2, w')).
Proof.
  apply (peer_terminate_deactivates_all send_counted half_connected_peer 1
           quiet_world).
  - split.
    + unfold peer_shape. simpl. repeat split; lia.
    + intros [|[|i]]; simpl; intros H; done.
  - simpl. lia.
Defined.

(** The first [k] answers of the network, a missing answer being a
    failure, and the flag of a slot that holds such an answer. *)
Fixpoint answers (k : nat) (conns : net) : list (option h2_sess) :=
  match k with
  | O => []
  | S k' =>
      match conns with
      | [] => None :: answers k' []
      | x :: conns' => x :: answers k' conns'
      end
  end.

Definition flag_of (o : option h2_sess) : Z :=
  match o with
  | Some _ => 1
  | None => 0
  end.

Lemma act_count_flag_cons x a :
  act_count (flag_of <$> (x :: a)) = flag_of x + act_count (flag_of <$> a).
Proof. by destruct x. Qed.

Lemma peer_connect_all_cursor k i p conns :
  Peer.next_sess_idx (peer_connect_all k i p conns).1 = Peer.next_sess_idx p
  /\ Peer.is_terminated (peer_connect_all k i p conns).1
     = Peer.is_terminated p.
Proof.
  revert i p conns. induction k as [|k IH]; intros i p conns; simpl; [done|].
  assert (H : Peer.next_sess_idx (peer_connect_sess p i conns).1
              = Peer.next_sess_idx p
              /\ Peer.is_terminated (peer_connect_sess p i conns).1
                 = Peer.is_terminated p).
  { unfold peer_connect_sess. destruct conns as [|[s|] conns]; try done.
    simpl. by destruct (_ =? 0). }
  destruct (peer_connect_sess p i conns) as [p1 c1]. simpl in H.
  destruct (IH (S i) p1 c1) as [I1 I2]. destruct H as [H1 H2].
  split; congruence.
Qed.

Lemma peer_connect_all_slots k p conns done :
  Peer.sess p = done ++ replicate k None ->
  Peer.act_sess p = (flag_of <$> done) ++ replicate k 0 ->
  let out := peer_connect_all k (length done) p conns in
  Peer.sess out.1 = done ++ answers k conns
  /\ Peer.act_sess out.1 = flag_of <$> (done ++ answers k conns)
  /\ Peer.act_sess_num out.1
     = Peer.act_sess_num p + act_count (flag_of <$> answers k conns)
  /\ out.2 = drop k conns.
Proof.
  revert p conns done. induction k as [|k IH]; intros p conns done Hs Ha; simpl.
  { simpl in *. rewrite app_nil_r in *. rewrite drop_0. split; [done|].
    split; [done|]. split; [lia|done]. }
  assert (Hstep : forall x p1 c1,
             Peer.sess p1 = (done ++ [x]) ++ replicate k None ->
             Peer.act_sess p1 = (flag_of <$> (done ++ [x])) ++ replicate k 0 ->
             Peer.act_sess_num p1 = Peer.act_sess_num p + flag_of x ->
             let out := peer_connect_all k (S (length done)) p1 c1 in
             Peer.sess out.1 = done ++ x :: answers k c1
             /\ Peer.act_sess out.1 = flag_of <$> (done ++ x :: answers k c1)
             /\ Peer.act_sess_num out.1
                = Peer.act_sess_num p
                  + act_count (flag_of <$> (x :: answers k c1))
             /\ out.2 = drop k c1).
  { intros x p1 c1 H1 H2 H3.
    specialize (IH p1 c1 (done ++ [x]) H1 H2).
    rewrite length_app in IH. simpl in IH.
    replace (length done + 1)%nat with (S (length done)) in IH by lia.
    destruct IH as (I1 & I2 & I3 & I4). cbv zeta.
    rewrite I1, I2, I3, I4, H3, <- !app_assoc, act_count_flag_cons.
    split; [done|]. split; [done|]. split; [lia|done]. }
  unfold peer_connect_sess.
  destruct conns as [|[s|] conns].
  - assert (H : let out := peer_connect_all k (S (length done)) p [] in
                Peer.sess out.1 = done ++ None :: answers k []
                /\ Peer.act_sess out.1
                   = flag_of <$> (done ++ None :: answers k [])
                /\ Peer.act_sess_num out.1
                   = Peer.act_sess_num p
                     + act_count (flag_of <$> (None :: answers k []))
                /\ out.2 = drop k []).
    { apply (Hstep None p []).
      + rewrite Hs, <- app_assoc. done.
      + rewrite Ha, fmap_app, <- app_assoc. done.
      + simpl. lia. }
    cbv zeta in H. rewrite drop_nil in H. exact H.
  - change (peer_act_sess (set_peer_sess (length done) (Some s) p)
                          (length done))
      with (peer_act_sess p (length done)).
    assert (Hf : peer_act_sess p (length done) = 0).
    { unfold peer_act_sess. rewrite Ha.
      rewrite lookup_app_r by (by rewrite length_fmap).
      rewrite length_fmap, Nat.sub_diag. done. }
    rewrite Hf. change (0 =? 0) with true. cbv iota.
    apply (Hstep (Some s)); simpl.
    + rewrite Hs.
      rewrite insert_app_r_alt by done. rewrite Nat.sub_diag. simpl.
      by rewrite <- app_assoc.
    + rewrite Ha.
      rewrite insert_app_r_alt by (by rewrite length_fmap).
      rewrite length_fmap, Nat.sub_diag. simpl.
      by rewrite fmap_app, <- app_assoc.
    + lia.
  - apply (Hstep None p conns).
    + rewrite Hs, <- app_assoc. done.
    + rewrite Ha, fmap_app, <- app_assoc. done.
    + simpl. lia.
Qed.

Lemma act_count_flags_zero a :
  act_count (flag_of <$> a) = 0 <-> forall o, o ∈ a -> o = None.
Proof.
  induction a as [|x a IH].
  - split; [|done]. intros _ o Ho. by apply elem_of_nil in Ho.
  - pose proof (act_count_bounds (flag_of <$> a)) as Hb.
    rewrite act_count_flag_cons. split.
    + intros H o Ho. apply elem_of_cons in Ho as [-> | Ho].
      * destruct x; simpl in H; [lia|done].
      * apply IH; [|done]. destruct x; simpl in H; lia.
    + intros H. rewrite (H x) by apply list_elem_of_here.
      change (flag_of None) with 0. rewrite Z.add_0_l.
      apply IH. intros o Ho. apply H. by apply list_elem_of_further.
Qed.

(** X13.  What [h2_peer_connect] returns: it takes one answer of the
    network per slot, in slot order; it returns [NULL] exactly when none of
    them is a session; otherwise slot [i] holds the [i]-th answer, is
    active exactly when that answer is a session, [act_sess_num] is the
    number of sessions, the cursor is 0 and the threshold is the one asked
    for, or 0 for a peer of one slot. *)
Theorem peer_connect_slots :
  forall (n thr : Z) (settings : option h2_settings) (conns : net),
    let out := h2_peer_connect n thr settings conns in
    let a := answers (Z.to_nat n) conns in
    out.2 = drop (Z.to_nat n) conns
    /\ (out.1 = None <-> forall o, o ∈ a -> o = None)
    /\ forall p, out.1 = Some p ->
         Peer.sess p = a
         /\ Peer.act_sess p = flag_of <$> a
         /\ Peer.act_sess_num p = act_count (flag_of <$> a)
         /\ Peer.sess_num p = n
         /\ Peer.req_thr_for_reconn p = (if n =? 1 then 0 else thr)
         /\ Peer.next_sess_idx p = 0
         /\ Peer.is_terminated p = 0.
Proof.
  intros n thr settings conns out a. subst out. unfold h2_peer_connect.
  match goal with
  | |- context [peer_connect_all ?k ?i ?q ?c] =>
      pose proof (peer_connect_all_slots k q c []) as H;
      pose proof (peer_connect_all_thr k i q c) as [T1 T2];
      pose proof (peer_connect_all_cursor k i q c) as [C1 C2];
      cbv zeta in H; change (length []) with 0%nat in H;
      destruct (peer_connect_all k i q c) as [p1 c1] eqn:Hc
  end.
  simpl in H, T1, T2, C1, C2.
  destruct H as (H1 & H2 & H3 & H4); [done|done|].
  fold a in H1, H2, H3.
  pose proof (act_count_bounds (flag_of <$> a)) as Hb.
  destruct (Z.leb_spec (Peer.act_sess_num p1) 0) as [Hle|Hgt]; simpl.
  - split; [done|]. split; [|done]. split; [|done].
    intros _. apply act_count_flags_zero. lia.
  - split; [done|]. split.
    + split; [done|]. intros Hall. apply act_count_flags_zero in Hall. lia.
    + intros p [= <-]. split; [done|]. split; [done|]. split; [lia|].
      split; [done|]. split.
      { rewrite T1. destruct (Z.eqb_spec n 1), (Z.eqb_spec thr 0); simpl; lia. }
      split; [by rewrite C1|by rewrite C2].
Qed.

(** The slot the variable [sess] points into when the search has looked at
    slot [si] and gone on. *)
Definition slot_ptr (p : h2_peer) (si : nat) : option nat :=
  match peer_sess p si with
  | Some _ => Some si
  | None => None
  end.

Lemma peer_find_sess_all_inactive k nsi i sess p w :
  (forall j, peer_act_sess p j = 0) ->
  peer_find_sess k nsi i sess p w
  = (i + Z.of_nat k,
     match k with
     | O => sess
     | S k' => slot_ptr p (probe_slot p nsi (i + Z.of_nat k'))
     end, p, w).
Proof.
  intros Hall. revert i sess. induction k as [|k IH]; intros i sess.
  { simpl. by rewrite Z.add_0_r. }
  cbn [peer_find_sess]. fold (probe_slot p nsi i).
  assert (Hnext : forall sess1,
             sess1 = slot_ptr p (probe_slot p nsi i) ->
             peer_find_sess k nsi (i + 1) sess1 p w
             = (i + Z.of_nat (S k),
                slot_ptr p (probe_slot p nsi (i + Z.of_nat k)), p, w)).
  { intros sess1 ->. rewrite IH.
    replace (i + 1 + Z.of_nat k) with (i + Z.of_nat (S k)) by lia.
    destruct k as [|k']; [by rewrite Z.add_0_r|].
    by replace (i + 1 + Z.of_nat k') with (i + Z.of_nat (S k')) by lia. }
  unfold slot_ptr in Hnext.
  destruct (peer_sess p (probe_slot p nsi i)) as [s|].
  - rewrite Hall. change (negb (0 =? 0)) with false. cbv iota.
    by apply Hnext.
  - by apply Hnext.
Qed.

(** X14.  When no slot of the peer is active a request is still sent if
    the slot just before the cursor holds a session: the search leaves the
    variable [sess] on the last slot it looked at, and [h2_send_request]
    is called on that inactive session.  The request is refused with -1
    only when that slot is empty. *)
Theorem send_request_without_active_slot :
  forall (h2_send_request : h2_sess -> h2_msg -> Z * h2_sess)
         (p : h2_peer) (req : h2_msg) (w : io_world),
    Peer.is_terminated p = 0 -> 0 < Peer.sess_num p ->
    (forall j, peer_act_sess p j = 0) ->
    let n := Peer.sess_num p in
    let nsi := Peer.next_sess_idx p in
    let last := probe_slot p nsi (n - 1) in
    let p' := set_next_sess_idx (Z.rem (nsi + n + 1) n) p in
    h2_peer_send_request h2_send_request p req w
    = match peer_sess p last with
      | Some s =>
          ((h2_send_request s req).1,
           set_peer_sess last (Some (h2_send_request s req).2) p', w)
      | None => (-1, p', w)
      end.
Proof.
  intros send p req w Ht Hn Hall n nsi last p'.
  unfold h2_peer_send_request. rewrite Ht. simpl negb. cbv iota.
  rewrite peer_find_sess_all_inactive by done.
  destruct (Z.to_nat (Peer.sess_num p)) as [|k] eqn:Hk; [lia|].
  rewrite !Z.add_0_l.
  replace (Z.of_nat k) with (n - 1) by (subst n; lia).
  replace (Z.of_nat (S k)) with n by (subst n; lia).
  fold nsi. fold n. fold last. fold p'.
  unfold slot_ptr.
  destruct (peer_sess p last) as [s|] eqn:Hs; [|done].
  change (peer_sess p' last) with (peer_sess p last). rewrite Hs.
  by destruct (send s req).
Qed.

(** A peer of two slots that has rotated its first session out and lost
    its second; the cursor is at the second slot. *)
Definition peer_without_active : h2_peer :=
  {| Peer.sess_num := 2; Peer.req_thr_for_reconn := 3;
     Peer.is_terminated := 0; Peer.settings := h2_settings_init;
     Peer.sess := [Some (set_is_terminated 2 (client_sess 3)); None];
     Peer.act_sess := [0; 0]; Peer.act_sess_num := 0;
     Peer.next_sess_idx := 1;
     Peer.req_cnt := 0; Peer.rsp_cnt := 0; Peer.rsp_rst_cnt := 0;
     Peer.strm_close_cnt := 0; Peer.sess_close_cnt := 0 |}.

Lemma send_request_without_active_slot_witness :
  let p := peer_without_active in
  let out := h2_peer_send_request send_counted p h2_msg_empty quiet_world in
  out.1.1 = 0
  /\ (req_cnt <$> peer_sess out.1.2 0) = Some 4
  /\ out
     = match peer_sess p (probe_slot p 1 (2 - 1)) with
       | Some s =>
           ((send_counted s h2_msg_empty).1,
            set_peer_sess (probe_slot p 1 (2 - 1))
              (Some (send_counted s h2_msg_empty).2)
              (set_next_sess_idx (Z.rem (1 + 2 + 1) 2) p), quiet_world)
       | None => (-1, set_next_sess_idx (Z.rem (1 + 2 + 1) 2) p, quiet_world)
       end.
Proof.
  intros p. split; [reflexivity|]. split; [reflexivity|].
  apply (send_request_without_active_slot send_counted p h2_msg_empty
           quiet_world).
  - reflexivity.
  - reflexivity.
  - by intros [|[|j]].
Defined.

Lemma peer_find_sess_count k nsi i sess p w :
  peer_wf p ->
  Z.min (Peer.act_sess_num p) (Peer.sess_num p - 1)
  <= Peer.act_sess_num (peer_find_sess k nsi i sess p w).1.2.
Proof.
  revert i sess p w. induction k as [|k IH]; intros i sess p w Hwf; simpl;
    [lia|].
  destruct (peer_sess p _) as [s|]; [|by apply IH].
  destruct (negb _); [|by apply IH].
  destruct (too_many_requests p s) eqn:Htoo; [|simpl; lia].
  destruct (peer_rotate_wf (Z.to_nat (Z.rem (nsi + i) (Peer.sess_num p)))
              s p w Hwf) as (R1 & R2 & R3).
  destruct (peer_rotate _ s p w) as [p1 w1]. simpl in *.
  specialize (IH (i + 1) None p1 w1 R1).
  assert (Hn : Peer.sess_num p1 = Peer.sess_num p)
    by (unfold peer_config in R2; congruence).
  unfold too_many_requests in Htoo.
  apply andb_prop in Htoo as [_ Htoo]. apply Z.leb_le in Htoo.
  rewrite Hn, R3 in IH. destruct (_ =? 0); lia.
Qed.

Lemma peer_find_sess_active_kept k nsi i sess p w si :
  peer_act_sess (peer_find_sess k nsi i sess p w).1.2 si <> 0 ->
  peer_sess (peer_find_sess k nsi i sess p w).1.2 si = peer_sess p si
  /\ peer_act_sess p si <> 0.
Proof.
  revert i sess p w. induction k as [|k IH]; intros i sess p w; simpl; [done|].
  destruct (peer_sess p _) as [s|] eqn:Hs; [|by apply IH].
  destruct (Z.eqb_spec (peer_act_sess p (Z.to_nat (Z.rem (nsi + i)
                                                    (Peer.sess_num p)))) 0)
    as [Hz|Hnz]; simpl negb; cbv iota; [by apply IH|].
  destruct (too_many_requests p s); [|done].
  destruct (peer_rotate _ s p w) as [p1 w1] eqn:Hrot.
  apply peer_rotate_spec in Hrot
    as (R1 & R2 & R3 & R4 & R5 & R6 & R7 & R8 & R9); try done.
  intros Hact. apply IH in Hact as [I1 I2].
  destruct (decide (si = Z.to_nat (Z.rem (nsi + i) (Peer.sess_num p))))
    as [->|Hne]; [done|].
  destruct (R7 si Hne) as [R71 R72]. split; congruence.
Qed.

Lemma probe_slot_covers p nsi si :
  0 <= nsi -> (si < Z.to_nat (Peer.sess_num p))%nat ->
  exists j, 0 <= j < Peer.sess_num p /\ probe_slot p nsi j = si.
Proof.
  intros Hnsi Hsi. set (n := Peer.sess_num p) in *.
  assert (Hn : 0 < n) by lia.
  exists ((Z.of_nat si - nsi) mod n).
  pose proof (Z.mod_pos_bound (Z.of_nat si - nsi) n Hn) as Hb.
  split; [done|]. unfold probe_slot. fold n.
  rewrite rem_mod_nonneg by lia.
  rewrite Z.add_mod_idemp_r by lia.
  replace (nsi + (Z.of_nat si - nsi)) with (Z.of_nat si) by lia.
  rewrite Z.mod_small by lia. lia.
Qed.

Lemma send_request_active p send req w :
  peer_wf p -> Peer.is_terminated p = 0 -> 0 < Peer.act_sess_num p ->
  2 <= Peer.sess_num p \/ Peer.req_thr_for_reconn p <= 0 ->
  let out := h2_peer_send_request send p req w in
  exists si s,
    peer_sess p si = Some s /\ peer_act_sess p si <> 0
    /\ out.1.1 = (send s req).1
    /\ peer_sess out.1.2 si = Some (send s req).2
    /\ peer_act_sess out.1.2 si <> 0.
Proof.
  intros Hwf Ht Hact Hcfg out. subst out. unfold h2_peer_send_request.
  rewrite Ht. simpl negb. cbv iota.
  pose proof (peer_find_sess_wf (Z.to_nat (Peer.sess_num p))
                (Peer.next_sess_idx p) 0 None p w Hwf) as [W1 W2].
  pose proof (peer_find_sess_count (Z.to_nat (Peer.sess_num p))
                (Peer.next_sess_idx p) 0 None p w Hwf) as Hcnt.
  pose proof (fun si => peer_find_sess_active_kept
                          (Z.to_nat (Peer.sess_num p))
                          (Peer.next_sess_idx p) 0 None p w si) as Hkept.
  assert (Hnothr : Peer.req_thr_for_reconn p <= 0 ->
                   (peer_find_sess (Z.to_nat (Peer.sess_num p))
                      (Peer.next_sess_idx p) 0 None p w).1.2 = p).
  { intros Hthr.
    destruct (peer_find_sess_no_threshold (Z.to_nat (Peer.sess_num p))
                (Peer.next_sess_idx p) 0 None p w Hthr) as (i0 & s0 & ->).
    done. }
  destruct (peer_find_sess _ _ _ _ _ _) as [[[i sout] pout] wout] eqn:Hf.
  simpl in W1, W2, Hcnt, Hkept, Hnothr.
  apply peer_find_sess_spec in Hf
    as (F1 & F2 & F3 & F4 & F5 & F6 & F7 & F8); [|done].
  pose proof Hwf as [(S1 & S2 & S3 & S4) L].
  pose proof W1 as [(T1 & T2 & T3 & T4) Lout].
  assert (Hnn : Peer.sess_num pout = Peer.sess_num p)
    by (unfold peer_config in W2; congruence).
  pose proof (act_count_bounds (Peer.act_sess p)) as Hb.
  assert (Hn : 0 < Peer.sess_num p) by lia.
  destruct (Z_lt_le_dec i (0 + Z.of_nat (Z.to_nat (Peer.sess_num p))))
    as [Hlt|Hge].
  - destruct (F7 Hlt) as (s & -> & G1 & G2 & G3).
    set (si := probe_slot p (Peer.next_sess_idx p) i) in *.
    change (peer_sess (set_next_sess_idx ?v pout) si) with (peer_sess pout si).
    rewrite G1. destruct (Hkept si G2) as [K1 K2].
    exists si, s. destruct (send s req) as [r s'] eqn:Hsend. simpl.
    split; [congruence|]. split; [done|]. split; [done|]. split; [|done].
    rewrite peer_sess_set, decide_True; [done|].
    split; [done|]. simpl. by apply peer_sess_in_range in G1.
  - exfalso.
    assert (Hzero : forall j, default 0 (Peer.act_sess pout !! j) = 0).
    { intros j. fold (peer_act_sess pout j).
      destruct (decide (j < Z.to_nat (Peer.sess_num p))%nat) as [Hj|Hj].
      - destruct (probe_slot_covers p (Peer.next_sess_idx p) j S4 Hj)
          as (j' & Hj' & <-).
        destruct (F6 j' ltac:(lia)) as [Hnone|Hz]; [|done].
        destruct (Z.eq_dec (peer_act_sess pout
                   (probe_slot p (Peer.next_sess_idx p) j')) 0) as [|Hnz];
          [done|].
        apply Lout in Hnz as [s Hs]. congruence.
      - unfold peer_act_sess. rewrite (lookup_ge_None_2 _ j); [done|lia]. }
    apply act_count_zero in Hzero. rewrite <- T3 in Hzero.
    destruct Hcfg as [H2|Hthr].
    + lia.
    + rewrite (Hnothr Hthr) in Hzero. lia.
Qed.

(** X15.  A peer that has an active slot never refuses a request.  At any
    point of the life of a peer made by [h2_peer_connect], if the peer is
    not terminating and [act_sess_num] is positive, [h2_peer_send_request]
    passes the request to [h2_send_request] on a session that sat in an
    active slot, returns its result, and leaves that slot active with the
    session as [h2_send_request] left it. *)
Theorem send_request_finds_active_session :
  forall (h2_send_request : h2_sess -> h2_msg -> Z * h2_sess)
         (n thr : Z) (settings : option h2_settings) (conns : net)
         (p : h2_peer) (conns' : net),
    h2_peer_connect n thr settings conns = (Some p, conns') ->
    forall (ops : list peer_op) (w : io_world) (req : h2_msg),
      Forall (op_in_range n) ops ->
      let st := peer_run h2_send_request ops (p, w, conns') in
      let out := h2_peer_send_request h2_send_request st.1.1 req st.1.2 in
      Peer.is_terminated st.1.1 = 0 -> 0 < Peer.act_sess_num st.1.1 ->
      exists si s,
        peer_sess st.1.1 si = Some s /\ peer_act_sess st.1.1 si <> 0
        /\ out.1.1 = (h2_send_request s req).1
        /\ peer_sess out.1.2 si = Some (h2_send_request s req).2
        /\ peer_act_sess out.1.2 si <> 0.
Proof.
  intros send n thr settings conns p conns' Hc ops w req Hops st out Ht Hact.
  pose proof Hc as Hc'.
  apply h2_peer_connect_wf in Hc as (Hwf & Hn & _).
  destruct (peer_run_wf send ops (p, w, conns') Hwf) as [H1 H2].
  { simpl. by rewrite Hn. }
  simpl in H2. fold st in H1, H2.
  apply send_request_active; try done.
  rewrite H2, Hn.
  destruct (Z_lt_le_dec n 2) as [Hlt|]; [right|by left].
  subst st. rewrite peer_run_thr. simpl.
  unfold h2_peer_connect in Hc'.
  match type of Hc' with
  | context [peer_connect_all ?k ?i ?q ?c] =>
      pose proof (peer_connect_all_thr k i q c) as [T1 T2];
      pose proof (peer_connect_all_wf k i q c) as W;
      destruct (peer_connect_all k i q c) as [p1 c1]
  end.
  simpl in T1, T2. destruct (_ <=? 0) eqn:Hle; [done|].
  injection Hc' as <- <-. rewrite T1.
  assert (n = 1).
  { destruct (Z_lt_le_dec 0 n) as [|Hneg]; [lia|].
    exfalso. destruct W as [[(_ & W2 & W3 & _) _] _].
    - split.
      + unfold peer_shape. simpl. rewrite !length_replicate.
        by rewrite act_count_replicate.
      + intros i Hi. exfalso. apply Hi. unfold peer_act_sess. simpl.
        destruct (replicate _ _ !! i) eqn:E; [|done].
        by apply lookup_replicate in E as [-> _].
    - simpl. lia.
    - simpl in *. apply Z.leb_gt in Hle.
      pose proof (act_count_bounds (Peer.act_sess p1)). lia. }
  match goal with H : _ = 1 |- _ => rewrite H end.
  destruct (Z.eqb_spec thr 0); simpl; lia.
Qed.

Lemma send_request_finds_active_session_witness :
  let ops := [OpSendRequest h2_msg_empty; OpSendRequest h2_msg_empty] in
  let st := peer_run send_counted ops (half_connected_peer, quiet_world, []) in
  let out := h2_peer_send_request send_counted st.1.1 h2_msg_empty st.1.2 in
  out.1.1 = 0
  /\ exists si s,
       peer_sess st.1.1 si = Some s /\ peer_act_sess st.1.1 si <> 0
       /\ out.1.1 = (send_counted s h2_msg_empty).1
       /\ peer_sess out.1.2 si = Some (send_counted s h2_msg_empty).2
       /\ peer_act_sess out.1.2 si <> 0.
Proof.
  intros ops st out. split; [reflexivity|].
  apply (send_request_finds_active_session send_counted 2 3 None
           [Some (client_sess 0); None] half_connected_peer [] eq_refl
           ops quiet_world h2_msg_empty).
  - repeat constructor.
  - reflexivity.
  - reflexivity.
Defined.

(** * Properties of the receive step and of the service loop *)

Section LoopProps.

Variable B c : Z.
Variable cb1 cb2 : h2_sess -> Z * h2_sess.
Variable mem_recv : h2_sess -> list ascii -> Z -> Z * h2_sess.

(** The close reason that goes with each negative result of
    [h2_sess_recv]. *)
Definition recv_failure_reason (v2 : bool) (r : Z) : option close_reason_t :=
  if r =? -1 then Some CLOSE_BY_SOCK_ERR
  else if r =? -2 then Some CLOSE_BY_SOCK_EOF
  else if r =? -3 then
    Some (if v2 then CLOSE_BY_NGHTTP2_ERR else CLOSE_BY_HTTP_ERR)
  else None.

(** The codec takes at most the bytes it is given, which fit the read
    buffer: its result fits an [int]. *)
Hypothesis mem_recv_small : forall s d n, (mem_recv s d n).1 < 2147483648.

Lemma h2_sess_recv_outcome s o :
  let out := h2_sess_recv cb1 cb2 mem_recv s o in
  (out.1 < 0 ->
   recv_failure_reason (is_v2 s) out.1 = Some (close_reason out.2))
  /\ (rd_ret o < 0 -> rd_errno o <> EOTHER -> out = (0, s))
  /\ (rd_ret o = 0 -> out = (-2, set_close_reason CLOSE_BY_SOCK_EOF s)).
Proof.
  unfold h2_sess_recv.
  destruct (ssl s && (rd_ret o <? 0) && rd_want_read o) eqn:Hw.
  { simpl. split; [lia|]. split; [done|]. intros Hz.
    apply andb_prop in Hw as [Hw _]. apply andb_prop in Hw as [_ Hw].
    apply Z.ltb_lt in Hw. lia. }
  destruct (Z.ltb_spec (rd_ret o) 0) as [Hneg|Hnn].
  { destruct (rd_errno o); simpl; (split; [try lia; done|]);
      (split; [done|lia]). }
  destruct (Z.eqb_spec (rd_ret o) 0) as [Hz|Hnz].
  { simpl. split; [done|]. split; [lia|done]. }
  destruct (is_v2 s).
  - pose proof (mem_recv_small s (rd_data o) (rd_ret o)) as Hs.
    destruct (mem_recv _ _ _) as [r s1]. simpl in Hs.
    destruct (Z.ltb_spec r 0); simpl.
    + split; [done|]. split; lia.
    + rewrite to_int_small by lia. split; lia.
  - destruct (h2_sess_recv_v1_1 _ _ _ _ _) as [r s1] eqn:Hr.
    assert (Hrr : r = to_int (rd_ret o) \/ r = -1).
    { unfold h2_sess_recv_v1_1 in Hr.
      destruct (recv_loop _ _ _ _) as [r0 s0].
      destruct (r0 <? 0); injection Hr as <- _; auto. }
    destruct (Z.ltb_spec r 0); simpl.
    + split; [done|]. split; lia.
    + assert (to_int r = r) as ->.
      { destruct Hrr as [-> | ->]; [|lia].
        unfold to_int in *.
        pose proof (Z.mod_pos_bound (rd_ret o + 2147483648) 4294967296
                      ltac:(lia)).
        rewrite (Z.mod_small (_ mod _ - _ + _)) by lia. lia. }
      split; lia.
Qed.

(** X16.  A negative result of [h2_sess_recv] always comes with its close
    reason: -1 with [CLOSE_BY_SOCK_ERR], -2 with [CLOSE_BY_SOCK_EOF], -3
    with [CLOSE_BY_NGHTTP2_ERR] on an HTTP/2 session and with
    [CLOSE_BY_HTTP_ERR] otherwise.  A read that would block or was
    interrupted returns 0 and leaves the session as it is; a read of no
    byte is the end of the connection. *)
Theorem h2_sess_recv_failure_reason :
  forall (s : h2_sess) (o : rd_outcome),
    let out := h2_sess_recv cb1 cb2 mem_recv s o in
    (out.1 < 0 ->
     recv_failure_reason (is_v2 s) out.1 = Some (close_reason out.2))
    /\ (rd_ret o < 0 -> rd_errno o <> EOTHER -> out = (0, s))
    /\ (rd_ret o = 0 -> out = (-2, set_close_reason CLOSE_BY_SOCK_EOF s)).
Proof. apply h2_sess_recv_outcome. Qed.

(** The session is freed at most once, with a close reason, or the loop
    goes on with it. *)
Definition freed_once_with_reason
    (out : list h2_sess * option h2_sess * io_world) : Prop :=
  (out.1.1 = [] /\ is_Some out.1.2)
  \/ (exists f, out.1.1 = [f] /\ out.1.2 = None
                 /\ close_reason f <> CLOSE_NONE).

Lemma poll_sess_event_freed revents s o w :
  wb_sizes_ok (if has_bits revents POLLIN
               then (h2_sess_recv cb1 cb2 mem_recv s o).2 else s) ->
  freed_once_with_reason (poll_sess_event B c cb1 cb2 mem_recv revents s o w).
Proof.
  intros Hwb. unfold poll_sess_event.
  assert (Htail : forall s2 w2,
             freed_once_with_reason
               (if has_bits revents POLLRDHUP
                then ([set_close_reason CLOSE_BY_SOCK_EOF s2], None, w2)
                else if has_bits revents
                          (Z.lor (Z.lor POLLERR POLLHUP) POLLNVAL)
                then ([set_close_reason CLOSE_BY_SOCK_ERR s2], None, w2)
                else ([], Some s2, w2))).
  { intros s2 w2. destruct (has_bits revents POLLRDHUP).
    - right. eexists. split; [reflexivity|]. split; [reflexivity|]. done.
    - destruct (has_bits revents (Z.lor (Z.lor POLLERR POLLHUP) POLLNVAL)).
      + right. eexists. split; [reflexivity|]. split; [reflexivity|]. done.
      + left. split; [done|]. by eexists. }
  assert (Hsend : forall s1,
             wb_sizes_ok s1 ->
             freed_once_with_reason
               match
                 (if has_bits revents (c_or POLLOUT POLLIN)
                  then
                    let '(r, s2, w2) := h2_sess_send B c false s1 w in
                    if r <? 0 then Return ([s2], None, w2)
                    else Next (s2, w2)
                  else Next (s1, w))
               with
               | Return out => out
               | Next (s2, w2) =>
                   if has_bits revents POLLRDHUP
                   then ([set_close_reason CLOSE_BY_SOCK_EOF s2], None, w2)
                   else if has_bits revents
                             (Z.lor (Z.lor POLLERR POLLHUP) POLLNVAL)
                   then ([set_close_reason CLOSE_BY_SOCK_ERR s2], None, w2)
                   else ([], Some s2, w2)
               end).
  { intros s1 Hok.
    destruct (has_bits revents (c_or POLLOUT POLLIN)); [|apply Htail].
    destruct (h2_sess_send B c false s1 w) as [[r s2] w2] eqn:Hs.
    unfold h2_sess_send in Hs.
    apply send_loop_outcome in Hs as (_ & _ & _ & Hf); [|done].
    destruct (Z.ltb_spec r 0) as [Hneg|]; [|apply Htail].
    right. exists s2. split; [done|]. split; [done|].
    destruct (Hf Hneg) as [Hr _]. intros Hnone. rewrite Hnone in Hr.
    unfold send_failure_reason in Hr.
    repeat (destruct (_ =? _) in Hr; try done);
      simpl in Hr; done. }
  destruct (has_bits revents POLLIN); [|by apply Hsend].
  pose proof (h2_sess_recv_outcome s o) as [Hr _].
  destruct (h2_sess_recv cb1 cb2 mem_recv s o) as [r s1]. simpl in *.
  destruct (Z.ltb_spec r 0) as [Hneg|]; [|by apply Hsend].
  right. exists s1. split; [done|]. split; [done|].
  specialize (Hr Hneg). intros Hnone. rewrite Hnone in Hr.
  unfold recv_failure_reason in Hr.
  repeat (destruct (_ =? _) in Hr; try done).
  by destruct (is_v2 s).
Qed.

(** X17.  In the [poll()] variant a session event frees the session at
    most once, and a session that is freed has a close reason.  The loop
    goes on with the session exactly when it has not freed it. *)
Theorem poll_sess_event_frees_with_reason :
  forall (revents : Z) (s : h2_sess) (o : rd_outcome) (w : io_world),
    wb_sizes_ok (if has_bits revents POLLIN
                 then (h2_sess_recv cb1 cb2 mem_recv s o).2 else s) ->
    let out := poll_sess_event B c cb1 cb2 mem_recv revents s o w in
    (out.1.1 = [] /\ is_Some out.1.2)
    \/ (exists f, out.1.1 = [f] /\ out.1.2 = None
                   /\ close_reason f <> CLOSE_NONE).
Proof. intros revents s o w Hwb. by apply poll_sess_event_freed. Qed.

End LoopProps.

(** A codec that takes whatever it is given, up to the size of the read
    buffer, and a read that gives a whole request. *)
Definition codec_takes_all (s : h2_sess) (d : list ascii) (n : Z)
    : Z * h2_sess :=
  (Z.min n 16384, s).

Definition end_of_connection : rd_outcome :=
  {| rd_ret := 0; rd_data := []; rd_errno := EOTHER; rd_want_read := false |}.

Definition read_get_request : rd_outcome :=
  {| rd_ret := 18; rd_data := chars "GET / HTTP/1.1" ++ [CR; LF; CR; LF];
     rd_errno := EOTHER; rd_want_read := false |}.

Lemma h2_sess_recv_failure_reason_witness :
  let s := h2_sess_init true H2_HTTP_V1_1 false in
  let out := h2_sess_recv cb_accept cb_accept codec_takes_all s
               end_of_connection in
  (out.1 < 0 ->
   recv_failure_reason (is_v2 s) out.1 = Some (close_reason out.2))
  /\ (rd_ret end_of_connection < 0 -> rd_errno end_of_connection <> EOTHER ->
      out = (0, s))
  /\ (rd_ret end_of_connection = 0 ->
      out = (-2, set_close_reason CLOSE_BY_SOCK_EOF s)).
Proof.
  intros s.
  apply (h2_sess_recv_failure_reason cb_accept cb_accept codec_takes_all).
  intros s0 d n. simpl. lia.
Defined.

Lemma poll_sess_event_frees_with_reason_witness :
  let s := h2_sess_init true H2_HTTP_V1_1 false in
  let out := poll_sess_event 16384 16384 cb_accept cb_accept codec_takes_all
               (Z.lor POLLIN POLLHUP) s read_get_request quiet_world in
  (close_reason <$> out.1.1) = [CLOSE_BY_SOCK_ERR]
  /\ ((out.1.1 = [] /\ is_Some out.1.2)
      \/ (exists f, out.1.1 = [f] /\ out.1.2 = None
                    /\ close_reason f <> CLOSE_NONE)).
Proof.
  intros s. split; [reflexivity|].
  apply (poll_sess_event_frees_with_reason 16384 16384 cb_accept cb_accept
           codec_takes_all).
  - intros s0 d n. simpl. lia.
  - split; vm_compute; discriminate.
Defined.

Section LoopEdges.

Variable B c : Z.
Variable cb1 cb2 : h2_sess -> Z * h2_sess.
Variable mem_recv : h2_sess -> list ascii -> Z -> Z * h2_sess.

(** X18.  A write-ready event alone does nothing.  The send step is
    guarded by [revents & (POLLOUT || POLLIN)], and [POLLOUT || POLLIN] is
    1, the bit of [POLLIN]: an event that has neither the read bit nor a
    hang-up or error bit leaves the session and the world as they are, in
    both variants of the loop, and [h2_sess_send] is not called. *)
Theorem write_ready_event_does_nothing :
  forall (revents : Z) (s : h2_sess) (o : rd_outcome) (w : io_world),
    has_bits revents POLLIN = false ->
    has_bits revents POLLRDHUP = false ->
    has_bits revents (Z.lor POLLERR POLLHUP) = false ->
    has_bits revents POLLNVAL = false ->
    poll_sess_event B c cb1 cb2 mem_recv revents s o w = ([], Some s, w)
    /\ epoll_sess_event B c cb1 cb2 mem_recv revents s o w = ([], Some s, w).
Proof.
  intros revents s o w Hin Hrd Herr Hnv.
  assert (H1 : has_bits revents (Z.lor (Z.lor POLLERR POLLHUP) POLLNVAL)
               = false).
  { unfold has_bits in *. apply negb_false_iff in Herr, Hnv.
    apply Z.eqb_eq in Herr, Hnv. apply negb_false_iff, Z.eqb_eq.
    rewrite Z.land_lor_distr_r, Herr, Hnv. done. }
  assert (H2 : has_bits revents (Z.lor (Z.lor EPOLLERR EPOLLHUP) EPOLLRDHUP)
               = false).
  { unfold has_bits in *. apply negb_false_iff in Herr, Hrd.
    apply Z.eqb_eq in Herr, Hrd. apply negb_false_iff, Z.eqb_eq.
    rewrite Z.land_lor_distr_r.
    change (Z.lor EPOLLERR EPOLLHUP) with (Z.lor POLLERR POLLHUP).
    change EPOLLRDHUP with POLLRDHUP. rewrite Herr, Hrd. done. }
  unfold poll_sess_event, epoll_sess_event.
  change (c_or POLLOUT POLLIN) with POLLIN.
  change (c_or EPOLLOUT EPOLLIN) with POLLIN.
  change EPOLLIN with POLLIN.
  by rewrite Hin, Hrd, H1, H2.
Qed.

(** X19.  In the [epoll] variant a terminated HTTP/1.1 session can be
    freed twice by one event.  When the event has the read bit and a
    hang-up or error bit, the read does not fail and the session is in
    state 1 and not HTTP/2, the branch that closes it with
    [CLOSE_BY_HTTP_END] calls [h2_sess_free] and falls through to the
    error test, which sets [CLOSE_BY_SOCK_ERR] on the freed session and
    calls [h2_sess_free] again. *)
Theorem epoll_sess_event_frees_twice :
  forall (events : Z) (s : h2_sess) (o : rd_outcome) (w : io_world),
    has_bits events EPOLLIN = true ->
    has_bits events (Z.lor (Z.lor EPOLLERR EPOLLHUP) EPOLLRDHUP) = true ->
    let rs := h2_sess_recv cb1 cb2 mem_recv s o in
    0 <= rs.1 -> is_terminated rs.2 = 1 -> is_v2 rs.2 = false ->
    (epoll_sess_event B c cb1 cb2 mem_recv events s o w).1.1
    = [set_close_reason CLOSE_BY_HTTP_END rs.2;
       set_close_reason CLOSE_BY_SOCK_ERR rs.2].
Proof.
  intros events s o w Hin Herr rs Hr Ht Hv. subst rs.
  unfold epoll_sess_event.
  change (c_or EPOLLOUT EPOLLIN) with EPOLLIN. rewrite Hin.
  destruct (h2_sess_recv cb1 cb2 mem_recv s o) as [r s1]. simpl in *.
  rewrite (proj2 (Z.ltb_ge r 0)) by lia.
  rewrite Ht, Hv, Herr. simpl. done.
Qed.

(** X20.  In the [poll()] variant a graceful termination of an HTTP/1.1
    client session does not wait for the responses: the termination leaves
    the session in state 2, where the loop asks neither for read events
    (only state 0 does) nor, with no send pending, for write events, and a
    session with no events is closed with [CLOSE_BY_HTTP_END] at the next
    turn of the loop. *)
Theorem poll_graceful_http1_closes_at_once :
  forall (s : h2_sess) (w : io_world) (ng_want_write : bool),
    is_v2 s = false -> is_server s = false -> rsp_cnt s < req_cnt s ->
    is_terminated s <> 1 -> send_pending s = false ->
    let out := h2_sess_terminate (Some s) 1 w in
    out.1.1 = 0
    /\ out.1.2 = Some (set_is_terminated 2 s)
    /\ poll_sess_prepare (set_is_terminated 2 s) out.2 ng_want_write
       = ([set_close_reason CLOSE_BY_HTTP_END (set_is_terminated 2 s)], None).
Proof.
  intros s w ww Hv Hsrv Hcnt Ht Hp. simpl.
  rewrite (proj2 (Z.eqb_neq _ _) Ht), Hsrv.
  rewrite (proj2 (Z.ltb_lt _ _) Hcnt). simpl.
  change (is_v2 (set_is_terminated 2 s)) with (is_v2 s). rewrite Hv.
  assert (Hprep : forall w',
             poll_sess_prepare (set_is_terminated 2 s) w' ww
             = ([set_close_reason CLOSE_BY_HTTP_END (set_is_terminated 2 s)],
                None)).
  { intros w'. unfold poll_sess_prepare, poll_sess_interest.
    change (is_v2 (set_is_terminated 2 s)) with (is_v2 s). rewrite Hv.
    simpl. by rewrite Hp. }
  destruct (ssl _); simpl; by rewrite Hprep.
Qed.

(** X21.  In the [poll()] variant an immediate termination of an HTTP/1.1
    session leaves a session that write-ready events do not move: the
    termination sets state 1 and [send_pending], so the loop asks for write
    events only, and a write-ready event does not reach the send step, so
    the session and its [send_pending] stay as they are. *)
Theorem poll_immediate_http1_stays :
  forall (s : h2_sess) (w : io_world) (ng_want_write : bool),
    is_v2 s = false -> is_terminated s <> 1 ->
    let s1 := h2_sess_mark_send_pending (set_is_terminated 1 s) in
    (h2_sess_terminate (Some s) 0 w).1 = (0, Some s1)
    /\ (forall w', poll_sess_prepare s1 w' ng_want_write
                   = ([], Some (s1, POLLOUT)))
    /\ (forall o w', poll_sess_event B c cb1 cb2 mem_recv POLLOUT s1 o w'
                     = ([], Some s1, w')).
Proof.
  intros s w ww Hv Ht s1. split; [|split].
  - simpl. rewrite (proj2 (Z.eqb_neq _ _) Ht). simpl.
    change (is_v2 (set_is_terminated 1 s)) with (is_v2 s). rewrite Hv.
    by destruct (ssl _).
  - intros w'. unfold poll_sess_prepare, poll_sess_interest.
    assert (is_v2 s1 = false) as ->.
    { subst s1. unfold h2_sess_mark_send_pending.
      by destruct (send_pending _). }
    assert (is_terminated s1 = 1) as ->.
    { subst s1. unfold h2_sess_mark_send_pending.
      by destruct (send_pending _). }
    assert (send_pending s1 = true) as -> by apply mark_send_pending_set.
    done.
  - intros o w'. done.
Qed.

End LoopEdges.

(** A read that would block. *)
Definition read_would_block : rd_outcome :=
  {| rd_ret := -1; rd_data := []; rd_errno := EAGAIN;
     rd_want_read := false |}.

Lemma write_ready_event_does_nothing_witness :
  let s := h2_sess_init true H2_HTTP_V1_1 false in
  poll_sess_event 16384 16384 cb_accept cb_accept codec_takes_all POLLOUT s
    end_of_connection quiet_world = ([], Some s, quiet_world)
  /\ epoll_sess_event 16384 16384 cb_accept cb_accept codec_takes_all POLLOUT
       s end_of_connection quiet_world = ([], Some s, quiet_world).
Proof.
  intros s.
  apply (write_ready_event_does_nothing 16384 16384 cb_accept cb_accept
           codec_takes_all POLLOUT s end_of_connection quiet_world);
    reflexivity.
Defined.

Lemma epoll_sess_event_frees_twice_witness :
  let s := set_is_terminated 1 (h2_sess_init true H2_HTTP_V1_1 false) in
  (epoll_sess_event 16384 16384 cb_accept cb_accept codec_takes_all
     (Z.lor EPOLLIN EPOLLHUP) s read_would_block quiet_world).1.1
  = [set_close_reason CLOSE_BY_HTTP_END
       (h2_sess_recv cb_accept cb_accept codec_takes_all s
          read_would_block).2;
     set_close_reason CLOSE_BY_SOCK_ERR
       (h2_sess_recv cb_accept cb_accept codec_takes_all s
          read_would_block).2].
Proof.
  intros s.
  apply (epoll_sess_event_frees_twice 16384 16384 cb_accept cb_accept
           codec_takes_all (Z.lor EPOLLIN EPOLLHUP) s read_would_block
           quiet_world); [reflexivity | reflexivity | | reflexivity | reflexivity].
  vm_compute. discriminate.
Defined.

Lemma poll_graceful_http1_closes_at_once_witness :
  let s := client_awaiting_response in
  let out := h2_sess_terminate (Some s) 1 quiet_world in
  out.1.1 = 0
  /\ out.1.2 = Some (set_is_terminated 2 s)
  /\ poll_sess_prepare (set_is_terminated 2 s) out.2 false
     = ([set_close_reason CLOSE_BY_HTTP_END (set_is_terminated 2 s)], None).
Proof.
  intros s.
  apply (poll_graceful_http1_closes_at_once s quiet_world false);
    try reflexivity.
  discriminate.
Defined.

Lemma poll_immediate_http1_stays_witness :
  let s := client_awaiting_response in
  let s1 := h2_sess_mark_send_pending (set_is_terminated 1 s) in
  (h2_sess_terminate (Some s) 0 quiet_world).1 = (0, Some s1)
  /\ (forall w', poll_sess_prepare s1 w' false = ([], Some (s1, POLLOUT)))
  /\ (forall o w',
        poll_sess_event 16384 16384 cb_accept cb_accept codec_takes_all
          POLLOUT s1 o w' = ([], Some s1, w')).
Proof.
  intros s.
  apply (poll_immediate_http1_stays 16384 16384 cb_accept cb_accept
           codec_takes_all s quiet_world false); [reflexivity|discriminate].
Defined.

(** *** Authority *)

Definition no_nul (l : list ascii) : Prop :=
  Forall (fun c => is_nul c = false) l.

(** The bracket test and the [memmove] of lines 1221-1225 on a host. *)
Definition unbracket (host : list ascii) : list ascii :=
  let n := to_int (Z.of_nat (length host)) in
  if match c_index host 0 with Some c => is_lbracket c | None => false end
     && match c_index host (n - 1) with
        | Some c => is_rbracket c
        | None => false
        end
     && (3 <=? n)
  then take (Z.to_nat (n - 2)) (drop 1 host)
  else host.

Lemma strdup_no_nul l : no_nul l -> strdup l = l.
Proof.
  induction 1 as [|c l Hc _ IH]; simpl; [done|].
  unfold strdup in *. simpl. rewrite Hc. simpl. by rewrite IH.
Qed.

Lemma split_last_colon_none l : split_last_colon l = None <-> no_colon l.
Proof.
  induction l as [|c l IH]; simpl.
  - split; [constructor|done].
  - destruct (split_last_colon l) as [[h p]|].
    + split; [done|]. intros H. inversion H; subst.
      assert (Hn : @None (list ascii * list ascii) = None) by done.
      by apply IH in H3.
    + destruct (is_colon c) eqn:Hc.
      * split; [done|]. intros H. inversion H; subst. congruence.
      * split; [|done]. intros _. constructor; [done|]. by apply IH.
Qed.

Lemma split_last_colon_app h p :
  no_colon p -> split_last_colon (h ++ COLON :: p) = Some (h, p).
Proof.
  intros Hp. induction h as [|c h IH]; simpl.
  - apply split_last_colon_none in Hp. by rewrite Hp.
  - by rewrite IH.
Qed.

Lemma split_last_colon_some l h p :
  split_last_colon l = Some (h, p) -> l = h ++ COLON :: p /\ no_colon p.
Proof.
  revert h. induction l as [|c l IH]; intros h; simpl; [done|].
  destruct (split_last_colon l) as [[h' p']|] eqn:Hl.
  - intros [= <- <-]. destruct (IH h' eq_refl) as [-> Hp]. done.
  - destruct (is_colon c) eqn:Hc; [|done]. intros [= <- <-].
    split; [|by apply split_last_colon_none].
    simpl. f_equal. apply code_inj. unfold is_colon in Hc.
    by apply Z.eqb_eq in Hc.
Qed.

Lemma authority_split_parts authority :
  authority_split authority
  = match split_last_colon (strdup authority) with
    | Some (h, p) => (unbracket h, Some p)
    | None => (unbracket (strdup authority), None)
    end.
Proof.
  unfold authority_split, unbracket.
  destruct (split_last_colon _) as [[h p]|];
    by destruct (_ && _ && _).
Qed.

Lemma unbracket_nil host : unbracket host = [] <-> host = [].
Proof.
  unfold unbracket.
  destruct (_ && _ && _) eqn:Hc; [|done].
  apply andb_true_iff in Hc as [Hc Hn].
  apply andb_true_iff in Hc as [H0 Hl].
  apply Z.leb_le in Hn.
  destruct host as [|c host]; [done|].
  split; [|done]. intros Ht. exfalso.
  unfold c_index in Hl. destruct (Z.ltb_spec (to_int (Z.of_nat (length (c :: host))) - 1) 0); [done|].
  destruct ((c :: host) !! _) eqn:Hi; [|done].
  apply lookup_lt_Some in Hi.
  apply (f_equal length) in Ht. rewrite length_take, length_drop in Ht.
  simpl in *. lia.
Qed.

Lemma unbracket_brackets a :
  a <> [] -> Z.of_nat (length a) + 2 < 2147483648 ->
  unbracket (LBRACKET :: a ++ [RBRACKET]) = a.
Proof.
  intros Ha Hlen. unfold unbracket.
  assert (Hl : length (LBRACKET :: a ++ [RBRACKET]) = S (S (length a))).
  { simpl. rewrite length_app. simpl. lia. }
  rewrite Hl, to_int_small by lia.
  assert (0 < length a)%nat by (destruct a; [done|simpl; lia]).
  unfold c_index.
  rewrite (proj2 (Z.ltb_ge _ _)) by lia.
  rewrite (proj2 (Z.ltb_ge _ _)) by lia.
  replace (Z.to_nat (Z.of_nat (S (S (length a))) - 1)) with (S (length a))
    by lia.
  simpl. rewrite lookup_app_r by lia. rewrite Nat.sub_diag. simpl.
  rewrite (proj2 (Z.leb_le _ _)) by lia. simpl.
  replace (Z.to_nat (Z.of_nat (S (S (length a))) - 2)) with (length a) by lia.
  by rewrite drop_0, take_app_length.
Qed.

Lemma unbracket_other host :
  Z.of_nat (length host) < 2147483648 ->
  (forall a, a <> [] -> host <> LBRACKET :: a ++ [RBRACKET]) ->
  unbracket host = host.
Proof.
  intros Hlen Hno. unfold unbracket.
  destruct (_ && _ && _) eqn:Hc; [|done]. exfalso.
  apply andb_true_iff in Hc as [Hc Hn].
  apply andb_true_iff in Hc as [H0 Hl].
  rewrite to_int_small in Hn, Hl by lia. apply Z.leb_le in Hn.
  destruct host as [|c host]; [done|].
  unfold c_index in *. simpl in H0.
  rewrite (proj2 (Z.ltb_ge _ _)) in Hl by lia.
  destruct ((c :: host) !! _) as [d|] eqn:Hi; [|done].
  assert (c = LBRACKET) as ->.
  { apply code_inj. unfold is_lbracket in H0. by apply Z.eqb_eq in H0. }
  assert (d = RBRACKET) as ->.
  { apply code_inj. unfold is_rbracket in Hl. by apply Z.eqb_eq in Hl. }
  destruct (decide (host = [])) as [->|Hne]; [simpl in *; lia|].
  destruct (exists_last Hne) as [a [x ->]].
  replace (Z.to_nat (Z.of_nat (length (LBRACKET :: a ++ [x])) - 1))
    with (S (length a)) in Hi
    by (simpl; rewrite length_app; simpl; lia).
  simpl in Hi. rewrite lookup_app_r in Hi by lia.
  rewrite Nat.sub_diag in Hi. simpl in Hi. injection Hi as ->.
  apply (Hno a); [|done].
  intros ->. simpl in Hn. lia.
Qed.

(** X22.  [h2_connect] splits its authority at the last colon and takes a
    host in brackets out of them.  For a host [h] and a port [p] that are C
    strings, the port without a colon: an empty host is refused; a host
    [[a]] with [a] not empty gives [a] and [p] to [getaddrinfo]; every
    other host is given as it is, so that an IPv6 literal without brackets,
    or a literal in brackets without a port, is split at the last colon
    inside it. *)
Theorem connect_authority_host_port :
  forall h p : list ascii,
    no_nul h -> no_nul p -> no_colon p ->
    Z.of_nat (length h) < 2147483648 ->
    let r := connect_authority (h ++ COLON :: p) in
    (h = [] -> r = None)
    /\ (forall a, a <> [] -> h = LBRACKET :: a ++ [RBRACKET] ->
        r = Some (a, p))
    /\ (h <> [] ->
        (forall a, a <> [] -> h <> LBRACKET :: a ++ [RBRACKET]) ->
        r = Some (h, p)).
Proof.
  intros h p Hh Hp Hc Hlen r.
  assert (Hr : r = if Z.of_nat (length (unbracket h)) <=? 0 then None
                   else Some (unbracket h, p)).
  { subst r. unfold connect_authority. rewrite authority_split_parts.
    rewrite strdup_no_nul.
    - rewrite split_last_colon_app by done.
      by destruct (_ <=? _).
    - apply Forall_app. split; [done|]. by constructor. }
  split; [|split].
  - intros ->. by rewrite Hr.
  - intros a Ha ->. rewrite Hr, unbracket_brackets; [|done|].
    + destruct a; [done|]. simpl length.
      by rewrite (proj2 (Z.leb_gt _ _)) by lia.
    + simpl in Hlen. rewrite length_app in Hlen. simpl in Hlen. lia.
  - intros Hne Hno. rewrite Hr, unbracket_other by done.
    destruct h; [done|]. simpl length.
    by rewrite (proj2 (Z.leb_gt _ _)) by lia.
Qed.

Lemma connect_authority_host_port_witness :
  let r := connect_authority (chars "[::1]" ++ COLON :: chars "8080") in
  (chars "[::1]" = [] -> r = None)
  /\ (forall a, a <> [] -> chars "[::1]" = LBRACKET :: a ++ [RBRACKET] ->
      r = Some (a, chars "8080"))
  /\ (chars "[::1]" <> [] ->
      (forall a, a <> [] -> chars "[::1]" <> LBRACKET :: a ++ [RBRACKET]) ->
      r = Some (chars "[::1]", chars "8080")).
Proof.
  apply (connect_authority_host_port (chars "[::1]") (chars "8080")).
  - repeat constructor.
  - repeat constructor.
  - repeat constructor.
  - simpl. lia.
Defined.

(** X23.  [h2_listen] refuses an authority only when it has no colon, and
    so accepts an empty host, which [h2_connect] refuses.  Whatever
    [h2_connect] accepts, [h2_listen] accepts with the same host and port;
    where [h2_connect] refuses, [h2_listen] refuses too or goes on with an
    empty host. *)
Theorem listen_authority_accepts_empty_host :
  forall authority : list ascii,
    (listen_authority authority = None <-> no_colon (strdup authority))
    /\ (forall hp, connect_authority authority = Some hp ->
                   listen_authority authority = Some hp)
    /\ (connect_authority authority = None ->
        listen_authority authority = None
        \/ exists p, strdup authority = COLON :: p /\ no_colon p
                     /\ listen_authority authority = Some ([], p)).
Proof.
  intros a. unfold listen_authority, connect_authority.
  rewrite authority_split_parts.
  destruct (split_last_colon (strdup a)) as [[h p]|] eqn:Hs.
  - split; [|split].
    + split; [done|]. intros H. apply split_last_colon_none in H. congruence.
    + intros hp. by destruct (_ <=? _).
    + destruct (Z.leb_spec (Z.of_nat (length (unbracket h))) 0); [|done].
      intros _. right.
      assert (Hu : unbracket h = [])
        by (destruct (unbracket h); [done|simpl in *; lia]).
      apply split_last_colon_some in Hs as [Hs Hp].
      rewrite Hu. pose proof (proj1 (unbracket_nil h) Hu) as Hh.
      subst h. exists p. done.
  - split; [|split].
    + split; [|done]. intros _. by apply split_last_colon_none.
    + intros hp. by rewrite orb_true_r.
    + by left.
Qed.

(** *** Server session start *)

Lemma send_settings_kind B c E s st w r s' w' :
  wb_sizes_ok s ->
  h2_sess_send_settings B c E s st w = (r, s', w') ->
  sess_kind s' = sess_kind s
  /\ (0 <= r -> close_reason s' = close_reason s).
Proof.
  intros Hok. unfold h2_sess_send_settings.
  destruct (negb (is_v2 s)); [by intros [= <- <- <-]|].
  destruct (negb (_ =? 0)); [by intros [= <- <- <-]|].
  unfold h2_sess_send. intros H.
  apply send_loop_outcome in H as (_ & H2 & H3 & _); [|done].
  split; [done|]. intros Hr. by apply H3.
Qed.

Lemma server_tcp_start_kind B c E s st w r s' w' :
  wb_sizes_ok s ->
  h2_sess_server_tcp_start B c E s st w = (r, s', w') ->
  sess_kind s' = sess_kind s
  /\ (0 <= r -> close_reason s' = close_reason s).
Proof.
  intros Hok. unfold h2_sess_server_tcp_start.
  destruct (is_v2 s); [|by intros [= <- <- <-]].
  destruct (h2_sess_send_settings _ _ _ _ _ _) as [[r1 s1] w1] eqn:Hs.
  apply send_settings_kind in Hs as [H1 H2]; [|done].
  destruct (Z.ltb_spec r1 0); intros [= <- <- <-]; (split; [done|]).
  - lia.
  - intros _. apply H2. lia.
Qed.

Lemma server_tls_start_kind B c E s alpn st w r s' w' :
  wb_sizes_ok s ->
  h2_sess_server_tls_start B c E s alpn st w = (r, s', w') ->
  is_server s' = is_server s /\ ssl s' = ssl s
  /\ (0 <= r ->
      close_reason s' = close_reason s
      /\ http_ver s' = (if alpn_is_h2 alpn then H2_HTTP_V2
                        else H2_HTTP_V1_1)
      /\ (alpn_is_h2 alpn = false -> http_ver s <> H2_HTTP_V2)).
Proof.
  intros Hok. unfold h2_sess_server_tls_start.
  assert (Hsend : forall v s2,
    wb_sizes_ok s2 -> http_ver s2 = v ->
    (if is_v2 s2
     then let '(r, s, w) := h2_sess_send_settings B c E s2 st w in
          if r <? 0 then (-1, s, w) else (0, s, w)
     else (0, s2, w)) = (r, s', w') ->
    is_server s' = is_server s2 /\ ssl s' = ssl s2
    /\ (0 <= r -> close_reason s' = close_reason s2 /\ http_ver s' = v)).
  { intros v s2 Hok2 Hv. destruct (is_v2 s2).
    - destruct (h2_sess_send_settings _ _ _ _ _ _) as [[r1 s1] w1] eqn:Hs.
      apply send_settings_kind in Hs as [H1 H2]; [|done].
      unfold sess_kind in H1.
      assert (is_server s1 = is_server s2) by congruence.
      assert (ssl s1 = ssl s2) by congruence.
      assert (http_ver s1 = http_ver s2) by congruence.
      destruct (Z.ltb_spec r1 0); intros [= <- <- <-];
        (split; [done|]; split; [done|]).
      + lia.
      + intros _. split; [apply H2; lia|congruence].
    - intros [= <- <- <-]. done. }
  destruct (alpn_is_h2 alpn).
  - intros H. apply (Hsend H2_HTTP_V2) in H as (H1 & H2 & H3); [|done|done].
    split; [done|]. split; [done|]. intros Hr.
    destruct (H3 Hr) as [H4 H5]. done.
  - destruct (is_v2 s) eqn:Hv.
    + intros [= <- <- <-]. split; [done|]. split; [done|]. lia.
    + intros H. apply (Hsend H2_HTTP_V1_1) in H as (H1 & H2 & H3);
        [|done|done].
      split; [done|]. split; [done|]. intros Hr.
      destruct (H3 Hr) as [H4 H5]. split; [done|]. split; [done|].
      intros _ Hc. unfold is_v2 in Hv. by rewrite Hc in Hv.
Qed.

(** X24.  What [h2_sess_init_server] returns.  A session that it returns
    is a server session with no close reason; over TLS it speaks HTTP/2
    exactly when ALPN selected [h2], whatever the context asks for, and a
    context that asks for HTTP/2 gets no HTTP/1.1 session; over TCP it keeps
    the version of the context.  When the function returns [NULL] it has
    freed one object: the session or, when [epoll_ctl] fails in the build
    with [EPOLL_MODE], the server, the session staying as it is. *)
Theorem init_server_outcome :
  forall (H2_WR_BUF_SIZE sizeof_merge_data : Z) (EPOLL_MODE : bool)
         (ctx_http_ver : http_ver_t) (svr_ssl_ctx : bool)
         (accept_cb : option (h2_settings -> Z * h2_settings))
         (epoll_ctl_ret : Z) (tls : tls_answers) (w : io_world),
    let out := h2_sess_init_server H2_WR_BUF_SIZE sizeof_merge_data
                 EPOLL_MODE ctx_http_ver svr_ssl_ctx accept_cb epoll_ctl_ret
                 tls w in
    match out.1.1 with
    | Some s =>
        out.1.2 = [] /\ is_server s = true /\ ssl s = svr_ssl_ctx
        /\ close_reason s = CLOSE_NONE
        /\ http_ver s
           = (if svr_ssl_ctx
              then if alpn_is_h2 (alpn_selected tls) then H2_HTTP_V2
                   else H2_HTTP_V1_1
              else ctx_http_ver)
        /\ (svr_ssl_ctx = true -> alpn_is_h2 (alpn_selected tls) = false ->
            ctx_http_ver <> H2_HTTP_V2)
    | None =>
        (EPOLL_MODE = true /\ epoll_ctl_ret < 0 /\ out.1.2 = [FreeSvr]
         /\ out.2 = w)
        \/ (exists s, out.1.2 = [FreeSess s] /\ is_server s = true)
    end.
Proof.
  intros B c E ver tls_on cb ret tls w out. subst out.
  unfold h2_sess_init_server.
  destruct (E && (ret <? 0)) eqn:He.
  { simpl. left. apply andb_true_iff in He as [-> He].
    apply Z.ltb_lt in He. done. }
  destruct (match cb with Some cb0 => cb0 h2_settings_init
            | None => (0, h2_settings_init) end) as [r st].
  destruct (r <? 0); [simpl; right; by eexists|].
  destruct tls_on.
  - destruct (ssl_new_ok tls); simpl; [|right; by eexists].
    destruct (ssl_accept_ret tls <? 0); [simpl; right; by eexists|].
    destruct (h2_sess_server_tls_start _ _ _ _ _ _ _) as [[r1 s1] w1] eqn:Hs.
    apply server_tls_start_kind in Hs as (H1 & H2 & H3);
      [|split; simpl; lia].
    destruct (Z.ltb_spec r1 0); simpl.
    + right. by eexists.
    + destruct (H3 ltac:(lia)) as (H4 & H5 & H6).
      split; [done|]. split; [done|]. split; [done|]. split; [done|].
      split; [done|]. intros _ Ha. by apply H6.
  - destruct (h2_sess_server_tcp_start _ _ _ _ _ _) as [[r1 s1] w1] eqn:Hs.
    apply server_tcp_start_kind in Hs as (H1 & H2); [|split; simpl; lia].
    unfold sess_kind in H1.
    assert (is_server s1 = true) by (simpl in H1; congruence).
    assert (ssl s1 = false) by (simpl in H1; congruence).
    assert (http_ver s1 = ver) by (simpl in H1; congruence).
    destruct (Z.ltb_spec r1 0); simpl.
    + right. by eexists.
    + split; [done|]. split; [done|]. split; [done|].
      split; [apply H2; lia|]. done.
Qed.

(** *** A whole request *)

Definition SP : ascii := " "%char.

(** The text of a header line, of the head of a request that announces its
    body, and of the request. *)
Definition header_text (h : list ascii * list ascii) : list ascii :=
  h.1 ++ COLON :: SP :: h.2 ++ [CR; LF].

Definition request_head (method path : list ascii)
    (hdrs : list (list ascii * list ascii)) (clen : list ascii)
    : list ascii :=
  (method ++ SP :: path ++ SP :: chars "HTTP/1.1" ++ [CR; LF])
  ++ concat (header_text <$> hdrs)
  ++ (chars "Content-Length" ++ COLON :: SP :: clen ++ [CR; LF])
  ++ [CR; LF].

(** A method or a path: not empty, without space, tab and line feed. *)
Definition word (t : list ascii) : Prop :=
  t <> [] /\ Forall (fun c => is_sp c = false /\ is_lf c = false) t.

(** A header that is neither [Host] nor [Content-Length], whose name has no
    colon and whose value has no space or tab at its ends. *)
Definition plain_header (h : list ascii * list ascii) : Prop :=
  no_colon h.1
  /\ Forall (fun c => is_lf c = false) h.1
  /\ Forall (fun c => is_lf c = false) h.2
  /\ trim_sp h.2 = h.2
  /\ tolower <$> h.1 <> tolower <$> chars "host"
  /\ tolower <$> h.1 <> tolower <$> chars "content-length".

(** The session [s] is parsing the head of a message of the session [s0]:
    the message received so far, the bytes used, the lines seen and the
    expected body length. *)
Definition parsing (s0 s : h2_sess) (m : h2_msg) (used line clen : Z)
    : Prop :=
  is_server s = is_server s0 /\ ssl s = ssl s0
  /\ rd_static s = rd_static s0
  /\ (exists i, strm_recving s = Some i /\ (i < length (strm_list s))%nat)
  /\ recving_rmsg s = m /\ rdata_used s = used
  /\ rmsg_header_line s = line /\ rmsg_content_length s = clen
  /\ rmsg_header_done s = false.

Lemma recving_rmsg_upd f s i :
  strm_recving s = Some i -> (i < length (strm_list s))%nat ->
  recving_rmsg (upd_rmsg f s) = f (recving_rmsg s)
  /\ strm_recving (upd_rmsg f s) = Some i
  /\ (i < length (strm_list (upd_rmsg f s)))%nat.
Proof.
  intros Hi Hlt. unfold recving_rmsg, upd_rmsg. rewrite Hi. simpl.
  rewrite Hi. rewrite list_lookup_alter, length_alter.
  destruct (decide (i = i)); [|done].
  destruct (lookup_lt_is_Some_2 _ _ Hlt) as [strm Hs]. rewrite Hs. done.
Qed.

Lemma upd_rmsg_parsing f s0 s m used line clen :
  parsing s0 s m used line clen ->
  parsing s0 (upd_rmsg f s) (f m) used line clen.
Proof.
  intros (H1 & H2 & H3 & (i & Hi & Hlt) & H5 & H6 & H7 & H8 & H9).
  destruct (recving_rmsg_upd f s i Hi Hlt) as (U1 & U2 & U3).
  destruct (upd_rmsg_rd f s) as (R1 & R2 & R3 & R4).
  unfold parsing. rewrite U1, H5.
  assert (Hs : forall g : h2_sess -> bool, True) by done.
  split. { unfold upd_rmsg. by destruct (strm_recving s). }
  split. { unfold upd_rmsg. by destruct (strm_recving s). }
  split; [congruence|]. split; [by exists i|]. split; [done|].
  split; [congruence|].
  split. { unfold upd_rmsg. by destruct (strm_recving s). }
  split. { unfold upd_rmsg. by destruct (strm_recving s). }
  congruence.
Qed.

Lemma next_line_parsing s0 s m used line clen n :
  parsing s0 s m used line clen ->
  parsing s0 (set_rmsg_header_line (rmsg_header_line s + 1)
                (set_rdata_used n s)) m n (line + 1) clen.
Proof.
  intros (H1 & H2 & H3 & (i & Hi & Hlt) & H5 & H6 & H7 & H8 & H9).
  unfold parsing. simpl. repeat split; try done.
  - by exists i.
  - by rewrite H7.
Qed.

Lemma take_drop_while_stop (f : ascii -> bool) a c b :
  Forall (fun x => f x = true) a -> f c = false ->
  take_while f (a ++ c :: b) = a /\ drop_while f (a ++ c :: b) = c :: b.
Proof.
  intros Ha Hc. induction Ha as [|x a Hx _ [IH1 IH2]]; simpl.
  - by rewrite Hc.
  - by rewrite Hx, IH1, IH2.
Qed.

Lemma strip_trailing_sp_word_sp x c :
  is_sp c = false -> strip_trailing_sp ((x ++ [c]) ++ [SP]) = x ++ [c].
Proof.
  intros Hc. unfold strip_trailing_sp.
  rewrite reverse_snoc. simpl. rewrite reverse_snoc. simpl. rewrite Hc.
  by rewrite reverse_cons, reverse_involutive.
Qed.

Lemma trim_sp_sp_cons v : trim_sp (SP :: v) = trim_sp v.
Proof. done. Qed.

Lemma word_last t : word t -> exists x c, t = x ++ [c] /\ is_sp c = false.
Proof.
  intros [Hne Hall]. destruct (exists_last Hne) as [x [c ->]].
  exists x, c. split; [done|].
  apply Forall_app in Hall as [_ Hc]. inversion Hc; subst. tauto.
Qed.

Lemma word_non_sp t : word t -> Forall (fun c => non_sp c = true) t.
Proof.
  intros [_ H]. eapply Forall_impl; [exact H|].
  intros c [Hc _]. unfold non_sp. by rewrite Hc.
Qed.

Lemma word_no_lf t : word t -> Forall (fun c => is_lf c = false) t.
Proof.
  intros [_ H]. eapply Forall_impl; [exact H|]. by intros c [_ Hc].
Qed.

(** The Request-Line of a request. *)
Lemma request_line_value method path :
  word method -> word path ->
  parse_request_line (method ++ SP :: path ++ SP :: chars "HTTP/1.1")
  = Some (method, path).
Proof.
  intros Hm Hp.
  destruct (word_last path Hp) as (x & c & -> & Hc).
  replace (method ++ SP :: (x ++ [c]) ++ SP :: chars "HTTP/1.1")
    with ((((method ++ SP :: x) ++ [c]) ++ [SP]) ++ chars "HTTP/1.1")
    by (by rewrite <- !app_assoc).
  rewrite parse_request_line_value.
  2:{ rewrite !length_app. destruct Hm as [Hm _].
      destruct method; [done|]. simpl. lia. }
  rewrite strip_trailing_sp_word_sp by done.
  replace ((method ++ SP :: x) ++ [c]) with (method ++ SP :: (x ++ [c]))
    by (by rewrite <- !app_assoc).
  destruct (take_drop_while_stop non_sp method SP (x ++ [c])) as [-> ->];
    [by apply word_non_sp|done|].
  f_equal. f_equal. simpl.
  pose proof (word_non_sp _ Hp) as Hns.
  destruct x as [|y x]; simpl.
  - by rewrite Hc.
  - inversion Hns; subst. unfold non_sp in *.
    by destruct (is_sp y).
Qed.


Lemma first_line_parsing s0 s m used clen method path after :
  is_server s0 = true -> word method -> word path ->
  parsing s0 s m used 0 clen ->
  let raw := (method ++ SP :: path ++ SP :: chars "HTTP/1.1") ++ [CR] in
  exists s',
    recv_hdl_line s raw after = LineNext s'
    /\ parsing s0 s'
         (h2_set_path_n path
            (h2_set_authority_n (chars "http")
               (h2_set_scheme (if ssl s0 then chars "https" else chars "http")
                  (h2_set_method_n method m))))
         (used + Z.of_nat (length raw) + 1) 1 clen.
Proof.
  intros Hsrv Hm Hp Hpar raw.
  pose proof Hpar as (H1 & H2 & H3 & _ & H5 & H6 & H7 & H8 & H9).
  rewrite recv_first_line_step; subst raw; rewrite ?chomp_cr_snoc; try done.
  2:{ destruct method; discriminate. }
  unfold recv_first_line. rewrite H1, Hsrv.
  rewrite request_line_value by done.
  eexists. split; [reflexivity|].
  rewrite H2.
  assert (Hu := upd_rmsg_parsing
    (fun m => h2_set_path_n path
               (h2_set_authority_n (chars "http")
                  (h2_set_scheme
                     (if ssl s0 then chars "https" else chars "http")
                     (h2_set_method_n method m)))) _ _ _ _ _ _ Hpar).
  apply (next_line_parsing _ _ _ _ _ _
           (rdata_used s + Z.of_nat (length
              ((method ++ SP :: path ++ SP :: chars "HTTP/1.1") ++ [CR]))
            + 1)) in Hu.
  rewrite <- H6. exact Hu.
Qed.

Lemma trim_sp_no_sp l :
  Forall (fun c => is_sp c = false) l -> trim_sp l = l.
Proof.
  intros H. unfold trim_sp, strip_trailing_sp.
  assert (Hd : forall l', Forall (fun c => is_sp c = false) l' ->
                          drop_while is_sp l' = l').
  { intros l' Hl. destruct Hl as [|c l' Hc _]; simpl; [done|by rewrite Hc]. }
  rewrite (Hd l H), Hd by (by apply Forall_reverse).
  apply reverse_involutive.
Qed.

Lemma digits_no_sp ds :
  Forall (fun c => is_digit c = true) ds ->
  Forall (fun c => is_sp c = false) ds.
Proof.
  intros H. eapply Forall_impl; [exact H|]. intros c Hc.
  destruct (is_sp c) eqn:Hs; [|done].
  apply not_digit_sp in Hs. congruence.
Qed.

Lemma header_line_parsing s0 s m used line clen h after :
  plain_header h -> line <> 0 ->
  parsing s0 s m used line clen ->
  let raw := (h.1 ++ COLON :: SP :: h.2) ++ [CR] in
  exists s',
    recv_hdl_line s raw after = LineNext s'
    /\ parsing s0 s' (h2_add_hdr_n h.1 h.2 m)
         (used + Z.of_nat (length raw) + 1) (line + 1) clen.
Proof.
  intros (Hc & _ & _ & Ht & Hhost & Hcl) Hline Hpar raw.
  pose proof Hpar as (H1 & H2 & H3 & _ & H5 & H6 & H7 & H8 & H9).
  rewrite recv_header_line_step; subst raw; rewrite ?chomp_cr_snoc;
    try done; [| congruence | by destruct (h.1)].
  unfold recv_header_line. rewrite parse_header_line_split by done.
  rewrite (bool_decide_eq_false_2 _ Hhost), andb_false_r.
  rewrite (bool_decide_eq_false_2 _ Hcl).
  rewrite trim_sp_sp_cons, Ht.
  eexists. split; [reflexivity|].
  assert (Hu := upd_rmsg_parsing (h2_add_hdr_n h.1 h.2) _ _ _ _ _ _ Hpar).
  apply (next_line_parsing _ _ _ _ _ _
           (rdata_used s + Z.of_nat (length
              ((h.1 ++ COLON :: SP :: h.2) ++ [CR])) + 1)) in Hu.
  rewrite <- H6. exact Hu.
Qed.

Lemma clen_line_parsing s0 s m used line clen ds after :
  Forall (fun c => is_digit c = true) ds -> ds <> [] ->
  decimal ds <= 2147483647 -> line <> 0 ->
  parsing s0 s m used line clen ->
  let raw := (chars "Content-Length" ++ COLON :: SP :: ds) ++ [CR] in
  exists s',
    recv_hdl_line s raw after = LineNext s'
    /\ parsing s0 s' m (used + Z.of_nat (length raw) + 1) (line + 1)
         (decimal ds).
Proof.
  intros Hds Hne Hmax Hline Hpar raw.
  pose proof Hpar as (H1 & H2 & H3 & Hi & H5 & H6 & H7 & H8 & H9).
  pose proof (content_length_decimal raw (after ++ rd_behind s) (SP :: ds))
    as Hat.
  cbv zeta in Hat. rewrite trim_sp_sp_cons in Hat.
  rewrite (trim_sp_no_sp ds) in Hat by (by apply digits_no_sp).
  specialize (Hat Hds Hne Hmax).
  rewrite recv_header_line_step; [| congruence | ].
  2:{ subst raw. by rewrite chomp_cr_snoc. }
  unfold recv_header_line.
  assert (Hraw : chomp_cr raw = chars "Content-Length" ++ COLON :: SP :: ds)
    by (subst raw; apply chomp_cr_snoc).
  rewrite Hraw in Hat |- *.
  rewrite parse_header_line_split by (repeat constructor).
  rewrite (bool_decide_eq_false_2
             (tolower <$> chars "Content-Length" = tolower <$> chars "host"))
    by discriminate.
  rewrite andb_false_r.
  rewrite (bool_decide_eq_true_2
             (tolower <$> chars "Content-Length"
              = tolower <$> chars "content-length")) by reflexivity.
  rewrite Hat.
  eexists. split; [reflexivity|].
  unfold parsing. simpl. rewrite H7.
  repeat split; try done. by rewrite H6.
Qed.

Lemma header_text_line h rest :
  header_text h ++ rest
  = ((h.1 ++ COLON :: SP :: h.2) ++ [CR]) ++ LF :: rest.
Proof. unfold header_text. rewrite <- !app_assoc. simpl. by rewrite <- !app_assoc. Qed.

Lemma header_raw_no_lf h :
  plain_header h ->
  Forall (fun c => is_lf c = false) ((h.1 ++ COLON :: SP :: h.2) ++ [CR]).
Proof.
  intros (_ & Hn & Hv & _).
  apply Forall_app. split; [|by repeat constructor].
  apply Forall_app. split; [done|]. by repeat constructor.
Qed.

(** The header lines of a request, one after the other. *)
Lemma hdr_lines_parsing s0 hdrs :
  forall s m used line clen tail,
    Forall plain_header hdrs -> 0 < line ->
    parsing s0 s m used line clen ->
    exists s',
      recv_hdr_lines (split_lines [] (concat (header_text <$> hdrs) ++ tail)) s
      = recv_hdr_lines (split_lines [] tail) s'
      /\ parsing s0 s'
           (fold_left (fun m h => h2_add_hdr_n h.1 h.2 m) hdrs m)
           (used + Z.of_nat (length (concat (header_text <$> hdrs))))
           (line + Z.of_nat (length hdrs)) clen.
Proof.
  induction hdrs as [|h hdrs IH]; intros s m used line clen tail Hall Hl Hpar.
  - exists s. split; [done|]. simpl.
    by rewrite !Z.add_0_r.
  - inversion Hall as [|? ? Hh Hall']; subst.
    rewrite fmap_cons. cbn [concat]. rewrite <- app_assoc.
    rewrite header_text_line.
    rewrite split_lines_first by (by apply header_raw_no_lf).
    cbn [reverse rev_append app recv_hdr_lines].
    destruct (header_line_parsing s0 s m used line clen h
                (concat (header_text <$> hdrs) ++ tail) Hh ltac:(lia) Hpar)
      as (s1 & Hstep & Hpar1).
    cbv zeta in Hstep, Hpar1.
    change (reverse [] ++ ?x) with x.
    rewrite Hstep.
    assert (Hl1 : 0 < line + 1) by lia.
    destruct (IH s1 _ _ _ _ tail Hall' Hl1 Hpar1) as (s2 & Hrun & Hpar2).
    exists s2. split; [done|].
    cbn [fold_left].
    replace (used + Z.of_nat (length (header_text h ++ concat (header_text <$> hdrs))))
      with (used + Z.of_nat (length ((h.1 ++ COLON :: SP :: h.2) ++ [CR])) + 1
            + Z.of_nat (length (concat (header_text <$> hdrs)))).
    2:{ unfold header_text. rewrite !length_app. simpl.
        rewrite !length_app. simpl. lia. }
    replace (line + Z.of_nat (length (h :: hdrs)))
      with (line + 1 + Z.of_nat (length hdrs)) by (simpl; lia).
    exact Hpar2.
Qed.

Lemma fold_add_hdr_fields hdrs m :
  let m' := fold_left (fun m h => h2_add_hdr_n h.1 h.2 m) hdrs m in
  msg_method m' = msg_method m /\ msg_scheme m' = msg_scheme m
  /\ msg_authority m' = msg_authority m /\ msg_path m' = msg_path m
  /\ msg_status m' = msg_status m /\ msg_body m' = msg_body m
  /\ msg_hdrs m' = msg_hdrs m ++ hdrs.
Proof.
  revert m. induction hdrs as [|h hdrs IH]; intros m; simpl.
  - by rewrite app_nil_r.
  - destruct (IH (h2_add_hdr_n h.1 h.2 m)) as (H1 & H2 & H3 & H4 & H5 & H6 & H7).
    simpl in *. rewrite H7, <- app_assoc. simpl.
    destruct h. done.
Qed.


Lemma rd_unread_bound s :
  0 <= rdata_used s -> rd_unread s <> [] ->
  Z.of_nat (length (rd_unread s)) <= rdata_size s - rdata_used s.
Proof.
  intros Hu Hne.
  assert (Hl : (0 < length (rd_unread s))%nat)
    by (destruct (rd_unread s); [done|simpl; lia]).
  unfold rd_unread in *. rewrite length_drop, length_take in *. lia.
Qed.

Lemma request_head_lines method path hdrs clen tail :
  request_head method path hdrs clen ++ tail
  = ((method ++ SP :: path ++ SP :: chars "HTTP/1.1") ++ [CR])
    ++ LF :: (concat (header_text <$> hdrs)
              ++ ((chars "Content-Length" ++ COLON :: SP :: clen) ++ [CR])
                 ++ LF :: ([CR] ++ LF :: tail)).
Proof.
  unfold request_head.
  repeat first [rewrite <- !app_assoc | progress cbn [app]].
  reflexivity.
Qed.

(** X25.  A well-formed request is handed to the application as it was
    written.  On a server session with no message in progress, unread bytes
    that hold a Request-Line, header lines that are neither [Host] nor
    [Content-Length], a [Content-Length] line with the length of the body,
    an empty line and the body make one step complete the message: the
    method, the path, the headers in their order and the body are those of
    the text, the scheme follows the transport, the authority is the
    literal [http], and exactly the bytes of the request are used, what
    follows them staying unread. *)
Theorem recv_request_delivers_message :
  forall (cb1 cb2 : h2_sess -> Z * h2_sess) (s : h2_sess)
         (method path : list ascii) (hdrs : list (list ascii * list ascii))
         (clen body rest : list ascii),
    is_server s = true -> strm_recving s = None -> 0 <= rdata_used s ->
    word method -> word path -> Forall plain_header hdrs ->
    Forall (fun c => is_digit c = true) clen -> clen <> [] ->
    decimal clen = Z.of_nat (length body) -> decimal clen <= 2147483647 ->
    rd_unread s = request_head method path hdrs clen ++ body ++ rest ->
    exists s1,
      h2_sess_recv_hdl_once_v1_1 cb1 cb2 s = recv_complete cb1 cb2 s1
      /\ recving_rmsg s1
         = {| msg_method := Some method;
              msg_scheme := Some (if ssl s then chars "https"
                                  else chars "http");
              msg_authority := Some (chars "http");
              msg_path := Some path; msg_status := 0;
              msg_hdrs := hdrs; msg_body := body |}
      /\ rdata_used s1
         = rdata_used s
           + Z.of_nat (length (request_head method path hdrs clen ++ body))
      /\ rd_unread s1 = rest.
Proof.
  intros cb1 cb2 s method path hdrs clen body rest Hsrv Hnone Hused Hm Hp
    Hhdrs Hds Hne Hlen Hmax Htext.
  set (s0 := set_rmsg_state false 0 0
               (set_strm_recving (Some (length (strm_list s)))
                  (h2_strm_init (to_int (req_cnt s * 2 + 1)) s).1)).
  assert (Hb : recv_begin s = inr s0).
  { unfold recv_begin. by rewrite Hnone, Hsrv. }
  assert (Hp0 : parsing s s0 h2_msg_empty (rdata_used s) 0 0).
  { unfold parsing. simpl. repeat split; try done.
    - exists (length (strm_list s)). split; [done|].
      rewrite length_app. simpl. lia.
    - unfold recving_rmsg. simpl. rewrite lookup_app_r by done.
      by rewrite Nat.sub_diag. }
  assert (Hun0 : rd_unread s0 = rd_unread s) by done.
  assert (Hbound : Z.of_nat (length (rd_unread s))
                   <= rdata_size s - rdata_used s).
  { apply rd_unread_bound; [done|]. rewrite Htext.
    unfold request_head. destruct Hm as [Hm _]. by destruct method. }
  unfold h2_sess_recv_hdl_once_v1_1. rewrite Hb.
  change (rmsg_header_done s0) with false. cbv iota.
  rewrite Hun0, Htext, request_head_lines.
  (* the Request-Line *)
  rewrite split_lines_first.
  2:{ apply Forall_app. split; [|by repeat constructor].
      apply Forall_app. split; [by apply word_no_lf|].
      constructor; [done|]. apply Forall_app.
      split; [by apply word_no_lf|]. by repeat constructor. }
  change (reverse [] ++ ?x) with x. cbn [recv_hdr_lines].
  match goal with
  | |- context [recv_hdl_line s0 ?raw ?after] =>
      destruct (first_line_parsing s s0 h2_msg_empty (rdata_used s) 0
                  method path after Hsrv Hm Hp Hp0) as (s1 & Hs1 & Hp1)
  end.
  cbv zeta in Hs1, Hp1. rewrite Hs1.
  (* the header lines *)
  match goal with
  | |- context [split_lines [] (concat _ ++ ?tail)] =>
      destruct (hdr_lines_parsing s hdrs s1 _ _ 1 0 tail Hhdrs ltac:(lia)
                  Hp1) as (s2 & Hs2 & Hp2)
  end.
  rewrite Hs2.
  (* the Content-Length line *)
  rewrite split_lines_first.
  2:{ apply Forall_app. split; [|by repeat constructor].
      apply Forall_app. split; [by repeat constructor|].
      constructor; [done|]. constructor; [done|].
      eapply Forall_impl; [exact Hds|]. intros c Hc.
      unfold is_digit, is_lf in *.
      destruct (Z.eqb_spec (code c) 10); [|done]. lia. }
  change (reverse [] ++ ?x) with x. cbn [recv_hdr_lines].
  assert (Hl2 : 1 + Z.of_nat (length hdrs) <> 0) by lia.
  match goal with
  | |- context [recv_hdl_line s2 ?raw ?after] =>
      destruct (clen_line_parsing s s2 _ _ (1 + Z.of_nat (length hdrs)) 0
                  clen after Hds Hne Hmax Hl2 Hp2) as (s3 & Hs3 & Hp3)
  end.
  cbv zeta in Hs3, Hp3. rewrite Hs3.
  (* the empty line *)
  rewrite (split_lines_first [] [CR]) by (by repeat constructor).
  change (reverse [] ++ ?x) with x. cbn [recv_hdr_lines].
  assert (Hend : forall after,
            recv_hdl_line s3 [CR] after
            = LineEnd (set_rmsg_header_done true
                         (set_rdata_used (rdata_used s3 + 1 + 1) s3))).
  { intros after. reflexivity. }
  rewrite Hend.
  set (s4 := set_rmsg_header_done true
               (set_rdata_used (rdata_used s3 + 1 + 1) s3)).
  change (rmsg_header_done s4) with true. cbv iota.
  destruct Hp3 as (P1 & P2 & P3 & (i & Pi & Plt) & P5 & P6 & P7 & P8 & P9).
  (* the bytes used by the head *)
  assert (Hk : rdata_used s4
               = rdata_used s
                 + Z.of_nat (length (request_head method path hdrs clen))).
  { subst s4. simpl. rewrite P6. unfold request_head.
    repeat first [rewrite length_app | progress simpl]. lia. }
  assert (Hst4 : rd_static s4 = rd_static s) by (subst s4; exact P3).
  assert (Hun4 : rd_unread s4 = body ++ rest).
  { rewrite (rd_unread_advance s s4 _ Hst4 Hused Hk), Htext.
    by rewrite drop_app_length. }
  assert (Hm4 : recving_rmsg s4
                = fold_left (fun m h => h2_add_hdr_n h.1 h.2 m) hdrs
                    (h2_set_path_n path
                       (h2_set_authority_n (chars "http")
                          (h2_set_scheme
                             (if ssl s then chars "https" else chars "http")
                             (h2_set_method_n method h2_msg_empty)))))
    by (subst s4; exact P5).
  destruct (fold_add_hdr_fields hdrs
              (h2_set_path_n path
                 (h2_set_authority_n (chars "http")
                    (h2_set_scheme
                       (if ssl s then chars "https" else chars "http")
                       (h2_set_method_n method h2_msg_empty)))))
    as (F1 & F2 & F3 & F4 & F5 & F6 & F7).
  cbv zeta in F1, F2, F3, F4, F5, F6, F7. rewrite <- Hm4 in *.
  cbn [h2_set_path_n h2_set_authority_n h2_set_scheme h2_set_method_n
       h2_msg_empty msg_method msg_scheme msg_authority msg_path msg_status
       msg_body msg_hdrs app] in F1, F2, F3, F4, F5, F6, F7.
  assert (Hc4 : rmsg_content_length s4 = Z.of_nat (length body))
    by (subst s4; simpl; congruence).
  assert (Hi4 : strm_recving s4 = Some i) by (subst s4; exact Pi).
  assert (Hlt4 : (i < length (strm_list s4))%nat) by (subst s4; exact Plt).
  assert (Hsz4 : rdata_size s4 = rdata_size s)
    by (unfold rd_static in Hst4; congruence).
  clearbody s4.
  destruct (decide (body = [])) as [-> | Hbne].
  - (* no body *)
    exists s4.
    assert (Hrb : recv_body s4 = s4).
    { unfold recv_body. by rewrite Hc4. }
    rewrite Hrb, Hc4. unfold h2_body_len. rewrite F6. simpl.
    split; [done|]. split.
    { destruct (recving_rmsg s4). simpl in *. by subst. }
    split; [by rewrite app_nil_r|done].
  - (* a body *)
    set (n := Z.of_nat (length body)) in *.
    assert (Hn : 0 < n) by (subst n; destruct body; [done|simpl; lia]).
    set (s5 := set_rdata_used (rdata_used s4 + n)
                 (upd_rmsg (h2_cpy_body (rd_unread s4) n) s4)).
    assert (Hrb : recv_body s4 = s5).
    { unfold recv_body. rewrite Hc4. unfold h2_body_len. rewrite F6.
      rewrite (proj2 (Z.eqb_neq n 0)) by lia. simpl.
      rewrite (proj2 (Z.leb_le _ _)); [done|].
      rewrite Hsz4, Hk. rewrite Htext in Hbound.
      rewrite !length_app in Hbound. fold n. subst n. lia. }
    rewrite Hrb.
    destruct (recving_rmsg_upd (h2_cpy_body (rd_unread s4) n) s4 i Hi4 Hlt4)
      as (U1 & U2 & U3).
    destruct (upd_rmsg_rd (h2_cpy_body (rd_unread s4) n) s4)
      as (R1 & R2 & R3 & R4).
    assert (Htk : take (Z.to_nat n) (body ++ rest) = body).
    { subst n. rewrite Nat2Z.id. by rewrite take_app_length. }
    assert (Hm5 : recving_rmsg s5
                  = h2_cpy_body (rd_unread s4) n (recving_rmsg s4))
      by (subst s5; exact U1).
    assert (Hc5 : rmsg_content_length s5 = n).
    { subst s5. simpl. unfold upd_rmsg. rewrite Hi4. simpl. exact Hc4. }
    assert (Hb5 : msg_body (recving_rmsg s5) = body).
    { rewrite Hm5, Hun4. unfold h2_cpy_body. cbn [msg_body]. exact Htk. }
    exists s5. rewrite Hc5. unfold h2_body_len. rewrite Hb5.
    fold n. rewrite Z.eqb_refl.
    split; [done|]. split.
    { rewrite Hm5, Hun4. unfold h2_cpy_body.
      by rewrite Htk, F1, F2, F3, F4, F5, F7. }
    split.
    + change (rdata_used s5) with (rdata_used s4 + n).
      rewrite Hk, length_app. subst n. lia.
    + assert (Hst5 : rd_static s5 = rd_static s).
      { subst s5. unfold rd_static in *. simpl.
        unfold upd_rmsg. rewrite Hi4. simpl. exact Hst4. }
      assert (Hk5 : rdata_used s5
                    = rdata_used s
                      + Z.of_nat (length (request_head method path hdrs clen
                                          ++ body))).
      { change (rdata_used s5) with (rdata_used s4 + n).
        rewrite Hk, length_app. subst n. lia. }
      rewrite (rd_unread_advance s s5 _ Hst5 Hused Hk5), Htext.
      by rewrite app_assoc, drop_app_length.
Qed.

(** A server session that has just read a request with one header and a
    body of five bytes. *)
Definition echo_request : list ascii :=
  request_head (chars "POST") (chars "/echo")
    [(chars "Accept", chars "text/plain")] (chars "5") ++ chars "hello".

Definition echo_request_session : h2_sess :=
  rd_append (h2_sess_init true H2_HTTP_V1_1 false) echo_request
    (Z.of_nat (length echo_request)).

Lemma recv_request_delivers_message_witness :
  let s := echo_request_session in
  let hdrs := [(chars "Accept", chars "text/plain")] in
  exists s1,
    h2_sess_recv_hdl_once_v1_1 cb_accept cb_accept s
    = recv_complete cb_accept cb_accept s1
    /\ recving_rmsg s1
       = {| msg_method := Some (chars "POST");
            msg_scheme := Some (if ssl s then chars "https"
                                else chars "http");
            msg_authority := Some (chars "http");
            msg_path := Some (chars "/echo"); msg_status := 0;
            msg_hdrs := hdrs; msg_body := chars "hello" |}
    /\ rdata_used s1
       = rdata_used s
         + Z.of_nat (length (request_head (chars "POST") (chars "/echo")
                               hdrs (chars "5") ++ chars "hello"))
    /\ rd_unread s1 = [].
Proof.
  intros s hdrs.
  apply (recv_request_delivers_message cb_accept cb_accept s
           (chars "POST") (chars "/echo") hdrs (chars "5") (chars "hello")
           []).
  - reflexivity.
  - reflexivity.
  - vm_compute. discriminate.
  - split; [discriminate|]. repeat constructor.
  - split; [discriminate|]. repeat constructor.
  - constructor; [|constructor].
    split; [repeat constructor|]. split; [repeat constructor|].
    split; [repeat constructor|]. split; [reflexivity|].
    split; vm_compute; discriminate.
  - repeat constructor.
  - discriminate.
  - reflexivity.
  - vm_compute. discriminate.
  - vm_compute. reflexivity.
Defined.

(** *** HTTP/1.1 send order *)

(** The bytes of a stream's body that are not yet taken for sending, and
    the streams whose cursor lies within their data. *)
Definition strm_unsent (strm : h2_strm) : list ascii :=
  let rb := send_body_rb strm in
  take (Z.to_nat (data_size rb - data_used rb))
       (drop (Z.to_nat (data_used rb)) (data rb)).

Definition strm_wf (strm : h2_strm) : Prop :=
  let rb := send_body_rb strm in
  0 <= data_used rb /\ data_size rb <= Z.of_nat (length (data rb)).

Definition strm_pending (l : list h2_strm) : list ascii :=
  concat (strm_unsent <$> l).

(** All the bytes that wait in a session: the write buffer, then the
    streams in the order of the session's list. *)
Definition queued (s : h2_sess) : list ascii :=
  wb_bytes (wr_buf s) ++ strm_pending (strm_list s).

Definition strm_drained (strm : h2_strm) : Prop :=
  rb_drained (send_body_rb strm) = true.

(** On a client session the streams before [strm_sending] have all their
    data taken. *)
Definition sending_ok (s : h2_sess) : Prop :=
  is_server s = true
  \/ Forall strm_drained (take (default 0%nat (strm_sending s)) (strm_list s)).

Lemma strm_unsent_drained strm : strm_drained strm -> strm_unsent strm = [].
Proof.
  unfold strm_drained, rb_drained, strm_unsent. intros H.
  apply Z.leb_le in H.
  replace (Z.to_nat _) with 0%nat by lia. done.
Qed.

Lemma strm_pending_app l1 l2 :
  strm_pending (l1 ++ l2) = strm_pending l1 ++ strm_pending l2.
Proof. unfold strm_pending. by rewrite fmap_app, concat_app. Qed.

Lemma strm_pending_cons strm l :
  strm_pending (strm :: l) = strm_unsent strm ++ strm_pending l.
Proof. done. Qed.

Lemma strm_pending_drained l : Forall strm_drained l -> strm_pending l = [].
Proof.
  induction 1 as [|strm l H _ IH]; [done|].
  by rewrite strm_pending_cons, (strm_unsent_drained _ H), IH.
Qed.

Lemma strm_mark_sent_spec strm :
  strm_wf strm -> rb_drained (send_body_rb strm) = false ->
  strm_wf (strm_mark_sent strm) /\ strm_drained (strm_mark_sent strm)
  /\ take (Z.to_nat (rb_unsent (send_body_rb strm)).2)
          (rb_unsent (send_body_rb strm)).1 = strm_unsent strm
  /\ (rb_unsent (send_body_rb strm)).2
     <= Z.of_nat (length (rb_unsent (send_body_rb strm)).1).
Proof.
  unfold strm_wf, strm_drained, rb_drained, strm_unsent, rb_unsent.
  intros [H1 H2] Hd. apply Z.leb_gt in Hd. simpl.
  split; [lia|]. split; [by apply Z.leb_le|]. split; [done|].
  rewrite length_drop. lia.
Qed.

(** What the server walk takes goes from the streams to the caller. *)
Lemma flush_sent_transfer l s s' d n :
  l = strm_list s -> Forall strm_wf l ->
  flush_sent l s = (s', (d, n)) ->
  strm_pending (strm_list s)
  = take (Z.to_nat n) d ++ strm_pending (strm_list s')
  /\ Forall strm_wf (strm_list s')
  /\ n <= Z.of_nat (length d).
Proof.
  revert s. induction l as [|strm l IH]; intros s Hl Hwf; simpl.
  - intros [= <- <- <-]. rewrite <- Hl. done.
  - apply Forall_cons in Hwf as [Hs Hwf].
    destruct (response_set strm).
    2:{ intros [= <- <- <-]. rewrite <- Hl. simpl.
        split; [done|]. split; [by constructor|done]. }
    destruct (rb_drained (send_body_rb strm)) eqn:Hd.
    + intros H. apply IH in H as (H1 & H2 & H3); [| |done].
      2:{ simpl. by rewrite <- Hl. }
      simpl in H1. rewrite <- Hl in H1. simpl in H1.
      rewrite <- Hl, strm_pending_cons.
      by rewrite (strm_unsent_drained strm Hd).
    + intros [= <- <- <-].
      destruct (strm_mark_sent_spec strm Hs Hd) as (M1 & M2 & M3 & M4).
      unfold rb_unsent in M3, M4 |- *. simpl in M3, M4.
      simpl. rewrite <- Hl. simpl.
      rewrite !strm_pending_cons, (strm_unsent_drained _ M2).
      split; [by rewrite M3|]. split; [by constructor|done].
Qed.

(** The same for the client walk, which starts at [strm_sending]. *)
Lemma walk_sending_transfer l i s s' d n :
  l = drop i (strm_list s) -> Forall strm_drained (take i (strm_list s)) ->
  Forall strm_wf (strm_list s) ->
  walk_sending l i s = (s', (d, n)) ->
  strm_pending (strm_list s)
  = take (Z.to_nat n) d ++ strm_pending (strm_list s')
  /\ Forall strm_wf (strm_list s')
  /\ n <= Z.of_nat (length d)
  /\ Forall strm_drained
       (take (default 0%nat (strm_sending s')) (strm_list s'))
  /\ (n = 0 -> strm_pending (strm_list s') = []).
Proof.
  revert i. induction l as [|strm l IH]; intros i Hl Hdr Hwf; simpl.
  - intros [= <- <- <-]. simpl.
    rewrite <- (take_drop i (strm_list s)), <- Hl, app_nil_r.
    rewrite (strm_pending_drained _ Hdr).
    split; [done|]. split; [|split; [done|split; [by constructor|done]]].
    rewrite <- (take_drop i (strm_list s)) in Hwf.
    by rewrite <- Hl, app_nil_r in Hwf.
  - assert (Hsplit : strm_list s = take i (strm_list s) ++ strm :: l)
      by (by rewrite Hl, take_drop).
    assert (Hi : (i < length (strm_list s))%nat).
    { destruct (Nat.lt_ge_cases i (length (strm_list s))) as [?|Hge];
        [done|].
      rewrite drop_ge in Hl by done. done. }
    assert (Hs : strm_wf strm).
    { rewrite Hsplit in Hwf. apply Forall_app in Hwf as [_ Hwf].
      by apply Forall_cons in Hwf as [? _]. }
    destruct (rb_drained (send_body_rb strm)) eqn:Hd.
    + apply IH; [| |done].
      * rewrite Hsplit at 1.
        rewrite drop_app_ge by (rewrite length_take; lia).
        rewrite length_take.
        by replace (S i - i `min` length (strm_list s))%nat with 1%nat by lia.
      * rewrite Hsplit at 1.
        replace (S i) with (length (take i (strm_list s)) + 1)%nat
          by (rewrite length_take; lia).
        rewrite take_app_add'; [|done]. simpl.
        apply Forall_app. split; [done|]. by repeat constructor.
    + intros [= <- <- <-].
      destruct (strm_mark_sent_spec strm Hs Hd) as (M1 & M2 & M3 & M4).
      unfold rb_unsent in M3, M4 |- *. simpl in M3, M4.
      assert (Hins : <[i := strm_mark_sent strm]> (strm_list s)
                     = take i (strm_list s) ++ strm_mark_sent strm :: l).
      { rewrite Hsplit at 1.
        rewrite insert_app_r_alt by (rewrite length_take; lia).
        rewrite length_take.
        by replace (i - i `min` length (strm_list s))%nat with 0%nat by lia. }
      simpl. rewrite Hins.
      split.
      { rewrite Hsplit at 1.
        rewrite !strm_pending_app, !strm_pending_cons.
        rewrite (strm_pending_drained _ Hdr), (strm_unsent_drained _ M2).
        simpl. by rewrite M3. }
      split.
      { rewrite Hsplit in Hwf. apply Forall_app in Hwf as [W1 W2].
        apply Forall_cons in W2 as [_ W2].
        apply Forall_app. split; [done|]. by constructor. }
      split; [done|]. split.
      { rewrite take_app_le by (rewrite length_take; lia).
        by rewrite take_take, Nat.min_id. }
      intros Hn. unfold rb_drained in Hd. apply Z.leb_gt in Hd. lia.
Qed.

Lemma next_strm_data_transfer s s' d n :
  Forall strm_wf (strm_list s) -> sending_ok s ->
  next_strm_data s = (s', (d, n)) ->
  strm_pending (strm_list s)
  = take (Z.to_nat n) d ++ strm_pending (strm_list s')
  /\ Forall strm_wf (strm_list s')
  /\ n <= Z.of_nat (length d)
  /\ sending_ok s'
  /\ (is_server s = false -> n = 0 -> strm_pending (strm_list s') = []).
Proof.
  intros Hwf Hok H.
  pose proof (next_strm_data_frame _ _ _ _ H) as [Hf _].
  assert (Hsrv : is_server s' = is_server s).
  { unfold sess_frame, sess_kind in Hf. congruence. }
  revert H. unfold next_strm_data. destruct (is_server s) eqn:Hs.
  - intros H. apply flush_sent_transfer in H as (H1 & H2 & H3); try done.
    split; [done|]. split; [done|]. split; [done|]. split; [by left|done].
  - intros H. destruct Hok as [Hok|Hok]; [congruence|].
    assert (Hi : match strm_sending s with Some i => i | None => 0%nat end
                 = default 0%nat (strm_sending s))
      by (by destruct (strm_sending s)).
    rewrite Hi in H.
    apply walk_sending_transfer in H as (H1 & H2 & H3 & H4 & H5); try done.
    split; [done|]. split; [done|]. split; [done|]. split; [by right|done].
Qed.

Lemma wb_bytes_take wb d n :
  wb_wf wb -> mem_send_size wb = 0 -> 0 <= n <= Z.of_nat (length d) ->
  wb_bytes (wb_merge d n wb) = wb_bytes wb ++ take (Z.to_nat n) d
  /\ wb_wf (wb_merge d n wb)
  /\ wb_bytes (wb_borrow d n wb) = wb_bytes wb ++ take (Z.to_nat n) d
  /\ wb_wf (wb_borrow d n wb).
Proof.
  intros [Hm Hs] Hz Hn. unfold wb_bytes, wb_wf. simpl. rewrite Hz. simpl.
  rewrite !app_nil_r.
  split; [|split; [|split]].
  - apply take_ge. rewrite length_app, !length_take. lia.
  - rewrite length_app, !length_take. lia.
  - done.
  - lia.
Qed.

(** Filling the write buffer moves bytes from the streams to the buffer
    and keeps their order. *)
Lemma fill_v1_1_transfer B c fuel s :
  wb_wf (wr_buf s) -> Forall strm_wf (strm_list s) -> sending_ok s ->
  queued (fill_v1_1 B c fuel s) = queued s
  /\ wb_wf (wr_buf (fill_v1_1 B c fuel s))
  /\ Forall strm_wf (strm_list (fill_v1_1 B c fuel s))
  /\ sending_ok (fill_v1_1 B c fuel s).
Proof.
  revert s. induction fuel as [|fuel IH]; intros s Hwb Hwf Hok; simpl.
  - by destruct (_ && _).
  - destruct ((mem_send_size (wr_buf s) <=? 0) && _) eqn:Hc; [|done].
    apply andb_prop in Hc as [Hc _]. apply Z.leb_le in Hc.
    assert (Hz : mem_send_size (wr_buf s) = 0) by (destruct Hwb; lia).
    destruct (next_strm_data s) as [s1 [d n]] eqn:Hn.
    pose proof (next_strm_data_frame _ _ _ _ Hn) as [Hf Hn0].
    assert (Hb : wr_buf s1 = wr_buf s)
      by (unfold sess_frame in Hf; congruence).
    apply next_strm_data_transfer in Hn as (T1 & T2 & T3 & T4 & _); try done.
    destruct (wb_bytes_take (wr_buf s1) d n) as (W1 & W2 & W3 & W4);
      [by rewrite Hb|by rewrite Hb|lia|].
    destruct (Z.eqb_spec n 0) as [->|Hnz].
    { split; [|by rewrite Hb]. unfold queued. by rewrite Hb, T1. }
    destruct (_ <=? _).
    + destruct (IH (set_wr_buf (wb_merge d n (wr_buf s1)) s1))
        as (I1 & I2 & I3 & I4); try done.
      split; [|done]. rewrite I1. unfold queued.
      change (wr_buf (set_wr_buf ?x _)) with x.
      change (strm_list (set_wr_buf _ ?x)) with (strm_list x).
      by rewrite W1, Hb, T1, app_assoc.
    + split; [|done]. unfold queued.
      change (wr_buf (set_wr_buf ?x _)) with x.
      change (strm_list (set_wr_buf _ ?x)) with (strm_list x).
      by rewrite W3, Hb, T1, app_assoc.
Qed.

Lemma send_bufs_sending v e s w r s' w' :
  send_bufs v e s w = (r, s', w') ->
  strm_sending s' = strm_sending s /\ is_server s' = is_server s.
Proof.
  unfold send_bufs, send_merge_data, send_mem_send_data.
  repeat match goal with
         | |- context [io_write ?x] => destruct (io_write x)
         | |- context [try_write ?a ?b ?c ?d ?o] =>
             destruct (try_write a b c d o)
         | |- context [if ?b then _ else _] => destruct b
         end;
    intros [= <- <- <-]; pending_cases; done.
Qed.

Lemma send_once_v1_1_bytes B c s w r s' w' :
  wb_wf (wr_buf s) -> Forall strm_wf (strm_list s) -> sending_ok s ->
  h2_sess_send_once_v1_1 B c s w = (r, s', w') ->
  exists k,
    queued s' = drop k (queued s)
    /\ (k <= length (queued s))%nat
    /\ (0 <= r -> Z.of_nat k <= r)
    /\ (ssl s = true -> 0 <= r -> Z.of_nat k = r)
    /\ wb_wf (wr_buf s') /\ Forall strm_wf (strm_list s') /\ sending_ok s'.
Proof.
  intros Hwb Hwf Hok. unfold h2_sess_send_once_v1_1.
  destruct (fill_v1_1_transfer B c (S (length (strm_list s))) s Hwb Hwf Hok)
    as (F1 & F2 & F3 & F4).
  destruct (fill_v1_1_frame B c (S (length (strm_list s))) s) as (_ & K & _).
  { destruct Hwb. split; lia. }
  set (sf := fill_v1_1 B c (S (length (strm_list s))) s) in *.
  intros H.
  pose proof (send_bufs_backlog _ _ _ _ _ _ _ H) as (Hl & _ & _).
  pose proof (send_bufs_sending _ _ _ _ _ _ _ H) as (Hp & Hsrv).
  apply send_bufs_bytes in H as (Hwb' & k & B1 & B2 & B3 & B4); [|done].
  exists k. unfold queued in *. rewrite Hl, B1.
  split. { rewrite <- F1. by rewrite (drop_app_le _ _ _ B2). }
  split. { rewrite <- F1, length_app. lia. }
  split; [done|].
  split. { intros Hs. apply B4. unfold sess_kind in K. congruence. }
  split; [done|]. split; [done|].
  unfold sending_ok in *. by rewrite Hsrv, Hp, Hl.
Qed.

Lemma fill_v1_1_merge_mono B c fuel s :
  merge_size (wr_buf s) <= merge_size (wr_buf (fill_v1_1 B c fuel s)).
Proof.
  revert s. induction fuel as [|fuel IH]; intros s; simpl.
  - by destruct (_ && _).
  - destruct (_ && _); [|done].
    destruct (next_strm_data s) as [s1 [d n]] eqn:Hn.
    apply next_strm_data_spec in Hn as [Hn Hwb].
    destruct (n =? 0); [by rewrite Hwb|].
    destruct (_ <=? _).
    + etransitivity; [|apply IH]. simpl. rewrite Hwb. lia.
    + simpl. by rewrite Hwb.
Qed.

(** On a client, a fill that leaves the write buffer empty has found no
    stream with data. *)
Lemma fill_v1_1_idle B c fuel s :
  0 < B -> wb_wf (wr_buf s) -> Forall strm_wf (strm_list s) ->
  sending_ok s -> is_server s = false ->
  merge_size (wr_buf (fill_v1_1 B c (S fuel) s)) = 0 ->
  mem_send_size (wr_buf (fill_v1_1 B c (S fuel) s)) = 0 ->
  strm_pending (strm_list (fill_v1_1 B c (S fuel) s)) = [].
Proof.
  intros HB [Hwm _] Hwf Hok Hcli. cbn [fill_v1_1].
  destruct ((mem_send_size (wr_buf s) <=? 0) && _) eqn:Hc.
  2:{ intros Hm Hs. rewrite Hm, Hs in Hc. simpl in Hc.
      apply Z.ltb_ge in Hc. lia. }
  destruct (next_strm_data s) as [s1 [d n]] eqn:Hn.
  pose proof (next_strm_data_spec _ _ _ _ Hn) as [Hn0 Hb].
  apply next_strm_data_transfer in Hn as (T1 & T2 & T3 & T4 & T5); try done.
  destruct (Z.eqb_spec n 0) as [->|Hnz]; [intros _ _; by apply T5|].
  destruct (merge_size (wr_buf s1) + n <=? to_int c).
  - intros Hm _. exfalso.
    pose proof (fill_v1_1_merge_mono B c fuel
                  (set_wr_buf (wb_merge d n (wr_buf s1)) s1)) as Hmono.
    rewrite Hm in Hmono. simpl in Hmono. rewrite Hb in Hmono. lia.
  - simpl. lia.
Qed.

Lemma wb_bytes_nil wb :
  wb_wf wb -> wb_bytes wb = [] ->
  merge_size wb = 0 /\ mem_send_size wb = 0.
Proof.
  intros [Hm Hs] Hb. unfold wb_bytes in Hb.
  apply app_eq_nil in Hb as [H1 H2].
  apply (f_equal length) in H1, H2. rewrite length_take in H1, H2.
  simpl in H1, H2. lia.
Qed.

Lemma send_once_v1_1_idle B c s w s' w' :
  0 < B -> wb_wf (wr_buf s) -> Forall strm_wf (strm_list s) ->
  sending_ok s -> is_server s = false ->
  h2_sess_send_once_v1_1 B c s w = (0, s', w') ->
  send_pending s' = false ->
  queued s' = [].
Proof.
  intros HB Hwb Hwf Hok Hcli. unfold h2_sess_send_once_v1_1.
  destruct (fill_v1_1_transfer B c (S (length (strm_list s))) s Hwb Hwf Hok)
    as (F1 & F2 & F3 & F4).
  pose proof (fill_v1_1_idle B c (length (strm_list s)) s HB Hwb Hwf Hok Hcli)
    as Hidle.
  set (sf := fill_v1_1 B c (S (length (strm_list s))) s) in *.
  intros H Hp.
  pose proof (send_bufs_backlog _ _ _ _ _ _ _ H) as (Hl & _ & _).
  pose proof (send_bufs_spec _ _ _ _ _ _ _ (proj1 (proj1 F2)) H)
    as [_ Hip].
  apply send_bufs_bytes in H as (Hwb' & k & B1 & B2 & B3 & B4); [|done].
  destruct (Hip ltac:(lia)) as [[Hm Hs]|Hpend]; [|congruence].
  assert (k = 0%nat) as -> by (specialize (B3 ltac:(lia)); lia).
  rewrite drop_0 in B1.
  assert (Hnil : wb_bytes (wr_buf s') = [])
    by (unfold wb_bytes; by rewrite Hm, Hs).
  rewrite B1 in Hnil. apply wb_bytes_nil in Hnil as [Hm2 Hs2]; [|done].
  unfold queued. rewrite B1, Hl, (Hidle Hm2 Hs2).
  rewrite app_nil_r. unfold wb_bytes. by rewrite Hm2, Hs2.
Qed.

(** *** What the transport took *)

(** The bytes that a [send] on a socket took: its result as an [int],
    when that is positive. *)
Definition tcp_sent (o : wr_outcome) : Z := Z.max 0 (to_int (wr_ret o)).

Definition tcp_sent_all (l : list wr_outcome) : Z :=
  foldr (fun o n => tcp_sent o + n) 0 l.

Definition wb_size (wb : h2_wr_buf) : Z := merge_size wb + mem_send_size wb.

(** A part of the send path that used the answers [taken] of the
    transport: the write buffer shrinks by no more than is taken off
    [send_data_remain], and with TLS by as much; on a socket what is taken
    off [send_data_remain] is what the answers report, and with TLS
    nothing is taken off when no answer is positive. *)
Definition sent_account (s s' : h2_sess) (w w' : io_world) : Prop :=
  ssl s' = ssl s
  /\ exists taken,
       wr_results w = taken ++ wr_results w'
       /\ wb_size (wr_buf s) - wb_size (wr_buf s')
          <= send_data_remain s - send_data_remain s'
       /\ (ssl s = true ->
           wb_size (wr_buf s) - wb_size (wr_buf s')
           = send_data_remain s - send_data_remain s')
       /\ (ssl s = false ->
           send_data_remain s - send_data_remain s' = tcp_sent_all taken)
       /\ (ssl s = true -> Forall (fun o => wr_ret o <= 0) taken ->
           send_data_remain s - send_data_remain s' = 0).

Lemma tcp_sent_all_app l1 l2 :
  tcp_sent_all (l1 ++ l2) = tcp_sent_all l1 + tcp_sent_all l2.
Proof.
  unfold tcp_sent_all. induction l1 as [|o l1 IH]; simpl; [done|].
  rewrite IH. lia.
Qed.

Lemma sent_account_same s s' w :
  ssl s' = ssl s -> wr_buf s' = wr_buf s ->
  send_data_remain s' = send_data_remain s ->
  sent_account s s' w w.
Proof.
  intros H1 H2 H3. split; [done|]. exists []. rewrite H2, H3.
  split; [done|]. split; [lia|]. split; [lia|].
  split; [intros _; simpl; lia|]. intros _ _. lia.
Qed.

Lemma sent_account_trans s1 s2 s3 w1 w2 w3 :
  sent_account s1 s2 w1 w2 -> sent_account s2 s3 w2 w3 ->
  sent_account s1 s3 w1 w3.
Proof.
  intros (A1 & t1 & A2 & A3 & A4 & A5 & A6)
         (B1 & t2 & B2 & B3 & B4 & B5 & B6).
  rewrite A1 in B4, B5, B6.
  split; [congruence|]. exists (t1 ++ t2).
  split; [by rewrite A2, B2, app_assoc|]. split; [lia|].
  split; [intros Hs; specialize (A4 Hs); specialize (B4 Hs); lia|].
  split.
  - intros Hs. specialize (A5 Hs). specialize (B5 Hs).
    rewrite tcp_sent_all_app. lia.
  - intros Hs Hall. apply Forall_app in Hall as [F1 F2].
    specialize (A6 Hs F1). specialize (B6 Hs F2). lia.
Qed.

Lemma io_write_cases w :
  (wr_results w = [] /\ io_write w = (would_block, w))
  \/ (exists o l, wr_results w = o :: l /\ io_write w = (o, set_wr_results l w)).
Proof.
  unfold io_write. destruct (wr_results w) as [|o l]; [by left|].
  right. by exists o, l.
Qed.

Lemma try_write_would_block tls intr f n :
  try_write tls intr f n would_block = WrBlocked.
Proof. by destruct tls. Qed.

Lemma try_write_account tls intr f n o :
  match try_write tls intr f n o with
  | WrSent sent =>
      (tls = true -> sent = n /\ 0 < wr_ret o)
      /\ (tls = false -> sent = tcp_sent o /\ 0 < sent)
  | _ => (tls = true -> wr_ret o <= 0) /\ (tls = false -> tcp_sent o = 0)
  end.
Proof.
  unfold try_write, tcp_sent. destruct tls.
  - destruct (Z.ltb_spec 0 (wr_ret o)); [by split|].
    destruct (wr_ssl_error o); by split.
  - destruct (Z.leb_spec (to_int (wr_ret o)) 0).
    + destruct (wr_errno o); try destruct intr; split; try done; lia.
    + split; [done|]. intros _. lia.
Qed.

(** One write and what the step does with its answer: [shrink] tells how
    the write buffer of the session that results relates to the one
    written from, whose unsent size at the place written is [n]. *)
Lemma write_account s s' w o l :
  wr_results w = o :: l -> ssl s' = ssl s ->
  match try_write (ssl s) true 0 1 o with
  | WrSent _ =>
      exists sent n,
        0 < sent
        /\ (ssl s = true -> sent = n /\ 0 < wr_ret o)
        /\ (ssl s = false -> sent = tcp_sent o)
        /\ send_data_remain s' = send_data_remain s - sent
        /\ wb_size (wr_buf s) - wb_size (wr_buf s') = Z.min sent n
  | _ =>
      send_data_remain s' = send_data_remain s
      /\ wb_size (wr_buf s') = wb_size (wr_buf s)
  end ->
  sent_account s s' w (set_wr_results l w).
Proof.
  intros Hw Hssl H. split; [done|]. exists [o]. split; [by rewrite Hw|].
  pose proof (try_write_account (ssl s) true 0 1 o) as Ht.
  destruct (try_write (ssl s) true 0 1 o) as [x| |r why].
  - destruct H as (sent & n & Hp & T1 & T2 & Hr & Hb). rewrite Hr, Hb.
    split; [lia|]. split; [intros Hs; destruct (T1 Hs); lia|].
    split.
    + intros Hs. rewrite (T2 Hs). unfold tcp_sent_all. simpl. lia.
    + intros Hs Hall. apply Forall_inv in Hall. destruct (T1 Hs). lia.
  - destruct H as [Hr Hb]. destruct Ht as [T1 T2]. rewrite Hr, Hb.
    split; [lia|]. split; [lia|]. split.
    + intros Hs. unfold tcp_sent_all. simpl. rewrite (T2 Hs). lia.
    + intros _ _. lia.
  - destruct H as [Hr Hb]. destruct Ht as [T1 T2]. rewrite Hr, Hb.
    split; [lia|]. split; [lia|]. split.
    + intros Hs. unfold tcp_sent_all. simpl. rewrite (T2 Hs). lia.
    + intros _ _. lia.
Qed.

(** Whether a write sends does not depend on what it is asked to send, on
    the retried errors or on the value of a failure. *)
Lemma try_write_kind tls intr f n o :
  match try_write tls intr f n o, try_write tls true 0 1 o with
  | WrSent _, WrSent _ => True
  | WrSent _, _ | _, WrSent _ => False
  | _, _ => True
  end.
Proof.
  unfold try_write. destruct tls.
  - destruct (0 <? wr_ret o); [done|]. by destruct (wr_ssl_error o).
  - destruct (to_int (wr_ret o) <=? 0); [|done].
    destruct (wr_errno o); try destruct intr; done.
Qed.

Lemma send_merge_data_account s w :
  wb_sizes_ok s ->
  match send_merge_data true s w with
  | Return (_, s', w') | Next (_, s', w') => sent_account s s' w w'
  end.
Proof.
  intros [Hm Hs]. unfold send_merge_data.
  destruct (Z.ltb_spec 0 (merge_size (wr_buf s))) as [Hpos|Hnp];
    [|by apply sent_account_same].
  destruct (io_write_cases w) as [[Hw ->]|(o & l & Hw & ->)].
  { rewrite try_write_would_block.
    apply sent_account_same; unfold h2_sess_mark_send_pending;
      by destruct (send_pending s). }
  pose proof (try_write_account (ssl s) true (-3) (merge_size (wr_buf s)) o)
    as Ht.
  pose proof (try_write_kind (ssl s) true (-3) (merge_size (wr_buf s)) o)
    as Hk.
  destruct (try_write (ssl s) true (-3) (merge_size (wr_buf s)) o)
    as [sent| |r why].
  - destruct Ht as [T1 T2].
    assert (Hp : 0 < sent).
    { destruct (ssl s); [destruct T1; [done|lia]|by destruct T2]. }
    destruct (Z.ltb_spec sent (merge_size (wr_buf s)));
      (apply (write_account _ _ _ o l); [done|pending_cases; done|]);
      (destruct (try_write (ssl s) true 0 1 o); [|done|done]);
      exists sent, (merge_size (wr_buf s));
      (split; [done|]); (split; [done|]);
      (split; [intros Hs'; by destruct (T2 Hs')|]);
      unfold wb_size; pending_cases; split; lia.
  - apply (write_account _ _ _ o l); [done|pending_cases; done|].
    destruct (try_write (ssl s) true 0 1 o); [done| |];
      by pending_cases.
  - apply (write_account _ _ _ o l); [done|done|].
    destruct (try_write (ssl s) true 0 1 o); [done| |]; done.
Qed.

Lemma send_mem_send_data_account t s w :
  wb_sizes_ok s ->
  match send_mem_send_data true t s w with
  | Return (_, s', w') | Next (_, s', w') => sent_account s s' w w'
  end.
Proof.
  intros [Hm Hs]. unfold send_mem_send_data.
  destruct (Z.eqb_spec (mem_send_size (wr_buf s)) 0) as [Hz|Hnz];
    cbn [negb]; [by apply sent_account_same|].
  destruct (io_write_cases w) as [[Hw ->]|(o & l & Hw & ->)].
  { rewrite try_write_would_block.
    apply sent_account_same; unfold h2_sess_mark_send_pending;
      by destruct (send_pending s). }
  pose proof (try_write_account (ssl s) false (-5)
                (mem_send_size (wr_buf s)) o) as Ht.
  pose proof (try_write_kind (ssl s) false (-5)
                (mem_send_size (wr_buf s)) o) as Hk.
  destruct (try_write (ssl s) false (-5) (mem_send_size (wr_buf s)) o)
    as [sent| |r why].
  - destruct Ht as [T1 T2].
    assert (Hp : 0 < sent).
    { destruct (ssl s); [destruct T1; [done|lia]|by destruct T2]. }
    destruct (Z.ltb_spec sent (mem_send_size (wr_buf s)));
      (apply (write_account _ _ _ o l); [done|pending_cases; done|]);
      (destruct (try_write (ssl s) true 0 1 o); [|done|done]);
      exists sent, (mem_send_size (wr_buf s));
      (split; [done|]); (split; [done|]);
      (split; [intros Hs'; by destruct (T2 Hs')|]);
      unfold wb_size; pending_cases; split; lia.
  - apply (write_account _ _ _ o l); [done|pending_cases; done|].
    destruct (try_write (ssl s) true 0 1 o); [done| |];
      by pending_cases.
  - apply (write_account _ _ _ o l); [done|done|].
    destruct (try_write (ssl s) true 0 1 o); [done| |]; done.
Qed.

Lemma send_bufs_account e s w r s' w' :
  wb_sizes_ok s ->
  send_bufs true e s w = (r, s', w') -> sent_account s s' w w'.
Proof.
  intros Hok. unfold send_bufs.
  pose proof (send_merge_data_account s w Hok) as H1.
  pose proof (send_merge_data_outcome true s w Hok) as O1.
  destruct (send_merge_data true s w) as [[[r1 s1] w1]|[[t1 s1] w1]].
  { by intros [= -> -> ->]. }
  destruct O1 as (Hok1 & _).
  pose proof (send_mem_send_data_account t1 s1 w1 Hok1) as H2.
  destruct (send_mem_send_data true t1 s1 w1)
    as [[[r2 s2] w2]|[[t2 s2] w2]].
  { intros [= -> -> ->]. by apply (sent_account_trans _ s1 _ _ w1). }
  assert (H3 : forall x, sent_account s2 x w2 w2 -> sent_account s x w w2).
  { intros x Hx. apply (sent_account_trans _ s2 _ _ w2); [|done].
    by apply (sent_account_trans _ s1 _ _ w1). }
  destruct (e && negb (ng_want_read w2)); intros [= <- <- <-]; apply H3;
    apply sent_account_same; destruct (t2 =? 0);
    unfold h2_sess_clear_send_pending; try destruct (send_pending s2); done.
Qed.

Lemma flush_sent_remain l s s' d n :
  flush_sent l s = (s', (d, n)) -> send_data_remain s' = send_data_remain s.
Proof.
  revert s. induction l as [|strm l IH]; intros s; simpl.
  - by intros [= <- <- <-].
  - destruct (response_set strm); [|by intros [= <- <- <-]].
    destruct (rb_drained _).
    + intros H. by apply IH in H.
    + by intros [= <- <- <-].
Qed.

Lemma walk_sending_remain l i s s' d n :
  walk_sending l i s = (s', (d, n)) ->
  send_data_remain s' = send_data_remain s.
Proof.
  revert i. induction l as [|strm l IH]; intros i; simpl.
  - by intros [= <- <- <-].
  - destruct (rb_drained _); [apply IH|by intros [= <- <- <-]].
Qed.

Lemma fill_v1_1_remain B c fuel s :
  send_data_remain (fill_v1_1 B c fuel s) = send_data_remain s.
Proof.
  revert s. induction fuel as [|fuel IH]; intros s; simpl.
  - by destruct (_ && _).
  - destruct (_ && _); [|done].
    destruct (next_strm_data s) as [s1 [d n]] eqn:Hn.
    assert (Hr : send_data_remain s1 = send_data_remain s).
    { revert Hn. unfold next_strm_data. destruct (is_server s).
      - apply flush_sent_remain.
      - apply walk_sending_remain. }
    destruct (n =? 0); [done|].
    destruct (_ <=? _); [by rewrite IH|done].
Qed.

Lemma queued_length s :
  wb_wf (wr_buf s) ->
  Z.of_nat (length (queued s))
  = wb_size (wr_buf s) + Z.of_nat (length (strm_pending (strm_list s))).
Proof.
  intros Hwf. unfold queued, wb_size.
  rewrite length_app, (wb_bytes_length _ Hwf). destruct Hwf. lia.
Qed.

(** What leaves the queue in a call, [k] bytes, set against what the
    transport took, which the session takes off [send_data_remain]. *)
Definition sent_bound (k : nat) (s s' : h2_sess) (w w' : io_world) : Prop :=
  exists taken,
    wr_results w = taken ++ wr_results w'
    /\ Z.of_nat k <= send_data_remain s - send_data_remain s'
    /\ (ssl s = true -> Z.of_nat k = send_data_remain s - send_data_remain s')
    /\ (ssl s = false ->
        send_data_remain s - send_data_remain s' = tcp_sent_all taken)
    /\ (ssl s = true -> Forall (fun o => wr_ret o <= 0) taken ->
        send_data_remain s - send_data_remain s' = 0).

Lemma send_once_v1_1_account B c s w r s' w' :
  wb_wf (wr_buf s) -> Forall strm_wf (strm_list s) -> sending_ok s ->
  h2_sess_send_once_v1_1 B c s w = (r, s', w') ->
  ssl s' = ssl s
  /\ forall k, queued s' = drop k (queued s) ->
               (k <= length (queued s))%nat ->
               sent_bound k s s' w w'.
Proof.
  intros Hwb Hwf Hok H.
  pose proof (send_once_v1_1_bytes B c s w r s' w' Hwb Hwf Hok H)
    as (k0 & _ & _ & _ & _ & Hwb' & _).
  revert H. unfold h2_sess_send_once_v1_1.
  destruct (fill_v1_1_transfer B c (S (length (strm_list s))) s Hwb Hwf Hok)
    as (F1 & F2 & F3 & F4).
  destruct (fill_v1_1_frame B c (S (length (strm_list s))) s) as (K0 & K & _).
  { destruct Hwb. split; lia. }
  pose proof (fill_v1_1_remain B c (S (length (strm_list s))) s) as Hrem.
  set (sf := fill_v1_1 B c (S (length (strm_list s))) s) in *.
  intros H.
  pose proof (send_bufs_backlog _ _ _ _ _ _ _ H) as (Hl & _ & _).
  apply send_bufs_account in H as (A1 & taken & A2 & A3 & A4 & A5 & A6);
    [|done].
  assert (Hssl : ssl sf = ssl s) by (unfold sess_kind in K; congruence).
  split; [congruence|].
  intros k Hq Hk.
  assert (Hlen : Z.of_nat k = wb_size (wr_buf sf) - wb_size (wr_buf s')).
  { apply (f_equal length) in Hq. rewrite length_drop in Hq.
    pose proof (queued_length s' Hwb') as Q1.
    pose proof (queued_length sf F2) as Q2.
    rewrite F1 in Q2. rewrite Hl in Q1. lia. }
  rewrite Hssl, Hrem in *.
  exists taken. rewrite Hlen. done.
Qed.

(** The loop of [h2_sess_send] on an HTTP/1.1 session. *)
Lemma send_loop_v1_1_bytes B c E f s w r s' w' :
  0 < B -> wb_wf (wr_buf s) -> Forall strm_wf (strm_list s) ->
  sending_ok s ->
  send_loop B c E f false s w = (r, s', w') ->
  (exists k, queued s' = drop k (queued s) /\ (k <= length (queued s))%nat
             /\ sent_bound k s s' w w')
  /\ ssl s' = ssl s
  /\ wb_wf (wr_buf s') /\ Forall strm_wf (strm_list s') /\ sending_ok s'
  /\ (is_server s = false -> r = 0 -> send_pending s' = false ->
      queued s' = []).
Proof.
  intros HB. revert s w. induction f as [|f IH]; intros s w Hwb Hwf Hok;
    simpl;
    destruct (h2_sess_send_once_v1_1 B c s w) as [[r1 s1] w1] eqn:Hs;
    pose proof Hs as Hs2; pose proof Hs as Hs3;
    apply send_once_v1_1_bytes in Hs
      as (k & H1 & H2 & H3 & H4 & H5 & H6 & H7); try done;
    apply send_once_v1_1_account in Hs3 as (Hssl1 & Hacc); try done;
    specialize (Hacc k H1 H2).
  - destruct (0 <? r1); intros [= <- <- <-];
      (split; [by exists k|]; split; [done|]; split; [done|];
       split; [done|]; split; [done|]);
      intros Hcli -> Hp; by apply (send_once_v1_1_idle B c s w s1 w1).
  - destruct (0 <? r1).
    + intros Hl.
      assert (Hsrv : is_server s1 = is_server s).
      { pose proof (send_once_outcome B c E false s w r1 s1 w1) as Ho.
        unfold send_once in Ho. destruct Ho as (_ & Hk & _); [|done|].
        - destruct Hwb. split; lia.
        - unfold sess_kind in Hk. congruence. }
      apply IH in Hl as ((k2 & I1 & I2 & I7) & I8 & I3 & I4 & I5 & I6);
        try done.
      split.
      { exists (k + k2)%nat. rewrite I1, H1, drop_drop.
        split; [done|]. rewrite H1, length_drop in I2. split; [lia|].
        destruct Hacc as (t1 & A1 & A2 & A3 & A4 & A5).
        destruct I7 as (t2 & B1 & B2 & B3 & B4 & B5).
        rewrite Hssl1 in B3, B4, B5.
        exists (t1 ++ t2). split; [by rewrite A1, B1, app_assoc|].
        split; [lia|].
        split; [intros Hx; specialize (A3 Hx); specialize (B3 Hx); lia|].
        split.
        - intros Hx. specialize (A4 Hx). specialize (B4 Hx).
          rewrite tcp_sent_all_app. lia.
        - intros Hx Hall. apply Forall_app in Hall as [G1 G2].
          specialize (A5 Hx G1). specialize (B5 Hx G2). lia. }
      split; [congruence|].
      split; [done|]. split; [done|]. split; [done|].
      rewrite Hsrv in I6. done.
    + intros [= <- <- <-].
      split; [by exists k|]. split; [done|]. split; [done|].
      split; [done|]. split; [done|].
      intros Hcli -> Hp. by apply (send_once_v1_1_idle B c s w s1 w1).
Qed.

(** X26.  [h2_sess_send] on an HTTP/1.1 session keeps what waits to be
    sent in order and drops from it no more than the transport took.  What
    waits is the write buffer followed by the unsent data of the streams,
    in the order of the session's list; what waits when the function
    returns is what waited before, less a prefix, whether data is copied to
    the merge area or borrowed from a stream, and whether or not the server
    frees the streams it has sent.  The prefix is tied to the answers that
    the transport gave to the writes of the call: on a socket it is no
    longer than the sum of their positive results, and with TLS it is empty
    when no result is positive.  It is also tied to the count that the
    call takes off [send_data_remain], as long as that field is within the
    range of an [int] before and after: with TLS the prefix has exactly
    that length, and on a socket the count is the sum of the positive
    results.  On a client, a result 0 with [send_pending] clear means that
    nothing waits any more. *)
Theorem h2_sess_send_v1_1_keeps_byte_order :
  forall (H2_WR_BUF_SIZE sizeof_merge_data : Z) (EPOLL_MODE : bool)
         (s : h2_sess) (w : io_world),
    0 < H2_WR_BUF_SIZE -> is_v2 s = false ->
    wb_wf (wr_buf s) -> Forall strm_wf (strm_list s) -> sending_ok s ->
    let out := h2_sess_send H2_WR_BUF_SIZE sizeof_merge_data EPOLL_MODE s w in
    let sent := send_data_remain s - send_data_remain out.1.2 in
    let in_int := fun z => -2147483648 <= z < 2147483648 in
    (exists k taken,
       queued out.1.2 = drop k (queued s)
       /\ (k <= length (queued s))%nat
       /\ wr_results w = taken ++ wr_results out.2
       /\ (ssl s = false -> Z.of_nat k <= tcp_sent_all taken)
       /\ (ssl s = true -> Forall (fun o => wr_ret o <= 0) taken ->
           k = 0%nat)
       /\ (in_int (send_data_remain s) ->
           in_int (send_data_remain out.1.2) ->
           (ssl s = true -> Z.of_nat k = sent)
           /\ (ssl s = false -> sent = tcp_sent_all taken)))
    /\ wb_wf (wr_buf out.1.2) /\ Forall strm_wf (strm_list out.1.2)
    /\ sending_ok out.1.2
    /\ (is_server s = false -> out.1.1 = 0 -> send_pending out.1.2 = false ->
        queued out.1.2 = []).
Proof.
  intros B c E s w HB Hv Hwb Hwf Hok out sent in_int. subst sent out.
  unfold h2_sess_send. rewrite Hv.
  destruct (send_loop B c E (send_backlog s w) false s w)
    as [[r s'] w'] eqn:Hl.
  apply send_loop_v1_1_bytes in Hl
    as ((k & L1 & L2 & taken & L3 & L4 & L5 & L6 & L7) & _ & L8); try done.
  split; [|exact L8].
  exists k, taken. cbn [fst snd].
  split; [done|]. split; [done|]. split; [done|].
  split; [intros Hs; specialize (L6 Hs); lia|].
  split; [intros Hs Hall; specialize (L5 Hs); specialize (L7 Hs Hall); lia|].
  intros _ _. done.
Qed.

(** A client session with two requests to send, the second too large to
    join the first in the merge area. *)
Definition client_two_requests : h2_sess :=
  set_strm_list
    [{| stream_id := 1; rmsg := h2_msg_empty; response_set := false;
        send_body_rb := {| data := chars "hello"; data_size := 5;
                           data_used := 0 |} |};
     {| stream_id := 3; rmsg := h2_msg_empty; response_set := false;
        send_body_rb := {| data := chars " world"; data_size := 6;
                           data_used := 0 |} |}]
    (h2_sess_init false H2_HTTP_V1_1 false).

Lemma h2_sess_send_v1_1_keeps_byte_order_witness :
  let s := client_two_requests in
  let out := h2_sess_send 8 8 false s two_span_world in
  let sent := send_data_remain s - send_data_remain out.1.2 in
  let in_int := fun z => -2147483648 <= z < 2147483648 in
  (out.1.1 = 0 /\ queued s = chars "hello world"
   /\ wr_results out.2 = [] /\ sent = 11 /\ queued out.1.2 = [])
  /\ (exists k taken,
        queued out.1.2 = drop k (queued s)
        /\ (k <= length (queued s))%nat
        /\ wr_results two_span_world = taken ++ wr_results out.2
        /\ (ssl s = false -> Z.of_nat k <= tcp_sent_all taken)
        /\ (ssl s = true -> Forall (fun o => wr_ret o <= 0) taken ->
            k = 0%nat)
        /\ (in_int (send_data_remain s) ->
            in_int (send_data_remain out.1.2) ->
            (ssl s = true -> Z.of_nat k = sent)
            /\ (ssl s = false -> sent = tcp_sent_all taken)))
  /\ wb_wf (wr_buf out.1.2) /\ Forall strm_wf (strm_list out.1.2)
  /\ sending_ok out.1.2
  /\ (is_server s = false -> out.1.1 = 0 -> send_pending out.1.2 = false ->
      queued out.1.2 = []).
Proof.
  intros s. split; [repeat split; reflexivity|].
  apply (h2_sess_send_v1_1_keeps_byte_order 8 8 false s two_span_world).
  - lia.
  - reflexivity.
  - split; simpl; lia.
  - repeat constructor; simpl; lia.
  - right. constructor.
Defined.

(** The server walk stops at the first stream that has no response. *)
Lemma flush_sent_blocked l1 strm l2 :
  forall l s s' d n,
    l = strm_list s -> l = l1 ++ strm :: l2 -> response_set strm = false ->
    flush_sent l s = (s', (d, n)) ->
    exists l1', strm_list s' = l1' ++ strm :: l2
                /\ (length l1' <= length l1)%nat.
Proof.
  induction l1 as [|x l1 IH]; intros l s s' d n Hl Hsplit Hr; subst l;
    rewrite Hsplit; simpl.
  - rewrite Hr. intros [= <- <- <-]. exists []. by rewrite Hsplit.
  - destruct (response_set x).
    2:{ intros [= <- <- <-]. exists (x :: l1). by rewrite Hsplit. }
    destruct (rb_drained (send_body_rb x)).
    + intros H. eapply IH in H; [| |reflexivity|done].
      * destruct H as (l1' & H1 & H2). exists l1'. split; [done|]. simpl. lia.
      * simpl. by rewrite Hsplit.
    + intros [= <- <- <-]. exists (strm_mark_sent x :: l1). simpl.
      by rewrite Hsplit.
Qed.

Lemma fill_v1_1_blocked B c l1 strm l2 fuel :
  forall s,
    is_server s = true -> strm_list s = l1 ++ strm :: l2 ->
    response_set strm = false ->
    exists l1', strm_list (fill_v1_1 B c fuel s) = l1' ++ strm :: l2
                /\ (length l1' <= length l1)%nat.
Proof.
  revert l1. induction fuel as [|fuel IH]; intros l1 s Hsrv Hl Hr; simpl.
  - destruct (_ && _); by exists l1.
  - destruct (_ && _); [|by exists l1].
    destruct (next_strm_data s) as [s1 [d n]] eqn:Hn.
    pose proof (next_strm_data_frame _ _ _ _ Hn) as [Hf _].
    assert (Hsrv1 : is_server s1 = true).
    { unfold sess_frame, sess_kind in Hf. congruence. }
    unfold next_strm_data in Hn. rewrite Hsrv in Hn.
    eapply flush_sent_blocked in Hn as (l1' & H1 & H2);
      [|reflexivity|exact Hl|done].
    destruct (n =? 0); [by exists l1'|].
    destruct (_ <=? _).
    + destruct (IH l1' (set_wr_buf (wb_merge d n (wr_buf s1)) s1))
        as (l1'' & I1 & I2); try done.
      exists l1''. split; [done|lia].
    + by exists l1'.
Qed.

Lemma send_loop_v1_1_blocked B c E l2 strm f :
  forall l1 s w r s' w',
    is_server s = true -> wb_sizes_ok s ->
    strm_list s = l1 ++ strm :: l2 -> response_set strm = false ->
    send_loop B c E f false s w = (r, s', w') ->
    exists l1', strm_list s' = l1' ++ strm :: l2
                /\ (length l1' <= length l1)%nat.
Proof.
  assert (Hstep : forall l1 s w r s' w',
    is_server s = true -> wb_sizes_ok s ->
    strm_list s = l1 ++ strm :: l2 -> response_set strm = false ->
    h2_sess_send_once_v1_1 B c s w = (r, s', w') ->
    is_server s' = true /\ wb_sizes_ok s'
    /\ exists l1', strm_list s' = l1' ++ strm :: l2
                   /\ (length l1' <= length l1)%nat).
  { intros l1 s w r s' w' Hsrv Hok Hl Hr H.
    pose proof (send_once_outcome B c E false s w r s' w' Hok H)
      as (Hok' & Hk & _).
    split; [unfold sess_kind in Hk; congruence|]. split; [done|].
    unfold h2_sess_send_once_v1_1 in H.
    apply send_bufs_backlog in H as (Hl' & _ & _). rewrite Hl'.
    by apply fill_v1_1_blocked. }
  induction f as [|f IH]; intros l1 s w r s' w' Hsrv Hok Hl Hr; simpl;
    destruct (h2_sess_send_once_v1_1 B c s w) as [[r1 s1] w1] eqn:Hs;
    apply (Hstep l1) in Hs as (Hsrv1 & Hok1 & l1' & H1 & H2); try done.
  - destruct (0 <? r1); intros [= <- <- <-]; by exists l1'.
  - destruct (0 <? r1); [|intros [= <- <- <-]; by exists l1'].
    intros H. apply (IH l1') in H as (l1'' & I1 & I2); try done.
    exists l1''. split; [done|lia].
Qed.

(** X27.  A server sends its HTTP/1.1 responses in the order of the
    requests.  While a stream has no response set, [h2_sess_send] takes
    nothing from it nor from any stream behind it, also from those whose
    response is set: they stay in the session's list as they are, and only
    streams before it are marked as sent or freed. *)
Theorem server_response_waits_for_earlier :
  forall (H2_WR_BUF_SIZE sizeof_merge_data : Z) (EPOLL_MODE : bool)
         (s : h2_sess) (w : io_world) (l1 l2 : list h2_strm) (strm : h2_strm),
    is_v2 s = false -> is_server s = true -> wb_sizes_ok s ->
    strm_list s = l1 ++ strm :: l2 -> response_set strm = false ->
    let out := h2_sess_send H2_WR_BUF_SIZE sizeof_merge_data EPOLL_MODE s w in
    exists l1', strm_list out.1.2 = l1' ++ strm :: l2
                /\ (length l1' <= length l1)%nat.
Proof.
  intros B c E s w l1 l2 strm Hv Hsrv Hok Hl Hr out. subst out.
  unfold h2_sess_send. rewrite Hv.
  destruct (send_loop B c E (send_backlog s w) false s w)
    as [[r s'] w'] eqn:Hloop.
  by apply (send_loop_v1_1_blocked B c E l2 strm _ l1) in Hloop.
Qed.

(** A server session with two requests, of which only the second has its
    response. *)
Definition unanswered_request : h2_strm :=
  {| stream_id := 1; rmsg := h2_msg_empty; response_set := false;
     send_body_rb := {| data := []; data_size := 0; data_used := 0 |} |}.

Definition answered_request : h2_strm :=
  {| stream_id := 3; rmsg := h2_msg_empty; response_set := true;
     send_body_rb := {| data := chars "hello"; data_size := 5;
                        data_used := 0 |} |}.

Definition server_second_answered : h2_sess :=
  set_strm_list [unanswered_request; answered_request]
    (h2_sess_init true H2_HTTP_V1_1 false).

Lemma server_response_waits_for_earlier_witness :
  let s := server_second_answered in
  let out := h2_sess_send 8 8 false s two_span_world in
  (out.1.1 = 0 /\ wr_results out.2 = wr_results two_span_world)
  /\ exists l1', strm_list out.1.2
                 = l1' ++ unanswered_request :: [answered_request]
                 /\ (length l1' <= length (@nil h2_strm))%nat.
Proof.
  intros s. split; [split; reflexivity|].
  apply (server_response_waits_for_earlier 8 8 false s two_span_world []
           [answered_request] unanswered_request).
  - reflexivity.
  - reflexivity.
  - split; simpl; lia.
  - reflexivity.
  - reflexivity.
Defined.
